(** * Assignment-Agent: the report synthesis pipeline of the frontend

    A shallow embedding of
      - [frontend/src/utils/pptProcessors.jsx]  (Section Splitter, Score Extractor),
      - [frontend/src/utils/excelExport.jsx]    (statistics of the Spreadsheet Builder),
      - [frontend/src/utils/fileDownloaders.jsx] (plain-text and document exports),
    and the properties the specification states about them.

    Conventions of the embedding.
      - A JavaScript string is a [string]: a sequence of code units below 256.
      - A JavaScript number is a [number]: a finite double given by its
        exact rational value, [NaN] or an infinity.  Arithmetic rounds to
        the nearest double as IEEE 754 does; +0 and -0 are not told apart.
      - Regular expressions are compiled by hand into recursive matchers that
        follow the backtracking order of the engine; each matcher quotes the
        expression it stands for. *)

From Stdlib Require Import ZArith NArith QArith Qround Qabs Qpower.
From Stdlib Require Qcanon.
From Stdlib Require Import List String Ascii Bool Lia Lqa.
From Stdlib Require Import Decimal DecimalString DecimalN DecimalPos.
From Stdlib Require Import Sorted Permutation.
Import ListNotations.

Local Open Scope list_scope.
Local Open Scope string_scope.

(* ================================================================== *)
(** * Part I: definitions                                              *)
(* ================================================================== *)

(** ** JavaScript values and built-in operations *)

Module JS.

(** Numbers: the finite doubles by their exact value, NaN and the two
    infinities.  The two zeros are one: the modelled code never divides by
    a score and never looks at the sign of a zero. *)
Inductive number : Type :=
| Fin (q : Q)
| NaN
| Inf (negative : bool).

(** The values the pipeline meets.  [VObject r] stands for an object, an
    array or a function where a primitive is expected; the modelled
    functions never look inside one, they can only convert it to a string,
    and [r] is what [ToString] makes of it. *)
Inductive value : Type :=
| VUndefined
| VNull
| VBool (b : bool)
| VNum (n : number)
| VStr (s : string)
| VObject (r : string).

(** [typeof].  For a function the answer is "function"; like "object" it
    differs from "string" and "number", the only answers the code tests. *)
Definition typeof (v : value) : string :=
  match v with
  | VUndefined => "undefined"
  | VNull => "object"
  | VBool _ => "boolean"
  | VNum _ => "number"
  | VStr _ => "string"
  | VObject _ => "object"
  end.

(** [q] is zero. *)
Definition Qeqb0 (q : Q) : bool := (Qnum q =? 0)%Z.

(** ToBoolean. *)
Definition truthy (v : value) : bool :=
  match v with
  | VUndefined | VNull => false
  | VBool b => b
  | VNum (Fin q) => negb (Qeqb0 q)
  | VNum NaN => false
  | VNum (Inf _) => true
  | VStr s => negb (s =? "")
  | VObject _ => true
  end.

Definition str_truthy (s : string) : bool := negb (s =? "").

(** [a || b] on values. *)
Definition or_else (a b : value) : value := if truthy a then a else b.

(** *** Rounding to binary64

    A finite double is a multiple [k * 2^(e - 52)] of a power of two with
    [k] at most 2^53 and [e] from -1022 to 1023.  Every arithmetic
    operation of IEEE 754 returns the double nearest to the exact result,
    the one with the even [k] on a tie, and an infinity from 2^1024 on. *)

Definition pow2 (e : Z) : Q := (2 ^ e)%Q.

(** The binary exponent of a positive [q]: 2^e <= q < 2^(e+1). *)
Definition ilog2 (q : Q) : Z :=
  let e := (Z.log2 (Qnum q) - Z.log2 (Zpos (Qden q)))%Z in
  if Qle_bool (pow2 e) q then e else (e - 1)%Z.

(** The integer nearest to [q], the even one on a tie. *)
Definition nearest_even (q : Q) : Z :=
  let f := Qfloor q in
  match Qcompare (q - inject_Z f) (1 # 2) with
  | Lt => f
  | Gt => (f + 1)%Z
  | Eq => if Z.even f then f else (f + 1)%Z
  end.

(** The exponent a positive [a] is rounded at: its own, and -1022 for the
    subnormal values below 2^-1022. *)
Definition expo (a : Q) : Z := Z.max (ilog2 a) (-1022).

(** The unit in the last place: 52 binary places below the exponent. *)
Definition ulp (a : Q) : Q := pow2 (expo a - 52).

(** The multiple of the unit nearest to a positive [a]. *)
Definition nearest (a : Q) : Q := inject_Z (nearest_even (a / ulp a)) * ulp a.

(** The double an exact result becomes. *)
Definition round (q : Q) : number :=
  if Qeqb0 q then Fin 0
  else
    let r := nearest (Qabs q) in
    if Qle_bool (pow2 1024) r then Inf (negb (Qle_bool 0 q))
    else Fin (Qred (if Qle_bool 0 q then r else - r)).

(** [q] is the value of a double. *)
Definition is_double (q : Q) : bool :=
  match round q with
  | Fin r => Qeq_bool r q
  | _ => false
  end.

(** [n] is a value a JavaScript number can take. *)
Definition is_number (n : number) : bool :=
  match n with
  | Fin q => is_double q
  | _ => true
  end.

(** *** Arithmetic on numbers *)

(** [a + b]. *)
Definition num_add (a b : number) : number :=
  match a, b with
  | Fin x, Fin y => round (x + y)
  | Fin _, Inf s => Inf s
  | Inf s, Fin _ => Inf s
  | Inf s, Inf t => if Bool.eqb s t then Inf s else NaN
  | _, _ => NaN
  end.

(** [a - b]. *)
Definition num_sub (a b : number) : number :=
  match a, b with
  | Fin x, Fin y => round (x - y)
  | Fin _, Inf s => Inf (negb s)
  | Inf s, Fin _ => Inf s
  | Inf s, Inf t => if Bool.eqb s t then NaN else Inf s
  | _, _ => NaN
  end.

(** [a / b].  The zero of the model divides as +0; the callers modelled
    here divide by the length of a non-empty array only. *)
Definition num_div (a b : number) : number :=
  match a, b with
  | Fin x, Fin y =>
      if Qeqb0 y then (if Qeqb0 x then NaN else Inf (negb (Qle_bool 0 x)))
      else round (x / y)
  | Fin _, Inf _ => Fin 0
  | Inf s, Fin y => Inf (xorb s (negb (Qle_bool 0 y)))
  | _, _ => NaN
  end.

(** [Math.abs]. *)
Definition Math_abs (a : number) : number :=
  match a with
  | Fin x => Fin (Qabs x)
  | NaN => NaN
  | Inf _ => Inf false
  end.

(** [a < b]: false as soon as one side is NaN. *)
Definition num_ltb (a b : number) : bool :=
  match a, b with
  | Fin x, Fin y => negb (Qle_bool y x)
  | Fin _, Inf s => negb s
  | Inf s, Fin _ => s
  | Inf s, Inf t => s && negb t
  | _, _ => false
  end.

(** [a >= b]. *)
Definition num_geb (a b : number) : bool :=
  match a, b with
  | Fin x, Fin y => Qle_bool y x
  | Fin _, Inf s => s
  | Inf s, Fin _ => negb s
  | Inf s, Inf t => negb s || t
  | _, _ => false
  end.

(** Binary step of [Math.max] / [Math.min]. *)
Definition num_max (a b : number) : number :=
  match a, b with
  | NaN, _ | _, NaN => NaN
  | _, _ => if num_geb b a then b else a
  end.

Definition num_min (a b : number) : number :=
  match a, b with
  | NaN, _ | _, NaN => NaN
  | _, _ => if num_geb b a then a else b
  end.

Definition isNaN (a : number) : bool :=
  match a with
  | NaN => true
  | _ => false
  end.

(** [isFinite]. *)
Definition isFinite (a : number) : bool :=
  match a with
  | Fin _ => true
  | _ => false
  end.

(** The number of a count, such as the length of an array. *)
Definition of_nat (n : nat) : number := round (inject_Z (Z.of_nat n)).

(** *** Characters and strings *)

Definition nl : ascii := "010"%char.
Definition cr : ascii := "013"%char.

Definition NL : string := String nl "".

(** White space and line terminators below code unit 256: TAB, LF, VT, FF,
    CR, SPACE and NBSP.  This is the set of [\s] and of [String.prototype.trim]. *)
Definition is_ws (c : ascii) : bool :=
  let n := nat_of_ascii c in
  ((9 <=? n) && (n <=? 13) || (n =? 32) || (n =? 160))%nat.

(** [\d]. *)
Definition is_digit (c : ascii) : bool :=
  let n := nat_of_ascii c in
  ((48 <=? n) && (n <=? 57))%nat.

Definition is_nl (c : ascii) : bool := Ascii.eqb c nl.

(** Line terminators, after which [^] matches under the [m] flag. *)
Definition is_line_terminator (c : ascii) : bool :=
  Ascii.eqb c nl || Ascii.eqb c cr.

Fixpoint trimStart (s : string) : string :=
  match s with
  | "" => ""
  | String c s' => if is_ws c then trimStart s' else s
  end.

Fixpoint trimEnd (s : string) : string :=
  match s with
  | "" => ""
  | String c s' =>
      match trimEnd s' with
      | "" => if is_ws c then "" else String c ""
      | t => String c t
      end
  end.

(** [String.prototype.trim]. *)
Definition trim (s : string) : string := trimEnd (trimStart s).

(** [s.startsWith(p)], and the rest of [s] after [p]. *)
Fixpoint strip_prefix (p s : string) : option string :=
  match p with
  | "" => Some s
  | String a p' =>
      match s with
      | "" => None
      | String b s' => if Ascii.eqb a b then strip_prefix p' s' else None
      end
  end.

Definition startsWith (p s : string) : bool :=
  match strip_prefix p s with
  | Some _ => true
  | None => false
  end.

(** [s.indexOf(needle)], counting from [i]; -1 when there is no occurrence. *)
Fixpoint indexOf_from (needle s : string) (i : Z) : Z :=
  if startsWith needle s then i
  else
    match s with
    | "" => (-1)%Z
    | String _ s' => indexOf_from needle s' (i + 1)
    end.

Definition indexOf (needle s : string) : Z := indexOf_from needle s 0.

(** [s.includes(needle)]. *)
Definition includes (needle s : string) : bool :=
  negb (indexOf needle s =? -1)%Z.

(** The maximal prefix of [s] without a line feed: what a greedy [[^\n]*]
    consumes. *)
Fixpoint line_prefix (s : string) : string :=
  match s with
  | "" => ""
  | String c s' => if is_nl c then "" else String c (line_prefix s')
  end.

(** [arr.join(sep)] on strings. *)
Fixpoint join (sep : string) (l : list string) : string :=
  match l with
  | [] => ""
  | [x] => x
  | x :: rest => x ++ sep ++ join sep rest
  end.

(** *** [text.split(/\n\n+/)]

    The pieces are built front to back; [in_sep] says that the scan is
    inside a separator (a run of two or more line feeds, taken greedily). *)

Definition cons_char (c : ascii) (pieces : list string) : list string :=
  match pieces with
  | [] => [String c ""]
  | p :: rest => String c p :: rest
  end.

Fixpoint split_blank_run (in_sep : bool) (s : string) : list string :=
  match s with
  | "" => [""]
  | String c s' =>
      if in_sep then
        if is_nl c then split_blank_run true s'
        else cons_char c (split_blank_run false s')
      else
        if is_nl c && startsWith NL s' then "" :: split_blank_run true s'
        else cons_char c (split_blank_run false s')
  end.

Definition split_blank_lines (s : string) : list string :=
  split_blank_run false s.

(** *** Decimal numerals *)

(** The decimal digits of a natural number, without leading zeros. *)
Definition digits_of_N (n : N) : string :=
  NilEmpty.string_of_uint (N.to_uint n).

Definition digit_value (c : ascii) : N := (N_of_ascii c - 48)%N.

Definition digit_step (acc : N) (c : ascii) : N := (10 * acc + digit_value c)%N.

(** The integer a string of decimal digits denotes. *)
Definition digits_value (d : string) : N :=
  fold_left digit_step (list_ascii_of_string d) 0%N.

(** [parseInt] on a non-empty string of decimal digits: the double nearest
    to the integer read.  (Past the twentieth digit the standard lets an
    implementation read the digits as zeros; the model reads them all.) *)
Definition parseInt_digits (d : string) : number :=
  round (inject_Z (Z.of_N (digits_value d))).

Fixpoint zeros (n : nat) : string :=
  match n with
  | O => ""
  | S k => String "0" (zeros k)
  end.

(** *** [Number.prototype.toFixed]

    ECMAScript 21.1.3.3, for a fraction digit count [f] in 0..100:
    a NaN renders as "NaN" and an infinity as "Infinity" or "-Infinity";
    a negative value gets the sign and is negated;
    at 10^21 and above the result is the plain [ToString] of the number,
    an exponent notation that exact rationals cannot express and that is
    therefore taken as the parameter [NumberToString]; below that, [n] is
    the integer nearest to [x * 10^f] (the larger one on a tie) and its
    digits are split [f] places from the right, padded with zeros. *)

Section ToFixed.

Variable NumberToString : Q -> string.

Definition fixed_digits (f : nat) (n : N) : string :=
  let m := digits_of_N n in
  match f with
  | O => m
  | _ =>
      let k := String.length m in
      let m := if (k <=? f)%nat then zeros (f + 1 - k) ++ m else m in
      let k := String.length m in
      substring 0 (k - f) m ++ "." ++ substring (k - f) f m
  end.

Definition toFixed (f : nat) (x : number) : string :=
  match x with
  | NaN => "NaN"
  | Inf false => "Infinity"
  | Inf true => "-Infinity"
  | Fin q =>
      let s := if Qle_bool 0 q then "" else "-" in
      let a := Qabs q in
      if Qle_bool (inject_Z (10 ^ 21)) a then s ++ NumberToString a
      else
        let n := Qfloor (a * inject_Z (10 ^ Z.of_nat f) + (1 # 2)) in
        s ++ fixed_digits f (Z.to_N n)
  end.

End ToFixed.

End JS.

(** ** The score record shared by the extractor and the exporters *)

Module Model.
Import JS.

(** One entry of [details].  The builders read every field through [d?.x],
    so a missing field is [VUndefined]. *)
Record QuestionDetail : Type := mkDetail {
  question : value;
  student_answer : value;
  correct_answer : value;
  is_correct : value;
  feedback : value
}.

(** A score object as the exporters receive it.  [details] is [None] when
    the property is absent or not an array; an entry of the array is [None]
    when it is null or undefined. *)
Record ScoreRecord : Type := mkScore {
  name : value;
  score_percent : value;
  reasoning : value;
  details : option (list (option QuestionDetail))
}.

End Model.

(** ** pptProcessors.jsx *)

Module PptProcessors.
Import JS Model.

(** *** Hand-compiled regular expressions *)

(** [\s*([^\n]+)] with nothing after it, at the head of [s]; the result is
    capture 1.  The star first tries to take one more white-space character
    and falls back to ending here, where [[^\n]+] needs a first character
    that is not a line feed and then runs to the end of the line. *)
Fixpoint ws_then_line (s : string) : option string :=
  match s with
  | "" => None
  | String c s' =>
      if is_ws c then
        match ws_then_line s' with
        | Some cap => Some cap
        | None => if is_nl c then None else Some (line_prefix s)
        end
      else Some (line_prefix s)
  end.

(** One attempt of [File:\s+([^\n]+)] ([plus = true]) or of
    [File:\s*([^\n]+)] ([plus = false]) at the head of [s]. *)
Definition file_at (plus : bool) (s : string) : option string :=
  match strip_prefix "File:" s with
  | None => None
  | Some r =>
      if plus then
        match r with
        | "" => None
        | String c r' => if is_ws c then ws_then_line r' else None
        end
      else ws_then_line r
  end.

(** The search of the engine under the [m] flag: the leftmost position at
    the beginning of a line ([bol]) where the attempt succeeds. *)
Fixpoint file_scan (plus : bool) (bol : bool) (s : string) : option string :=
  match (if bol then file_at plus s else None) with
  | Some cap => Some cap
  | None =>
      match s with
      | "" => None
      | String c s' => file_scan plus (is_line_terminator c) s'
      end
  end.

(** [s.match(/^File:\s+([^\n]+)/m)], as capture 1 or [None] for null. *)
Definition match_File_plus (s : string) : option string := file_scan true true s.

(** [s.match(/^File:\s*([^\n]+)/m)], as capture 1 or [None] for null. *)
Definition match_File_star (s : string) : option string := file_scan false true s.

(** [(\d+)\/100] at the head of [s]: more digits first, then the slash. *)
Fixpoint digits_slash100 (s : string) : option string :=
  match s with
  | "" => None
  | String c s' =>
      if is_digit c then
        match digits_slash100 s' with
        | Some d => Some (String c d)
        | None => if startsWith "/100" s' then Some (String c "") else None
        end
      else None
  end.

(** [\s*(\d+)\/100] at the head of [s]. *)
Fixpoint ws_digits_slash100 (s : string) : option string :=
  match s with
  | "" => None
  | String c s' =>
      if is_ws c then
        match ws_digits_slash100 s' with
        | Some d => Some d
        | None => digits_slash100 s
        end
      else digits_slash100 s
  end.

Definition score_at (label s : string) : option string :=
  match strip_prefix label s with
  | None => None
  | Some r => ws_digits_slash100 r
  end.

(** [s.match(/<label>\s*(\d+)\/100/)], as capture 1 or [None] for null. *)
Fixpoint match_score (label s : string) : option string :=
  match score_at label s with
  | Some d => Some d
  | None =>
      match s with
      | "" => None
      | String _ s' => match_score label s'
      end
  end.

(** The negative lookahead [(?!\n|Score|File:)] fails on [s]. *)
Definition lookahead_blocked (s : string) : bool :=
  startsWith NL s || startsWith "Score" s || startsWith "File:" s.

(** What [[^\n]*(?:\n(?!\n|Score|File:)[^\n]+)*] consumes at the head of
    [s]: characters up to a line feed, and across a line feed as long as
    the lookahead passes and the next line has a character (the lookahead
    already rules out a line feed there). *)
Fixpoint feedback_lines (s : string) : string :=
  match s with
  | "" => ""
  | String c s' =>
      if is_nl c then
        match s' with
        | "" => ""
        | _ => if lookahead_blocked s' then "" else String c (feedback_lines s')
        end
      else String c (feedback_lines s')
  end.

(** [\s*] and then capture 1, [[^\n]+(?:\n(?!\n|Score|File:)[^\n]+)*], at
    the head of [s]: the text matched, white space included. *)
Fixpoint feedback_body (s : string) : option string :=
  match s with
  | "" => None
  | String c s' =>
      if is_ws c then
        match feedback_body s' with
        | Some m => Some (String c m)
        | None => if is_nl c then None else Some (feedback_lines s)
        end
      else Some (feedback_lines s)
  end.

(** One attempt of the feedback expression at the head of [s]: match 0. *)
Definition feedback_at (s : string) : option string :=
  match strip_prefix "Feedback:" s with
  | None => None
  | Some r =>
      match feedback_body r with
      | Some m => Some ("Feedback:" ++ m)
      | None => None
      end
  end.

(** The global search: after a match the scan resumes behind it, which
    [skip] counts down. *)
Fixpoint feedback_scan (skip : nat) (s : string) : list string :=
  match s with
  | "" => []
  | String _ s' =>
      match skip with
      | S k => feedback_scan k s'
      | O =>
          match feedback_at s with
          | Some m => m :: feedback_scan (String.length m - 1) s'
          | None => feedback_scan 0 s'
          end
      end
  end.

(** [section.match(re)] for the global expression [re] made of
    [Feedback:\s*] and capture 1, [[^\n]+(?:\n(?!\n|Score|File:)[^\n]+)*]:
    the list of matched texts, [None] for null when there is none. *)
Definition match_Feedback_all (s : string) : option (list string) :=
  match feedback_scan 0 s with
  | [] => None
  | l => Some l
  end.

(** [m.replace(/^Feedback:\s*/, '')]. *)
Definition strip_Feedback (m : string) : string :=
  match strip_prefix "Feedback:" m with
  | Some r => trimStart r
  | None => m
  end.

(** *** splitPPTFileSections *)

(** The three variables of the loop. *)
Record split_state : Type := mkSplit {
  fileSections : list string;
  currentFile : string;
  currentFilename : string
}.

Definition split_init : split_state := mkSplit [] "" "".

(** [fileMatch ? fileMatch[1].trim() : null]. *)
Definition extractedFilename (trimmed : string) : option string :=
  option_map trim (match_File_plus trimmed).

(** [/^File:\s+[^\n]+/m.test(trimmed)]. *)
Definition startsWithFile (trimmed : string) : bool :=
  match match_File_plus trimmed with
  | Some _ => true
  | None => false
  end.

Definition hasTotalSlides (trimmed : string) : bool :=
  includes (NL ++ "Total Slides:") trimmed.

Definition hasEvalMarkers (trimmed : string) : bool :=
  includes "CONTENT EVALUATION" trimmed
  || includes "VISUAL DESIGN EVALUATION" trimmed.

(** An index or [Infinity] ([None]). *)
Definition or_Infinity (i : Z) : option Z :=
  if (i =? -1)%Z then None else Some i.

Definition Math_min_inf (a b : option Z) : option Z :=
  match a, b with
  | None, _ => b
  | _, None => a
  | Some x, Some y => Some (Z.min x y)
  end.

Definition firstEvalIndex (trimmed : string) : option Z :=
  Math_min_inf (or_Infinity (indexOf "CONTENT EVALUATION" trimmed))
               (or_Infinity (indexOf "VISUAL DESIGN EVALUATION" trimmed)).

Definition isMainFileHeader (trimmed : string) : bool :=
  startsWithFile trimmed && hasTotalSlides trimmed
  && (indexOf "File:" trimmed <? indexOf "Total Slides:" trimmed)%Z
  && match firstEvalIndex trimmed with
     | None => true
     | Some e => (indexOf "Total Slides:" trimmed <? e)%Z
     end.

(** [extractedFilename !== currentFilename], where the left side may be null. *)
Definition filename_differs (extracted : option string) (current : string) : bool :=
  match extracted with
  | None => true
  | Some e => negb (e =? current)
  end.

(** [currentFilename && extractedFilename && extractedFilename === currentFilename]. *)
Definition belongsToCurrentFile (extracted : option string) (current : string) : bool :=
  str_truthy current
  && match extracted with
     | None => false
     | Some e => str_truthy e && (e =? current)
     end.

(** [!extractedFilename]. *)
Definition no_filename (extracted : option string) : bool :=
  match extracted with
  | None => true
  | Some e => negb (str_truthy e)
  end.

(** [extractedFilename || '']. *)
Definition filename_or_empty (extracted : option string) : string :=
  match extracted with
  | Some e => e
  | None => ""
  end.

(** The four arms of the conditional in the loop body. *)
Inductive block_kind : Type :=
| NewFile        (* "New file - save previous" *)
| SameFile       (* "Same file - continue building" *)
| FirstPart      (* "First part" *)
| Continuation.  (* "Continuation (no File header) - add to current" *)

Definition classify (st : split_state) (trimmed : string) : block_kind :=
  let extracted := extractedFilename trimmed in
  if isMainFileHeader trimmed
     && (negb (str_truthy (currentFilename st))
         || filename_differs extracted (currentFilename st))
  then NewFile
  else if belongsToCurrentFile extracted (currentFilename st)
          || (no_filename extracted && str_truthy (currentFile st))
  then SameFile
  else if negb (str_truthy (currentFile st)) then FirstPart
  else Continuation.

(** [if (currentFile) fileSections.push(currentFile.trim())]. *)
Definition flush (st : split_state) : list string :=
  if str_truthy (currentFile st)
  then (fileSections st ++ [trim (currentFile st)])%list
  else fileSections st.

(** One iteration of [for (const part of parts)]. *)
Definition split_step (st : split_state) (part : string) : split_state :=
  let trimmed := trim part in
  let extracted := extractedFilename trimmed in
  match classify st trimmed with
  | NewFile => mkSplit (flush st) trimmed (filename_or_empty extracted)
  | SameFile =>
      mkSplit (fileSections st) (currentFile st ++ NL ++ NL ++ trimmed)
              (currentFilename st)
  | FirstPart => mkSplit (fileSections st) trimmed (filename_or_empty extracted)
  | Continuation =>
      mkSplit (fileSections st) (currentFile st ++ NL ++ NL ++ trimmed)
              (currentFilename st)
  end.

(** [text.split(/\n\n+/).filter(p => p.trim().length > 0)]. *)
Definition parts_of (text : string) : list string :=
  filter (fun p => (0 <? String.length (trim p))%nat) (split_blank_lines text).

(** The body of the function once [text] is known to be a non-empty string. *)
Definition split_sections (text : string) : list string :=
  let st := fold_left split_step (parts_of text) split_init in
  let sections := flush st in
  if (0 <? List.length sections)%nat then sections else [text].

Definition splitPPTFileSections (text : value) : list string :=
  if negb (truthy text) || negb (typeof text =? "string") then []
  else
    match text with
    | VStr s => split_sections s
    | _ => []
    end.

(** *** extractPPTScores *)

(** [parseInt(m[1])] for a present match, null otherwise. *)
Definition marker_value (label section : string) : option number :=
  option_map parseInt_digits (match_score label section).

(** [[a, b, c].filter(s => s !== null)]. *)
Definition present (l : list (option number)) : list number :=
  flat_map (fun o => match o with Some n => [n] | None => [] end) l.

(** [scores.reduce((a, b) => a + b, 0)]. *)
Definition sum_numbers (l : list number) : number :=
  fold_left num_add l (Fin 0).

(** The value of [score] after the first conditional: a number or null. *)
Definition section_score (section : string) : option number :=
  let c := marker_value "Content Quality Score:" section in
  let s := marker_value "Structure Score:" section in
  let a := marker_value "Alignment Score:" section in
  match c, s, a with
  | None, None, None => None
  | _, _, _ =>
      let scores := present [c; s; a] in
      if (0 <? List.length scores)%nat
      then Some (num_div (sum_numbers scores) (of_nat (List.length scores)))
      else None
  end.

(** The value of [reasoning] after the second conditional. *)
Definition section_reasoning (section : string) : string :=
  match match_Feedback_all section with
  | Some ms => join "; " (map strip_Feedback ms)
  | None => ""
  end.

Definition section_filename (section : string) : string :=
  match match_File_star section with
  | Some cap => trim cap
  | None => "Unknown"
  end.

(** The record a section pushes, if it pushes one. *)
Definition section_record (section : string) : option ScoreRecord :=
  let filename := section_filename section in
  let score := section_score section in
  let reasoning := section_reasoning section in
  if str_truthy filename
     && (match score with Some _ => true | None => false end
         || str_truthy reasoning)
  then Some (mkScore (VStr filename)
                     (match score with Some n => VNum n | None => VStr "-" end)
                     (VStr (if str_truthy reasoning then reasoning
                            else "Evaluation completed"))
                     None)
  else None.

Definition extractPPTScores (result : value) : list ScoreRecord :=
  if negb (truthy result) || negb (typeof result =? "string") then []
  else
    flat_map (fun section =>
                match section_record section with
                | Some r => [r]
                | None => []
                end)
             (splitPPTFileSections result).

End PptProcessors.

(** ** excelExport.jsx: the statistics block of downloadExcel *)

Module ExcelExport.
Import JS Model.

(** An element of [validScores] before the filter: [score] is a number or
    null ([None]). *)
Record scored_row : Type := mkRow {
  row_name : value;
  score : option number;
  row_score_percent : value;
  row_reasoning : value;
  row_feedback : string
}.

(** The feedback a detail contributes: [`Q${idx + 1}: ${feedback.trim()}`]
    when [detail?.feedback] is a string that is not blank, null otherwise. *)
Definition detail_feedback (idx : nat) (detail : option QuestionDetail) : option string :=
  match detail with
  | None => None
  | Some d =>
      match feedback d with
      | VStr f =>
          if str_truthy f && str_truthy (trim f)
          then Some ("Q" ++ digits_of_N (N.of_nat (idx + 1)) ++ ": " ++ trim f)
          else None
      | _ => None
      end
  end.

(** [arr.map((x, idx) => f(idx, x))], with the index of the first element. *)
Fixpoint mapi_from {A B : Type} (f : nat -> A -> B) (i : nat) (l : list A) : list B :=
  match l with
  | [] => []
  | x :: rest => f i x :: mapi_from f (S i) rest
  end.

Definition keep_some {A : Type} (l : list (option A)) : list A :=
  flat_map (fun o => match o with Some x => [x] | None => [] end) l.

Definition extractFeedback (student : ScoreRecord) : string :=
  match details student with
  | None => "-"
  | Some [] => "-"
  | Some ds =>
      let feedbacks := keep_some (mapi_from detail_feedback 0 ds) in
      if (0 <? List.length feedbacks)%nat then join " | " feedbacks else "-"
  end.

(** The object built by the [map] of [validScores]. *)
Definition to_row (s : ScoreRecord) : scored_row :=
  mkRow (or_else (name s) (VStr "-"))
        (match score_percent s with
         | VNum n => Some n      (* typeof s.score_percent === 'number' *)
         | _ => None
         end)
        (score_percent s)
        (or_else (reasoning s) (VStr "-"))
        (extractFeedback s).

(** [s.score !== null && !isNaN(s.score)]. *)
Definition is_valid (r : scored_row) : bool :=
  match score r with
  | None => false
  | Some n => negb (isNaN n)
  end.

Definition validScores (rawScores : list ScoreRecord) : list scored_row :=
  filter is_valid (map to_row rawScores).

(** ToNumber on a number or null: null counts as 0. *)
Definition ToNumber_score (o : option number) : number :=
  match o with
  | Some n => n
  | None => Fin 0
  end.

Definition scoresArray (rawScores : list ScoreRecord) : list (option number) :=
  map score (validScores rawScores).

(** [scoresArray.reduce((a, b) => a + b, 0)]. *)
Definition sum_scores (l : list (option number)) : number :=
  fold_left (fun a b => num_add a (ToNumber_score b)) l (Fin 0).

(** [Math.max(...l)] and [Math.min(...l)]; both callers test the length
    first. *)
Definition Math_max (l : list (option number)) : number :=
  match l with
  | [] => Inf true
  | x :: rest => fold_left (fun a b => num_max a (ToNumber_score b)) rest (ToNumber_score x)
  end.

Definition Math_min (l : list (option number)) : number :=
  match l with
  | [] => Inf false
  | x :: rest => fold_left (fun a b => num_min a (ToNumber_score b)) rest (ToNumber_score x)
  end.

(** The tolerance of the tie test: the double the literal 0.01 denotes. *)
Definition tolerance : number := round (1 # 100).

(** [Math.abs(s.score - m) < 0.01]. *)
Definition near (m : number) (r : scored_row) : bool :=
  num_ltb (Math_abs (num_sub (ToNumber_score (score r)) m)) tolerance.

Definition maxScore (rawScores : list ScoreRecord) : option number :=
  let arr := scoresArray rawScores in
  if (0 <? List.length arr)%nat then Some (Math_max arr) else None.

Definition minScore (rawScores : list ScoreRecord) : option number :=
  let arr := scoresArray rawScores in
  if (0 <? List.length arr)%nat then Some (Math_min arr) else None.

Definition highestStudents (rawScores : list ScoreRecord) : list scored_row :=
  match maxScore rawScores with
  | Some m => filter (near m) (validScores rawScores)
  | None => []
  end.

Definition lowestStudents (rawScores : list ScoreRecord) : list scored_row :=
  match minScore rawScores with
  | Some m => filter (near m) (validScores rawScores)
  | None => []
  end.

Section Average.

Variable NumberToString : Q -> string.

Definition average (rawScores : list ScoreRecord) : string :=
  let arr := scoresArray rawScores in
  if (0 <? List.length arr)%nat
  then toFixed NumberToString 2 (num_div (sum_scores arr) (of_nat (List.length arr)))
  else "N/A".

(** The statistics of one call; [None] is the early return on an empty
    [rawScores]. *)
Record statistics : Type := mkStats {
  st_average : string;
  st_maxScore : option number;
  st_highest : list scored_row;
  st_minScore : option number;
  st_lowest : list scored_row
}.

Definition downloadExcel_statistics (rawScores : list ScoreRecord) : option statistics :=
  if (List.length rawScores =? 0)%nat then None
  else Some (mkStats (average rawScores)
                     (maxScore rawScores) (highestStudents rawScores)
                     (minScore rawScores) (lowestStudents rawScores)).

End Average.

End ExcelExport.

(** ** fileDownloaders.jsx *)

Module FileDownloaders.
Import JS Model.

Section Builtins.

(** [Number::toString] and [StringToNumber] work on the digits of doubles
    and on the numeric-literal grammar; the builders are modelled for any
    choice of the two. *)
Variable NumberToString : Q -> string.
Variable StringToNumber : string -> number.

(** [String(v)] and the conversion of a template literal. *)
Definition ToString (v : value) : string :=
  match v with
  | VUndefined => "undefined"
  | VNull => "null"
  | VBool true => "true"
  | VBool false => "false"
  | VNum NaN => "NaN"
  | VNum (Inf false) => "Infinity"
  | VNum (Inf true) => "-Infinity"
  | VNum (Fin q) => NumberToString q
  | VStr s => s
  | VObject r => r
  end.

(** [Number(v)]. *)
Definition ToNumber (v : value) : number :=
  match v with
  | VUndefined => NaN
  | VNull => Fin 0
  | VBool true => Fin 1
  | VBool false => Fin 0
  | VNum n => n
  | VStr s => StringToNumber s
  | VObject r => StringToNumber r
  end.

(** [student?.field]. *)
Definition field (f : ScoreRecord -> value) (student : option ScoreRecord) : value :=
  match student with
  | Some s => f s
  | None => VUndefined
  end.

(** [(student && student.name) ? String(student.name) : fallback]. *)
Definition text_or (fallback : string) (v : value) : string :=
  if truthy v then ToString v else fallback.

(** [typeof x === 'number' ? x : Number(x)]. *)
Definition scNum (student : option ScoreRecord) : number :=
  match field score_percent student with
  | VNum n => n
  | v => ToNumber v
  end.

(** [isFinite(scNum) ? scNum.toFixed(2) : (student?.score_percent ?? '-')],
    as it prints inside the template literal. *)
Definition sc (student : option ScoreRecord) : string :=
  if isFinite (scNum student) then toFixed NumberToString 2 (scNum student)
  else
    match field score_percent student with
    | VUndefined | VNull => "-"
    | v => ToString v
    end.

Definition reason (student : option ScoreRecord) : string :=
  text_or "" (field reasoning student).

(** [isFinite(scNum) && scNum >= 100 ? 'None' : (reason || '')]. *)
Definition needImp (student : option ScoreRecord) : string :=
  if isFinite (scNum student) && num_geb (scNum student) (Fin 100) then "None"
  else if str_truthy (reason student) then reason student else "".

Definition dfield (f : QuestionDetail -> value) (d : option QuestionDetail) : value :=
  match d with
  | Some x => f x
  | None => VUndefined
  end.

(** [d?.is_correct === true]. *)
Definition strictly_true (v : value) : bool :=
  match v with
  | VBool true => true
  | _ => false
  end.

(** The text of one detail: five lines, the empty ones dropped. *)
Definition detail_text (idx : nat) (d : option QuestionDetail) : string :=
  let q := text_or "-" (dfield question d) in
  let sa := text_or "-" (dfield student_answer d) in
  let ca := text_or "-" (dfield correct_answer d) in
  let res := if strictly_true (dfield is_correct d) then "Correct" else "Incorrect" in
  let fb := text_or "" (dfield feedback d) in
  join NL
    (filter str_truthy
       [ "Q" ++ digits_of_N (N.of_nat (idx + 1)) ++ ": " ++ q;
         "Answer: " ++ sa;
         "Correct answer: " ++ ca;
         "Evaluation: " ++ res;
         (if str_truthy fb then "Feedback: " ++ fb else "") ]).

Definition student_details (student : option ScoreRecord) : list string :=
  match student with
  | Some s =>
      match details s with
      | Some (d :: ds) =>
          (["" ; "Per-question evaluation:"]
           ++ ExcelExport.mapi_from detail_text 0 (d :: ds))%list
      | _ => []
      end
  | None => []
  end.

(** The four header lines; [default_name] is the only difference between
    [buildStudentText] ('Student') and the callback of [downloadResult] ('-'). *)
Definition student_header (default_name : string) (student : option ScoreRecord) : list string :=
  [ "Student name: " ++ text_or default_name (field name student);
    "Score: " ++ sc student;
    "Reason: " ++ reason student;
    "Need to improve: " ++ needImp student ].

Definition student_text (default_name : string) (student : option ScoreRecord) : string :=
  join NL (student_header default_name student ++ student_details student)%list.

Definition buildStudentText (student : option ScoreRecord) : string :=
  student_text "Student" student.

(** The payload of [downloadResult]; [None] is the early return.  [scores]
    is [None] when it is not an array. *)
Definition downloadResult_payload (result summary : value)
    (scores : option (list (option ScoreRecord))) : option string :=
  let has_scores :=
    match scores with
    | Some (_ :: _) => true
    | _ => false
    end in
  let hasStructured := truthy summary || has_scores in
  if negb (truthy result) && negb hasStructured then None
  else if hasStructured then
    match scores with
    | Some (s :: rest) => Some (join (NL ++ NL) (map (student_text "-") (s :: rest)))
    | _ => Some ""
    end
  else Some (ToString result).

(** *** Titles and file names *)

(** [x && x.trim()] for a title that is a string, null or undefined. *)
Definition trimmed_title (t : option string) : string :=
  match t with
  | Some s => if str_truthy s then trim s else ""
  | None => ""
  end.

(** [(lastTitle && lastTitle.trim()) || (title && title.trim()) || fallback]. *)
Definition baseTitle (fallback : string) (title lastTitle : option string) : string :=
  if str_truthy (trimmed_title lastTitle) then trimmed_title lastTitle
  else if str_truthy (trimmed_title title) then trimmed_title title
  else fallback.

(** The class [[a-z0-9-_ ]] under the [i] flag. *)
Definition is_safe_char (c : ascii) : bool :=
  let n := nat_of_ascii c in
  ((97 <=? n) && (n <=? 122) || (65 <=? n) && (n <=? 90)
   || (48 <=? n) && (n <=? 57) || (n =? 45) || (n =? 95) || (n =? 32))%nat.

(** [s.replace(/[^a-z0-9-_ ]/gi, '')]. *)
Fixpoint strip_unsafe (s : string) : string :=
  match s with
  | "" => ""
  | String c s' => if is_safe_char c then String c (strip_unsafe s') else strip_unsafe s'
  end.

(** [s.replace(/\s+/g, '_')]; [in_run] says that the previous character
    was white space already replaced. *)
Fixpoint underscore_spaces (in_run : bool) (s : string) : string :=
  match s with
  | "" => ""
  | String c s' =>
      if is_ws c then
        if in_run then underscore_spaces true s'
        else String "_" (underscore_spaces true s')
      else String c (underscore_spaces false s')
  end.

Definition safeTitle (fallback : string) (title lastTitle : option string) : string :=
  underscore_spaces false (strip_unsafe (baseTitle fallback title lastTitle)).

(** *** downloadDoc and downloadPdf *)

(** The markup builder lives in [reportBuilders], which both functions
    import; they are modelled for any builder. *)
Variable buildReportHTML :
  option (list (option ScoreRecord)) -> value -> option string -> option string -> string.

(** What a call does to the browser, in order. *)
Inductive effect : Type :=
| NewBlob (content : string) (media_type : string)
| ClickDownload (file_name : string)
| WindowOpen
| DocumentWrite (markup : string)
| SchedulePrint.

(** [!result && !(scores && scores.length)]. *)
Definition nothing_to_export (result : value)
    (scores : option (list (option ScoreRecord))) : bool :=
  negb (truthy result)
  && negb (match scores with
           | Some (_ :: _) => true
           | _ => false
           end).

Definition downloadDoc (result : value) (scores : option (list (option ScoreRecord)))
    (title lastTitle : option string) : list effect :=
  if nothing_to_export result scores then []
  else
    let html := buildReportHTML scores result title lastTitle in
    [ NewBlob html "application/msword";
      ClickDownload (safeTitle "report" title lastTitle ++ ".doc") ].

(** [popup] tells whether [window.open] returns a window. *)
Definition downloadPdf (popup : bool) (result : value)
    (scores : option (list (option ScoreRecord)))
    (title lastTitle : option string) : list effect :=
  if nothing_to_export result scores then []
  else
    let html := buildReportHTML scores result title lastTitle in
    if popup then [ WindowOpen; DocumentWrite html; SchedulePrint ]
    else [ WindowOpen ].

End Builtins.

End FileDownloaders.

(** ** The vocabulary of the specification *)

Module Spec.
Import JS Model.

(** *** Occurrences of a text in a string *)

(** [needle] occurs in [s] at offset [i]. *)
Definition occurs_at (needle s : string) (i : Z) : Prop :=
  exists pre post, s = pre ++ needle ++ post /\ Z.of_nat (String.length pre) = i.

Definition occurs (needle s : string) : Prop :=
  exists pre post, s = pre ++ needle ++ post.

(** The leftmost occurrence. *)
Definition first_at (needle s : string) (i : Z) : Prop :=
  occurs_at needle s i /\ forall j, occurs_at needle s j -> (i <= j)%Z.

Fixpoint all_chars (p : ascii -> bool) (s : string) : bool :=
  match s with
  | "" => true
  | String c s' => p c && all_chars p s'
  end.

(** [s] has no white space at either end. *)
Definition trimmed (s : string) : Prop := trimStart s = s /\ trimEnd s = s.

(** [pre] ends where a line begins. *)
Definition at_line_start (pre : string) : Prop :=
  pre = "" \/ exists pre' c, pre = pre' ++ String c "" /\ is_line_terminator c = true.

(** [pre] ends where a search under the m flag may start a match, [bol]
    telling whether the search itself starts at the beginning of a line. *)
Definition may_start (bol : bool) (pre : string) : Prop :=
  (pre = "" /\ bol = true)
  \/ exists pre' c, pre = pre' ++ String c "" /\ is_line_terminator c = true.

(** *** The Section Splitter *)

(** A line of [s] begins with "File:", white space (at least one character
    when [plus]) and a name. *)
Definition file_line (plus : bool) (s : string) : Prop :=
  exists pre ws c rest,
    s = pre ++ "File:" ++ ws ++ String c rest
    /\ at_line_start pre
    /\ all_chars is_ws ws = true
    /\ (plus = true -> ws <> "")
    /\ c <> nl.

(** An evaluation marker occurs in [s] at offset [k]. *)
Definition eval_marker_at (s : string) (k : Z) : Prop :=
  occurs_at "CONTENT EVALUATION" s k \/ occurs_at "VISUAL DESIGN EVALUATION" s k.

(** The shape of a block that is the header of a new file: a "File:" line;
    a "Total Slides:" line below the first line; the first "File:" before
    the first "Total Slides:"; and every evaluation marker behind both. *)
Definition header_shape (block : string) : Prop :=
  file_line true block
  /\ occurs (NL ++ "Total Slides:") block
  /\ exists i j,
       first_at "File:" block i
       /\ first_at "Total Slides:" block j
       /\ (i < j)%Z
       /\ forall k, eval_marker_at block k -> (j < k)%Z.






(** No block of [text] is the header of a file. *)
Definition no_header_block (text : string) : Prop :=
  Forall (fun p => PptProcessors.isMainFileHeader (trim p) = false)
         (PptProcessors.parts_of text).

(** The Sections a state of the splitter stands for: those pushed and the
    one being built. *)
Definition section_count (st : PptProcessors.split_state) : nat :=
  List.length (PptProcessors.flush st).

(** *** The Score Extractor *)

(** The marker "<label> <digits>/100" occurs in [s]. *)
Definition marker_occurs (label s : string) : Prop :=
  exists pre ws d post,
    s = pre ++ label ++ ws ++ d ++ "/100" ++ post
    /\ all_chars is_ws ws = true
    /\ all_chars is_digit d = true
    /\ d <> "".

(** The integer a score marker carries, if the marker is found. *)
Definition marker_int (label section : string) : option N :=
  option_map digits_value (PptProcessors.match_score label section).

Definition score_labels : list string :=
  ["Content Quality Score:"; "Structure Score:"; "Alignment Score:"].

Definition marker_ints (section : string) : list (option N) :=
  map (fun label => marker_int label section) score_labels.

Definition Qsum (l : list Q) : Q := fold_left Qplus l 0%Q.

(** The arithmetic mean of a non-empty list. *)
Definition mean (l : list Q) : Q := (Qsum l / inject_Z (Z.of_nat (List.length l)))%Q.

(** The mean of the values that are present, if there is one. *)
Definition mean_of_present (l : list (option N)) : option Q :=
  match ExcelExport.keep_some l with
  | [] => None
  | vs => Some (mean (map (fun n => inject_Z (Z.of_N n)) vs))
  end.

(** The sum as double arithmetic computes it: from the left, starting
    from 0, every addition rounded. *)
Definition double_sum (l : list number) : number := fold_left num_add l (Fin 0).

(** The mean as double arithmetic computes it: the sum, then one division
    by the count. *)
Definition double_mean (l : list number) : number :=
  num_div (double_sum l) (of_nat (List.length l)).

(** The doubles nearest to the integers of the markers present. *)
Definition marker_doubles (section : string) : list number :=
  map (fun n => round (inject_Z (Z.of_N n)))
      (ExcelExport.keep_some (marker_ints section)).

(** Every marker present carries an integer below 2^51: three of them add
    up without rounding. *)
Definition small_markers (section : string) : Prop :=
  Forall (fun n => (n < 2 ^ 51)%N) (ExcelExport.keep_some (marker_ints section)).

(** *** The statistics of the spreadsheet *)

(** A record has a numeric score: [score_percent] is a number, not NaN. *)
Definition numeric_score (r : ScoreRecord) : option number :=
  match score_percent r with
  | VNum NaN => None
  | VNum n => Some n
  | _ => None
  end.

Definition is_scored (r : ScoreRecord) : bool :=
  match numeric_score r with
  | Some _ => true
  | None => false
  end.

(** The numeric scores of a collection, in order. *)
Definition numeric_scores (rs : list ScoreRecord) : list number :=
  flat_map (fun r => match numeric_score r with Some n => [n] | None => [] end) rs.

(** The exact values of a list of finite numbers. *)
Fixpoint exact_values (l : list number) : option (list Q) :=
  match l with
  | [] => Some []
  | Fin q :: rest => option_map (cons q) (exact_values rest)
  | _ :: _ => None
  end.

(** [m] is the largest (smallest) element of [l]. *)
Definition is_maximum (m : number) (l : list number) : Prop :=
  In m l /\ forall n, In n l -> num_geb m n = true.

Definition is_minimum (m : number) (l : list number) : Prop :=
  In m l /\ forall n, In n l -> num_geb n m = true.

(** [q] lies within the tie tolerance of [m]: the exact distance is below
    one hundredth. *)
Definition within_tolerance (q m : Q) : Prop := (Qabs (q - m) < 1 # 100)%Q.

(** The distance of [a] and [b] as double arithmetic computes it. *)
Definition double_distance (a b : number) : number := Math_abs (num_sub a b).

(** The record has a numeric score whose double distance from [m] is below
    the double 0.01. *)
Definition tied_with (m : number) (r : ScoreRecord) : bool :=
  match numeric_score r with
  | Some n => num_ltb (double_distance n m) (round (1 # 100))
  | None => false
  end.

(** The two doubles around one hundredth: the tolerance of the tie test
    and the double just below it. *)
Definition tolerance_above : Q := 5764607523034235 # 576460752303423488.
Definition tolerance_below : Q := 2882303761517117 # 288230376151711744.

(** The integers [zs] are not negative, they add up to 2^53 at most and
    there are 2^53 of them at most: their sum from the left and their
    count are exact in doubles. *)
Definition exact_total (zs : list Z) : Prop :=
  Forall (fun z => (0 <= z)%Z) zs
  /\ (fold_left Z.add zs 0 <= 2 ^ 53)%Z
  /\ (Z.of_nat (List.length zs) <= 2 ^ 53)%Z.

(** [s] reads "<digits>.<two digits>", with an optional sign, and the
    number it denotes is within half a hundredth of [q]. *)
Definition two_decimals_of (q : Q) (s : string) : Prop :=
  exists a b,
    s = (if Qle_bool 0 q then "" else "-") ++ a ++ "." ++ b
    /\ String.length b = 2%nat
    /\ a <> ""
    /\ all_chars is_digit (a ++ b) = true
    /\ (Qabs (inject_Z (Z.of_N (digits_value (a ++ b))) / inject_Z 100 - Qabs q)
        <= 1 # 200)%Q.

(** The magnitudes [toFixed] prints in fixed notation. *)
Definition fixed_range (q : Q) : Prop := (Qabs q < inject_Z (10 ^ 21))%Q.

(** *** The text reports *)

(** "The numeric score is present and at least 100", on the number the
    text builders work with. *)
Definition score_at_least_100 (StringToNumber : string -> number)
    (student : option ScoreRecord) : Prop :=
  exists q, FileDownloaders.scNum StringToNumber student = Fin q /\ (100 <= q)%Q.

(** *** Sample data *)

(** The first example of the specification and the record the extractor
    makes of it. *)
Definition example_text : string :=
  "File: quiz1.pptx" ++ NL ++ "Total Slides: 10" ++ NL ++ NL
  ++ "CONTENT EVALUATION" ++ NL ++ "Content Quality Score: 80/100" ++ NL
  ++ "Feedback: Good structure" ++ NL ++ NL
  ++ "VISUAL DESIGN EVALUATION" ++ NL ++ "Structure Score: 60/100".

Definition example_record : ScoreRecord :=
  mkScore (VStr "quiz1.pptx") (VNum (Fin 70)) (VStr "Good structure") None.

(** A file whose three markers carry 2^53, 1 and 1, and one whose marker
    has 310 digits. *)
Definition rounded_sum_text : string :=
  "File: big.pptx" ++ NL ++ "Total Slides: 1" ++ NL ++ NL
  ++ "Content Quality Score: 9007199254740992/100" ++ NL
  ++ "Structure Score: 1/100" ++ NL
  ++ "Alignment Score: 1/100".

Definition overflow_text : string :=
  "File: big.pptx" ++ NL ++ "Total Slides: 1" ++ NL ++ NL
  ++ "Content Quality Score: 1" ++ zeros 309 ++ "/100".

(** A section that has a score but neither a file name nor feedback. *)
Definition bare_score_section : string := "Structure Score: 60/100".

(** A text without any header, ending in a line feed. *)
Definition plain_text : string := "Plain feedback" ++ NL.

(** Texts with a second file, a repeated header and a quoted reference. *)
Definition two_files_text : string :=
  "File: a.pptx" ++ NL ++ "Total Slides: 3" ++ NL ++ NL
  ++ "CONTENT EVALUATION" ++ NL ++ "Alignment Score: 50/100" ++ NL ++ NL
  ++ "File: b.pptx" ++ NL ++ "Total Slides: 4" ++ NL ++ NL
  ++ "Feedback: Clear slides".

Definition repeated_header_text : string :=
  "File: a.pptx" ++ NL ++ "Total Slides: 3" ++ NL ++ NL
  ++ "File: a.pptx" ++ NL ++ "Total Slides: 3" ++ NL ++ "VISUAL DESIGN EVALUATION".




Definition quoted_reference_text : string :=
  "File: a.pptx" ++ NL ++ "Total Slides: 3" ++ NL ++ NL
  ++ "File: notes.txt was cited on slide 2".

(** The second example of the specification, with an unscored record
    added, and the tie example. *)
Definition two_scores : list ScoreRecord :=
  [ mkScore (VStr "Ann") (VNum (Fin 100)) (VStr "Complete") None;
    mkScore (VStr "Cid") (VStr "-") (VStr "Not graded") None;
    mkScore (VStr "Bob") (VNum (Fin 40)) (VStr "Half done") None ].

Definition tie_scores : list ScoreRecord :=
  [ mkScore (VStr "Dee") (VNum (Fin 92)) (VStr "Good") None;
    mkScore (VStr "Eve") (VNum (round (92005 # 1000))) (VStr "Good") None;
    mkScore (VStr "Fay") (VNum (Fin 60)) (VStr "Fair") None ].

(** Two scores whose sum is rounded: 0.125 - 2^-56 and 0.125. *)
Definition half_way_scores : list ScoreRecord :=
  [ mkScore (VStr "Gil") (VNum (Fin (9007199254740991 # 72057594037927936)))
            (VStr "Fair") None;
    mkScore (VStr "Hal") (VNum (Fin (1 # 8))) (VStr "Fair") None ].

(** Thirty-nine records that score 1 and one that scores 2. *)
Definition forty_scores : list ScoreRecord :=
  repeat (mkScore (VStr "Ida") (VNum (Fin 1)) (VStr "Poor") None) 39
  ++ [ mkScore (VStr "Jon") (VNum (Fin 2)) (VStr "Poor") None ].

(** Two scores, 0.011953125 and 0.0019531250000000004 as doubles, whose
    exact distance is below one hundredth. *)
Definition close_scores : list ScoreRecord :=
  [ mkScore (VStr "Kim") (VNum (round (11953125 # 1000000000))) (VStr "Poor") None;
    mkScore (VStr "Lee")
            (VNum (round (19531250000000004 # 10000000000000000000)))
            (VStr "Poor") None ].

(** A score that is Infinity, next to a finite one. *)
Definition infinite_scores : list ScoreRecord :=
  [ mkScore (VStr "Max") (VNum (Inf false)) (VStr "Good") None;
    mkScore (VStr "Ned") (VNum (Fin 50)) (VStr "Fair") None ].

(** A record with a full score, and one scored 50 whose reasoning is the
    text "None". *)
Definition ann : option ScoreRecord :=
  Some (mkScore (VStr "Ann") (VNum (Fin 100)) (VStr "Well done") None).

Definition bob : option ScoreRecord :=
  Some (mkScore (VStr "Bob") (VNum (Fin 50)) (VStr "None") None).

(** An instance of the two conversions that the text builders take as
    parameters: [Number::toString] on integers and [StringToNumber] on
    digit strings. *)
Definition sample_NumberToString (q : Q) : string :=
  (if Qle_bool 0 q then "" else "-") ++ digits_of_N (Z.to_N (Qfloor (Qabs q))).

Definition sample_StringToNumber (s : string) : number :=
  if all_chars is_digit s && str_truthy s then parseInt_digits s else NaN.

(** A stand-in for the markup builder. *)
Definition sample_buildReportHTML (scores : option (list (option ScoreRecord)))
    (result : value) (title lastTitle : option string) : string :=
  "<html><body>"
  ++ FileDownloaders.baseTitle "Report" title lastTitle
  ++ FileDownloaders.ToString sample_NumberToString result
  ++ "</body></html>".

End Spec.

(** ** helpers.jsx *)

Module Helpers.
Import JS.

(** [\w]. *)
Definition is_word (c : ascii) : bool :=
  let n := nat_of_ascii c in
  ((97 <=? n) && (n <=? 122) || (65 <=? n) && (n <=? 90)
   || (48 <=? n) && (n <=? 57) || (n =? 95))%nat.

(** [l.toUpperCase()] on a character matched by [\w]; other characters are
    never passed to it. *)
Definition upper (c : ascii) : ascii :=
  let n := nat_of_ascii c in
  if ((97 <=? n) && (n <=? 122))%nat then ascii_of_nat (n - 32) else c.

(** [s.replace(/_/g, ' ')]. *)
Fixpoint underscores_to_spaces (s : string) : string :=
  match s with
  | "" => ""
  | String c s' =>
      String (if Ascii.eqb c "_" then " "%char else c) (underscores_to_spaces s')
  end.

(** [s.replace(/\b\w/g, l => l.toUpperCase())]: a word character is
    replaced when the character before it is not a word character;
    [in_word] tells whether the previous character was one. *)
Fixpoint capitalize_words (in_word : bool) (s : string) : string :=
  match s with
  | "" => ""
  | String c s' =>
      String (if is_word c && negb in_word then upper c else c)
             (capitalize_words (is_word c) s')
  end.

Definition formatLabel (key : string) : string :=
  if negb (str_truthy key) then ""
  else capitalize_words false (underscores_to_spaces key).

(** [/(^|\.)github\.com$/.test(hostname)]: the match starts at the head
    of the name ([at_start]) or at a dot, and ends with the name. *)
Fixpoint github_host_scan (at_start : bool) (h : string) : bool :=
  (at_start && (h =? "github.com"))
  || (h =? ".github.com")
  || match h with
     | "" => false
     | String _ h' => github_host_scan false h'
     end.

Definition github_host (h : string) : bool := github_host_scan true h.

Section Url.

(** [new URL(value).hostname], or [None] when the constructor throws. *)
Variable URL_hostname : string -> option string.

Definition isValidGitHubUrl (value : string) : bool :=
  if negb (str_truthy value) then false
  else
    match URL_hostname value with
    | Some h => github_host h
    | None => false
    end.

End Url.

End Helpers.

(** ** fileDownloaders.jsx and excelExport.jsx: file names and the other
    exports *)

Module Exports.
Import JS Model FileDownloaders.

(** [s.replace(/[^a-z0-9-_ ]/gi, '').replace(/\s+/g, '_')]. *)
Definition sanitize (s : string) : string :=
  underscore_spaces false (strip_unsafe s).

(** What the code reads of [new Date()]. *)
Record clock : Type := mkClock {
  getDate : N;
  getMonth : N;
  getFullYear : N;
  getHours : N;
  getMinutes : N
}.

(** [String(n).padStart(2, '0')]. *)
Definition pad (n : N) : string :=
  let d := digits_of_N n in
  zeros (2 - String.length d) ++ d.

(** The date and time part shared by the timestamped names. *)
Definition stamp (now : clock) : string :=
  pad (getDate now) ++ "-" ++ pad (getMonth now + 1) ++ "-"
  ++ digits_of_N (getFullYear now) ++ "_"
  ++ pad (getHours now) ++ "-" ++ pad (getMinutes now).

(** The name [downloadResult] gives its file. *)
Definition downloadResult_fileName (now : clock) (title lastTitle : option string) : string :=
  safeTitle "output" title lastTitle ++ "_" ++ stamp now ++ ".txt".

(** The name [downloadExcel] gives its workbook. *)
Definition downloadExcel_fileName (now : clock) (title lastTitle : option string) : string :=
  safeTitle "report" title lastTitle ++ "_scores_" ++ stamp now ++ ".xlsx".

(** [(student.name || `Student_${index + 1}`).replace(..).replace(..)];
    [None] is the TypeError of calling [replace] on a name that is truthy
    and not a string. *)
Definition studentName (student : ScoreRecord) (index : nat) : option string :=
  match name student with
  | VStr s =>
      Some (sanitize (if str_truthy s then s
                      else "Student_" ++ digits_of_N (N.of_nat (index + 1))))
  | v =>
      if truthy v then None
      else Some (sanitize ("Student_" ++ digits_of_N (N.of_nat (index + 1))))
  end.

Section Builtins.

Variable NumberToString : Q -> string.
Variable StringToNumber : string -> number.
Variable buildStudentHTML : ScoreRecord -> option string -> option string -> string.
Variable buildReportHTMLForSection :
  string -> string -> option string -> option string -> string.

(** What each call does, in order; [None] is a TypeError. *)
Definition downloadStudentTxt (now : clock) (student : option ScoreRecord)
    (index : nat) (title lastTitle : option string) : option (list effect) :=
  match student with
  | None => Some []
  | Some s =>
      let payload := buildStudentText NumberToString StringToNumber (Some s) in
      match studentName s index with
      | None => None
      | Some nm =>
          Some [ NewBlob payload "text/plain";
                 ClickDownload (safeTitle "report" title lastTitle ++ "_" ++ nm
                                ++ "_" ++ stamp now ++ ".txt") ]
      end
  end.

Definition downloadStudentPdf (popup : bool) (student : option ScoreRecord)
    (index : nat) (title lastTitle : option string) : list effect :=
  match student with
  | None => []
  | Some s =>
      let html := buildStudentHTML s title lastTitle in
      if popup then [ WindowOpen; DocumentWrite html; SchedulePrint ]
      else [ WindowOpen ]
  end.

Definition downloadStudentDoc (student : option ScoreRecord)
    (index : nat) (title lastTitle : option string) : option (list effect) :=
  match student with
  | None => Some []
  | Some s =>
      let html := buildStudentHTML s title lastTitle in
      match studentName s index with
      | None => None
      | Some nm =>
          Some [ NewBlob html "application/msword";
                 ClickDownload (safeTitle "report" title lastTitle ++ "_" ++ nm
                                ++ ".doc") ]
      end
  end.

Definition downloadPPTSectionTxt (now : clock) (section filename : string)
    (title lastTitle : option string) : list effect :=
  [ NewBlob section "text/plain";
    ClickDownload (safeTitle "report" title lastTitle ++ "_" ++ sanitize filename
                   ++ "_" ++ stamp now ++ ".txt") ].

Definition downloadPPTSectionPdf (popup : bool) (section filename : string)
    (title lastTitle : option string) : list effect :=
  let html := buildReportHTMLForSection section filename title lastTitle in
  if popup then [ WindowOpen; DocumentWrite html; SchedulePrint ]
  else [ WindowOpen ].

Definition downloadPPTSectionDoc (section filename : string)
    (title lastTitle : option string) : list effect :=
  let html := buildReportHTMLForSection section filename title lastTitle in
  [ NewBlob html "application/msword";
    ClickDownload (safeTitle "report" title lastTitle ++ "_" ++ sanitize filename
                   ++ ".doc") ].

(** The whole of [downloadResult]: payload and file name. *)
Definition downloadResult (now : clock) (result summary : value)
    (scores : option (list (option ScoreRecord)))
    (title lastTitle : option string) : list effect :=
  match downloadResult_payload NumberToString StringToNumber result summary scores with
  | None => []
  | Some payload =>
      [ NewBlob payload "text/plain";
        ClickDownload (downloadResult_fileName now title lastTitle) ]
  end.

End Builtins.

End Exports.

(** ** excelExport.jsx: the rows of the sheet and their styles *)

Module ExcelSheet.
Import JS Model ExcelExport.

(** How a step of the export ends: with a value, with a TypeError, or in
    a way the language leaves to the implementation (a sort whose
    comparison yields NaN). *)
Inductive outcome (A : Type) : Type :=
| Done (a : A)
| TypeError
| Unspecified.

Arguments Done {A} a.
Arguments TypeError {A}.
Arguments Unspecified {A}.

Definition bind {A B : Type} (m : outcome A) (f : A -> outcome B) : outcome B :=
  match m with
  | Done a => f a
  | TypeError => TypeError
  | Unspecified => Unspecified
  end.

(** A row of [excelData]: the columns 'Student Name', 'Score (%)',
    'Reasoning' and 'Feedback'. *)
Record sheet_row : Type := mkSheetRow {
  student_name : value;
  score_cell : value;
  reasoning_cell : value;
  feedback_cell : value
}.

(** A row that has text in its first column only. *)
Definition banner_row (text : string) : sheet_row :=
  mkSheetRow (VStr text) (VStr "") (VStr "") (VStr "").

Definition empty_row : sheet_row := banner_row "".

(** [{ start, end }]. *)
Record range : Type := mkRange {
  range_start : nat;
  range_end : nat
}.

(** [styleRanges]; a field that is null, or the empty array whose [start]
    is undefined, is [None]. *)
Record style_ranges : Type := mkRanges {
  summaryHeader : range;
  averageRow : range;
  highestHeader : option range;
  highestRows : option range;
  lowestHeader : option range;
  lowestRows : option range;
  allScoresHeader : option range;
  allScoresRows : option range
}.

(** The three variables the export updates while it builds the sheet. *)
Record builder : Type := mkBuilder {
  excelData : list sheet_row;
  currentRow : nat;
  styleRanges : style_ranges
}.

(** [excelData.push(row); currentRow++]. *)
Definition push (row : sheet_row) (b : builder) : builder :=
  mkBuilder (excelData b ++ [row]) (S (currentRow b)) (styleRanges b).

Definition set_ranges (f : style_ranges -> style_ranges) (b : builder) : builder :=
  mkBuilder (excelData b) (currentRow b) (f (styleRanges b)).

Definition set_highestHeader (r : range) (g : style_ranges) : style_ranges :=
  mkRanges (summaryHeader g) (averageRow g) (Some r) (highestRows g)
           (lowestHeader g) (lowestRows g) (allScoresHeader g) (allScoresRows g).

Definition set_highestRows (r : range) (g : style_ranges) : style_ranges :=
  mkRanges (summaryHeader g) (averageRow g) (highestHeader g) (Some r)
           (lowestHeader g) (lowestRows g) (allScoresHeader g) (allScoresRows g).

Definition set_lowestHeader (r : range) (g : style_ranges) : style_ranges :=
  mkRanges (summaryHeader g) (averageRow g) (highestHeader g) (highestRows g)
           (Some r) (lowestRows g) (allScoresHeader g) (allScoresRows g).

Definition set_lowestRows (r : range) (g : style_ranges) : style_ranges :=
  mkRanges (summaryHeader g) (averageRow g) (highestHeader g) (highestRows g)
           (lowestHeader g) (Some r) (allScoresHeader g) (allScoresRows g).

Definition set_allScoresHeader (r : range) (g : style_ranges) : style_ranges :=
  mkRanges (summaryHeader g) (averageRow g) (highestHeader g) (highestRows g)
           (lowestHeader g) (lowestRows g) (Some r) (allScoresRows g).

Definition set_allScoresRows (r : range) (g : style_ranges) : style_ranges :=
  mkRanges (summaryHeader g) (averageRow g) (highestHeader g) (highestRows g)
           (lowestHeader g) (lowestRows g) (allScoresHeader g) (Some r).

(** [n > 1 ? 's' : ''] *)
Definition plural (n : nat) : string := if (1 <? n)%nat then "s" else "".

(** The key of the comparison of [sortedScores]: the score when it is a
    number, -1 otherwise. *)
Definition sort_key (s : ScoreRecord) : number :=
  match score_percent s with
  | VNum n => n
  | _ => Fin (-1)
  end.

(** The comparison function: [scoreB - scoreA]. *)
Definition compare_scores (a b : ScoreRecord) : number :=
  num_sub (sort_key b) (sort_key a).

(** [Array.prototype.sort] is stable: of two records the later one moves
    in front only when the comparison is positive. *)
Fixpoint insert_sorted (x : ScoreRecord) (l : list ScoreRecord) : list ScoreRecord :=
  match l with
  | [] => [x]
  | y :: rest =>
      if num_ltb (Fin 0) (compare_scores x y) then y :: insert_sorted x rest
      else x :: y :: rest
  end.

(** [[...rawScores].sort(..)].  With a score that is NaN the comparison
    is not a consistent one and the order is left to the implementation. *)
Definition sortedScores (rawScores : list ScoreRecord) : outcome (list ScoreRecord) :=
  if forallb (fun s => negb (isNaN (sort_key s))) rawScores
  then Done (fold_right insert_sorted [] rawScores)
  else Unspecified.

Section Sheet.

Variable NumberToString : Q -> string.

(** The pictographs that open the four banners are outside the
    characters of the model; the banners are modelled for any such
    openings. *)
Variable summary_sign top_sign attention_sign list_sign : string.

(** A row of the top or bottom group; [student.score.toFixed(2)] on a
    null score is a TypeError. *)
Definition student_row (student : scored_row) : outcome sheet_row :=
  match score student with
  | Some n =>
      Done (mkSheetRow (row_name student)
              (VStr (toFixed NumberToString 2 n))
              (row_reasoning student)
              (VStr (if str_truthy (row_feedback student)
                     then row_feedback student else "-")))
  | None => TypeError
  end.

(** [students.forEach(student => { excelData.push(..); currentRow++ })] *)
Fixpoint push_students (students : list scored_row) (b : builder) : outcome builder :=
  match students with
  | [] => Done b
  | student :: rest =>
      bind (student_row student) (fun row => push_students rest (push row b))
  end.

(** A row of the complete list. *)
Definition full_row (s : ScoreRecord) : sheet_row :=
  mkSheetRow (or_else (name s) (VStr "-"))
             (match score_percent s with
              | VNum n => VStr (toFixed NumberToString 2 n)
              | v => or_else v (VStr "-")
              end)
             (or_else (reasoning s) (VStr "-"))
             (VStr (extractFeedback s)).

Definition push_all (l : list ScoreRecord) (b : builder) : builder :=
  fold_left (fun acc s => push (full_row s) acc) l b.

Definition summary_banner : string := summary_sign ++ " PERFORMANCE SUMMARY".

Definition average_row (rawScores : list ScoreRecord) : sheet_row :=
  mkSheetRow (VStr "Average Score of All Students")
             (VStr (average NumberToString rawScores ++ "%"))
             (VStr ("Based on "
                    ++ digits_of_N (N.of_nat (List.length (validScores rawScores)))
                    ++ " student(s)"))
             (VStr "").

Definition top_banner (m : number) (n : nat) : string :=
  top_sign ++ " TOP PERFORMERS - Highest Score: " ++ toFixed NumberToString 2 m
  ++ "% (" ++ digits_of_N (N.of_nat n) ++ " student" ++ plural n ++ ")".

Definition attention_banner (m : number) (n : nat) : string :=
  attention_sign ++ " NEEDS ATTENTION - Lowest Score: " ++ toFixed NumberToString 2 m
  ++ "% (" ++ digits_of_N (N.of_nat n) ++ " student" ++ plural n ++ ")".

Definition list_banner (n : nat) : string :=
  list_sign ++ " COMPLETE STUDENT LIST - All " ++ digits_of_N (N.of_nat n)
  ++ " Student" ++ plural n ++ " (Sorted by Score: Highest to Lowest)".

(** The state before the first push. *)
Definition builder_init : builder :=
  mkBuilder [] 0
    (mkRanges (mkRange 0 0) (mkRange (0 + 1) (0 + 1))
              None None None None None None).

Definition add_summary (rawScores : list ScoreRecord) (b : builder) : builder :=
  push empty_row (push (average_row rawScores) (push (banner_row summary_banner) b)).

(** The group of the highest scores; [maxScore.toFixed(2)] on null is a
    TypeError. *)
Definition add_highest (rawScores : list ScoreRecord) (b : builder) : outcome builder :=
  let students := highestStudents rawScores in
  if (0 <? List.length students)%nat then
    let b := set_ranges (set_highestHeader (mkRange (currentRow b) (currentRow b))) b in
    match maxScore rawScores with
    | None => TypeError
    | Some m =>
        let b := push (banner_row (top_banner m (List.length students))) b in
        let highestStartRow := currentRow b in
        bind (push_students students b) (fun b =>
        let b := set_ranges (set_highestRows
                               (mkRange highestStartRow (currentRow b - 1))) b in
        Done (push empty_row b))
    end
  else Done b.

Definition add_lowest (rawScores : list ScoreRecord) (b : builder) : outcome builder :=
  let students := lowestStudents rawScores in
  if (0 <? List.length students)%nat then
    let b := set_ranges (set_lowestHeader (mkRange (currentRow b) (currentRow b))) b in
    match minScore rawScores with
    | None => TypeError
    | Some m =>
        let b := push (banner_row (attention_banner m (List.length students))) b in
        let lowestStartRow := currentRow b in
        bind (push_students students b) (fun b =>
        let b := set_ranges (set_lowestRows
                               (mkRange lowestStartRow (currentRow b - 1))) b in
        Done (push empty_row b))
    end
  else Done b.

Definition add_complete_list (rawScores : list ScoreRecord) (b : builder) : outcome builder :=
  let b := set_ranges (set_allScoresHeader (mkRange (currentRow b) (currentRow b))) b in
  let b := push (banner_row (list_banner (List.length rawScores))) b in
  let b := push empty_row b in
  bind (sortedScores rawScores) (fun sorted =>
  let allScoresStartRow := currentRow b in
  let b := push_all sorted b in
  Done (set_ranges (set_allScoresRows
                      (mkRange allScoresStartRow (currentRow b - 1))) b)).

(** [excelData] and [styleRanges] as they are when the worksheet is made;
    the caller has returned already on an empty [rawScores]. *)
Definition build_sheet (rawScores : list ScoreRecord) : outcome builder :=
  bind (add_highest rawScores (add_summary rawScores builder_init)) (fun b =>
  bind (add_lowest rawScores b) (fun b =>
  add_complete_list rawScores b)).

End Sheet.

End ExcelSheet.

(** ** excelExport.jsx: the styles of the cells *)

Module ExcelStyles.
Import JS ExcelSheet.

(** The four columns of the sheet. *)
Inductive column : Type := ColA | ColB | ColC | ColD.

Definition column_eqb (a b : column) : bool :=
  match a, b with
  | ColA, ColA | ColB, ColB | ColC, ColC | ColD, ColD => true
  | _, _ => false
  end.

(** [{ color: { rgb }, bold, sz, italic }]; a key that is absent is
    [None]. *)
Record font_spec : Type := mkFont {
  color : option string;
  bold : option bool;
  sz : option N;
  italic : option bool
}.

(** [{ horizontal, vertical, wrapText }]. *)
Record alignment_spec : Type := mkAlignment {
  horizontal : option string;
  vertical : option string;
  wrapText : option bool
}.

(** A style object: [fill] holds the colour of [fgColor]. *)
Record style : Type := mkStyle {
  fill : option string;
  font : option font_spec;
  alignment : option alignment_spec
}.

(** The object [{}]. *)
Definition no_style : style := mkStyle None None None.

(** The table [styles]. *)
Module styles.

Definition summaryHeader : style :=
  mkStyle (Some "1F4E78")
          (Some (mkFont (Some "FFFFFF") (Some true) (Some 14%N) None))
          (Some (mkAlignment (Some "left") (Some "center") (Some true))).

Definition averageRow : style :=
  mkStyle (Some "D9E1F2")
          (Some (mkFont None (Some true) (Some 12%N) None))
          (Some (mkAlignment None (Some "center") None)).

Definition highestHeader : style :=
  mkStyle (Some "70AD47")
          (Some (mkFont (Some "FFFFFF") (Some true) (Some 14%N) None))
          (Some (mkAlignment (Some "left") (Some "center") (Some true))).

Definition highestRows : style :=
  mkStyle (Some "E2EFDA")
          (Some (mkFont None None (Some 11%N) None))
          (Some (mkAlignment None (Some "center") None)).

Definition lowestHeader : style :=
  mkStyle (Some "C55A11")
          (Some (mkFont (Some "FFFFFF") (Some true) (Some 14%N) None))
          (Some (mkAlignment (Some "left") (Some "center") (Some true))).

Definition lowestRows : style :=
  mkStyle (Some "FCE4D6")
          (Some (mkFont None None (Some 11%N) None))
          (Some (mkAlignment None (Some "center") None)).

Definition allScoresHeader : style :=
  mkStyle (Some "4472C4")
          (Some (mkFont (Some "FFFFFF") (Some true) (Some 14%N) None))
          (Some (mkAlignment (Some "left") (Some "center") (Some true))).

Definition regularRowEven : style :=
  mkStyle (Some "FFFFFF")
          (Some (mkFont None None (Some 11%N) None))
          (Some (mkAlignment None (Some "center") None)).

Definition regularRowOdd : style :=
  mkStyle (Some "F2F2F2")
          (Some (mkFont None None (Some 11%N) None))
          (Some (mkAlignment None (Some "center") None)).

Definition headerRow : style :=
  mkStyle (Some "366092")
          (Some (mkFont (Some "FFFFFF") (Some true) (Some 11%N) None))
          (Some (mkAlignment (Some "center") (Some "center") None)).

Definition feedbackColumn : style :=
  mkStyle (Some "E7E6F7")
          (Some (mkFont None None (Some 10%N) (Some false)))
          (Some (mkAlignment (Some "left") (Some "top") (Some true))).

Definition feedbackColumnHeader : style :=
  mkStyle (Some "7C6BC8")
          (Some (mkFont (Some "FFFFFF") (Some true) (Some 11%N) None))
          (Some (mkAlignment (Some "center") (Some "center") None)).

End styles.

(** The worksheet as the styling sees it: at an address, a column and a
    row number counted from one, there is no cell ([None]) or a cell
    with its style [s], which may be undefined. *)
Definition worksheet : Type := column -> nat -> option (option style).

(** [ws[cellAddress].s = st]. *)
Definition set_s (ws : worksheet) (col : column) (row : nat) (st : style) : worksheet :=
  fun c r => if column_eqb c col && (r =? row)%nat then Some (Some st) else ws c r.

(** The rows [for (let row = startRow; row <= endRow; row++)] visits. *)
Definition rows_between (startRow endRow : nat) : list nat :=
  seq startRow (S endRow - startRow).

(** The body of the [forEach] of [applyStyle]: a cell that is missing is
    skipped. *)
Definition style_cell (st : style) (row : nat) (ws : worksheet) (col : column) : worksheet :=
  match ws col (row + 1)%nat with
  | None => ws
  | Some _ => set_s ws col (row + 1)%nat st
  end.

Definition applyStyle (startRow endRow : nat) (st : style) (ws : worksheet) : worksheet :=
  fold_left (fun ws row => fold_left (style_cell st row) [ColA; ColB; ColC; ColD] ws)
            (rows_between startRow endRow) ws.

(** [a || b] on a key of a style. *)
Definition or_key {A : Type} (a b : option A) : option A :=
  match a with
  | Some x => Some x
  | None => b
  end.

(** [{ ...existingStyle, ...style, fill: style.fill || existingStyle.fill,
    font: .., alignment: .. }], for styles that have these three keys
    only. *)
Definition merge_style (existingStyle st : style) : style :=
  mkStyle (or_key (fill st) (fill existingStyle))
          (or_key (font st) (font existingStyle))
          (or_key (alignment st) (alignment existingStyle)).

(** The loop of [applyFeedbackColumnStyle]: the first missing cell ends
    the whole call. *)
Fixpoint feedback_rows (st : style) (rows : list nat) (ws : worksheet) : worksheet :=
  match rows with
  | [] => ws
  | row :: rest =>
      match ws ColD (row + 1)%nat with
      | None => ws
      | Some s =>
          let existingStyle := match s with Some e => e | None => no_style end in
          feedback_rows st rest
            (set_s ws ColD (row + 1)%nat (merge_style existingStyle st))
      end
  end.

Definition applyFeedbackColumnStyle (startRow endRow : nat) (st : style)
    (ws : worksheet) : worksheet :=
  feedback_rows st (rows_between startRow endRow) ws.

(** [if (range) applyStyle(range.start, range.end, st)]. *)
Definition style_range (r : option range) (st : style) (ws : worksheet) : worksheet :=
  match r with
  | Some r => applyStyle (range_start r) (range_end r) st ws
  | None => ws
  end.

(** The rows of a group: their style, then the style of the feedback
    column. *)
Definition style_rows (r : option range) (st : style) (ws : worksheet) : worksheet :=
  match r with
  | Some r =>
      applyFeedbackColumnStyle (range_start r) (range_end r) styles.feedbackColumn
        (applyStyle (range_start r) (range_end r) st ws)
  | None => ws
  end.

(** The stripes of the complete list. *)
Definition zebra (startRow : nat) (ws : worksheet) (row : nat) : worksheet :=
  let isEven := ((row - startRow) mod 2 =? 0)%nat in
  applyStyle row row (if isEven then styles.regularRowEven else styles.regularRowOdd) ws.

Definition style_list (r : option range) (ws : worksheet) : worksheet :=
  match r with
  | Some r =>
      applyFeedbackColumnStyle (range_start r) (range_end r) styles.feedbackColumn
        (fold_left (zebra (range_start r)) (rows_between (range_start r) (range_end r)) ws)
  | None => ws
  end.

(** All the styling of [downloadExcel], in its order. *)
Definition apply_styles (g : style_ranges) (ws : worksheet) : worksheet :=
  let ws := applyStyle 0 0 styles.headerRow ws in
  let ws := applyFeedbackColumnStyle 0 0 styles.feedbackColumnHeader ws in
  let ws := applyStyle (range_start (ExcelSheet.summaryHeader g))
                       (range_end (ExcelSheet.summaryHeader g)) styles.summaryHeader ws in
  let ws := applyStyle (range_start (ExcelSheet.averageRow g))
                       (range_end (ExcelSheet.averageRow g)) styles.averageRow ws in
  let ws := style_range (ExcelSheet.highestHeader g) styles.highestHeader ws in
  let ws := style_rows (ExcelSheet.highestRows g) styles.highestRows ws in
  let ws := style_range (ExcelSheet.lowestHeader g) styles.lowestHeader ws in
  let ws := style_rows (ExcelSheet.lowestRows g) styles.lowestRows ws in
  let ws := style_range (ExcelSheet.allScoresHeader g) styles.allScoresHeader ws in
  style_list (ExcelSheet.allScoresRows g) ws.

End ExcelStyles.

(** ** Dashboard.jsx: the callers of the splitter and of the Excel
    export *)

Module Dashboard.
Import JS Model PptProcessors.

(** [handleDownloadExcel]: the list it passes to [downloadExcel], or
    [None] when it returns without the call.  [ppt] is [mode === 'ppt'];
    [scores] is [None] when the state is null. *)
Definition handleDownloadExcel (ppt : bool) (scores : option (list ScoreRecord))
    (result : value) : option (list ScoreRecord) :=
  let has_scores := match scores with Some (_ :: _) => true | _ => false end in
  let rawScores :=
    if ppt && negb has_scores then Some (extractPPTScores result)
    else if has_scores then scores
    else None in
  match rawScores with
  | Some [] => None
  | other => other
  end.

(** The condition of the per-file view, for a result that is a string
    and not JSON. *)
Definition shows_sections (ppt : bool) (result : string) : bool :=
  ppt && includes "File:" result.

(** [fileSections.length > 0 ? fileSections : [result]]. *)
Definition finalSections (result : string) : list string :=
  let fileSections := splitPPTFileSections (VStr result) in
  if (0 <? List.length fileSections)%nat then fileSections else [result].

(** [mainFileMatch ? mainFileMatch[1].trim() : `File_${idx + 1}`]. *)
Definition section_title (section : string) (idx : nat) : string :=
  match match_File_star section with
  | Some cap => trim cap
  | None => "File_" ++ digits_of_N (N.of_nat (idx + 1))
  end.

(** The lazy [[\s\S]*?(?=needle|$)]: at each position the lookahead is
    tried first, and one more character is taken when it fails. *)
Fixpoint lazy_until (needle s : string) : string :=
  if startsWith needle s then ""
  else
    match s with
    | "" => ""
    | String c s' => String c (lazy_until needle s')
    end.

(** [section.match(/CONTENT EVALUATION[\s\S]*?(?=VISUAL DESIGN EVALUATION|$)/)],
    as the text matched. *)
Fixpoint contentMatch (section : string) : option string :=
  match strip_prefix "CONTENT EVALUATION" section with
  | Some rest =>
      Some ("CONTENT EVALUATION" ++ lazy_until "VISUAL DESIGN EVALUATION" rest)
  | None =>
      match section with
      | "" => None
      | String _ s' => contentMatch s'
      end
  end.

(** [section.match(/VISUAL DESIGN EVALUATION[\s\S]*?$/)]: without the [m]
    flag the match ends with the text. *)
Fixpoint designMatch (section : string) : option string :=
  if startsWith "VISUAL DESIGN EVALUATION" section then Some section
  else
    match section with
    | "" => None
    | String _ s' => designMatch s'
    end.

(** What the view shows of a section. *)
Record section_view : Type := mkView {
  filename : string;
  contentSection : string;
  designSection : string
}.

Definition view_section (idx : nat) (section : string) : section_view :=
  let hasContentEval := includes "CONTENT EVALUATION" section in
  let hasDesignEval := includes "VISUAL DESIGN EVALUATION" section in
  if hasContentEval && hasDesignEval then
    mkView (section_title section idx)
           (match contentMatch section with Some m => trim m | None => "" end)
           (match designMatch section with Some m => trim m | None => "" end)
  else mkView (section_title section idx) "" "".

Definition section_views (result : string) : list section_view :=
  ExcelExport.mapi_from view_section 0 (finalSections result).

End Dashboard.

(** ** Further vocabulary *)

Module Vocabulary.
Import JS Model Spec.

(** A state of the splitter in which a Section is being built: the text
    being built and the Sections pushed are non-empty and have no white
    space at their ends. *)
Definition well_formed (st : PptProcessors.split_state) : Prop :=
  PptProcessors.currentFile st <> ""
  /\ trimmed (PptProcessors.currentFile st)
  /\ Forall (fun s => s <> "" /\ trimmed s) (PptProcessors.fileSections st).

(** The characters of the file names the exports build. *)
Definition is_name_char (c : ascii) : bool :=
  let n := nat_of_ascii c in
  ((97 <=? n) && (n <=? 122) || (65 <=? n) && (n <=? 90)
   || (48 <=? n) && (n <=? 57) || (n =? 45) || (n =? 95) || (n =? 46))%nat.

(** The characters a sanitised title or name is made of. *)
Definition is_slug_char (c : ascii) : bool :=
  let n := nat_of_ascii c in
  ((97 <=? n) && (n <=? 122) || (65 <=? n) && (n <=? 90)
   || (48 <=? n) && (n <=? 57) || (n =? 45) || (n =? 95))%nat.

(** The names of the files a call downloads. *)
Definition file_names (l : list FileDownloaders.effect) : list string :=
  flat_map (fun e => match e with
                     | FileDownloaders.ClickDownload n => [n]
                     | _ => []
                     end) l.

(** Every file a call downloads has a name of letters, digits, hyphens,
    underscores and dots. *)
Definition names_safe (l : list FileDownloaders.effect) : Prop :=
  Forall (fun n => all_chars is_name_char n = true) (file_names l).

(** A title that has a character other than white space. *)
Definition non_blank (t : option string) : bool :=
  match t with
  | Some s => negb (all_chars is_ws s)
  | None => false
  end.

(** The details of a record, none when the field is not an array. *)
Definition details_of (s : ScoreRecord) : list (option QuestionDetail) :=
  match details s with
  | Some ds => ds
  | None => []
  end.

(** A detail whose feedback is a string with a character other than
    white space. *)
Definition has_feedback (d : option QuestionDetail) : bool :=
  match d with
  | Some q =>
      match feedback q with
      | VStr f => negb (all_chars is_ws f)
      | _ => false
      end
  | None => false
  end.

(** The number a record is sorted by. *)
Definition key_of (s : ScoreRecord) : number := ExcelSheet.sort_key s.

(** No score is NaN; every score is a value a number can take. *)
Definition comparable (l : list ScoreRecord) : Prop :=
  Forall (fun s => score_percent s <> VNum NaN /\ is_number (key_of s) = true) l.

(** [a] may stand before [b] in a list sorted from the highest score
    down. *)
Definition not_below (a b : ScoreRecord) : Prop :=
  num_geb (key_of a) (key_of b) = true.

(** Two numbers are the same. *)
Definition num_eqb (a b : number) : bool :=
  match a, b with
  | Fin x, Fin y => Qeq_bool x y
  | Inf s, Inf t => Bool.eqb s t
  | _, _ => false
  end.

(** The records of [l] that have the key [k], in the order of [l]. *)
Definition with_key (k : number) (l : list ScoreRecord) : list ScoreRecord :=
  filter (fun s => num_eqb (key_of s) k) l.

(** The range [r] covers exactly the rows [l] of [data]. *)
Definition covers {A : Type} (r : ExcelSheet.range) (l data : list A) : Prop :=
  exists pre post,
    data = (pre ++ l ++ post)%list
    /\ List.length pre = ExcelSheet.range_start r
    /\ (ExcelSheet.range_start r + List.length l = S (ExcelSheet.range_end r))%nat.

(** The counter of the builder is the number of rows pushed. *)
Definition counted (b : ExcelSheet.builder) : Prop :=
  ExcelSheet.currentRow b = List.length (ExcelSheet.excelData b).

(** A group of the sheet: without students it has no ranges; with
    students its header range covers the banner, made from the extreme
    score, and its rows range covers one row for each student, in their
    order. *)
Definition group_at (row_of : ExcelExport.scored_row -> ExcelSheet.outcome ExcelSheet.sheet_row)
    (header rows : option ExcelSheet.range) (extreme : option number)
    (banner : number -> ExcelSheet.sheet_row)
    (students : list ExcelExport.scored_row) (data : list ExcelSheet.sheet_row) : Prop :=
  match students with
  | [] => header = None /\ rows = None
  | _ =>
      exists h r m cells,
        header = Some h /\ rows = Some r /\ extreme = Some m
        /\ covers h [banner m] data
        /\ covers r cells data
        /\ Forall2 (fun st row => row_of st = ExcelSheet.Done row) students cells
  end.

(** No cell of the worksheet has a style yet. *)
Definition unstyled (ws : ExcelStyles.worksheet) : Prop :=
  forall col row, ws col row = None \/ ws col row = Some None.

(** A worksheet with a cell at every address of its first [n] rows. *)
Definition full_sheet (n : nat) : ExcelStyles.worksheet :=
  fun _ row => if ((1 <=? row) && (row <=? n))%nat then Some None else None.

(** Every style on the worksheet is one of [l]. *)
Definition styled_from (l : list ExcelStyles.style) (ws : ExcelStyles.worksheet) : Prop :=
  forall col row st, ws col row = Some (Some st) -> In st l.

(** The styles other than the two of the header row. *)
Definition body_styles : list ExcelStyles.style :=
  [ ExcelStyles.styles.summaryHeader; ExcelStyles.styles.averageRow;
    ExcelStyles.styles.highestHeader; ExcelStyles.styles.highestRows;
    ExcelStyles.styles.lowestHeader; ExcelStyles.styles.lowestRows;
    ExcelStyles.styles.allScoresHeader; ExcelStyles.styles.regularRowEven;
    ExcelStyles.styles.regularRowOdd; ExcelStyles.styles.feedbackColumn ].

(** The stripe of a row of the complete list that starts at [startRow]. *)
Definition stripe (startRow row : nat) : ExcelStyles.style :=
  if ((row - startRow) mod 2 =? 0)%nat then ExcelStyles.styles.regularRowEven
  else ExcelStyles.styles.regularRowOdd.

(** Every range but that of the summary header starts at row [k] or
    below it. *)
Definition starts_from (k : nat) (g : ExcelSheet.style_ranges) : Prop :=
  (k <= ExcelSheet.range_start (ExcelSheet.averageRow g))%nat
  /\ Forall (fun o => match o with
                      | Some r => (k <= ExcelSheet.range_start r)%nat
                      | None => True
                      end)
       [ ExcelSheet.highestHeader g; ExcelSheet.highestRows g;
         ExcelSheet.lowestHeader g; ExcelSheet.lowestRows g;
         ExcelSheet.allScoresHeader g; ExcelSheet.allScoresRows g ].

(** No line feed of [s] is followed by a line feed. *)
Fixpoint no_blank_line (s : string) : bool :=
  match s with
  | "" => true
  | String c s' => negb (is_nl c && startsWith NL s') && no_blank_line s'
  end.

(** Every line feed of [s] is followed by a character that is not one. *)
Fixpoint single_breaks (s : string) : bool :=
  match s with
  | "" => true
  | String c s' =>
      (negb (is_nl c)
       || match s' with
          | "" => false
          | String d _ => negb (is_nl d)
          end)
      && single_breaks s'
  end.

(** A block as the splitter joins them: trimmed, not empty, without an
    empty line. *)
Definition block (b : string) : Prop :=
  single_breaks b = true /\ b <> "" /\ trimmed b.

(** The section is built of blocks, and the splitter run on these blocks
    alone arrives at the same section and file name. *)
Definition replayed (st : PptProcessors.split_state) : Prop :=
  exists bs,
    bs <> [] /\ Forall block bs
    /\ PptProcessors.currentFile st = join (NL ++ NL) bs
    /\ fold_left PptProcessors.split_step bs PptProcessors.split_init
       = PptProcessors.mkSplit [] (PptProcessors.currentFile st)
           (PptProcessors.currentFilename st).

(** Splitting the section again gives the section. *)
Definition stable (section : string) : Prop :=
  PptProcessors.splitPPTFileSections (VStr section) = [section].

(** A clock for the examples: 7 March 2025, 09:05. *)
Definition sample_clock : Exports.clock := Exports.mkClock 7 2 2025 9 5.

End Vocabulary.

(* ================================================================== *)
(** * Part II: properties                                              *)
(* ================================================================== *)

(** ** Rounding to doubles *)

Module DoubleFacts.
Import JS Spec.
Local Open Scope Q_scope.

Lemma pow2_pos (e : Z) : 0 < pow2 e.
Proof. unfold pow2. apply Qpower_0_lt. reflexivity. Qed.

Lemma pow2_add (a b : Z) : pow2 (a + b) == pow2 a * pow2 b.
Proof. unfold pow2. apply Qpower_plus. discriminate. Qed.

Lemma pow2_succ (a : Z) : pow2 (a + 1) == 2 * pow2 a.
Proof. rewrite pow2_add. unfold pow2 at 2. simpl. ring. Qed.

Lemma pow2_inject (k : Z) : (0 <= k)%Z -> inject_Z (2 ^ k) == pow2 k.
Proof. intros H. unfold pow2. rewrite Zpower_Qpower by exact H. reflexivity. Qed.

Lemma pow2_le (a b : Z) : (a <= b)%Z -> pow2 a <= pow2 b.
Proof.
  intros H. replace b with (a + (b - a))%Z by lia. rewrite pow2_add.
  assert (1 <= pow2 (b - a)).
  { rewrite <- pow2_inject by lia. change 1 with (inject_Z 1). rewrite <- Zle_Qle.
    pose proof (Z.pow_pos_nonneg 2 (b - a)). lia. }
  pose proof (pow2_pos a). nra.
Qed.

Lemma pow2_lt (a b : Z) : (a < b)%Z -> pow2 a < pow2 b.
Proof.
  intros H. apply Qlt_le_trans with (pow2 (a + 1)).
  - rewrite pow2_succ. pose proof (pow2_pos a). lra.
  - apply pow2_le. lia.
Qed.

Lemma pow2_sub (a b : Z) : pow2 (a - b) == pow2 a / pow2 b.
Proof.
  pose proof (pow2_pos b). 
  assert (E : pow2 a == pow2 (a - b) * pow2 b) by (rewrite <- pow2_add; now replace (a - b + b)%Z with a by lia).
  rewrite E. field. lra.
Qed.

(** [ilog2 q] is the binary exponent of a positive [q]. *)
Lemma ilog2_spec (q : Q) : 0 < q -> pow2 (ilog2 q) <= q < pow2 (ilog2 q + 1).
Proof.
  intros Hq. destruct q as [n d]. 
  assert (Hn : (0 < n)%Z) by (unfold Qlt in Hq; simpl in Hq; lia).
  unfold ilog2. cbn [Qnum Qden].
  set (a := Z.log2 n). set (b := Z.log2 (Zpos d)).
  destruct (Z.log2_spec n Hn) as [A1 A2]. fold a in A1, A2.
  destruct (Z.log2_spec (Zpos d) ltac:(lia)) as [B1 B2]. fold b in B1, B2.
  assert (Ha : (0 <= a)%Z) by apply Z.log2_nonneg.
  assert (Hb : (0 <= b)%Z) by apply Z.log2_nonneg.
  assert (Q1 : pow2 a <= inject_Z n) by (rewrite <- pow2_inject by lia; now rewrite <- Zle_Qle).
  assert (Q2 : inject_Z n < pow2 (a + 1))
    by (rewrite <- pow2_inject by lia; rewrite <- Zlt_Qlt; replace (a + 1)%Z with (Z.succ a) by lia; exact A2).
  assert (Q3 : pow2 b <= inject_Z (Zpos d)) by (rewrite <- pow2_inject by lia; now rewrite <- Zle_Qle).
  assert (Q4 : inject_Z (Zpos d) < pow2 (b + 1))
    by (rewrite <- pow2_inject by lia; rewrite <- Zlt_Qlt; replace (b + 1)%Z with (Z.succ b) by lia; exact B2).
  assert (E : n # d == inject_Z n / inject_Z (Zpos d)) by (rewrite Qmake_Qdiv; reflexivity).
  assert (Dp : 0 < inject_Z (Zpos d)) by (unfold Qlt; simpl; lia).
  pose proof (pow2_pos a) as Pa. pose proof (pow2_pos b) as Pb.
  assert (Up : n # d < pow2 (a - b + 1)).
  { rewrite E. replace (a - b + 1)%Z with ((a + 1) - b)%Z by lia. rewrite pow2_sub.
    apply Qlt_shift_div_r; [exact Dp|].
    apply Qlt_le_trans with (pow2 (a + 1)); [exact Q2|].
    assert (X : pow2 (a + 1) / pow2 b * inject_Z (Z.pos d) == pow2 (a + 1) * (inject_Z (Z.pos d) / pow2 b))
      by (field; lra).
    rewrite X. assert (1 <= inject_Z (Z.pos d) / pow2 b) by (apply Qle_shift_div_l; lra).
    pose proof (pow2_pos (a + 1)). nra. }
  assert (Lo : pow2 (a - b - 1) <= n # d).
  { rewrite E. replace (a - b - 1)%Z with (a - (b + 1))%Z by lia. rewrite pow2_sub.
    apply Qle_shift_div_l; [exact Dp|].
    pose proof (pow2_pos (b + 1)).
    assert (X : pow2 a / pow2 (b + 1) * inject_Z (Z.pos d) == pow2 a * (inject_Z (Z.pos d) / pow2 (b + 1)))
      by (field; lra).
    rewrite X. assert (inject_Z (Z.pos d) / pow2 (b + 1) <= 1) by (apply Qle_shift_div_r; lra).
    nra. }
  destruct (Qle_bool (pow2 (a - b)) (n # d)) eqn:T.
  - apply Qle_bool_iff in T. split; assumption.
  - assert (~ pow2 (a - b) <= n # d) by (rewrite <- Qle_bool_iff; congruence).
    replace (a - b - 1 + 1)%Z with (a - b)%Z by lia. split; [exact Lo|]. lra.
Qed.

Lemma ilog2_unique (q : Q) (e : Z) : pow2 e <= q < pow2 (e + 1) -> ilog2 q = e.
Proof.
  intros [L U]. assert (Hq : 0 < q) by (pose proof (pow2_pos e); lra).
  destruct (ilog2_spec q Hq) as [L' U'].
  destruct (Z.lt_trichotomy (ilog2 q) e) as [H | [H | H]]; [exfalso | exact H | exfalso].
  - assert (pow2 (ilog2 q + 1) <= pow2 e) by (apply pow2_le; lia). lra.
  - assert (pow2 (e + 1) <= pow2 (ilog2 q)) by (apply pow2_le; lia). lra.
Qed.

(** ** Rounding to the nearest integer *)

Lemma nearest_even_comp (p q : Q) : p == q -> nearest_even p = nearest_even q.
Proof.
  intros E. unfold nearest_even. rewrite (Qfloor_comp _ _ E).
  assert (C : (p - inject_Z (Qfloor q) ?= 1 # 2) = (q - inject_Z (Qfloor q) ?= 1 # 2))
    by (now rewrite E).
  rewrite C. reflexivity.
Qed.

Lemma nearest_even_Z (z : Z) : nearest_even (inject_Z z) = z.
Proof.
  unfold nearest_even. rewrite Qfloor_Z.
  assert (C : (inject_Z z - inject_Z z ?= 1 # 2) = Lt).
  { rewrite <- Qlt_alt. lra. }
  rewrite C. reflexivity.
Qed.

Lemma nearest_even_near (q : Q) :
  inject_Z (nearest_even q) - (1 # 2) <= q <= inject_Z (nearest_even q) + (1 # 2).
Proof.
  unfold nearest_even.
  pose proof (Qfloor_le q) as L. pose proof (Qlt_floor q) as U.
  rewrite inject_Z_plus in U. change (inject_Z 1) with 1 in U.
  destruct (q - inject_Z (Qfloor q) ?= 1 # 2) eqn:C.
  - apply Qeq_alt in C. destruct (Z.even (Qfloor q)).
    + lra.
    + rewrite inject_Z_plus. change (inject_Z 1) with 1. lra.
  - apply Qlt_alt in C. lra.
  - apply Qgt_alt in C. rewrite inject_Z_plus. change (inject_Z 1) with 1. lra.
Qed.

Lemma nearest_even_mono (p q : Q) : p <= q -> (nearest_even p <= nearest_even q)%Z.
Proof.
  intros H. pose proof (Qfloor_resp_le _ _ H) as F.
  pose proof (Qfloor_le p) as Lp. pose proof (Qlt_floor p) as Up.
  pose proof (Qfloor_le q) as Lq. pose proof (Qlt_floor q) as Uq.
  unfold nearest_even.
  destruct (Z.eq_dec (Qfloor p) (Qfloor q)) as [E | N].
  - rewrite E in *.
    destruct (p - inject_Z (Qfloor q) ?= 1 # 2) eqn:Cp;
      destruct (q - inject_Z (Qfloor q) ?= 1 # 2) eqn:Cq;
      try (destruct (Z.even (Qfloor q))); try lia; exfalso;
      first [apply Qeq_alt in Cp | apply Qlt_alt in Cp | apply Qgt_alt in Cp];
      first [apply Qeq_alt in Cq | apply Qlt_alt in Cq | apply Qgt_alt in Cq]; lra.
  - assert (Qfloor p + 1 <= Qfloor q)%Z by lia.
    destruct (p - inject_Z (Qfloor p) ?= 1 # 2);
      destruct (q - inject_Z (Qfloor q) ?= 1 # 2);
      try (destruct (Z.even (Qfloor p))); try (destruct (Z.even (Qfloor q))); lia.
Qed.

Lemma nearest_even_le (q : Q) (z : Z) : q <= inject_Z z -> (nearest_even q <= z)%Z.
Proof. intros H. rewrite <- (nearest_even_Z z). now apply nearest_even_mono. Qed.

Lemma nearest_even_ge (q : Q) (z : Z) : inject_Z z <= q -> (z <= nearest_even q)%Z.
Proof. intros H. rewrite <- (nearest_even_Z z) at 1. now apply nearest_even_mono. Qed.

(** ** The nearest multiple of the unit in the last place *)

Lemma ilog2_comp (p q : Q) : 0 < p -> p == q -> ilog2 p = ilog2 q.
Proof.
  intros Hp E. apply ilog2_unique. rewrite E. apply ilog2_spec. now rewrite <- E.
Qed.

Lemma ilog2_mono (p q : Q) : 0 < p -> p <= q -> (ilog2 p <= ilog2 q)%Z.
Proof.
  intros Hp H. destruct (ilog2_spec p Hp) as [Lp Up].
  destruct (ilog2_spec q ltac:(lra)) as [Lq Uq].
  destruct (Z_le_gt_dec (ilog2 p) (ilog2 q)) as [|G]; [assumption|exfalso].
  assert (pow2 (ilog2 q + 1) <= pow2 (ilog2 p)) by (apply pow2_le; lia). lra.
Qed.

Lemma expo_comp (p q : Q) : 0 < p -> p == q -> expo p = expo q.
Proof. intros Hp E. unfold expo. now rewrite (ilog2_comp p q Hp E). Qed.

Lemma expo_mono (p q : Q) : 0 < p -> p <= q -> (expo p <= expo q)%Z.
Proof. intros Hp H. unfold expo. pose proof (ilog2_mono p q Hp H). lia. Qed.

Lemma ulp_pos (a : Q) : 0 < ulp a.
Proof. apply pow2_pos. Qed.

Lemma expo_upper (a : Q) : 0 < a -> a < pow2 (expo a + 1).
Proof.
  intros Ha. destruct (ilog2_spec a Ha) as [_ U].
  eapply Qlt_le_trans; [exact U|]. apply pow2_le. unfold expo. lia.
Qed.

Lemma expo_lower (a : Q) : 0 < a -> (-1022 <= ilog2 a)%Z -> pow2 (expo a) <= a.
Proof.
  intros Ha N. destruct (ilog2_spec a Ha) as [L _].
  unfold expo. now rewrite Z.max_l by lia.
Qed.

Lemma pow2_53 (e : Z) : pow2 (e + 1) == inject_Z (2 ^ 53) * pow2 (e - 52).
Proof.
  rewrite pow2_inject by lia. rewrite <- pow2_add. now replace (53 + (e - 52))%Z with (e + 1)%Z by lia.
Qed.

Lemma pow2_52 (e : Z) : pow2 e == inject_Z (2 ^ 52) * pow2 (e - 52).
Proof.
  rewrite pow2_inject by lia. rewrite <- pow2_add. now replace (52 + (e - 52))%Z with e by lia.
Qed.

Lemma scaled_lt (a : Q) : 0 < a -> a / ulp a < inject_Z (2 ^ 53).
Proof.
  intros Ha. apply Qlt_shift_div_r; [apply ulp_pos|].
  unfold ulp. rewrite <- pow2_53. now apply expo_upper.
Qed.

Lemma scaled_ge (a : Q) :
  0 < a -> (-1022 <= ilog2 a)%Z -> inject_Z (2 ^ 52) <= a / ulp a.
Proof.
  intros Ha N. apply Qle_shift_div_l; [apply ulp_pos|].
  unfold ulp. rewrite <- pow2_52. now apply expo_lower.
Qed.

Lemma scaled_nonneg (a : Q) : 0 < a -> 0 <= a / ulp a.
Proof. intros Ha. apply Qle_shift_div_l; [apply ulp_pos|]. lra. Qed.

(** The significand chosen by [nearest]. *)
Lemma significand_range (a : Q) :
  0 < a ->
  (0 <= nearest_even (a / ulp a) <= 2 ^ 53)%Z
  /\ ((-1022 <= ilog2 a)%Z -> (2 ^ 52 <= nearest_even (a / ulp a))%Z).
Proof.
  intros Ha. split; [split|].
  - apply nearest_even_ge. change (inject_Z 0) with 0. now apply scaled_nonneg.
  - apply nearest_even_le. apply Qlt_le_weak. now apply scaled_lt.
  - intros N. apply nearest_even_ge. now apply scaled_ge.
Qed.

Lemma nearest_nonneg (a : Q) : 0 < a -> 0 <= nearest a.
Proof.
  intros Ha. unfold nearest. destruct (significand_range a Ha) as [[L _] _].
  assert (0 <= inject_Z (nearest_even (a / ulp a)))
    by (change 0 with (inject_Z 0); now rewrite <- Zle_Qle).
  pose proof (ulp_pos a). nra.
Qed.

Lemma nearest_le (a : Q) : 0 < a -> nearest a <= pow2 (expo a + 1).
Proof.
  intros Ha. unfold nearest. destruct (significand_range a Ha) as [[_ U] _].
  rewrite pow2_53. fold (ulp a). rewrite Zle_Qle in U. pose proof (ulp_pos a). nra.
Qed.

Lemma nearest_ge (a : Q) : 0 < a -> (-1022 <= ilog2 a)%Z -> pow2 (expo a) <= nearest a.
Proof.
  intros Ha N. unfold nearest. destruct (significand_range a Ha) as [_ L].
  specialize (L N). rewrite (pow2_52 (expo a)). fold (ulp a).
  rewrite Zle_Qle in L. pose proof (ulp_pos a). nra.
Qed.

(** A value that is a multiple of its own unit is kept. *)
Lemma nearest_exact (a : Q) (k : Z) : a / ulp a == inject_Z k -> nearest a == a.
Proof.
  intros E. unfold nearest. rewrite (nearest_even_comp _ _ E), nearest_even_Z, <- E.
  field. pose proof (ulp_pos a). lra.
Qed.

Lemma nearest_comp (a b : Q) : 0 < a -> a == b -> nearest a == nearest b.
Proof.
  intros Ha E. unfold nearest, ulp. rewrite (expo_comp a b Ha E).
  assert (X : a / pow2 (expo b - 52) == b / pow2 (expo b - 52)) by (now rewrite E).
  now rewrite (nearest_even_comp _ _ X).
Qed.

Lemma nearest_mono (a b : Q) : 0 < a -> a <= b -> nearest a <= nearest b.
Proof.
  intros Ha H. assert (Hb : 0 < b) by lra.
  pose proof (expo_mono a b Ha H) as M.
  destruct (Z.eq_dec (expo a) (expo b)) as [E | N].
  - unfold nearest, ulp. rewrite E.
    pose proof (pow2_pos (expo b - 52)) as P.
    assert (X : a / pow2 (expo b - 52) <= b / pow2 (expo b - 52)).
    { apply Qle_shift_div_l; [exact P|].
      assert (Y : a / pow2 (expo b - 52) * pow2 (expo b - 52) == a) by (field; lra).
      now rewrite Y. }
    apply nearest_even_mono in X. rewrite Zle_Qle in X. nra.
  - assert (L : (expo a + 1 <= expo b)%Z) by lia.
    assert (Nb : (-1022 <= ilog2 b)%Z) by (unfold expo in *; lia).
    eapply Qle_trans; [apply (nearest_le a Ha)|].
    eapply Qle_trans; [apply (pow2_le _ _ L)|].
    now apply nearest_ge.
Qed.

(** The result is at most half a unit away. *)
Lemma nearest_near (a : Q) :
  0 < a -> nearest a - (1 # 2) * ulp a <= a <= nearest a + (1 # 2) * ulp a.
Proof.
  intros Ha. unfold nearest. pose proof (nearest_even_near (a / ulp a)) as [L U].
  pose proof (ulp_pos a) as P.
  assert (E : a == a / ulp a * ulp a) by (field; lra).
  set (u := ulp a) in *. set (s := a / u) in *.
  set (k := inject_Z (nearest_even s)) in *. clearbody u s k.
  assert (A : 0 <= (s - k + (1 # 2)) * u) by (apply Qmult_le_0_compat; lra).
  assert (B : 0 <= (k + (1 # 2) - s) * u) by (apply Qmult_le_0_compat; lra).
  split; lra.
Qed.

(** From 2^-1074 on the result is positive. *)
Lemma nearest_pos (a : Q) : pow2 (-1074) <= a -> ulp a <= nearest a.
Proof.
  intros H. assert (Ha : 0 < a) by (pose proof (pow2_pos (-1074)); lra).
  assert (K : (1 <= nearest_even (a / ulp a))%Z).
  { apply nearest_even_ge. change (inject_Z 1) with 1.
    apply Qle_shift_div_l; [apply ulp_pos|]. rewrite Qmult_1_l.
    destruct (Z_le_gt_dec (-1022) (ilog2 a)) as [N | S].
    - eapply Qle_trans; [|apply (expo_lower a Ha N)]. apply pow2_le. lia.
    - unfold ulp, expo. rewrite Z.max_r by lia. exact H. }
  unfold nearest. rewrite Zle_Qle in K. change (inject_Z 1) with 1 in K.
  pose proof (ulp_pos a). nra.
Qed.

(** Rounding twice is rounding once. *)
Lemma nearest_idem (a : Q) : 0 < a -> 0 < nearest a -> nearest (nearest a) == nearest a.
Proof.
  intros Ha Hr. destruct (significand_range a Ha) as [[K0 K1] K2].
  set (k := nearest_even (a / ulp a)) in *.
  assert (R : nearest a = inject_Z k * ulp a) by reflexivity.
  pose proof (ulp_pos a) as P.
  destruct (Z.eq_dec k (2 ^ 53)) as [Top | NotTop].
  - (* the next power of two *)
    assert (V : nearest a == pow2 (expo a + 1)).
    { rewrite R, Top, pow2_53. reflexivity. }
    assert (I : ilog2 (nearest a) = (expo a + 1)%Z).
    { apply ilog2_unique. rewrite V. split; [apply Qle_refl | apply pow2_lt; lia]. }
    apply (nearest_exact _ (2 ^ 52)). unfold ulp at 1, expo at 1. rewrite I.
    rewrite Z.max_l by (unfold expo; lia). rewrite V.
    rewrite (pow2_52 (expo a + 1)). field.
    pose proof (pow2_pos (expo a + 1 - 52)). lra.
  - destruct (Z_le_gt_dec (2 ^ 52) k) as [Normal | Sub].
    + (* same binade *)
      assert (I : ilog2 (nearest a) = expo a).
      { apply ilog2_unique. rewrite R. split.
        - rewrite (pow2_52 (expo a)). fold (ulp a). rewrite Zle_Qle in Normal. nra.
        - rewrite pow2_53. fold (ulp a).
          assert (k < 2 ^ 53)%Z by lia. rewrite Zlt_Qlt in H. nra. }
      apply (nearest_exact _ k). unfold ulp at 1, expo at 1. rewrite I.
      rewrite Z.max_l by (unfold expo; lia). fold (ulp a). rewrite R. field. lra.
    + (* subnormal *)
      assert (S : (ilog2 a < -1022)%Z).
      { destruct (Z_le_gt_dec (-1022) (ilog2 a)) as [N|]; [|lia].
        specialize (K2 N). lia. }
      assert (E : expo a = (-1022)%Z) by (unfold expo; lia).
      assert (U : nearest a < pow2 (-1022)).
      { rewrite R. rewrite (pow2_52 (-1022)). unfold ulp. rewrite E.
        assert (k < 2 ^ 52)%Z by lia. rewrite Zlt_Qlt in H.
        pose proof (pow2_pos (-1022 - 52)). nra. }
      assert (I : (ilog2 (nearest a) < -1022)%Z).
      { destruct (ilog2_spec _ Hr) as [L _].
        destruct (Z_le_gt_dec (-1022) (ilog2 (nearest a))) as [N|]; [|lia].
        pose proof (pow2_le _ _ N). lra. }
      apply (nearest_exact _ k). unfold ulp at 1, expo at 1.
      rewrite Z.max_r by lia. rewrite R. unfold ulp. rewrite E. field.
      pose proof (pow2_pos (-1022 - 52)). lra.
Qed.

(** ** Rounding *)

Lemma Qeqb0_spec (q : Q) : Qeqb0 q = true <-> q == 0.
Proof.
  unfold Qeqb0, Qeq. simpl. rewrite Z.eqb_eq. lia.
Qed.

Lemma Qeqb0_false (q : Q) : Qeqb0 q = false <-> ~ q == 0.
Proof. rewrite <- Qeqb0_spec. destruct (Qeqb0 q); split; congruence. Qed.

Lemma Qeqb0_comp (p q : Q) : p == q -> Qeqb0 p = Qeqb0 q.
Proof.
  intros E. destruct (Qeqb0 q) eqn:B.
  - apply Qeqb0_spec. rewrite E. now apply Qeqb0_spec.
  - apply Qeqb0_false. rewrite E. now apply Qeqb0_false.
Qed.

Lemma Qle_bool_comp (a b c d : Q) : a == c -> b == d -> Qle_bool a b = Qle_bool c d.
Proof.
  intros E F. destruct (Qle_bool c d) eqn:B.
  - apply Qle_bool_iff. rewrite E, F. now apply Qle_bool_iff.
  - destruct (Qle_bool a b) eqn:A; [|reflexivity].
    apply Qle_bool_iff in A. rewrite E, F in A. apply Qle_bool_iff in A. congruence.
Qed.

Lemma Qle_bool_false (a b : Q) : Qle_bool a b = false <-> b < a.
Proof.
  split.
  - intros H. apply Qnot_le_lt. rewrite <- Qle_bool_iff. congruence.
  - intros H. destruct (Qle_bool a b) eqn:B; [|reflexivity].
    apply Qle_bool_iff in B. lra.
Qed.

Lemma Qabs_pos_iff (q : Q) : ~ q == 0 -> 0 < Qabs q.
Proof.
  intros H. destruct (Qlt_le_dec 0 q) as [P | N].
  - rewrite Qabs_pos; lra.
  - rewrite Qabs_neg by exact N. 
    destruct (Qeq_dec q 0) as [E|E]; [contradiction|]. lra.
Qed.

(** Equal rationals round to the same number. *)
Lemma round_comp (p q : Q) : p == q -> round p = round q.
Proof.
  intros E. unfold round. rewrite (Qeqb0_comp p q E).
  destruct (Qeqb0 q) eqn:Z; [reflexivity|].
  apply Qeqb0_false in Z.
  assert (A : Qabs p == Qabs q) by (now rewrite E).
  assert (P : 0 < Qabs p) by (apply Qabs_pos_iff; now rewrite E).
  pose proof (nearest_comp _ _ P A) as N.
  rewrite (Qle_bool_comp _ _ _ _ (Qeq_refl (pow2 1024)) N).
  rewrite (Qle_bool_comp 0 p 0 q (Qeq_refl 0) E).
  destruct (Qle_bool (pow2 1024) (nearest (Qabs q))); [reflexivity|].
  f_equal. apply Qred_complete.
  destruct (Qle_bool 0 q); [exact N | now rewrite N].
Qed.

Lemma round_0 : round 0 = Fin 0.
Proof. reflexivity. Qed.

(** Rounding never gives NaN, and keeps the sign. *)
Lemma round_nonneg (q : Q) :
  0 <= q -> round q = Inf false \/ exists r, round q = Fin r /\ 0 <= r.
Proof.
  intros H. unfold round. destruct (Qeqb0 q) eqn:Z.
  - right. exists 0. split; [reflexivity | lra].
  - apply Qeqb0_false in Z.
    assert (B : Qle_bool 0 q = true) by (now apply Qle_bool_iff).
    rewrite B. cbn [negb].
    destruct (Qle_bool (pow2 1024) (nearest (Qabs q))); [left; reflexivity|].
    right. eexists. split; [reflexivity|]. rewrite Qred_correct.
    apply nearest_nonneg. now apply Qabs_pos_iff.
Qed.

Lemma round_not_NaN (q : Q) : round q <> NaN.
Proof.
  unfold round. destruct (Qeqb0 q); [discriminate|].
  destruct (Qle_bool _ _); discriminate.
Qed.

Lemma round_nonpos (q : Q) :
  q <= 0 -> round q = Inf true \/ exists r, round q = Fin r /\ r <= 0.
Proof.
  intros H. unfold round. destruct (Qeqb0 q) eqn:Z.
  - right. exists 0. split; [reflexivity | lra].
  - apply Qeqb0_false in Z.
    assert (L : q < 0) by (destruct (Qeq_dec q 0); [contradiction | lra]).
    assert (B : Qle_bool 0 q = false) by (now apply Qle_bool_false).
    rewrite B. cbn [negb].
    destruct (Qle_bool (pow2 1024) (nearest (Qabs q))); [left; reflexivity|].
    right. eexists. split; [reflexivity|]. rewrite Qred_correct.
    pose proof (nearest_nonneg (Qabs q) (Qabs_pos_iff q Z)). lra.
Qed.

(** A value that is a multiple of its unit and below 2^1024 is a double. *)
Lemma round_exact (q : Q) (k : Z) :
  ~ q == 0 -> Qabs q / ulp (Qabs q) == inject_Z k -> Qabs q < pow2 1024 ->
  round q = Fin (Qred q).
Proof.
  intros Z E B. unfold round.
  rewrite (proj2 (Qeqb0_false q) Z).
  pose proof (nearest_exact _ _ E) as N.
  assert (O : Qle_bool (pow2 1024) (nearest (Qabs q)) = false)
    by (apply Qle_bool_false; now rewrite N).
  rewrite O. f_equal. apply Qred_complete.
  destruct (Qle_bool 0 q) eqn:S.
  - apply Qle_bool_iff in S. rewrite N. now apply Qabs_pos.
  - apply Qle_bool_false in S. rewrite N, Qabs_neg by lra. ring.
Qed.

Lemma pow2_1024_big : inject_Z (2 ^ 53) < pow2 1024.
Proof. rewrite pow2_inject by lia. apply pow2_lt. lia. Qed.

(** Integers up to 2^53 are doubles. *)
Lemma round_Z (z : Z) : (Z.abs z <= 2 ^ 53)%Z -> round (inject_Z z) = Fin (inject_Z z).
Proof.
  intros B. destruct (Z.eq_dec z 0) as [-> | NZ]; [reflexivity|].
  assert (A : Qabs (inject_Z z) == inject_Z (Z.abs z)) by reflexivity.
  assert (P : 0 < inject_Z (Z.abs z)) by (change 0 with (inject_Z 0); rewrite <- Zlt_Qlt; lia).
  assert (Q0 : Qred (inject_Z z) = inject_Z z).
  { apply Qcanon.Qred_identity. simpl. apply Z.gcd_1_r. }
  rewrite <- Q0 at 2.
  set (a := Qabs (inject_Z z)) in *.
  assert (Pa : 0 < a) by (now rewrite A).
  destruct (ilog2_spec a Pa) as [L U].
  assert (I0 : (0 <= ilog2 a)%Z).
  { destruct (Z_le_gt_dec 0 (ilog2 a)) as [|G]; [assumption|exfalso].
    assert (pow2 (ilog2 a + 1) <= pow2 0) by (apply pow2_le; lia).
    assert (1 <= a) by (rewrite A; change 1 with (inject_Z 1); rewrite <- Zle_Qle; lia).
    change (pow2 0) with 1 in H. lra. }
  assert (I1 : (ilog2 a <= 53)%Z).
  { destruct (Z_le_gt_dec (ilog2 a) 53) as [|G]; [assumption|exfalso].
    assert (pow2 54 <= pow2 (ilog2 a)) by (apply pow2_le; lia).
    assert (a <= inject_Z (2 ^ 53)) by (rewrite A; now rewrite <- Zle_Qle).
    assert (pow2 53 < pow2 54) by (apply pow2_lt; lia).
    rewrite <- (pow2_inject 53) in H1 by lia. lra. }
  assert (X : expo a = ilog2 a) by (unfold expo; lia).
  destruct (Z.eq_dec (ilog2 a) 53) as [T | NT].
  - (* 2^53 itself *)
    assert (Ea : a == pow2 53).
    { rewrite T in L. assert (a <= inject_Z (2 ^ 53)) by (rewrite A; now rewrite <- Zle_Qle).
      rewrite (pow2_inject 53) in H by lia. lra. }
    apply (round_exact _ (2 ^ 52)).
    + intros E. fold a in A. assert (a == 0) by (unfold a; now rewrite E). lra.
    + fold a. unfold ulp. rewrite X, T. rewrite Ea.
      change (53 - 52)%Z with 1%Z. reflexivity.
    + fold a. rewrite Ea. apply pow2_lt. lia.
  - apply (round_exact _ (Z.abs z * 2 ^ (52 - ilog2 a))).
    + intros E. assert (a == 0) by (unfold a; now rewrite E). lra.
    + fold a. unfold ulp. rewrite X. rewrite inject_Z_mult, (pow2_inject (52 - ilog2 a)) by lia.
      rewrite <- A. rewrite (pow2_sub 52 (ilog2 a)), (pow2_sub (ilog2 a) 52).
      field. pose proof (pow2_pos 52). pose proof (pow2_pos (ilog2 a)). split; lra.
    + fold a. eapply Qle_lt_trans; [|apply pow2_1024_big].
      rewrite A. now rewrite <- Zle_Qle.
Qed.

(** What rounding returns is a double. *)
Lemma round_is_number (q : Q) : is_number (round q) = true.
Proof.
  destruct (round q) as [r| |s] eqn:R; try reflexivity.
  unfold is_number, is_double. revert R. unfold round at 1.
  destruct (Qeqb0 q) eqn:Z.
  - intros [= <-]. reflexivity.
  - apply Qeqb0_false in Z. pose proof (Qabs_pos_iff q Z) as P.
    destruct (Qle_bool (pow2 1024) (nearest (Qabs q))) eqn:O; [discriminate|].
    intros [= <-]. apply Qle_bool_false in O.
    set (n := nearest (Qabs q)) in *.
    set (v := if Qle_bool 0 q then n else - n).
    assert (Hn : 0 <= n) by (now apply nearest_nonneg).
    destruct (Qeq_dec n 0) as [N0 | NZ].
    + assert (V : v == 0) by (unfold v; destruct (Qle_bool 0 q); rewrite N0; reflexivity).
      assert (E : Qred v == 0) by (now rewrite Qred_correct).
      rewrite (round_comp _ _ E), round_0. apply Qeq_bool_iff. symmetry. exact E.
    + assert (Pn : 0 < n) by lra.
      assert (Av : Qabs v == n).
      { unfold v. destruct (Qle_bool 0 q); [now apply Qabs_pos|].
        rewrite Qabs_opp. now apply Qabs_pos. }
      assert (E : Qred v == v) by apply Qred_correct.
      rewrite (round_comp _ _ E). unfold round.
      assert (Zv : Qeqb0 v = false).
      { apply Qeqb0_false. intros C. rewrite C in Av. cbn in Av. lra. }
      rewrite Zv.
      assert (Pv : 0 < Qabs v) by (now rewrite Av).
      assert (I : nearest (Qabs v) == n).
      { rewrite (nearest_comp _ _ Pv Av). now apply nearest_idem. }
      assert (O' : Qle_bool (pow2 1024) (nearest (Qabs v)) = false)
        by (apply Qle_bool_false; now rewrite I).
      rewrite O'. apply Qeq_bool_iff. rewrite !Qred_correct.
      destruct (Qle_bool 0 v) eqn:S.
      * apply Qle_bool_iff in S. rewrite I, <- Av. now apply Qabs_pos.
      * apply Qle_bool_false in S. rewrite I, <- Av, Qabs_neg by lra. ring.
Qed.

(** The shape of a rounded value by the sign of the exact one. *)
Lemma round_positive (q : Q) :
  0 < q ->
  round q = if Qle_bool (pow2 1024) (nearest (Qabs q)) then Inf false
            else Fin (Qred (nearest (Qabs q))).
Proof.
  intros H. unfold round.
  assert (Z : Qeqb0 q = false) by (apply Qeqb0_false; lra).
  assert (B : Qle_bool 0 q = true) by (apply Qle_bool_iff; lra).
  now rewrite Z, B.
Qed.

Lemma round_negative (q : Q) :
  q < 0 ->
  round q = if Qle_bool (pow2 1024) (nearest (Qabs q)) then Inf true
            else Fin (Qred (- nearest (Qabs q))).
Proof.
  intros H. unfold round.
  assert (Z : Qeqb0 q = false) by (apply Qeqb0_false; lra).
  assert (B : Qle_bool 0 q = false) by (apply Qle_bool_false; lra).
  now rewrite Z, B.
Qed.

(** Rounding is monotone. *)
Lemma round_mono (p q : Q) : p <= q -> num_geb (round q) (round p) = true.
Proof.
  intros H.
  destruct (Qlt_le_dec 0 p) as [Pp | Np].
  - (* both positive *)
    assert (Pq : 0 < q) by lra.
    assert (M : nearest (Qabs p) <= nearest (Qabs q)).
    { apply nearest_mono; [rewrite Qabs_pos; lra|]. rewrite !Qabs_pos; lra. }
    rewrite (round_positive p Pp), (round_positive q Pq).
    destruct (Qle_bool (pow2 1024) (nearest (Qabs p))) eqn:Op.
    + apply Qle_bool_iff in Op.
      assert (Oq : Qle_bool (pow2 1024) (nearest (Qabs q)) = true)
        by (apply Qle_bool_iff; lra).
      rewrite Oq. reflexivity.
    + destruct (Qle_bool (pow2 1024) (nearest (Qabs q))); [reflexivity|].
      cbn [num_geb]. apply Qle_bool_iff. now rewrite !Qred_correct.
  - destruct (Qlt_le_dec q 0) as [Nq | Pq].
    + (* both negative *)
      assert (Pn : p < 0) by lra.
      assert (M : nearest (Qabs q) <= nearest (Qabs p)).
      { apply nearest_mono; [rewrite Qabs_neg; lra|]. rewrite !Qabs_neg; lra. }
      rewrite (round_negative p Pn), (round_negative q Nq).
      destruct (Qle_bool (pow2 1024) (nearest (Qabs q))) eqn:Oq.
      * apply Qle_bool_iff in Oq.
        assert (Op : Qle_bool (pow2 1024) (nearest (Qabs p)) = true)
          by (apply Qle_bool_iff; lra).
        rewrite Op. reflexivity.
      * destruct (Qle_bool (pow2 1024) (nearest (Qabs p))); [reflexivity|].
        cbn [num_geb]. apply Qle_bool_iff. rewrite !Qred_correct. lra.
    + destruct (round_nonpos p Np) as [-> | (a & -> & Ha)];
        destruct (round_nonneg q Pq) as [-> | (b & -> & Hb)]; try reflexivity.
      cbn [num_geb]. apply Qle_bool_iff. lra.
Qed.

(** A double is a multiple of 2^-1074. *)
Lemma double_on_grid (q : Q) :
  is_double q = true -> exists i, q == inject_Z i * pow2 (-1074).
Proof.
  unfold is_double, round. destruct (Qeqb0 q) eqn:Z.
  - intros _. exists 0%Z. apply Qeqb0_spec in Z. rewrite Z. reflexivity.
  - destruct (Qle_bool (pow2 1024) (nearest (Qabs q))); [discriminate|].
    intros E. apply Qeq_bool_iff in E. rewrite Qred_correct in E.
    set (a := Qabs q) in *. set (k := nearest_even (a / ulp a)).
    assert (U : ulp a == inject_Z (2 ^ (expo a + 1022)) * pow2 (-1074)).
    { unfold ulp. rewrite pow2_inject by (unfold expo; lia). rewrite <- pow2_add.
      now replace (expo a + 1022 + -1074)%Z with (expo a - 52)%Z by lia. }
    assert (N : nearest a == inject_Z (k * 2 ^ (expo a + 1022)) * pow2 (-1074)).
    { unfold nearest. fold k. rewrite inject_Z_mult.
      set (kk := inject_Z k). clearbody kk. rewrite U. ring. }
    destruct (Qle_bool 0 q).
    + exists (k * 2 ^ (expo a + 1022))%Z. now rewrite <- E.
    + exists (- (k * 2 ^ (expo a + 1022)))%Z. rewrite <- E, N, inject_Z_opp. ring.
Qed.

(** The difference of two doubles rounds to zero only when it is zero:
    its sign is the order of the two. *)
Lemma double_sub_sign (x y : Q) :
  is_double x = true -> is_double y = true ->
  num_ltb (Fin 0) (round (y - x)) = negb (Qle_bool y x).
Proof.
  intros Hx Hy. destruct (Qle_bool y x) eqn:B; cbn [negb].
  - apply Qle_bool_iff in B.
    destruct (round_nonpos (y - x) ltac:(lra)) as [-> | (r & -> & Hr)]; [reflexivity|].
    cbn [num_ltb]. apply negb_false_iff, Qle_bool_iff. exact Hr.
  - apply Qle_bool_false in B.
    destruct (double_on_grid x Hx) as (i & Ei).
    destruct (double_on_grid y Hy) as (j & Ej).
    pose proof (pow2_pos (-1074)) as P.
    assert (D : y - x == inject_Z (j - i) * pow2 (-1074)).
    { rewrite Ei, Ej. unfold Z.sub. rewrite inject_Z_plus, inject_Z_opp. ring. }
    assert (J : (1 <= j - i)%Z).
    { destruct (Z_le_gt_dec 1 (j - i)) as [|G]; [assumption|exfalso].
      assert (j - i <= 0)%Z by lia. rewrite Zle_Qle in H.
      change (inject_Z 0) with 0 in H. nra. }
    rewrite Zle_Qle in J. change (inject_Z 1) with 1 in J.
    assert (G : pow2 (-1074) <= Qabs (y - x)) by (rewrite Qabs_pos by lra; nra).
    pose proof (nearest_pos _ G) as N. pose proof (ulp_pos (Qabs (y - x))) as U.
    rewrite (round_positive (y - x)) by lra.
    destruct (Qle_bool (pow2 1024) (nearest (Qabs (y - x)))); [reflexivity|].
    cbn [num_ltb]. apply negb_true_iff, Qle_bool_false. rewrite Qred_correct. lra.
Qed.

(** The magnitude of a rounded value is the rounded magnitude. *)
Lemma abs_round (q : Q) :
  (exists s, round q = Inf s /\ round (Qabs q) = Inf false)
  \/ (exists r r', round q = Fin r /\ round (Qabs q) = Fin r' /\ r' == Qabs r).
Proof.
  destruct (Qlt_le_dec 0 q) as [P | N].
  - assert (E : Qabs q == q) by (apply Qabs_pos; lra).
    rewrite (round_comp _ _ E).
    destruct (round_nonneg q ltac:(lra)) as [R | (r & R & Hr)].
    + left. exists false. auto.
    + right. exists r, r. repeat split; auto. symmetry. now apply Qabs_pos.
  - destruct (Qeq_dec q 0) as [Z | NZ].
    + right. exists 0, 0. rewrite (round_comp _ _ Z).
      assert (A : Qabs q == 0) by (rewrite Z; reflexivity).
      rewrite (round_comp _ _ A). repeat split; reflexivity.
    + assert (L : q < 0) by lra.
      assert (Pa : 0 < Qabs q) by (now apply Qabs_pos_iff).
      assert (AA : Qabs (Qabs q) == Qabs q) by (apply Qabs_pos; lra).
      assert (PP : 0 < Qabs (Qabs q)) by (now rewrite AA).
      pose proof (nearest_comp _ _ PP AA) as NN.
      rewrite (round_negative q L), (round_positive _ Pa).
      rewrite (Qle_bool_comp _ _ _ _ (Qeq_refl (pow2 1024)) NN).
      destruct (Qle_bool (pow2 1024) (nearest (Qabs q))).
      * left. exists true. auto.
      * right. eexists. eexists. split; [reflexivity|]. split; [reflexivity|].
        rewrite !Qred_correct, Qabs_opp, NN.
        symmetry. apply Qabs_pos. now apply nearest_nonneg.
Qed.

(** A value between two doubles rounds between them. *)
Lemma round_between (lo hi q : Q) :
  is_double lo = true -> is_double hi = true -> lo <= q <= hi ->
  exists r, round q = Fin r /\ lo <= r <= hi.
Proof.
  intros Hlo Hhi [L U].
  pose proof (round_mono _ _ L) as ML. pose proof (round_mono _ _ U) as MU.
  unfold is_double in Hlo, Hhi.
  destruct (round lo) as [a| |]; try discriminate.
  destruct (round hi) as [b| |]; try discriminate.
  apply Qeq_bool_iff in Hlo, Hhi.
  destruct (round q) as [r| |[|]]; cbn [num_geb] in ML, MU; try discriminate.
  apply Qle_bool_iff in ML, MU. exists r. split; [reflexivity|]. lra.
Qed.

(** ** The order of numbers *)

Lemma geb_refl (n : number) : n <> NaN -> num_geb n n = true.
Proof.
  destruct n as [q| |[|]]; try congruence; intros _; try reflexivity.
  apply Qle_bool_iff, Qle_refl.
Qed.

Lemma geb_trans (a b c : number) :
  num_geb a b = true -> num_geb b c = true -> num_geb a c = true.
Proof.
  destruct a as [x| |[|]], b as [y| |[|]], c as [z| |[|]];
    cbn [num_geb negb orb]; try congruence; try reflexivity.
  rewrite !Qle_bool_iff. intros; eapply Qle_trans; eassumption.
Qed.

Lemma geb_total (a b : number) :
  a <> NaN -> b <> NaN -> num_geb a b = true \/ num_geb b a = true.
Proof.
  destruct a as [x| |[|]], b as [y| |[|]]; cbn [num_geb negb orb];
    try congruence; auto.
  intros _ _. rewrite !Qle_bool_iff. destruct (Qlt_le_dec x y); [right | left]; lra.
Qed.

Lemma num_max_cases (a b : number) :
  a <> NaN -> b <> NaN ->
  (num_max a b = a \/ num_max a b = b)
  /\ num_geb (num_max a b) a = true /\ num_geb (num_max a b) b = true.
Proof.
  intros Ha Hb.
  assert (E : num_max a b = if num_geb b a then b else a)
    by (destruct a, b; try congruence; reflexivity).
  rewrite E. destruct (num_geb b a) eqn:G.
  - repeat split; auto. now apply geb_refl.
  - destruct (geb_total a b Ha Hb) as [T | T]; [|congruence].
    repeat split; auto. now apply geb_refl.
Qed.

Lemma num_min_cases (a b : number) :
  a <> NaN -> b <> NaN ->
  (num_min a b = a \/ num_min a b = b)
  /\ num_geb a (num_min a b) = true /\ num_geb b (num_min a b) = true.
Proof.
  intros Ha Hb.
  assert (E : num_min a b = if num_geb b a then a else b)
    by (destruct a, b; try congruence; reflexivity).
  rewrite E. destruct (num_geb b a) eqn:G.
  - repeat split; auto. now apply geb_refl.
  - destruct (geb_total a b Ha Hb) as [T | T]; [|congruence].
    repeat split; auto. now apply geb_refl.
Qed.

(** ** Sums of integers *)

Lemma fold_add_ge (zs : list Z) (a : Z) :
  Forall (fun z => (0 <= z)%Z) zs -> (a <= fold_left Z.add zs a)%Z.
Proof.
  intros H. revert a. induction H as [|z zs Hz _ IH]; intros a; simpl; [lia|].
  specialize (IH (a + z)%Z). lia.
Qed.

Lemma double_sum_acc (zs : list Z) (a : Z) :
  (0 <= a)%Z -> Forall (fun z => (0 <= z)%Z) zs ->
  (fold_left Z.add zs a <= 2 ^ 53)%Z ->
  fold_left num_add (map (fun z => Fin (inject_Z z)) zs) (Fin (inject_Z a))
  = Fin (inject_Z (fold_left Z.add zs a)).
Proof.
  intros Ha H. revert a Ha. induction H as [|z zs Hz Hzs IH]; intros a Ha B; simpl in *.
  - reflexivity.
  - pose proof (fold_add_ge zs (a + z) Hzs) as G.
    assert (E : (inject_Z a + inject_Z z == inject_Z (a + z))%Q)
      by (rewrite inject_Z_plus; reflexivity).
    rewrite (round_comp _ _ E), round_Z by lia.
    apply IH; [lia | exact B].
Qed.

(** Non-negative integers that add up to 2^53 at most are added without
    rounding. *)
Lemma double_sum_exact (zs : list Z) :
  exact_total zs ->
  double_sum (map (fun z => Fin (inject_Z z)) zs) = Fin (inject_Z (fold_left Z.add zs 0%Z)).
Proof. intros (H & B & _). apply (double_sum_acc zs 0); [lia | exact H | exact B]. Qed.

Lemma Qsum_inject_acc (zs : list Z) (a : Z) :
  (fold_left Qplus (map inject_Z zs) (inject_Z a) == inject_Z (fold_left Z.add zs a))%Q.
Proof.
  revert a; induction zs as [|z zs IH]; intros a; simpl; [reflexivity|].
  rewrite <- IH. rewrite inject_Z_plus. reflexivity.
Qed.

Lemma Qsum_inject (zs : list Z) :
  (Qsum (map inject_Z zs) == inject_Z (fold_left Z.add zs 0%Z))%Q.
Proof. apply (Qsum_inject_acc zs 0). Qed.

(** ... and then the double mean is the double nearest to their mean. *)
Lemma double_mean_exact (zs : list Z) :
  zs <> [] -> exact_total zs ->
  double_mean (map (fun z => Fin (inject_Z z)) zs) = round (mean (map inject_Z zs)).
Proof.
  intros Hne H. pose proof H as (_ & _ & L).
  unfold double_mean, mean. rewrite (double_sum_exact zs H), !length_map.
  unfold of_nat. rewrite round_Z by lia.
  assert (N : Qeqb0 (inject_Z (Z.of_nat (List.length zs))) = false).
  { unfold Qeqb0; simpl. apply Z.eqb_neq. destruct zs; [congruence | simpl; lia]. }
  cbn [num_div]. rewrite N. apply round_comp.
  rewrite Qsum_inject. reflexivity.
Qed.

End DoubleFacts.

(** ** Strings *)

Module StringFacts.
Import JS Spec.

Lemma append_nil_r (s : string) : s ++ "" = s.
Proof. induction s; simpl; congruence. Qed.

Lemma append_assoc (a b c : string) : (a ++ b) ++ c = a ++ b ++ c.
Proof. induction a; simpl; congruence. Qed.

Lemma length_append (a b : string) :
  String.length (a ++ b) = (String.length a + String.length b)%nat.
Proof. induction a; simpl; congruence. Qed.

Lemma append_eq_nil (a b : string) : a ++ b = "" -> a = "" /\ b = "".
Proof. destruct a; simpl; [auto | discriminate]. Qed.

Lemma ascii_eqb_true (a b : ascii) : Ascii.eqb a b = true <-> a = b.
Proof. apply Ascii.eqb_eq. Qed.

Lemma strip_prefix_spec (p s r : string) :
  strip_prefix p s = Some r <-> s = p ++ r.
Proof.
  revert s; induction p as [|a p IH]; intros s; simpl.
  - split; congruence.
  - destruct s as [|b s]; [split; discriminate|].
    destruct (Ascii.eqb a b) eqn:E.
    + apply Ascii.eqb_eq in E; subst b. rewrite IH. split; congruence.
    + apply Ascii.eqb_neq in E. split; [discriminate | congruence].
Qed.

Lemma strip_prefix_append (p r : string) : strip_prefix p (p ++ r) = Some r.
Proof. apply strip_prefix_spec; reflexivity. Qed.

Lemma startsWith_spec (p s : string) :
  startsWith p s = true <-> exists r, s = p ++ r.
Proof.
  unfold startsWith. destruct (strip_prefix p s) as [r|] eqn:E.
  - apply strip_prefix_spec in E. split; eauto.
  - split; [discriminate|]. intros [r Hr].
    apply strip_prefix_spec in Hr. congruence.
Qed.

Lemma startsWith_false (p s : string) :
  startsWith p s = false <-> forall r, s <> p ++ r.
Proof.
  split.
  - intros H r Hr. assert (startsWith p s = true) by (apply startsWith_spec; eauto).
    congruence.
  - intros H. destruct (startsWith p s) eqn:E; [|reflexivity].
    apply startsWith_spec in E. destruct E as [r Hr]. elim (H r Hr).
Qed.

(** *** indexOf *)

Lemma indexOf_from_found (needle s : string) (i k : Z) :
  indexOf_from needle s i = k -> (k <> -1)%Z -> (0 <= i)%Z ->
  (i <= k)%Z /\ occurs_at needle s (k - i)
  /\ forall j, occurs_at needle s j -> (k - i <= j)%Z.
Proof.
  revert i; induction s as [|c s IH]; intros i; simpl.
  - destruct (startsWith needle "") eqn:E; intros Hk Hne Hi; [|congruence].
    subst k. apply startsWith_spec in E. destruct E as [r Hr].
    split; [lia|]. split.
    + exists "", r. split; [exact Hr|]. simpl. lia.
    + intros j (pre & post & Hs & Hl). lia.
  - destruct (startsWith needle (String c s)) eqn:E; intros Hk Hne Hi.
    + subst k. apply startsWith_spec in E. destruct E as [r Hr].
      split; [lia|]. split.
      * exists "", r. split; [exact Hr|]. simpl. lia.
      * intros j (pre & post & Hs & Hl). lia.
    + destruct (IH (i + 1)%Z Hk Hne ltac:(lia)) as (Hle & Hocc & Hmin).
      split; [lia|]. split.
      * destruct Hocc as (pre & post & Hs & Hl).
        exists (String c pre), post. split; [simpl; congruence|].
        simpl String.length. lia.
      * intros j (pre & post & Hs & Hl).
        destruct pre as [|c' pre].
        -- simpl in Hs. assert (startsWith needle (String c s) = true)
             by (apply startsWith_spec; eauto). congruence.
        -- simpl in Hs. injection Hs as -> Hs.
           assert (k - (i + 1) <= j - 1)%Z.
           { apply Hmin. exists pre, post. split; [exact Hs|].
             simpl String.length in Hl. lia. }
           lia.
Qed.

Lemma indexOf_from_none (needle s : string) (i : Z) :
  indexOf_from needle s i = (-1)%Z -> (0 <= i)%Z -> ~ occurs needle s.
Proof.
  revert i; induction s as [|c s IH]; intros i; simpl.
  - destruct (startsWith needle "") eqn:E; intros Hk Hi; [lia|].
    intros (pre & post & Hs). destruct pre; [|discriminate].
    assert (startsWith needle "" = true) by (apply startsWith_spec; eauto).
    congruence.
  - destruct (startsWith needle (String c s)) eqn:E; intros Hk Hi; [lia|].
    intros (pre & post & Hs). destruct pre as [|c' pre].
    + assert (startsWith needle (String c s) = true)
        by (apply startsWith_spec; eauto). congruence.
    + simpl in Hs. injection Hs as -> Hs.
      apply (IH (i + 1)%Z Hk ltac:(lia)). exists pre, post. exact Hs.
Qed.

Lemma occurs_at_occurs (needle s : string) (i : Z) :
  occurs_at needle s i -> occurs needle s.
Proof. intros (pre & post & H & _). exists pre, post. exact H. Qed.

Lemma occurs_occurs_at (needle s : string) :
  occurs needle s -> exists i, (0 <= i)%Z /\ occurs_at needle s i.
Proof.
  intros (pre & post & H). exists (Z.of_nat (String.length pre)).
  split; [lia|]. exists pre, post. auto.
Qed.

(** [indexOf] answers -1 exactly when there is no occurrence, and the
    offset of the leftmost occurrence otherwise. *)
Lemma indexOf_none (needle s : string) :
  indexOf needle s = (-1)%Z <-> ~ occurs needle s.
Proof.
  split.
  - intros H. apply (indexOf_from_none needle s 0 H). lia.
  - intros H. destruct (Z.eq_dec (indexOf needle s) (-1)) as [E|E]; [exact E|].
    destruct (indexOf_from_found needle s 0 _ eq_refl E ltac:(lia)) as (_ & Ho & _).
    elim H. eapply occurs_at_occurs; eauto.
Qed.

Lemma indexOf_first (needle s : string) (k : Z) :
  indexOf needle s = k -> (k <> -1)%Z -> first_at needle s k.
Proof.
  intros H Hne.
  destruct (indexOf_from_found needle s 0 k H Hne ltac:(lia)) as (Hle & Ho & Hmin).
  rewrite Z.sub_0_r in *. split; assumption.
Qed.

Lemma first_at_unique (needle s : string) (i j : Z) :
  first_at needle s i -> first_at needle s j -> i = j.
Proof.
  intros [Hi Hmi] [Hj Hmj]. specialize (Hmi _ Hj). specialize (Hmj _ Hi). lia.
Qed.

Lemma occurs_at_nonneg (needle s : string) (i : Z) :
  occurs_at needle s i -> (0 <= i)%Z.
Proof. intros (pre & post & _ & H). lia. Qed.

Lemma first_at_indexOf (needle s : string) (k : Z) :
  first_at needle s k -> indexOf needle s = k.
Proof.
  intros Hk.
  destruct (Z.eq_dec (indexOf needle s) (-1)) as [E|E].
  - apply indexOf_none in E. elim E. eapply occurs_at_occurs, Hk.
  - eapply first_at_unique; [|exact Hk]. apply indexOf_first; auto.
Qed.

Lemma includes_spec (needle s : string) :
  includes needle s = true <-> occurs needle s.
Proof.
  unfold includes. destruct (Z.eqb_spec (indexOf needle s) (-1)) as [E|E]; simpl.
  - apply indexOf_none in E. split; [discriminate | tauto].
  - split; [|reflexivity]. intros _.
    eapply occurs_at_occurs, (indexOf_first _ _ _ eq_refl E).
Qed.

Lemma occurs_suffix (a b s : string) : occurs (a ++ b) s -> occurs b s.
Proof.
  intros (pre & post & H). exists (pre ++ a), post.
  rewrite H, !append_assoc. reflexivity.
Qed.

Lemma str_truthy_true (s : string) : str_truthy s = true <-> s <> "".
Proof. unfold str_truthy. rewrite negb_true_iff. apply String.eqb_neq. Qed.

Lemma str_truthy_false (s : string) : str_truthy s = false <-> s = "".
Proof. unfold str_truthy. rewrite negb_false_iff. apply String.eqb_eq. Qed.

End StringFacts.

(** ** Decimal numerals and [toFixed] *)

Module DecimalFacts.
Import JS Spec StringFacts.

Lemma fold_digits_acc (d : uint) (acc : positive) :
  fold_left digit_step (list_ascii_of_string (NilEmpty.string_of_uint d)) (Npos acc)
  = Npos (Pos.of_uint_acc d acc).
Proof.
  revert acc; induction d; intros acc;
    cbn [NilEmpty.string_of_uint list_ascii_of_string fold_left Pos.of_uint_acc];
    [reflexivity | ..];
    rewrite <- IHd; f_equal; unfold digit_step, digit_value;
    cbn [N_of_ascii N_of_digits]; lia.
Qed.

Lemma digits_value_string_of_uint (d : uint) :
  digits_value (NilEmpty.string_of_uint d) = N.of_uint d.
Proof.
  unfold digits_value, N.of_uint.
  induction d;
    cbn [NilEmpty.string_of_uint list_ascii_of_string fold_left Pos.of_uint];
    [reflexivity | exact IHd | ..];
    apply (fold_digits_acc d).
Qed.

(** Reading back the digits of [n] gives [n]. *)
Lemma digits_value_of_N (n : N) : digits_value (digits_of_N n) = n.
Proof.
  unfold digits_of_N. rewrite digits_value_string_of_uint.
  apply DecimalN.Unsigned.of_to.
Qed.

Lemma all_digits_string_of_uint (d : uint) :
  all_chars is_digit (NilEmpty.string_of_uint d) = true.
Proof. induction d; simpl; auto. Qed.

Lemma digits_of_N_digits (n : N) : all_chars is_digit (digits_of_N n) = true.
Proof. apply all_digits_string_of_uint. Qed.

Lemma string_of_uint_nil (d : uint) : NilEmpty.string_of_uint d = "" -> d = Nil.
Proof. destruct d; simpl; congruence. Qed.

Lemma digits_of_N_nonempty (n : N) : digits_of_N n <> "".
Proof.
  unfold digits_of_N. intros H. apply string_of_uint_nil in H.
  destruct n as [|p]; [discriminate|].
  exact (DecimalPos.Unsigned.to_uint_nonnil p H).
Qed.

Lemma list_ascii_append (a b : string) :
  list_ascii_of_string (a ++ b)
  = (list_ascii_of_string a ++ list_ascii_of_string b)%list.
Proof. induction a; simpl; congruence. Qed.

Lemma digits_value_zeros (k : nat) (d : string) :
  digits_value (zeros k ++ d) = digits_value d.
Proof.
  unfold digits_value. induction k; simpl; [reflexivity | exact IHk].
Qed.

Lemma all_chars_append (p : ascii -> bool) (a b : string) :
  all_chars p (a ++ b) = all_chars p a && all_chars p b.
Proof. induction a; simpl; [reflexivity|]. rewrite IHa. apply andb_assoc. Qed.

Lemma all_digits_zeros (k : nat) : all_chars is_digit (zeros k) = true.
Proof. induction k; simpl; auto. Qed.

Lemma length_zeros (k : nat) : String.length (zeros k) = k.
Proof. induction k; simpl; congruence. Qed.

Lemma substring_split (s : string) (n : nat) :
  (n <= String.length s)%nat ->
  substring 0 n s ++ substring n (String.length s - n) s = s.
Proof.
  revert n; induction s as [|c s IH]; intros n Hn.
  - destruct n; reflexivity.
  - destruct n as [|n]; simpl.
    + f_equal. specialize (IH 0%nat ltac:(lia)).
      replace (String.length s - 0)%nat with (String.length s) in IH by lia.
      destruct s; simpl in *; [reflexivity|exact IH].
    + f_equal. apply IH. simpl in Hn. lia.
Qed.

Lemma length_substring (s : string) (n m : nat) :
  (n + m <= String.length s)%nat -> String.length (substring n m s) = m.
Proof.
  revert n m; induction s as [|c s IH]; intros n m H; simpl in H.
  - assert (n = 0 /\ m = 0)%nat as [-> ->] by lia. reflexivity.
  - destruct n as [|n]; simpl.
    + destruct m as [|m]; simpl; [reflexivity|]. f_equal. apply IH. lia.
    + apply IH. lia.
Qed.

(** The digits [toFixed(2)] prints for the integer [n] of hundredths. *)
Lemma fixed_digits_two (n : N) :
  exists a b,
    fixed_digits 2 n = a ++ "." ++ b
    /\ String.length b = 2%nat
    /\ a <> ""
    /\ all_chars is_digit (a ++ b) = true
    /\ digits_value (a ++ b) = n.
Proof.
  unfold fixed_digits.
  set (m := digits_of_N n).
  set (m' := if (String.length m <=? 2)%nat
             then zeros (2 + 1 - String.length m) ++ m else m).
  assert (Hlen : (3 <= String.length m')%nat).
  { unfold m'. destruct (Nat.leb_spec (String.length m) 2).
    - rewrite length_append, length_zeros. lia.
    - lia. }
  assert (Hval : digits_value m' = n).
  { unfold m'. destruct (String.length m <=? 2)%nat;
      rewrite ?digits_value_zeros; apply digits_value_of_N. }
  assert (Hdig : all_chars is_digit m' = true).
  { unfold m'. destruct (String.length m <=? 2)%nat;
      rewrite ?all_chars_append, ?all_digits_zeros; apply digits_of_N_digits. }
  assert (Hsplit : substring 0 (String.length m' - 2) m'
                   ++ substring (String.length m' - 2) 2 m' = m').
  { pose proof (substring_split m' (String.length m' - 2) ltac:(lia)) as H.
    replace (String.length m' - (String.length m' - 2))%nat with 2%nat in H by lia.
    exact H. }
  exists (substring 0 (String.length m' - 2) m'),
         (substring (String.length m' - 2) 2 m').
  split; [reflexivity|]. split; [apply length_substring; lia|].
  split.
  - intros E. assert (L : String.length (substring 0 (String.length m' - 2) m')
                          = (String.length m' - 2)%nat)
      by (apply length_substring; lia).
    rewrite E in L. simpl in L. lia.
  - rewrite Hsplit. auto.
Qed.

Section ToFixed.

Variable NumberToString : Q -> string.

(** Below 10^21 in magnitude, [toFixed(2)] prints two decimals of the
    nearest hundredth. *)
Lemma toFixed_two_decimals (q : Q) :
  fixed_range q -> two_decimals_of q (toFixed NumberToString 2 (Fin q)).
Proof.
  unfold fixed_range, two_decimals_of, toFixed. intros Hr.
  destruct (Qle_bool (inject_Z (10 ^ 21)) (Qabs q)) eqn:E.
  { apply Qle_bool_iff in E. exfalso. revert E. apply Qlt_not_le. exact Hr. }
  set (x := (Qabs q * inject_Z (10 ^ Z.of_nat 2) + (1 # 2))%Q).
  assert (Hx : (0 <= Qfloor x)%Z).
  { rewrite <- (Qfloor_Z 0). apply Qfloor_resp_le.
    unfold x. change (inject_Z (10 ^ Z.of_nat 2)) with (inject_Z 100).
    pose proof (Qabs_nonneg q) as Hq.
    apply Qle_trans with (Qabs q * inject_Z 100)%Q.
    - apply Qmult_le_0_compat; [exact Hq | discriminate].
    - rewrite <- (Qplus_0_r (Qabs q * inject_Z 100)) at 1.
      apply Qplus_le_r. discriminate. }
  destruct (fixed_digits_two (Z.to_N (Qfloor x))) as (a & b & Hf & Hb & Ha & Hd & Hv).
  exists a, b. rewrite Hf. split; [reflexivity|].
  split; [exact Hb|]. split; [exact Ha|]. split; [exact Hd|].
  rewrite Hv, Z2N.id by exact Hx.
  pose proof (Qfloor_le x) as Hlo. pose proof (Qlt_floor x) as Hhi.
  unfold x in Hlo, Hhi. change (inject_Z (10 ^ Z.of_nat 2)) with (inject_Z 100) in *.
  fold x in Hlo, Hhi. set (n := Qfloor x) in *.
  rewrite inject_Z_plus in Hhi.
  change (inject_Z 100) with 100%Q in *. change (inject_Z 1) with 1%Q in *.
  apply Qabs_Qle_condition.
  generalize dependent (Qabs q). intros y. intros.
  generalize dependent (inject_Z n). intros z. intros.
  unfold x in Hlo, Hhi. clear - Hlo Hhi.
  unfold Qdiv. change (/ 100)%Q with (1 # 100)%Q. split; lra.
Qed.
End ToFixed.
End DecimalFacts.

(** ** The statistics of the spreadsheet *)

Module ExcelFacts.
Import JS Model ExcelExport Spec DoubleFacts.

Lemma is_valid_to_row (r : ScoreRecord) : is_valid (to_row r) = is_scored r.
Proof.
  unfold is_valid, to_row, is_scored, numeric_score; simpl.
  destruct (score_percent r) as [| | |[q| |b]| |]; reflexivity.
Qed.

Lemma filter_map_commute {A B : Type} (f : A -> B) (p : B -> bool) (l : list A) :
  filter p (map f l) = map f (filter (fun x => p (f x)) l).
Proof.
  induction l as [|x l IH]; simpl; [reflexivity|].
  destruct (p (f x)); simpl; congruence.
Qed.

(** The valid rows are the rows of the records with a numeric score. *)
Lemma validScores_scored (rs : list ScoreRecord) :
  validScores rs = map to_row (filter is_scored rs).
Proof.
  unfold validScores. rewrite filter_map_commute.
  f_equal. apply filter_ext. intros r. apply is_valid_to_row.
Qed.

Lemma filter_idem {A : Type} (p : A -> bool) (l : list A) :
  filter p (filter p l) = filter p l.
Proof.
  induction l as [|x l IH]; simpl; [reflexivity|].
  destruct (p x) eqn:E; simpl; rewrite ?E; congruence.
Qed.

Lemma validScores_ignores_unscored (rs : list ScoreRecord) :
  validScores (filter is_scored rs) = validScores rs.
Proof. rewrite !validScores_scored, filter_idem. reflexivity. Qed.

Lemma score_to_row (r : ScoreRecord) (n : number) :
  numeric_score r = Some n -> score (to_row r) = Some n.
Proof.
  unfold numeric_score, to_row; simpl.
  destruct (score_percent r) as [| | |[q| |b]| |]; try discriminate; congruence.
Qed.

Lemma numeric_score_not_NaN (r : ScoreRecord) (n : number) :
  numeric_score r = Some n -> n <> NaN.
Proof.
  unfold numeric_score.
  destruct (score_percent r) as [| | |[q| |b]| |]; try discriminate;
    intros [= <-]; discriminate.
Qed.

Lemma scoresArray_numeric (rs : list ScoreRecord) :
  scoresArray rs = map Some (numeric_scores rs).
Proof.
  unfold scoresArray. rewrite validScores_scored.
  induction rs as [|r rs IH]; [reflexivity|].
  unfold numeric_scores in *. cbn [filter flat_map]. unfold is_scored at 1.
  destruct (numeric_score r) as [n|] eqn:E; cbn [map List.app].
  - rewrite (score_to_row r n E), IH. reflexivity.
  - exact IH.
Qed.

Lemma numeric_scores_not_NaN (rs : list ScoreRecord) :
  Forall (fun n => n <> NaN) (numeric_scores rs).
Proof.
  unfold numeric_scores. induction rs as [|r rs IH]; [constructor|].
  cbn [flat_map]. destruct (numeric_score r) as [n|] eqn:E; cbn [List.app]; [|exact IH].
  constructor; [exact (numeric_score_not_NaN r n E) | exact IH].
Qed.

Lemma numeric_scores_filter (rs : list ScoreRecord) :
  numeric_scores (filter is_scored rs) = numeric_scores rs.
Proof.
  induction rs as [|r rs IH]; simpl; [reflexivity|].
  unfold is_scored at 1. unfold numeric_scores in *.
  destruct (numeric_score r) as [q|] eqn:E; simpl; rewrite ?E; simpl; congruence.
Qed.

Lemma in_numeric_scores (rs : list ScoreRecord) (n : number) :
  In n (numeric_scores rs) <-> exists r, In r rs /\ numeric_score r = Some n.
Proof.
  unfold numeric_scores. rewrite in_flat_map. split.
  - intros (r & Hr & Hn). exists r. split; [exact Hr|].
    destruct (numeric_score r) as [m|]; [|destruct Hn].
    destruct Hn as [<- | []]. reflexivity.
  - intros (r & Hr & E). exists r. split; [exact Hr|]. rewrite E. left. reflexivity.
Qed.

Lemma sum_scores_acc (xs : list number) (a : number) :
  fold_left (fun a b => num_add a (ToNumber_score b)) (map Some xs) a
  = fold_left num_add xs a.
Proof.
  revert a; induction xs as [|x xs IH]; intros a; simpl; [reflexivity|].
  apply IH.
Qed.

Lemma sum_scores_numeric (xs : list number) :
  sum_scores (map Some xs) = double_sum xs.
Proof. apply sum_scores_acc. Qed.

Section WithNumberToString.

Variable NumberToString : Q -> string.

(** The average in terms of the numeric scores of the collection. *)
Lemma average_numeric (rs : list ScoreRecord) :
  average NumberToString rs =
  match numeric_scores rs with
  | [] => "N/A"
  | xs => toFixed NumberToString 2 (double_mean xs)
  end.
Proof.
  unfold average. rewrite scoresArray_numeric, length_map, sum_scores_numeric.
  destruct (numeric_scores rs) as [|x xs]; reflexivity.
Qed.

End WithNumberToString.

(** *** Maximum and minimum *)

Lemma fold_max_maximum (xs : list number) (x : number) :
  x <> NaN -> Forall (fun n => n <> NaN) xs ->
  is_maximum (fold_left num_max xs x) (x :: xs).
Proof.
  intros Hx H. revert x Hx. induction H as [|y ys Hy Hys IH]; intros x Hx; simpl.
  - split; [left; reflexivity|]. intros n [<- | []]. now apply geb_refl.
  - destruct (num_max_cases x y Hx Hy) as (Hc & Gx & Gy).
    assert (Hm : num_max x y <> NaN) by (destruct Hc as [-> | ->]; assumption).
    destruct (IH (num_max x y) Hm) as [Hin Hmax]. split.
    + destruct Hin as [Hin | Hin]; [|right; right; exact Hin].
      rewrite <- Hin. destruct Hc as [-> | ->]; simpl; auto.
    + intros n [<- | [<- | Hn]].
      * eapply geb_trans; [apply Hmax; left; reflexivity | exact Gx].
      * eapply geb_trans; [apply Hmax; left; reflexivity | exact Gy].
      * apply Hmax. right. exact Hn.
Qed.

Lemma fold_min_minimum (xs : list number) (x : number) :
  x <> NaN -> Forall (fun n => n <> NaN) xs ->
  is_minimum (fold_left num_min xs x) (x :: xs).
Proof.
  intros Hx H. revert x Hx. induction H as [|y ys Hy Hys IH]; intros x Hx; simpl.
  - split; [left; reflexivity|]. intros n [<- | []]. now apply geb_refl.
  - destruct (num_min_cases x y Hx Hy) as (Hc & Gx & Gy).
    assert (Hm : num_min x y <> NaN) by (destruct Hc as [-> | ->]; assumption).
    destruct (IH (num_min x y) Hm) as [Hin Hmin]. split.
    + destruct Hin as [Hin | Hin]; [|right; right; exact Hin].
      rewrite <- Hin. destruct Hc as [-> | ->]; simpl; auto.
    + intros n [<- | [<- | Hn]].
      * eapply geb_trans; [exact Gx | apply Hmin; left; reflexivity].
      * eapply geb_trans; [exact Gy | apply Hmin; left; reflexivity].
      * apply Hmin. right. exact Hn.
Qed.

Lemma fold_num_max (xs : list number) (x : number) :
  fold_left (fun a b => num_max a (ToNumber_score b)) (map Some xs) x
  = fold_left num_max xs x.
Proof. revert x; induction xs as [|y ys IH]; intros x; simpl; [reflexivity | apply IH]. Qed.

Lemma fold_num_min (xs : list number) (x : number) :
  fold_left (fun a b => num_min a (ToNumber_score b)) (map Some xs) x
  = fold_left num_min xs x.
Proof. revert x; induction xs as [|y ys IH]; intros x; simpl; [reflexivity | apply IH]. Qed.

(** With a numeric score in the collection, [maxScore] and [minScore] are
    the largest and the smallest of the numeric scores. *)
Lemma maxScore_maximum (rs : list ScoreRecord) :
  numeric_scores rs <> [] ->
  exists hi, maxScore rs = Some hi /\ is_maximum hi (numeric_scores rs).
Proof.
  intros Hne. unfold maxScore. rewrite scoresArray_numeric.
  pose proof (numeric_scores_not_NaN rs) as F.
  destruct (numeric_scores rs) as [|x xs]; [congruence|].
  inversion F as [|? ? Hx Hxs]; subst.
  exists (fold_left num_max xs x). split.
  - cbn [map List.length Nat.ltb Nat.leb Math_max ToNumber_score].
    rewrite fold_num_max. reflexivity.
  - now apply fold_max_maximum.
Qed.

Lemma minScore_minimum (rs : list ScoreRecord) :
  numeric_scores rs <> [] ->
  exists lo, minScore rs = Some lo /\ is_minimum lo (numeric_scores rs).
Proof.
  intros Hne. unfold minScore. rewrite scoresArray_numeric.
  pose proof (numeric_scores_not_NaN rs) as F.
  destruct (numeric_scores rs) as [|x xs]; [congruence|].
  inversion F as [|? ? Hx Hxs]; subst.
  exists (fold_left num_min xs x). split.
  - cbn [map List.length Nat.ltb Nat.leb Math_min ToNumber_score].
    rewrite fold_num_min. reflexivity.
  - now apply fold_min_minimum.
Qed.

Lemma maxScore_none (rs : list ScoreRecord) :
  numeric_scores rs = [] -> maxScore rs = None /\ minScore rs = None.
Proof.
  intros E. unfold maxScore, minScore. rewrite scoresArray_numeric, E. split; reflexivity.
Qed.

(** *** The tie groups *)

Lemma filter_filter {A : Type} (p q : A -> bool) (l : list A) :
  filter p (filter q l) = filter (fun x => q x && p x) l.
Proof.
  induction l as [|x l IH]; simpl; [reflexivity|].
  destruct (q x); simpl; [destruct (p x)|]; congruence.
Qed.

Lemma near_tied (m : number) (r : ScoreRecord) :
  is_scored r && near m (to_row r) = tied_with m r.
Proof.
  unfold is_scored, tied_with. destruct (numeric_score r) as [n|] eqn:E; [|reflexivity].
  unfold near. rewrite (score_to_row r n E). reflexivity.
Qed.

Lemma near_group (m : number) (rs : list ScoreRecord) :
  filter (near m) (validScores rs) = map to_row (filter (tied_with m) rs).
Proof.
  rewrite validScores_scored, filter_map_commute, filter_filter.
  f_equal. apply filter_ext. intros r. apply near_tied.
Qed.

Lemma tied_with_spec (m : number) (r : ScoreRecord) :
  tied_with m r = true <->
  exists n, numeric_score r = Some n
            /\ num_ltb (double_distance n m) (round (1 # 100)) = true.
Proof.
  unfold tied_with. destruct (numeric_score r) as [n|].
  - split; [intros H; exists n; auto|]. intros (n' & [= <-] & H). exact H.
  - split; [discriminate|]. intros (n' & E & _). discriminate.
Qed.

Lemma in_group (m : number) (rs : list ScoreRecord) (row : scored_row) :
  In row (map to_row (filter (tied_with m) rs)) <->
  exists r n, In r rs /\ numeric_score r = Some n
              /\ num_ltb (double_distance n m) (round (1 # 100)) = true
              /\ row = to_row r.
Proof.
  rewrite in_map_iff. split.
  - intros (r & <- & Hr). apply filter_In in Hr. destruct Hr as [Hin Ht].
    apply tied_with_spec in Ht. destruct Ht as (q & E & W).
    exists r, q. auto.
  - intros (r & q & Hin & E & W & ->). exists r. split; [reflexivity|].
    apply filter_In. split; [exact Hin|]. apply tied_with_spec. eauto.
Qed.

Lemma highest_group (rs : list ScoreRecord) (hi : number) :
  maxScore rs = Some hi ->
  highestStudents rs = map to_row (filter (tied_with hi) rs).
Proof. intros E. unfold highestStudents. rewrite E. apply near_group. Qed.

Lemma lowest_group (rs : list ScoreRecord) (lo : number) :
  minScore rs = Some lo ->
  lowestStudents rs = map to_row (filter (tied_with lo) rs).
Proof. intros E. unfold lowestStudents. rewrite E. apply near_group. Qed.

(** The double the literal 0.01 denotes, and the double just below it. *)
Lemma tolerance_value : round (1 # 100) = Fin tolerance_above.
Proof. vm_compute. reflexivity. Qed.

Lemma tolerance_below_double : round tolerance_below = Fin tolerance_below.
Proof. vm_compute. reflexivity. Qed.

Lemma tolerance_above_double : round tolerance_above = Fin tolerance_above.
Proof. vm_compute. reflexivity. Qed.

Lemma tolerance_order : (tolerance_below < 1 # 100 /\ 1 # 100 < tolerance_above)%Q.
Proof. split; reflexivity. Qed.

(** The tie test in terms of the exact distance: at the double below 0.01
    and closer the scores are tied, at the double 0.01 and farther they
    are not. *)
Lemma tied_exact (q m : Q) :
  ((Qabs (q - m) <= tolerance_below)%Q ->
   num_ltb (double_distance (Fin q) (Fin m)) (round (1 # 100)) = true)
  /\ ((tolerance_above <= Qabs (q - m))%Q ->
      num_ltb (double_distance (Fin q) (Fin m)) (round (1 # 100)) = false).
Proof.
  rewrite tolerance_value. unfold double_distance. cbn [num_sub].
  destruct tolerance_order as [TB TA].
  destruct (DoubleFacts.abs_round (q - m)%Q) as [(s & R & A) | (r & r' & R & A & E)];
    rewrite R; cbn [Math_abs num_ltb]; split; intros H; try reflexivity.
  - pose proof (DoubleFacts.round_mono _ _ H) as M.
    rewrite tolerance_below_double, A in M. discriminate.
  - pose proof (DoubleFacts.round_mono _ _ H) as M.
    rewrite tolerance_below_double, A in M. cbn [num_geb] in M.
    apply Qle_bool_iff in M. apply negb_true_iff, DoubleFacts.Qle_bool_false.
    rewrite <- E. lra.
  - pose proof (DoubleFacts.round_mono _ _ H) as M.
    rewrite tolerance_above_double, A in M. cbn [num_geb] in M.
    apply Qle_bool_iff in M. apply negb_false_iff, Qle_bool_iff.
    rewrite <- E. exact M.
Qed.

(** Nothing is tied with an infinity. *)
Lemma tied_with_Inf (s : bool) (r : ScoreRecord) : tied_with (Inf s) r = false.
Proof.
  unfold tied_with, double_distance. rewrite tolerance_value.
  destruct (numeric_score r) as [[q| |t]|]; try reflexivity.
  cbn [num_sub]. destruct (Bool.eqb t s); reflexivity.
Qed.

Section Claims.

Variable NumberToString : Q -> string.

(** Every statistic is a function of the records that have a numeric score. *)
Lemma statistics_of_scored (rs rs' : list ScoreRecord) :
  filter is_scored rs' = filter is_scored rs ->
  average NumberToString rs' = average NumberToString rs
  /\ highestStudents rs' = highestStudents rs
  /\ lowestStudents rs' = lowestStudents rs.
Proof.
  intros E.
  assert (V : validScores rs' = validScores rs)
    by (rewrite !validScores_scored, E; reflexivity).
  unfold average, highestStudents, lowestStudents, maxScore, minScore, scoresArray.
  rewrite V. auto.
Qed.

(** C1.  The average of [downloadExcel] is "N/A" when no record has a
    numeric score; otherwise it is [toFixed(2)] of the mean as double
    arithmetic computes it (the sum from the left, every addition
    rounded, then one rounded division by the count), taken over exactly
    the records whose [score_percent] is a number that is not NaN.  For
    non-negative integer scores that add up to 2^53 at most the sum is
    exact and the average is [toFixed(2)] of the double nearest to the
    arithmetic mean; whenever the double mean is finite and prints in
    fixed notation, the average reads as that double rounded to two
    decimals.  Two collections with the same scored records have the same
    average and the same highest and lowest groups: unscored records
    change none of them. *)
Theorem average_of_scored_records (rs : list ScoreRecord) :
  (numeric_scores rs = [] -> average NumberToString rs = "N/A")
  /\ (numeric_scores rs <> [] ->
      average NumberToString rs
      = toFixed NumberToString 2 (double_mean (numeric_scores rs)))
  /\ (forall zs, zs <> [] -> exact_total zs ->
      numeric_scores rs = map (fun z => Fin (inject_Z z)) zs ->
      average NumberToString rs
      = toFixed NumberToString 2 (round (mean (map inject_Z zs))))
  /\ (forall d, numeric_scores rs <> [] ->
      double_mean (numeric_scores rs) = Fin d -> fixed_range d ->
      two_decimals_of d (average NumberToString rs))
  /\ (forall rs', filter is_scored rs' = filter is_scored rs ->
      average NumberToString rs' = average NumberToString rs
      /\ highestStudents rs' = highestStudents rs
      /\ lowestStudents rs' = lowestStudents rs)
  /\ (rs <> [] ->
      option_map (st_average) (downloadExcel_statistics NumberToString rs)
      = Some (average NumberToString rs)).
Proof.
  assert (A : numeric_scores rs <> [] ->
              average NumberToString rs
              = toFixed NumberToString 2 (double_mean (numeric_scores rs))).
  { intros Hne. rewrite average_numeric.
    destruct (numeric_scores rs); [congruence | reflexivity]. }
  split; [intros E; rewrite average_numeric, E; reflexivity|].
  split; [exact A|].
  split.
  { intros zs Hne Hz E.
    assert (N : numeric_scores rs <> []) by (rewrite E; destruct zs; [congruence | discriminate]).
    rewrite (A N), E, (double_mean_exact zs Hne Hz). reflexivity. }
  split.
  { intros d Hne Hd Hr. rewrite (A Hne), Hd.
    now apply DecimalFacts.toFixed_two_decimals. }
  split; [apply statistics_of_scored|].
  intros Hne. unfold downloadExcel_statistics.
  destruct rs; [congruence | reflexivity].
Qed.

End Claims.

Lemma average_of_scored_records_witness :
  [100; 40]%Z <> []
  /\ exact_total [100; 40]%Z
  /\ numeric_scores two_scores = map (fun z => Fin (inject_Z z)) [100; 40]%Z
  /\ average sample_NumberToString two_scores
     = toFixed sample_NumberToString 2 (round (mean (map inject_Z [100; 40]%Z))).
Proof.
  assert (H1 : [100; 40]%Z <> []) by discriminate.
  assert (H2 : exact_total [100; 40]%Z).
  { split; [repeat constructor; discriminate|]. split; simpl; lia. }
  assert (H3 : numeric_scores two_scores = map (fun z => Fin (inject_Z z)) [100; 40]%Z)
    by reflexivity.
  split; [exact H1|]. split; [exact H2|]. split; [exact H3|].
  exact (proj1 (proj2 (proj2 (average_of_scored_records sample_NumberToString two_scores)))
               [100; 40]%Z H1 H2 H3).
Defined.

(** The second example of the specification: scores 100 and 40 (and an
    unscored record). *)
Example two_scores_statistics :
  average sample_NumberToString two_scores = "70.00"
  /\ map row_name (highestStudents two_scores) = [VStr "Ann"]
  /\ map row_name (lowestStudents two_scores) = [VStr "Bob"].
Proof. vm_compute. repeat split. Qed.

(** Thirty-nine scores of 1 and one of 2 have the mean 1.025, which no
    double holds: the double nearest to it lies below, and the average
    prints as 1.02. *)
Example forty_scores_average :
  average sample_NumberToString forty_scores = "1.02"
  /\ toFixed sample_NumberToString 2 (Fin (1025 # 1000)) = "1.03".
Proof. vm_compute. split; reflexivity. Qed.

(** With a score that is Infinity the average is "Infinity", and nothing
    is in the highest group. *)
Example infinite_scores_statistics :
  average sample_NumberToString infinite_scores = "Infinity"
  /\ maxScore infinite_scores = Some (Inf false)
  /\ highestStudents infinite_scores = []
  /\ map row_name (lowestStudents infinite_scores) = [VStr "Ned"].
Proof. vm_compute. repeat split. Qed.

(** The claim as the specification states it fails: the two scores
    0.125 - 2^-56 and 0.125 add up to 0.25 after rounding, so that the
    average prints as 0.13, while their arithmetic mean is below 0.125 and
    reads 0.12 to two decimals. *)
Lemma average_not_mean_of_scores :
  exact_values (numeric_scores half_way_scores)
  = Some [9007199254740991 # 72057594037927936; 1 # 8]%Q
  /\ average sample_NumberToString half_way_scores = "0.13"
  /\ toFixed sample_NumberToString 2
       (Fin (mean [9007199254740991 # 72057594037927936; 1 # 8]%Q)) = "0.12"
  /\ ~ two_decimals_of (mean [9007199254740991 # 72057594037927936; 1 # 8]%Q)
                       (average sample_NumberToString half_way_scores).
Proof.
  split; [reflexivity|].
  assert (A : average sample_NumberToString half_way_scores = "0.13")
    by (vm_compute; reflexivity).
  split; [exact A|]. split; [vm_compute; reflexivity|].
  rewrite A. intros (a & b & E & Lb & Na & D & V).
  assert (S : Qle_bool 0 (mean [9007199254740991 # 72057594037927936; 1 # 8]%Q) = true)
    by reflexivity.
  rewrite S in E. cbn [append] in E.
  destruct a as [|c [|c' a']]; [congruence | |].
  - cbn [append] in E. injection E as <- <-.
    revert V. vm_compute. intros V. apply V. reflexivity.
  - cbn [append] in E. injection E as <- <- E.
    cbn [append all_chars] in D. discriminate.
Qed.

(** C2.  With at least one numeric score, [maxScore] and [minScore] are
    the largest and smallest numeric scores, and the highest (lowest)
    group is the list of rows of exactly the scored records whose
    distance from the maximum (minimum), as double arithmetic computes
    it, is below the double 0.01, in the order of the collection: every
    such record is listed.  In terms of the exact distance, a score is in
    the group when the distance is at most the double just below 0.01
    and it is not when the distance reaches the double 0.01; a maximum or
    minimum that is an infinity has an empty group.  When the maximum is
    the double 92.005, a record scoring 92 or 92.005 is in the highest
    group. *)
Theorem tied_extremes_all_listed (rs : list ScoreRecord) :
  numeric_scores rs <> [] ->
  exists hi lo,
    maxScore rs = Some hi /\ is_maximum hi (numeric_scores rs)
    /\ minScore rs = Some lo /\ is_minimum lo (numeric_scores rs)
    /\ highestStudents rs = map to_row (filter (tied_with hi) rs)
    /\ lowestStudents rs = map to_row (filter (tied_with lo) rs)
    /\ (forall row, In row (highestStudents rs) <->
          exists r n, In r rs /\ numeric_score r = Some n
                      /\ num_ltb (double_distance n hi) (round (1 # 100)) = true
                      /\ row = to_row r)
    /\ (forall row, In row (lowestStudents rs) <->
          exists r n, In r rs /\ numeric_score r = Some n
                      /\ num_ltb (double_distance n lo) (round (1 # 100)) = true
                      /\ row = to_row r)
    /\ (forall r q m, In r rs -> numeric_score r = Some (Fin q) ->
          (hi = Fin m ->
           ((Qabs (q - m) <= tolerance_below)%Q -> In (to_row r) (highestStudents rs))
           /\ ((tolerance_above <= Qabs (q - m))%Q ->
               ~ In (to_row r) (highestStudents rs)))
          /\ (lo = Fin m ->
              ((Qabs (q - m) <= tolerance_below)%Q -> In (to_row r) (lowestStudents rs))
              /\ ((tolerance_above <= Qabs (q - m))%Q ->
                  ~ In (to_row r) (lowestStudents rs))))
    /\ (isFinite hi = false -> highestStudents rs = [])
    /\ (isFinite lo = false -> lowestStudents rs = [])
    /\ (hi = round (92005 # 1000) ->
        forall r n, In r rs -> numeric_score r = Some n ->
                    n = Fin 92 \/ n = round (92005 # 1000) ->
                    In (to_row r) (highestStudents rs)).
Proof.
  intros Hne.
  destruct (maxScore_maximum rs Hne) as (hi & Hmax & Hhi).
  destruct (minScore_minimum rs Hne) as (lo & Hmin & Hlo).
  exists hi, lo.
  pose proof (highest_group rs hi Hmax) as Hh.
  pose proof (lowest_group rs lo Hmin) as Hl.
  assert (Out : forall m r, ~ In (to_row r) (map to_row (filter (tied_with m) rs)) \/ 
                            tied_with m r = true).
  { intros m r. destruct (tied_with m r) eqn:T; [right; reflexivity | left].
    rewrite in_group. intros (r' & n & Hin & Hn & W & E).
    assert (T' : tied_with m r' = true) by (apply tied_with_spec; eauto).
    rewrite <- (near_tied m r), <- (is_valid_to_row r), E, (is_valid_to_row r'),
            (near_tied m r') in T. congruence. }
  assert (Exact : forall m r q, In r rs -> numeric_score r = Some (Fin q) ->
            ((Qabs (q - m) <= tolerance_below)%Q ->
             In (to_row r) (map to_row (filter (tied_with (Fin m)) rs)))
            /\ ((tolerance_above <= Qabs (q - m))%Q ->
                ~ In (to_row r) (map to_row (filter (tied_with (Fin m)) rs)))).
  { intros m r q Hin Hq. destruct (tied_exact q m) as [T1 T2]. split; intros H.
    - apply in_group. exists r, (Fin q). auto.
    - destruct (Out (Fin m) r) as [O | O]; [exact O|].
      apply tied_with_spec in O. destruct O as (n & E & W).
      rewrite Hq in E. injection E as <-. rewrite (T2 H) in W. discriminate. }
  assert (NoInf : forall m, isFinite m = false -> m <> NaN ->
            map to_row (filter (tied_with m) rs) = []).
  { intros m F N. destruct m as [q| |s]; [discriminate | congruence |].
    rewrite (filter_ext _ (fun _ => false) (tied_with_Inf s)).
    clear. induction rs as [|a l IH]; [reflexivity | exact IH]. }
  assert (Nhi : hi <> NaN).
  { destruct Hhi as [I _]. apply in_numeric_scores in I. destruct I as (r & _ & E).
    exact (numeric_score_not_NaN r hi E). }
  assert (Nlo : lo <> NaN).
  { destruct Hlo as [I _]. apply in_numeric_scores in I. destruct I as (r & _ & E).
    exact (numeric_score_not_NaN r lo E). }
  repeat (split; [assumption|]).
  split; [intros row; rewrite Hh; apply in_group|].
  split; [intros row; rewrite Hl; apply in_group|].
  split.
  { intros r q m Hin Hq. split; intros ->.
    - rewrite Hh. exact (Exact m r q Hin Hq).
    - rewrite Hl. exact (Exact m r q Hin Hq). }
  split; [intros F; rewrite Hh; now apply NoInf|].
  split; [intros F; rewrite Hl; now apply NoInf|].
  intros Ehi r n Hin Hn Hv. rewrite Hh. apply in_group.
  exists r, n. repeat (split; [assumption|]). split; [|reflexivity].
  rewrite Ehi. destruct Hv as [-> | ->]; vm_compute; reflexivity.
Qed.

Lemma tied_extremes_all_listed_witness :
  numeric_scores tie_scores <> []
  /\ exists hi lo,
    maxScore tie_scores = Some hi /\ is_maximum hi (numeric_scores tie_scores)
    /\ minScore tie_scores = Some lo /\ is_minimum lo (numeric_scores tie_scores)
    /\ highestStudents tie_scores = map to_row (filter (tied_with hi) tie_scores)
    /\ lowestStudents tie_scores = map to_row (filter (tied_with lo) tie_scores)
    /\ (forall row, In row (highestStudents tie_scores) <->
          exists r n, In r tie_scores /\ numeric_score r = Some n
                      /\ num_ltb (double_distance n hi) (round (1 # 100)) = true
                      /\ row = to_row r)
    /\ (forall row, In row (lowestStudents tie_scores) <->
          exists r n, In r tie_scores /\ numeric_score r = Some n
                      /\ num_ltb (double_distance n lo) (round (1 # 100)) = true
                      /\ row = to_row r)
    /\ (forall r q m, In r tie_scores -> numeric_score r = Some (Fin q) ->
          (hi = Fin m ->
           ((Qabs (q - m) <= tolerance_below)%Q
            -> In (to_row r) (highestStudents tie_scores))
           /\ ((tolerance_above <= Qabs (q - m))%Q ->
               ~ In (to_row r) (highestStudents tie_scores)))
          /\ (lo = Fin m ->
              ((Qabs (q - m) <= tolerance_below)%Q
               -> In (to_row r) (lowestStudents tie_scores))
              /\ ((tolerance_above <= Qabs (q - m))%Q ->
                  ~ In (to_row r) (lowestStudents tie_scores))))
    /\ (isFinite hi = false -> highestStudents tie_scores = [])
    /\ (isFinite lo = false -> lowestStudents tie_scores = [])
    /\ (hi = round (92005 # 1000) ->
        forall r n, In r tie_scores -> numeric_score r = Some n ->
                    n = Fin 92 \/ n = round (92005 # 1000) ->
                    In (to_row r) (highestStudents tie_scores)).
Proof.
  assert (H : numeric_scores tie_scores <> []) by (vm_compute; discriminate).
  split; [exact H | exact (tied_extremes_all_listed tie_scores H)].
Defined.

(** The tie example of the specification: 92.00 and 92.005 are both in
    the highest group, 60 alone in the lowest. *)
Example tie_scores_groups :
  maxScore tie_scores = Some (round (92005 # 1000))
  /\ map row_name (highestStudents tie_scores) = [VStr "Dee"; VStr "Eve"]
  /\ map row_name (lowestStudents tie_scores) = [VStr "Fay"].
Proof. vm_compute. repeat split. Qed.

(** The claim as the specification states it fails: the second score lies
    within one hundredth of the maximum, yet the difference rounds to the
    double 0.01 and the record is left out of the highest group. *)
Lemma close_score_left_out :
  exists x y,
    maxScore close_scores = Some (Fin x)
    /\ numeric_scores close_scores = [Fin x; Fin y]
    /\ within_tolerance y x
    /\ map row_name (highestStudents close_scores) = [VStr "Kim"].
Proof.
  eexists. eexists. split; [vm_compute; reflexivity|].
  split; [vm_compute; reflexivity|].
  split; vm_compute; reflexivity.
Qed.

End ExcelFacts.

(** ** Trimming *)

Module TrimFacts.
Import JS Spec StringFacts.

Lemma length_trimStart (s : string) :
  (String.length (trimStart s) <= String.length s)%nat.
Proof.
  induction s as [|c s IH]; simpl; [lia|].
  destruct (is_ws c); simpl; lia.
Qed.

Lemma trimStart_fix_head (c : ascii) (s : string) :
  trimStart (String c s) = String c s -> is_ws c = false.
Proof.
  simpl. destruct (is_ws c); [|reflexivity].
  intros E. pose proof (length_trimStart s) as L. rewrite E in L. simpl in L. lia.
Qed.

Lemma trimStart_head (c : ascii) (s : string) :
  is_ws c = false -> trimStart (String c s) = String c s.
Proof. intros H. simpl. rewrite H. reflexivity. Qed.

Lemma trimStart_idem (s : string) : trimStart (trimStart s) = trimStart s.
Proof.
  induction s as [|c s IH]; simpl; [reflexivity|].
  destruct (is_ws c) eqn:E; [exact IH|]. simpl. rewrite E. reflexivity.
Qed.

Lemma trimEnd_nonempty (c : ascii) (s : string) :
  trimEnd s <> "" -> trimEnd (String c s) = String c (trimEnd s).
Proof. simpl. destruct (trimEnd s); [congruence | reflexivity]. Qed.

Lemma trimEnd_idem (s : string) : trimEnd (trimEnd s) = trimEnd s.
Proof.
  induction s as [|c s IH]; simpl; [reflexivity|].
  destruct (trimEnd s) as [|d t] eqn:E.
  - destruct (is_ws c) eqn:W; simpl; rewrite ?W; reflexivity.
  - rewrite trimEnd_nonempty by (rewrite IH; discriminate).
    rewrite IH. reflexivity.
Qed.

(** A string that ends clean stays clean when text is put in front. *)
Lemma trimEnd_append (a b : string) :
  trimEnd b = b -> b <> "" -> trimEnd (a ++ b) = a ++ b.
Proof.
  intros Hb Hne. induction a as [|c a IH]; simpl; [exact Hb|].
  rewrite IH. destruct (a ++ b) eqn:E; [|reflexivity].
  apply append_eq_nil in E. tauto.
Qed.

(** A clean end is the clean end of every non-empty suffix. *)
Lemma trimEnd_suffix (a b : string) :
  trimEnd (a ++ b) = a ++ b -> b <> "" -> trimEnd b = b.
Proof.
  intros H Hne. induction a as [|c a IH]; simpl in *; [exact H|].
  destruct (trimEnd (a ++ b)) as [|d t] eqn:E.
  - destruct (is_ws c); [discriminate|].
    injection H as H. symmetry in H. apply append_eq_nil in H. tauto.
  - injection H as H. apply IH. exact H.
Qed.

Lemma trimStart_append (a b : string) :
  trimStart a = a -> a <> "" -> trimStart (a ++ b) = a ++ b.
Proof.
  intros Ha Hne. destruct a as [|c a]; [congruence|].
  apply trimStart_fix_head in Ha. simpl. rewrite Ha. reflexivity.
Qed.

Lemma trimEnd_keeps_head (c : ascii) (s : string) :
  is_ws c = false -> exists t, trimEnd (String c s) = String c t.
Proof.
  intros H. simpl. destruct (trimEnd s); rewrite ?H; eauto.
Qed.

Lemma trim_trimmed (s : string) : trimmed (trim s).
Proof.
  unfold trimmed, trim. split; [|apply trimEnd_idem].
  pose proof (trimStart_idem s) as H.
  destruct (trimStart s) as [|c t] eqn:E; [reflexivity|].
  apply trimStart_fix_head in H.
  destruct (trimEnd_keeps_head c t H) as [u ->].
  apply trimStart_head. exact H.
Qed.

Lemma trim_fix (s : string) : trimmed s -> trim s = s.
Proof. intros [H1 H2]. unfold trim. rewrite H1. exact H2. Qed.

Lemma trimmed_join (a x b : string) :
  trimmed a -> trimmed b -> a <> "" -> b <> "" -> trimmed (a ++ x ++ b).
Proof.
  intros [Ha _] [_ Hb] Hna Hnb. split.
  - apply trimStart_append; assumption.
  - rewrite <- append_assoc. apply trimEnd_append; assumption.
Qed.


Lemma is_nl_ws (c : ascii) : is_nl c = true -> is_ws c = true.
Proof. unfold is_nl. intros H. apply Ascii.eqb_eq in H. subst c. reflexivity. Qed.

Lemma is_digit_not_ws (c : ascii) : is_digit c = true -> is_ws c = false.
Proof.
  unfold is_digit, is_ws. set (n := nat_of_ascii c).
  rewrite andb_true_iff, !Nat.leb_le. intros [H1 H2].
  destruct (Nat.leb_spec n 13); [lia|].
  destruct (Nat.eqb_spec n 32); [lia|].
  destruct (Nat.eqb_spec n 160); [lia|].
  rewrite andb_false_r. reflexivity.
Qed.


End TrimFacts.

(** ** The hand-compiled expressions against their reading *)

Module MatcherFacts.
Import JS Spec StringFacts TrimFacts PptProcessors.

Lemma line_prefix_head (c : ascii) (s : string) :
  is_nl c = false -> line_prefix (String c s) = String c (line_prefix s).
Proof. intros H. simpl. rewrite H. reflexivity. Qed.

Lemma not_ws_not_nl (c : ascii) : is_ws c = false -> is_nl c = false.
Proof.
  intros H. destruct (is_nl c) eqn:E; [|reflexivity].
  apply is_nl_ws in E. congruence.
Qed.

Lemma is_nl_false (c : ascii) : is_nl c = false <-> c <> nl.
Proof. unfold is_nl. apply Ascii.eqb_neq. Qed.

(** *** White space, then the rest of the line *)

Lemma ws_then_line_sound (r cap : string) :
  ws_then_line r = Some cap ->
  exists ws c rest,
    r = ws ++ String c rest /\ all_chars is_ws ws = true /\ c <> nl
    /\ cap = line_prefix (String c rest).
Proof.
  revert cap; induction r as [|c r IH]; intros cap; simpl; [discriminate|].
  destruct (is_ws c) eqn:W.
  - destruct (ws_then_line r) as [cap'|] eqn:E.
    + intros [= <-]. destruct (IH cap' eq_refl) as (ws & d & rest & -> & Hws & Hd & Hc).
      exists (String c ws), d, rest. simpl. rewrite W. auto.
    + destruct (is_nl c) eqn:N; [discriminate|]. intros [= <-].
      exists "", c, r. simpl. rewrite N. repeat split; auto.
      apply is_nl_false. exact N.
  - intros [= <-]. exists "", c, r. simpl.
    rewrite (not_ws_not_nl c W). repeat split; auto.
    apply is_nl_false, not_ws_not_nl, W.
Qed.

Lemma ws_then_line_complete (ws : string) (c : ascii) (rest : string) :
  all_chars is_ws ws = true -> c <> nl ->
  ws_then_line (ws ++ String c rest) <> None.
Proof.
  intros Hws Hc. induction ws as [|w ws IH]; simpl in *.
  - apply is_nl_false in Hc. rewrite Hc.
    destruct (is_ws c); [destruct (ws_then_line rest)|]; discriminate.
  - apply andb_true_iff in Hws. destruct Hws as [Hw Hws]. rewrite Hw.
    destruct (ws_then_line (ws ++ String c rest)); [discriminate|].
    elim (IH Hws). reflexivity.
Qed.


(** *** One attempt of the File expression *)

Lemma file_at_sound (plus : bool) (s cap : string) :
  file_at plus s = Some cap ->
  exists ws c rest,
    s = "File:" ++ ws ++ String c rest
    /\ all_chars is_ws ws = true /\ (plus = true -> ws <> "") /\ c <> nl
    /\ cap = line_prefix (String c rest).
Proof.
  unfold file_at. destruct (strip_prefix "File:" s) as [r|] eqn:E; [|discriminate].
  apply strip_prefix_spec in E. subst s. destruct plus.
  - destruct r as [|w r]; [discriminate|].
    destruct (is_ws w) eqn:W; [|discriminate]. intros H.
    destruct (ws_then_line_sound r cap H) as (ws & c & rest & -> & Hws & Hc & Hcap).
    exists (String w ws), c, rest. simpl. rewrite W.
    repeat split; auto. discriminate.
  - intros H.
    destruct (ws_then_line_sound r cap H) as (ws & c & rest & -> & Hws & Hc & Hcap).
    exists ws, c, rest. repeat split; auto. discriminate.
Qed.

Lemma file_at_complete (plus : bool) (ws : string) (c : ascii) (rest : string) :
  all_chars is_ws ws = true -> (plus = true -> ws <> "") -> c <> nl ->
  file_at plus ("File:" ++ ws ++ String c rest) <> None.
Proof.
  intros Hws Hp Hc. unfold file_at. rewrite strip_prefix_append.
  destruct plus.
  - destruct ws as [|w ws]; [elim (Hp eq_refl); reflexivity|].
    simpl in Hws. apply andb_true_iff in Hws. destruct Hws as [Hw Hws].
    simpl. rewrite Hw. apply ws_then_line_complete; assumption.
  - apply ws_then_line_complete; assumption.
Qed.

(** *** The search under the m flag *)

Lemma may_start_cons (bol : bool) (c : ascii) (pre : string) :
  may_start (is_line_terminator c) pre -> may_start bol (String c pre).
Proof.
  intros [[-> H] | (pre' & d & -> & H)]; right.
  - exists "", c. auto.
  - exists (String c pre'), d. auto.
Qed.

Lemma may_start_tail (bol : bool) (c : ascii) (pre : string) :
  may_start bol (String c pre) -> may_start (is_line_terminator c) pre.
Proof.
  intros [[H _] | (pre' & d & E & H)]; [discriminate|].
  destruct pre' as [|e pre']; simpl in E; injection E as E1 E2; subst.
  - left. auto.
  - right. eauto.
Qed.

Lemma file_scan_sound (plus bol : bool) (s cap : string) :
  file_scan plus bol s = Some cap ->
  exists pre s', s = pre ++ s' /\ may_start bol pre /\ file_at plus s' = Some cap.
Proof.
  revert bol; induction s as [|c s IH]; intros bol; simpl.
  - destruct bol; [|discriminate].
    destruct (file_at plus "") eqn:E; [|discriminate].
    intros [= <-]. exists "", "". repeat split; auto. left; auto.
  - destruct (if bol then file_at plus (String c s) else None) as [cap'|] eqn:E.
    + intros [= <-]. destruct bol; [|discriminate].
      exists "", (String c s). repeat split; auto. left; auto.
    + intros H. destruct (IH _ H) as (pre & s' & -> & Hm & Hf).
      exists (String c pre), s'. repeat split; auto.
      apply may_start_cons. exact Hm.
Qed.

Lemma file_scan_complete (plus bol : bool) (pre s' : string) :
  may_start bol pre -> file_at plus s' <> None ->
  file_scan plus bol (pre ++ s') <> None.
Proof.
  revert bol; induction pre as [|c pre IH]; intros bol Hm Hf.
  - destruct Hm as [[_ ->] | (pre' & d & E & _)].
    + destruct s' as [|c s]; simpl.
      * elim Hf. reflexivity.
      * destruct (file_at plus (String c s)); [discriminate | elim Hf; reflexivity].
    + destruct pre'; discriminate.
  - simpl. destruct (if bol then file_at plus (String c (pre ++ s')) else None);
      [discriminate|].
    apply IH; [|exact Hf]. eapply may_start_tail. exact Hm.
Qed.

Lemma may_start_line (pre : string) : may_start true pre <-> at_line_start pre.
Proof.
  unfold may_start, at_line_start. split.
  - intros [[-> _] | H]; auto.
  - intros [-> | H]; auto.
Qed.

(** [File:\s+[^\n]+] (or with [\s*]) matches somewhere under the m flag
    exactly when a line of the text has that shape. *)
Lemma file_scan_spec (plus : bool) (s : string) :
  file_scan plus true s <> None <-> file_line plus s.
Proof.
  split.
  - destruct (file_scan plus true s) as [cap|] eqn:E; [intros _|congruence].
    destruct (file_scan_sound _ _ _ _ E) as (pre & s' & -> & Hm & Hf).
    destruct (file_at_sound _ _ _ Hf) as (ws & c & rest & -> & Hws & Hp & Hc & _).
    exists pre, ws, c, rest. repeat split; auto. apply may_start_line. exact Hm.
  - intros (pre & ws & c & rest & -> & Hm & Hws & Hp & Hc).
    apply file_scan_complete; [apply may_start_line; exact Hm|].
    apply file_at_complete; assumption.
Qed.

Lemma startsWithFile_spec (block : string) :
  startsWithFile block = true <-> file_line true block.
Proof.
  rewrite <- file_scan_spec. unfold startsWithFile, match_File_plus.
  destruct (file_scan true true block); split; congruence.
Qed.

(** Without the text "File:" there is no match. *)
Lemma file_scan_absent (plus bol : bool) (s : string) :
  ~ occurs "File:" s -> file_scan plus bol s = None.
Proof.
  intros H. destruct (file_scan plus bol s) as [cap|] eqn:E; [|reflexivity].
  destruct (file_scan_sound _ _ _ _ E) as (pre & s' & -> & _ & Hf).
  destruct (file_at_sound _ _ _ Hf) as (ws & c & rest & -> & _).
  elim H. exists pre, (ws ++ String c rest). reflexivity.
Qed.


End MatcherFacts.

(** ** The Section Splitter *)

Module SplitterFacts.
Import JS Model Spec StringFacts TrimFacts MatcherFacts PptProcessors.

(** *** The header test *)

Lemma or_Infinity_spec (needle s : string) :
  match or_Infinity (indexOf needle s) with
  | None => ~ occurs needle s
  | Some e => first_at needle s e
  end.
Proof.
  unfold or_Infinity. destruct (Z.eqb_spec (indexOf needle s) (-1)) as [E|E].
  - apply indexOf_none. exact E.
  - apply indexOf_first; auto.
Qed.

Lemma firstEvalIndex_spec (s : string) :
  match firstEvalIndex s with
  | None => forall k, ~ eval_marker_at s k
  | Some e => forall k, eval_marker_at s k -> (e <= k)%Z
  end.
Proof.
  unfold firstEvalIndex, eval_marker_at.
  pose proof (or_Infinity_spec "CONTENT EVALUATION" s) as Hc.
  pose proof (or_Infinity_spec "VISUAL DESIGN EVALUATION" s) as Hd.
  destruct (or_Infinity (indexOf "CONTENT EVALUATION" s)) as [c|];
    destruct (or_Infinity (indexOf "VISUAL DESIGN EVALUATION" s)) as [d|]; simpl.
  - intros k [H | H]; [apply Hc in H | apply Hd in H]; lia.
  - intros k [H | H]; [apply Hc in H; lia | elim Hd; eapply occurs_at_occurs, H].
  - intros k [H | H]; [elim Hc; eapply occurs_at_occurs, H | apply Hd in H; lia].
  - intros k [H | H]; [elim Hc | elim Hd]; eapply occurs_at_occurs, H.
Qed.

Lemma firstEvalIndex_marker (s : string) (e : Z) :
  firstEvalIndex s = Some e -> eval_marker_at s e.
Proof.
  unfold firstEvalIndex, eval_marker_at.
  pose proof (or_Infinity_spec "CONTENT EVALUATION" s) as Hc.
  pose proof (or_Infinity_spec "VISUAL DESIGN EVALUATION" s) as Hd.
  destruct (or_Infinity (indexOf "CONTENT EVALUATION" s)) as [c|];
    destruct (or_Infinity (indexOf "VISUAL DESIGN EVALUATION" s)) as [d|]; simpl;
    intros [= <-].
  - destruct (Z.min_spec c d) as [[_ ->] | [_ ->]]; [left; apply Hc | right; apply Hd].
  - left. apply Hc.
  - right. apply Hd.
Qed.

Lemma file_line_occurs (plus : bool) (s : string) :
  file_line plus s -> occurs "File:" s.
Proof.
  intros (pre & ws & c & rest & -> & _). exists pre, (ws ++ String c rest). reflexivity.
Qed.

(** The header test of the code holds exactly on the blocks that have the
    shape of a file header. *)
Lemma isMainFileHeader_spec (block : string) :
  isMainFileHeader block = true <-> header_shape block.
Proof.
  unfold isMainFileHeader, header_shape, hasTotalSlides.
  rewrite !andb_true_iff, startsWithFile_spec, includes_spec, Z.ltb_lt.
  split.
  - intros [[[Hf Hs] Hlt] He]. split; [exact Hf|]. split; [exact Hs|].
    exists (indexOf "File:" block), (indexOf "Total Slides:" block).
    assert (Hi : indexOf "File:" block <> (-1)%Z).
    { rewrite indexOf_none. intros H. apply H. eapply file_line_occurs, Hf. }
    assert (Hj : indexOf "Total Slides:" block <> (-1)%Z).
    { rewrite indexOf_none. intros H. apply H. apply (occurs_suffix NL). exact Hs. }
    split; [apply indexOf_first; auto|]. split; [apply indexOf_first; auto|].
    split; [exact Hlt|].
    pose proof (firstEvalIndex_spec block) as Hspec.
    destruct (firstEvalIndex block) as [e|].
    + apply Z.ltb_lt in He. intros k Hk. specialize (Hspec k Hk). lia.
    + intros k Hk. elim (Hspec k Hk).
  - intros (Hf & Hs & i & j & Hi & Hj & Hlt & He).
    rewrite (first_at_indexOf _ _ _ Hi), (first_at_indexOf _ _ _ Hj).
    repeat split; auto.
    destruct (firstEvalIndex block) as [e|] eqn:E; [|reflexivity].
    apply Z.ltb_lt, He, firstEvalIndex_marker, E.
Qed.

Lemma no_total_slides_no_header (block : string) :
  ~ occurs "Total Slides:" block -> isMainFileHeader block = false.
Proof.
  intros H. destruct (isMainFileHeader block) eqn:E; [|reflexivity].
  apply isMainFileHeader_spec in E. destruct E as (_ & Hs & _).
  elim H. apply (occurs_suffix NL). exact Hs.
Qed.

(** *** The four arms *)

Lemma classify_NewFile (st : split_state) (block : string) :
  classify st block = NewFile <->
  isMainFileHeader block = true
  /\ (currentFilename st = "" \/ extractedFilename block <> Some (currentFilename st)).
Proof.
  unfold classify.
  destruct (isMainFileHeader block); simpl andb.
  - destruct (str_truthy (currentFilename st)) eqn:T; simpl.
    + apply str_truthy_true in T.
      unfold filename_differs.
      destruct (extractedFilename block) as [e|].
      * destruct (String.eqb_spec e (currentFilename st)) as [->|N]; simpl.
        -- split.
           ++ destruct (belongsToCurrentFile _ _ || _);
                [|destruct (negb _)]; discriminate.
           ++ intros [_ [H | H]]; congruence.
        -- split; [|reflexivity]. intros _. split; [reflexivity|].
           right. congruence.
      * split; [|reflexivity]. intros _. split; [reflexivity|]. right. discriminate.
    + apply str_truthy_false in T. split; [|reflexivity]. auto.
  - split; [|intros [H _]; discriminate].
    destruct (belongsToCurrentFile _ _ || _); [|destruct (negb _)]; discriminate.
Qed.

Lemma classify_repeated_header (st : split_state) (block : string) :
  currentFilename st <> "" ->
  extractedFilename block = Some (currentFilename st) ->
  classify st block = SameFile.
Proof.
  intros Hne He. unfold classify. rewrite He.
  apply str_truthy_true in Hne. unfold filename_differs, belongsToCurrentFile.
  rewrite Hne, String.eqb_refl. simpl. rewrite andb_false_r. reflexivity.
Qed.

Lemma classify_without_current (st : split_state) (block : string) :
  currentFile st = "" -> currentFilename st = "" ->
  classify st block = NewFile \/ classify st block = FirstPart.
Proof.
  intros Hf Hn. unfold classify. rewrite Hf, Hn.
  destruct (isMainFileHeader block); simpl; [left; reflexivity|].
  unfold belongsToCurrentFile. simpl. rewrite andb_false_r. right. reflexivity.
Qed.

Lemma classify_with_current (st : split_state) (block : string) :
  currentFile st <> "" -> classify st block <> FirstPart.
Proof.
  intros Hf. apply str_truthy_true in Hf. unfold classify. rewrite Hf. simpl.
  destruct (_ && _); [discriminate|]. destruct (_ || _); discriminate.
Qed.

(** A block that does not start a file joins the current section. *)
Lemma split_step_appends (st : split_state) (part : string) :
  classify st (trim part) <> NewFile -> currentFile st <> "" ->
  split_step st part
  = mkSplit (fileSections st) (currentFile st ++ NL ++ NL ++ trim part)
            (currentFilename st).
Proof.
  intros Hn Hf. pose proof (classify_with_current st (trim part) Hf) as Hp.
  unfold split_step. destruct (classify st (trim part)); congruence.
Qed.

Lemma split_step_opens (st : split_state) (part : string) :
  currentFile st = "" -> currentFilename st = "" ->
  split_step st part
  = mkSplit (fileSections st) (trim part)
            (filename_or_empty (extractedFilename (trim part))).
Proof.
  intros Hf Hn. unfold split_step.
  destruct (classify_without_current st (trim part) Hf Hn) as [-> | ->];
    [|reflexivity].
  unfold flush. rewrite Hf. reflexivity.
Qed.

(** *** Texts without a header *)

Lemma join_fold (sep : string) (xs : list string) (x : string) :
  fold_left (fun acc y => acc ++ sep ++ y) xs x = join sep (x :: xs).
Proof.
  revert x; induction xs as [|y ys IH]; intros x; [reflexivity|].
  cbn [fold_left]. rewrite IH.
  destruct ys as [|z zs]; [reflexivity|].
  change (join sep ((x ++ sep ++ y) :: z :: zs))
    with ((x ++ sep ++ y) ++ sep ++ join sep (z :: zs)).
  change (join sep (x :: y :: z :: zs))
    with (x ++ sep ++ y ++ sep ++ join sep (z :: zs)).
  rewrite !append_assoc. reflexivity.
Qed.

Lemma fold_no_header (ps : list string) (st : split_state) :
  Forall (fun p => isMainFileHeader (trim p) = false) ps ->
  Forall (fun p => trim p <> "") ps ->
  currentFile st <> "" -> trimmed (currentFile st) ->
  let st' := fold_left split_step ps st in
  fileSections st' = fileSections st
  /\ currentFile st' = join (NL ++ NL) (currentFile st :: map trim ps)
  /\ currentFile st' <> "" /\ trimmed (currentFile st').
Proof.
  revert st; induction ps as [|p ps IH]; intros st Hh Hn Hf Ht; cbn [fold_left].
  - simpl. auto.
  - inversion Hh as [|? ? Hp Hps]; subst. inversion Hn as [|? ? Np Nps]; subst.
    assert (Hc : classify st (trim p) <> NewFile).
    { intros C. apply classify_NewFile in C. destruct C as [C _]. congruence. }
    rewrite (split_step_appends st p Hc Hf).
    set (st1 := mkSplit _ _ _).
    assert (Hf1 : currentFile st1 <> "").
    { simpl. intros E. apply append_eq_nil in E. tauto. }
    assert (Ht1 : trimmed (currentFile st1)).
    { exact (trimmed_join _ (NL ++ NL) _ Ht (trim_trimmed p) Hf Np). }
    destruct (IH st1 Hps Nps Hf1 Ht1) as (A & B & C & D).
    split; [exact A|]. split; [|auto].
    rewrite B. unfold st1. cbn [currentFile map].
    rewrite <- (join_fold (NL ++ NL) (map trim ps) (currentFile st ++ NL ++ NL ++ trim p)).
    rewrite <- (join_fold (NL ++ NL) (trim p :: map trim ps) (currentFile st)).
    reflexivity.
Qed.

Lemma parts_nonblank (text p : string) : In p (parts_of text) -> trim p <> "".
Proof.
  unfold parts_of. intros H. apply filter_In in H. destruct H as [_ H].
  apply Nat.ltb_lt in H. intros E. rewrite E in H. simpl in H. lia.
Qed.

Lemma split_sections_no_header (text : string) :
  parts_of text <> [] -> no_header_block text ->
  split_sections text = [join (NL ++ NL) (map trim (parts_of text))].
Proof.
  unfold no_header_block, split_sections. intros Hne Hh.
  assert (Hn : Forall (fun p => trim p <> "") (parts_of text)).
  { apply Forall_forall. intros p. apply parts_nonblank. }
  destruct (parts_of text) as [|p ps]; [congruence|].
  inversion Hh as [|? ? Hp Hps]; subst. inversion Hn as [|? ? Np Nps]; subst.
  cbn [fold_left]. rewrite (split_step_opens split_init p eq_refl eq_refl).
  set (st1 := mkSplit _ _ _).
  destruct (fold_no_header ps st1 Hps Nps Np (trim_trimmed p)) as (A & B & C & D).
  unfold flush. apply str_truthy_true in C. rewrite C, A, (trim_fix _ D), B.
  reflexivity.
Qed.

Lemma split_sections_blank (text : string) :
  parts_of text = [] -> split_sections text = [text].
Proof. unfold split_sections. intros ->. reflexivity. Qed.

Lemma split_sections_nonempty (text : string) : split_sections text <> [].
Proof.
  unfold split_sections.
  destruct (flush _) as [|x l]; simpl; discriminate.
Qed.

Lemma split_string (text : string) :
  text <> "" -> splitPPTFileSections (VStr text) = split_sections text.
Proof.
  intros H. unfold splitPPTFileSections. simpl.
  apply String.eqb_neq in H. rewrite H. reflexivity.
Qed.

(** C3, as the code has it.  The empty string gives the empty sequence and
    every other string a non-empty one (the function is total, nothing is
    raised).  When no block is non-blank, no Section is ever opened and the
    original text is the sole Section, verbatim.  When there are non-blank
    blocks but none is a file header, the sole Section is made of the
    trimmed non-blank blocks joined by one blank line: the content of the
    text, not the text itself. *)
Theorem splitter_degrades_to_one_section (text : string) :
  splitPPTFileSections (VStr "") = []
  /\ (text <> "" -> splitPPTFileSections (VStr text) <> [])
  /\ (text <> "" -> parts_of text = [] ->
      splitPPTFileSections (VStr text) = [text])
  /\ (text <> "" -> parts_of text <> [] -> no_header_block text ->
      splitPPTFileSections (VStr text)
      = [join (NL ++ NL) (map trim (parts_of text))]).
Proof.
  split; [reflexivity|].
  split; [intros H; rewrite (split_string _ H); apply split_sections_nonempty|].
  split; [intros H; rewrite (split_string _ H); apply split_sections_blank|].
  intros H; rewrite (split_string _ H); apply split_sections_no_header.
Qed.

Lemma splitter_degrades_to_one_section_witness :
  plain_text <> "" /\ parts_of plain_text <> [] /\ no_header_block plain_text
  /\ splitPPTFileSections (VStr plain_text)
     = [join (NL ++ NL) (map trim (parts_of plain_text))].
Proof.
  assert (H1 : plain_text <> "") by discriminate.
  assert (H2 : parts_of plain_text <> []) by discriminate.
  assert (H3 : no_header_block plain_text) by (repeat constructor).
  split; [exact H1|]. split; [exact H2|]. split; [exact H3|].
  exact (proj2 (proj2 (proj2 (splitter_degrades_to_one_section plain_text))) H1 H2 H3).
Defined.

(** C3, as the specification words it, fails: a text without any header
    that ends in a line feed comes back without the line feed. *)
Lemma headerless_text_not_verbatim :
  ~ (forall text, text <> "" -> no_header_block text ->
                  splitPPTFileSections (VStr text) = [text]).
Proof.
  intros H. specialize (H plain_text ltac:(discriminate) ltac:(repeat constructor)).
  discriminate H.
Qed.

(** *** Sections as groups of blocks *)











(** A second file, a repeated header and a quoted "File:" reference. *)
Example splitter_examples :
  List.length (splitPPTFileSections (VStr two_files_text)) = 2%nat
  /\ splitPPTFileSections (VStr repeated_header_text) = [repeated_header_text]
  /\ splitPPTFileSections (VStr quoted_reference_text) = [quoted_reference_text]
  /\ splitPPTFileSections (VStr example_text) = [example_text].
Proof. repeat split. Qed.

End SplitterFacts.

(** ** The Score Extractor *)

Module ExtractorFacts.
Import JS Model Spec StringFacts TrimFacts MatcherFacts PptProcessors.

(** *** The score markers *)

Lemma digits_slash100_sound (s d : string) :
  digits_slash100 s = Some d ->
  exists post, s = d ++ "/100" ++ post
               /\ all_chars is_digit d = true /\ d <> "".
Proof.
  revert d; induction s as [|c s IH]; intros d; simpl; [discriminate|].
  destruct (is_digit c) eqn:D; [|discriminate].
  destruct (digits_slash100 s) as [d'|].
  - intros [= <-]. destruct (IH d' eq_refl) as (post & -> & Hd & _).
    exists post. simpl. rewrite D. repeat split; auto. discriminate.
  - destruct (startsWith "/100" s) eqn:P; [|discriminate]. intros [= <-].
    apply startsWith_spec in P. destruct P as [post ->].
    exists post. simpl. rewrite D. repeat split; auto. discriminate.
Qed.

Lemma digits_slash100_complete (d post : string) :
  all_chars is_digit d = true -> d <> "" ->
  digits_slash100 (d ++ "/100" ++ post) = Some d.
Proof.
  induction d as [|c d IH]; intros Hd Hne; [congruence|].
  simpl in Hd. apply andb_true_iff in Hd. destruct Hd as [Hc Hd].
  destruct d as [|c' d'].
  - simpl. rewrite Hc. reflexivity.
  - specialize (IH Hd ltac:(discriminate)).
    change (String c (String c' d') ++ "/100" ++ post)
      with (String c (String c' d' ++ "/100" ++ post)).
    remember (String c' d' ++ "/100" ++ post) as t.
    cbn [digits_slash100]. rewrite Hc, IH. reflexivity.
Qed.

Lemma digits_slash100_ws (c : ascii) (s : string) :
  is_ws c = true -> digits_slash100 (String c s) = None.
Proof.
  intros W. simpl. destruct (is_digit c) eqn:D; [|reflexivity].
  apply is_digit_not_ws in D. congruence.
Qed.

Lemma ws_digits_sound (r d : string) :
  ws_digits_slash100 r = Some d ->
  exists ws post, r = ws ++ d ++ "/100" ++ post
                  /\ all_chars is_ws ws = true
                  /\ all_chars is_digit d = true /\ d <> "".
Proof.
  revert d; induction r as [|c r IH]; intros d; [discriminate|].
  cbn [ws_digits_slash100]. destruct (is_ws c) eqn:W.
  - destruct (ws_digits_slash100 r) as [d'|].
    + intros [= <-]. destruct (IH d' eq_refl) as (ws & post & -> & Hws & Hd & Hne).
      exists (String c ws), post. simpl. rewrite W. auto.
    + rewrite (digits_slash100_ws c r W). discriminate.
  - intros H. destruct (digits_slash100_sound _ _ H) as (post & E & Hd & Hne).
    exists "", post. auto.
Qed.

Lemma ws_digits_complete (ws d post : string) :
  all_chars is_ws ws = true -> all_chars is_digit d = true -> d <> "" ->
  ws_digits_slash100 (ws ++ d ++ "/100" ++ post) = Some d.
Proof.
  intros Hws Hd Hne. induction ws as [|w ws IH].
  - destruct d as [|c d]; [congruence|].
    pose proof (digits_slash100_complete (String c d) post Hd Hne) as H.
    simpl in Hd. apply andb_true_iff in Hd. destruct Hd as [Hc _].
    change ("" ++ String c d ++ "/100" ++ post)
      with (String c (d ++ "/100" ++ post)).
    change (String c d ++ "/100" ++ post)
      with (String c (d ++ "/100" ++ post)) in H.
    remember (d ++ "/100" ++ post) as t.
    cbn [ws_digits_slash100]. rewrite (is_digit_not_ws c Hc). exact H.
  - simpl in Hws. apply andb_true_iff in Hws. destruct Hws as [Hw Hws].
    specialize (IH Hws).
    change (String w ws ++ d ++ "/100" ++ post)
      with (String w (ws ++ d ++ "/100" ++ post)).
    remember (ws ++ d ++ "/100" ++ post) as t.
    cbn [ws_digits_slash100]. rewrite Hw, IH. reflexivity.
Qed.

Lemma match_score_sound (label s d : string) :
  match_score label s = Some d ->
  exists pre ws post,
    s = pre ++ label ++ ws ++ d ++ "/100" ++ post
    /\ all_chars is_ws ws = true /\ all_chars is_digit d = true /\ d <> "".
Proof.
  assert (At : forall s, score_at label s = Some d ->
            exists ws post, s = label ++ ws ++ d ++ "/100" ++ post
              /\ all_chars is_ws ws = true /\ all_chars is_digit d = true /\ d <> "").
  { intros s0. unfold score_at.
    destruct (strip_prefix label s0) as [r|] eqn:P; [|discriminate].
    apply strip_prefix_spec in P. subst s0. intros H.
    destruct (ws_digits_sound _ _ H) as (ws & post & -> & Hrest).
    exists ws, post. auto. }
  induction s as [|c s IH]; cbn [match_score].
  - destruct (score_at label "") eqn:E; [|discriminate]. intros [= ->].
    destruct (At _ E) as (ws & post & Hs & Hrest). exists "", ws, post. auto.
  - destruct (score_at label (String c s)) eqn:E.
    + intros [= ->]. destruct (At _ E) as (ws & post & Hs & Hrest).
      exists "", ws, post. auto.
    + intros H. destruct (IH H) as (pre & ws & post & -> & Hrest).
      exists (String c pre), ws, post. auto.
Qed.

Lemma match_score_complete (label pre ws d post : string) :
  all_chars is_ws ws = true -> all_chars is_digit d = true -> d <> "" ->
  match_score label (pre ++ label ++ ws ++ d ++ "/100" ++ post) <> None.
Proof.
  intros Hws Hd Hne.
  assert (At : score_at label (label ++ ws ++ d ++ "/100" ++ post) = Some d).
  { unfold score_at. rewrite strip_prefix_append. apply ws_digits_complete; auto. }
  induction pre as [|c pre IH].
  - destruct (label ++ ws ++ d ++ "/100" ++ post) eqn:E;
      cbn [append match_score]; rewrite ?E, At; discriminate.
  - cbn [append match_score].
    destruct (score_at label (String c (pre ++ _))); [discriminate | exact IH].
Qed.

(** A score marker is found exactly when it occurs in the section. *)
Lemma marker_found_iff (label section : string) :
  marker_int label section <> None <-> marker_occurs label section.
Proof.
  unfold marker_int, marker_occurs. split.
  - destruct (match_score label section) as [d|] eqn:E; [intros _|simpl; congruence].
    destruct (match_score_sound _ _ _ E) as (pre & ws & post & Hs & Hrest).
    exists pre, ws, d, post. auto.
  - intros (pre & ws & d & post & -> & Hws & Hd & Hne).
    pose proof (match_score_complete label pre ws d post Hws Hd Hne) as H.
    destruct (match_score label _); [discriminate | congruence].
Qed.

Lemma marker_value_int (label section : string) :
  marker_value label section
  = option_map (fun n => round (inject_Z (Z.of_N n))) (marker_int label section).
Proof.
  unfold marker_value, marker_int. destruct (match_score label section); reflexivity.
Qed.

(** *** The score of a section *)

(** The score is the double mean of the doubles of the markers found. *)
Lemma section_score_double (section : string) :
  section_score section = match marker_doubles section with
                          | [] => None
                          | l => Some (double_mean l)
                          end.
Proof.
  unfold section_score, marker_doubles, marker_ints, score_labels.
  rewrite !marker_value_int. cbn [map].
  destruct (marker_int "Content Quality Score:" section) as [c|];
    destruct (marker_int "Structure Score:" section) as [s|];
    destruct (marker_int "Alignment Score:" section) as [a|]; reflexivity.
Qed.

Lemma keep_some_nil {A : Type} (l : list (option A)) :
  ExcelExport.keep_some l = [] <-> forall o, In o l -> o = None.
Proof.
  unfold ExcelExport.keep_some. induction l as [|[x|] l IH]; simpl.
  - split; [intros _ o [] | reflexivity].
  - split; [discriminate|]. intros H. specialize (H (Some x) (or_introl eq_refl)).
    discriminate.
  - rewrite IH. split.
    + intros H o [<- | Ho]; auto.
    + intros H o Ho. apply H. right. exact Ho.
Qed.

Lemma mean_of_present_none (l : list (option N)) :
  mean_of_present l = None <-> forall o, In o l -> o = None.
Proof.
  rewrite <- keep_some_nil. unfold mean_of_present.
  destruct (ExcelExport.keep_some l); split; congruence.
Qed.

Lemma marker_doubles_nil (section : string) :
  marker_doubles section = [] <-> mean_of_present (marker_ints section) = None.
Proof.
  unfold marker_doubles, mean_of_present.
  destruct (ExcelExport.keep_some (marker_ints section)); simpl; split; congruence.
Qed.

Lemma section_score_present (section : string) :
  section_score section = None <-> mean_of_present (marker_ints section) = None.
Proof.
  rewrite section_score_double, <- marker_doubles_nil.
  destruct (marker_doubles section); split; congruence.
Qed.

Lemma section_score_none (section : string) :
  section_score section = None <->
  forall label, In label score_labels -> ~ marker_occurs label section.
Proof.
  rewrite section_score_present.
  destruct (mean_of_present (marker_ints section)) as [m|] eqn:E; simpl.
  - split; [discriminate|]. intros H. exfalso.
    assert (N : mean_of_present (marker_ints section) = None).
    { apply mean_of_present_none. intros o Ho. unfold marker_ints in Ho.
      apply in_map_iff in Ho. destruct Ho as (label & <- & Hl).
      destruct (marker_int label section) eqn:M; [|reflexivity].
      elim (H label Hl). apply marker_found_iff. congruence. }
    congruence.
  - split; [intros _|reflexivity]. intros label Hl Ho.
    apply marker_found_iff in Ho. apply Ho.
    apply (proj1 (mean_of_present_none _) E).
    unfold marker_ints.
    apply (in_map (fun l => marker_int l section) score_labels label Hl).
Qed.

Lemma flat_map_length_le {A B : Type} (f : A -> option B) (l : list A) :
  (List.length (flat_map (fun x => match f x with Some y => [y] | None => [] end) l)
   <= List.length l)%nat.
Proof.
  induction l as [|x l IH]; simpl; [lia|].
  destruct (f x); simpl; lia.
Qed.

Lemma markers_at_most_three (section : string) :
  (List.length (ExcelExport.keep_some (marker_ints section)) <= 3)%nat.
Proof. apply (flat_map_length_le (fun o : option N => o)). Qed.

(** Up to three integers below 2^51 are added without rounding. *)
Lemma small_exact_total (vs : list N) :
  (List.length vs <= 3)%nat -> Forall (fun n => (n < 2 ^ 51)%N) vs ->
  exact_total (map Z.of_N vs).
Proof.
  intros L F.
  assert (B : forall n, (n < 2 ^ 51)%N -> (0 <= Z.of_N n < 2 ^ 51)%Z).
  { intros n Hn. split; [lia|]. change (2 ^ 51)%Z with (Z.of_N (2 ^ 51)). lia. }
  split; [|split].
  - clear L. induction F; constructor; auto. lia.
  - destruct vs as [|a [|b [|c [|d vs]]]]; simpl in L; try lia; simpl;
      repeat match goal with H : Forall _ (_ :: _) |- _ => inversion H; clear H; subst end;
      repeat match goal with H : (_ < 2 ^ 51)%N |- _ => apply B in H end; lia.
  - rewrite length_map. lia.
Qed.

Lemma small_doubles (vs : list N) :
  Forall (fun n => (n < 2 ^ 51)%N) vs ->
  map (fun n => round (inject_Z (Z.of_N n))) vs
  = map (fun z => Fin (inject_Z z)) (map Z.of_N vs).
Proof.
  intros F. rewrite map_map. apply map_ext_in. intros n Hn.
  rewrite Forall_forall in F. specialize (F n Hn).
  apply DoubleFacts.round_Z.
  assert (Z.of_N n < 2 ^ 51)%Z by (change (2 ^ 51)%Z with (Z.of_N (2 ^ 51)); lia).
  lia.
Qed.

Lemma double_mean_small (vs : list N) :
  vs <> [] -> (List.length vs <= 3)%nat -> Forall (fun n => (n < 2 ^ 51)%N) vs ->
  double_mean (map (fun n => round (inject_Z (Z.of_N n))) vs)
  = round (mean (map (fun n => inject_Z (Z.of_N n)) vs)).
Proof.
  intros Hne L F. rewrite (small_doubles vs F).
  rewrite DoubleFacts.double_mean_exact;
    [| destruct vs; [congruence | discriminate] | now apply small_exact_total].
  rewrite map_map. reflexivity.
Qed.

(** With markers below 2^51 the score is the double nearest to the
    arithmetic mean of the integers. *)
Lemma section_score_mean (section : string) :
  small_markers section ->
  section_score section = option_map round (mean_of_present (marker_ints section)).
Proof.
  intros S. rewrite section_score_double. unfold marker_doubles, mean_of_present.
  unfold small_markers in S. pose proof (markers_at_most_three section) as L.
  destruct (ExcelExport.keep_some (marker_ints section)) as [|v vs]; [reflexivity|].
  cbn [map option_map]. f_equal.
  exact (double_mean_small (v :: vs) ltac:(discriminate) L S).
Qed.

(** *** Feedback and file name *)

Lemma occurs_tail (needle : string) (c : ascii) (s : string) :
  occurs needle s -> occurs needle (String c s).
Proof. intros (pre & post & ->). exists (String c pre), post. reflexivity. Qed.

Lemma feedback_at_absent (s : string) :
  ~ occurs "Feedback:" s -> feedback_at s = None.
Proof.
  intros H. unfold feedback_at.
  destruct (strip_prefix "Feedback:" s) as [r|] eqn:P; [|reflexivity].
  apply strip_prefix_spec in P. elim H. exists "", r. exact P.
Qed.

Lemma feedback_scan_absent (s : string) (skip : nat) :
  ~ occurs "Feedback:" s -> feedback_scan skip s = [].
Proof.
  revert skip; induction s as [|c s IH]; intros skip H; [reflexivity|].
  assert (Hs : ~ occurs "Feedback:" s)
    by (intros Ho; apply H, occurs_tail, Ho).
  cbn [feedback_scan]. destruct skip as [|k]; [|apply IH, Hs].
  rewrite (feedback_at_absent _ H). apply IH, Hs.
Qed.

Lemma no_feedback_text (section : string) :
  ~ occurs "Feedback:" section -> match_Feedback_all section = None.
Proof.
  intros H. unfold match_Feedback_all. rewrite (feedback_scan_absent _ 0 H).
  reflexivity.
Qed.

Lemma no_file_text (section : string) :
  ~ occurs "File:" section -> match_File_star section = None.
Proof. apply file_scan_absent. Qed.

Lemma section_reasoning_fallback (section : string) :
  match_Feedback_all section = None -> section_reasoning section = "".
Proof. unfold section_reasoning. intros ->. reflexivity. Qed.

Lemma section_filename_fallback (section : string) :
  match_File_star section = None -> section_filename section = "Unknown".
Proof. unfold section_filename. intros ->. reflexivity. Qed.

(** *** The record of a section *)

(** What [section_record] pushes, spelled out. *)
Lemma section_record_some (section : string) (r : ScoreRecord) :
  section_record section = Some r <->
  section_filename section <> ""
  /\ (section_score section <> None \/ section_reasoning section <> "")
  /\ r = mkScore (VStr (section_filename section))
                 (match section_score section with
                  | Some n => VNum n
                  | None => VStr "-"
                  end)
                 (VStr (if str_truthy (section_reasoning section)
                        then section_reasoning section
                        else "Evaluation completed"))
                 None.
Proof.
  unfold section_record.
  destruct (str_truthy (section_filename section)) eqn:F; simpl.
  - apply str_truthy_true in F.
    destruct (section_score section) as [n|]; simpl.
    + split; [intros [= <-]; repeat split; auto; left; discriminate|].
      intros (_ & _ & ->). reflexivity.
    + destruct (str_truthy (section_reasoning section)) eqn:R.
      * apply str_truthy_true in R.
        split; [intros [= <-]; repeat split; auto|].
        intros (_ & _ & ->). reflexivity.
      * split; [discriminate|]. intros (_ & [H | H] & _); [congruence|].
        apply str_truthy_true in H. congruence.
  - split; [discriminate|]. intros (H & _). apply str_truthy_true in H. congruence.
Qed.

Lemma extract_string (text : string) :
  extractPPTScores (VStr text)
  = flat_map (fun section => match section_record section with
                             | Some r => [r]
                             | None => []
                             end)
             (splitPPTFileSections (VStr text)).
Proof.
  unfold extractPPTScores. simpl.
  destruct (String.eqb_spec text "") as [->|N]; reflexivity.
Qed.

Lemma extracted_from_section (result : value) (r : ScoreRecord) :
  In r (extractPPTScores result) ->
  exists section, In section (splitPPTFileSections result)
                  /\ section_record section = Some r.
Proof.
  unfold extractPPTScores.
  destruct (negb (truthy result) || negb (typeof result =? "string"));
    [intros []|].
  rewrite in_flat_map. intros (section & Hin & Hr). exists section.
  split; [exact Hin|].
  destruct (section_record section) as [r'|]; [|destruct Hr].
  destruct Hr as [<- | []]. reflexivity.
Qed.

(** *** The claims *)

(** C5.  A score marker is found exactly when "<label>", white space, a
    run of digits and "/100" occur in the section, and then it carries the
    integer of such a run.  The score of the section is the mean, as
    double arithmetic computes it, of the doubles nearest to the integers
    of the markers found, at most three; when these integers are below
    2^51, as every score out of 100 is, it is the double nearest to their
    arithmetic mean.  There is no score exactly when none of the three
    markers occurs; a record then carries "-", never a number.  On the
    example of the specification the extractor yields one record, named
    "quiz1.pptx", with score 70 and reasoning "Good structure". *)
Theorem score_is_mean_of_present_markers (section : string) :
  (forall label, marker_int label section <> None <-> marker_occurs label section)
  /\ (forall label n, marker_int label section = Some n ->
        exists pre ws d post,
          section = pre ++ label ++ ws ++ d ++ "/100" ++ post
          /\ all_chars is_ws ws = true /\ all_chars is_digit d = true
          /\ d <> "" /\ digits_value d = n)
  /\ section_score section = match marker_doubles section with
                             | [] => None
                             | l => Some (double_mean l)
                             end
  /\ (small_markers section ->
      section_score section = option_map round (mean_of_present (marker_ints section)))
  /\ (List.length (ExcelExport.keep_some (marker_ints section)) <= 3)%nat
  /\ (section_score section = None <->
      forall label, In label score_labels -> ~ marker_occurs label section)
  /\ (forall r, section_record section = Some r ->
        score_percent r = match marker_doubles section with
                          | [] => VStr "-"
                          | l => VNum (double_mean l)
                          end)
  /\ extractPPTScores (VStr example_text)
     = [mkScore (VStr "quiz1.pptx") (VNum (Fin 70)) (VStr "Good structure") None].
Proof.
  split; [intros label; apply marker_found_iff|].
  split.
  { intros label n. unfold marker_int.
    destruct (match_score label section) as [d|] eqn:E; [|discriminate].
    intros [= <-].
    destruct (match_score_sound _ _ _ E) as (pre & ws & post & Hs & Hws & Hd & Hne).
    exists pre, ws, d, post. auto. }
  split; [apply section_score_double|].
  split; [apply section_score_mean|].
  split; [apply markers_at_most_three|].
  split; [apply section_score_none|].
  split.
  { intros r Hr. apply section_record_some in Hr. destruct Hr as (_ & _ & ->).
    cbn [score_percent]. rewrite section_score_double.
    destruct (marker_doubles section); reflexivity. }
  vm_compute. reflexivity.
Qed.

Lemma score_is_mean_of_present_markers_witness :
  small_markers example_text
  /\ section_score example_text
     = option_map round (mean_of_present (marker_ints example_text)).
Proof.
  assert (H : small_markers example_text).
  { unfold small_markers.
    replace (ExcelExport.keep_some (marker_ints example_text)) with [80; 60]%N
      by (vm_compute; reflexivity).
    repeat first [apply Forall_nil | apply Forall_cons; [reflexivity|]]. }
  split; [exact H|].
  exact (proj1 (proj2 (proj2 (proj2 (score_is_mean_of_present_markers example_text)))) H).
Defined.

(** The claim as the specification states it fails: with the markers
    2^53, 1 and 1 both additions are rounded away, and the score is one
    below the double nearest to the arithmetic mean. *)
Lemma score_not_mean_of_markers :
  exists m,
    mean_of_present (marker_ints rounded_sum_text) = Some m
    /\ (m == 9007199254740994 # 3)%Q
    /\ round m = Fin (6004799503160663 # 2)
    /\ extractPPTScores (VStr rounded_sum_text)
       = [mkScore (VStr "big.pptx") (VNum (Fin (6004799503160661 # 2)))
                  (VStr "Evaluation completed") None].
Proof.
  eexists. split; [vm_compute; reflexivity|].
  split; [reflexivity|]. split; vm_compute; reflexivity.
Qed.

(** C7.  A section pushes a record exactly when its file name is not
    empty and it has a score or a non-empty reasoning; the others are
    skipped, and the output is never longer than the list of sections.
    In a pushed record the reasoning is "Evaluation completed" when the
    feedback expression finds nothing, in particular without any
    "Feedback:" in the section, and the name is "Unknown" when the file
    expression finds nothing, in particular without any "File:". *)
Theorem section_contributes_iff (section : string) :
  (section_record section <> None <->
   section_filename section <> ""
   /\ (section_score section <> None \/ section_reasoning section <> ""))
  /\ (forall r, section_record section = Some r ->
        name r = VStr (section_filename section)
        /\ (match_Feedback_all section = None ->
            reasoning r = VStr "Evaluation completed")
        /\ (~ occurs "Feedback:" section ->
            reasoning r = VStr "Evaluation completed")
        /\ (match_File_star section = None -> name r = VStr "Unknown")
        /\ (~ occurs "File:" section -> name r = VStr "Unknown"))
  /\ (forall text,
        extractPPTScores (VStr text)
        = flat_map (fun s => match section_record s with
                             | Some r => [r]
                             | None => []
                             end)
                   (splitPPTFileSections (VStr text))
        /\ (List.length (extractPPTScores (VStr text))
            <= List.length (splitPPTFileSections (VStr text)))%nat).
Proof.
  split.
  { split.
    - destruct (section_record section) as [r|] eqn:E; [intros _|congruence].
      apply section_record_some in E. tauto.
    - intros [Hf Hs].
      pose proof (proj2 (section_record_some section _) (conj Hf (conj Hs eq_refl))) as E.
      congruence. }
  split.
  { intros r Hr. apply section_record_some in Hr. destruct Hr as (_ & _ & ->).
    cbn [name reasoning].
    assert (R : match_Feedback_all section = None ->
                VStr (if str_truthy (section_reasoning section)
                      then section_reasoning section else "Evaluation completed")
                = VStr "Evaluation completed").
    { intros H. rewrite (section_reasoning_fallback _ H). reflexivity. }
    assert (F : match_File_star section = None ->
                VStr (section_filename section) = VStr "Unknown").
    { intros H. rewrite (section_filename_fallback _ H). reflexivity. }
    split; [reflexivity|]. split; [exact R|].
    split; [intros H; apply R, no_feedback_text, H|].
    split; [exact F|]. intros H. apply F, no_file_text, H. }
  intros text. split; [apply extract_string|].
  rewrite extract_string. apply flat_map_length_le.
Qed.

Lemma section_contributes_iff_witness :
  ~ occurs "Feedback:" bare_score_section
  /\ ~ occurs "File:" bare_score_section
  /\ exists r, section_record bare_score_section = Some r
               /\ reasoning r = VStr "Evaluation completed"
               /\ name r = VStr "Unknown".
Proof.
  assert (H1 : ~ occurs "Feedback:" bare_score_section)
    by (apply indexOf_none; reflexivity).
  assert (H2 : ~ occurs "File:" bare_score_section)
    by (apply indexOf_none; reflexivity).
  split; [exact H1|]. split; [exact H2|].
  eexists. split; [reflexivity|].
  pose proof (proj1 (proj2 (section_contributes_iff bare_score_section)) _ eq_refl)
    as (_ & _ & Hr & _ & Hn).
  split; [exact (Hr H1) | exact (Hn H2)].
Defined.

(** *** Scores are not negative *)

Lemma round_not_negative (q : Q) : (0 <= q)%Q -> num_geb (round q) (Fin 0) = true.
Proof.
  intros H. destruct (DoubleFacts.round_nonneg q H) as [-> | (r & -> & Hr)];
    [reflexivity|]. cbn [num_geb]. now apply Qle_bool_iff.
Qed.

Lemma not_negative_cases (n : number) :
  num_geb n (Fin 0) = true -> n = Inf false \/ exists q, n = Fin q /\ (0 <= q)%Q.
Proof.
  destruct n as [q| |[|]]; cbn [num_geb negb]; try discriminate; auto.
  intros H. right. exists q. split; [reflexivity | now apply Qle_bool_iff].
Qed.

Lemma add_not_negative (a b : number) :
  num_geb a (Fin 0) = true -> num_geb b (Fin 0) = true ->
  num_geb (num_add a b) (Fin 0) = true.
Proof.
  intros Ha Hb.
  destruct (not_negative_cases a Ha) as [-> | (x & -> & Hx)];
    destruct (not_negative_cases b Hb) as [-> | (y & -> & Hy)]; try reflexivity.
  cbn [num_add]. apply round_not_negative. lra.
Qed.

Lemma fold_add_not_negative (l : list number) (a : number) :
  num_geb a (Fin 0) = true -> Forall (fun n => num_geb n (Fin 0) = true) l ->
  num_geb (fold_left num_add l a) (Fin 0) = true.
Proof.
  intros A H. revert a A.
  induction H as [|x l Hx Hl IH]; intros a A; simpl; [exact A|].
  apply IH. now apply add_not_negative.
Qed.

Lemma double_sum_not_negative (l : list number) :
  Forall (fun n => num_geb n (Fin 0) = true) l ->
  num_geb (double_sum l) (Fin 0) = true.
Proof. apply fold_add_not_negative. reflexivity. Qed.

Lemma of_nat_small (k : nat) :
  (1 <= k <= 3)%nat -> exists q, of_nat k = Fin q /\ (0 < q)%Q.
Proof.
  intros H. assert (C : k = 1%nat \/ k = 2%nat \/ k = 3%nat) by lia.
  destruct C as [-> | [-> | ->]]; eexists; (split; [vm_compute; reflexivity | reflexivity]).
Qed.

Lemma double_mean_not_negative (l : list number) :
  l <> [] -> (List.length l <= 3)%nat ->
  Forall (fun n => num_geb n (Fin 0) = true) l ->
  num_geb (double_mean l) (Fin 0) = true.
Proof.
  intros Hne L F. unfold double_mean.
  destruct (of_nat_small (List.length l)) as (k & -> & Hk);
    [destruct l; [congruence | simpl in *; lia]|].
  destruct (not_negative_cases _ (double_sum_not_negative l F)) as [-> | (x & -> & Hx)].
  - cbn [num_div]. assert (B : Qle_bool 0 k = true) by (apply Qle_bool_iff; lra).
    rewrite B. reflexivity.
  - cbn [num_div].
    assert (Z : Qeqb0 k = false) by (apply DoubleFacts.Qeqb0_false; lra).
    rewrite Z. apply round_not_negative.
    apply Qle_shift_div_l; [exact Hk | lra].
Qed.

Lemma marker_doubles_not_negative (section : string) :
  Forall (fun n => num_geb n (Fin 0) = true) (marker_doubles section).
Proof.
  unfold marker_doubles. apply Forall_forall. intros n Hn.
  apply in_map_iff in Hn. destruct Hn as (v & <- & _).
  apply round_not_negative. change 0%Q with (inject_Z 0). rewrite <- Zle_Qle. lia.
Qed.

(** The score of a section is a number that is not negative: a finite
    double or Infinity. *)
Lemma section_score_not_negative (section : string) (n : number) :
  section_score section = Some n -> num_geb n (Fin 0) = true.
Proof.
  rewrite section_score_double. pose proof (marker_doubles_not_negative section) as F.
  pose proof (markers_at_most_three section) as L.
  assert (L' : (List.length (marker_doubles section) <= 3)%nat)
    by (unfold marker_doubles; now rewrite length_map).
  destruct (marker_doubles section) as [|x l] eqn:E; [discriminate|].
  intros [= <-]. apply double_mean_not_negative; [discriminate | exact L' | exact F].
Qed.

Lemma section_score_is_number (section : string) (n : number) :
  section_score section = Some n -> is_number n = true.
Proof.
  rewrite section_score_double.
  destruct (marker_doubles section) as [|x l]; [discriminate|].
  intros [= <-]. unfold double_mean.
  destruct (double_sum (x :: l)) as [a| |s], (of_nat (List.length (x :: l))) as [b| |t];
    cbn [num_div]; try reflexivity.
  destruct (Qeqb0 b); [destruct (Qeqb0 a); reflexivity|].
  apply DoubleFacts.round_is_number.
Qed.

(** The mean of up to three integers is zero or at least a third. *)
Lemma mean_zero_or_third (vs : list N) :
  vs <> [] -> (List.length vs <= 3)%nat ->
  (mean (map (fun n => inject_Z (Z.of_N n)) vs) == 0
   \/ 1 # 3 <= mean (map (fun n => inject_Z (Z.of_N n)) vs))%Q.
Proof.
  intros Hne L.
  assert (P : forall n : N, (inject_Z (Z.of_N n) == 0 \/ 1 <= inject_Z (Z.of_N n))%Q).
  { intros n. destruct (N.eq_dec n 0) as [-> | NZ]; [left; reflexivity | right].
    change 1%Q with (inject_Z 1). rewrite <- Zle_Qle. lia. }
  destruct vs as [|a [|b [|c [|d vs]]]]; simpl in L; try lia; try congruence;
    unfold mean, Qsum, Qdiv; cbn [map fold_left List.length].
  - change (/ inject_Z (Z.of_nat 1))%Q with 1%Q.
    destruct (P a) as [Ha | Ha]; [left | right]; lra.
  - change (/ inject_Z (Z.of_nat 2))%Q with (1 # 2)%Q.
    destruct (P a) as [Ha | Ha], (P b) as [Hb | Hb]; [left | right ..]; lra.
  - change (/ inject_Z (Z.of_nat 3))%Q with (1 # 3)%Q.
    destruct (P a) as [Ha | Ha], (P b) as [Hb | Hb], (P c) as [Hc | Hc];
      [left | right ..]; lra.
Qed.

Lemma round_third : round (1 # 3) = Fin (6004799503160661 # 18014398509481984).
Proof. vm_compute. reflexivity. Qed.

(** With small markers the score is finite, and 0 only when the mean is. *)
Lemma small_score (section : string) (m : Q) :
  small_markers section -> mean_of_present (marker_ints section) = Some m ->
  exists q, round m = Fin q /\ (0 <= q)%Q /\ (q == 0 -> m == 0)%Q.
Proof.
  intros S M. unfold mean_of_present in M. unfold small_markers in S.
  pose proof (markers_at_most_three section) as L.
  destruct (ExcelExport.keep_some (marker_ints section)) as [|v vs] eqn:K; [discriminate|].
  injection M as <-. set (l := v :: vs) in *.
  assert (Hne : l <> []) by discriminate.
  pose proof (double_mean_small l Hne L S) as D.
  pose proof (double_mean_not_negative (map (fun n => round (inject_Z (Z.of_N n))) l)) as NN.
  rewrite length_map in NN.
  assert (F : Forall (fun n => num_geb n (Fin 0) = true)
                     (map (fun n => round (inject_Z (Z.of_N n))) l)).
  { apply Forall_forall. intros n Hn. apply in_map_iff in Hn. destruct Hn as (w & <- & _).
    apply round_not_negative. change 0%Q with (inject_Z 0). rewrite <- Zle_Qle. lia. }
  specialize (NN ltac:(subst l; discriminate) L F). rewrite D in NN.
  set (m := mean (map (fun n => inject_Z (Z.of_N n)) l)) in *.
  assert (B : (m <= inject_Z (2 ^ 51))%Q).
  { pose proof (small_exact_total l L S) as (Pos & Tot & _).
    unfold m, mean. rewrite <- (map_map Z.of_N inject_Z), DoubleFacts.Qsum_inject.
    rewrite length_map.
    assert (Hk : (0 < inject_Z (Z.of_nat (List.length l)))%Q)
      by (change 0%Q with (inject_Z 0); rewrite <- Zlt_Qlt; subst l; simpl; lia).
    apply Qle_shift_div_r; [exact Hk|].
    rewrite <- inject_Z_mult, <- Zle_Qle.
    assert (T : forall zs a, Forall (fun z => (z < 2 ^ 51)%Z) zs ->
                (fold_left Z.add zs a <= a + 2 ^ 51 * Z.of_nat (List.length zs))%Z).
    { clear. induction zs as [|z zs IH]; intros a H; cbn [fold_left List.length]; [lia|].
      inversion H as [|? ? Hz Hzs]; subst. specialize (IH (a + z)%Z Hzs). lia. }
    specialize (T (map Z.of_N l) 0%Z). rewrite !length_map in *.
    enough (Forall (fun z => (z < 2 ^ 51)%Z) (map Z.of_N l)) as X
      by (specialize (T X); lia).
    apply Forall_forall. intros z Hz. apply in_map_iff in Hz.
    destruct Hz as (w & <- & Hw). rewrite Forall_forall in S. specialize (S w Hw).
    change (2 ^ 51)%Z with (Z.of_N (2 ^ 51)). lia. }
  destruct (not_negative_cases _ NN) as [I | (q & E & Hq)].
  - exfalso. pose proof (DoubleFacts.round_mono _ _ B) as Mo.
    rewrite DoubleFacts.round_Z, I in Mo by (simpl; lia). discriminate.
  - exists q. split; [exact E|]. split; [exact Hq|]. intros Z.
    destruct (mean_zero_or_third l Hne L) as [Z0 | T]; [exact Z0|exfalso].
    fold m in T. pose proof (DoubleFacts.round_mono _ _ T) as Mo.
    rewrite round_third, E in Mo. cbn [num_geb] in Mo. apply Qle_bool_iff in Mo.
    rewrite Z in Mo. revert Mo. apply Qlt_not_le. reflexivity.
Qed.

(** C9.  Every record of [extractPPTScores] comes from a section of the
    splitter and has a non-empty name, a non-empty reasoning (the joined
    feedback of the section or "Evaluation completed") and, as its score,
    either the string "-" when the section has no score marker or the
    double mean of the markers found: a number that is never NaN, null or
    negative; it is a finite double or, when the markers are so large
    that reading or adding them overflows, Infinity.  With markers below
    2^51 it is finite, the double nearest to their arithmetic mean, and 0
    only when the markers say so.  The record has no details. *)
Theorem extracted_records_well_formed (result : value) (r : ScoreRecord) :
  In r (extractPPTScores result) ->
  exists section nm rs,
    In section (splitPPTFileSections result)
    /\ section_record section = Some r
    /\ name r = VStr nm /\ nm <> ""
    /\ reasoning r = VStr rs /\ rs <> ""
    /\ (rs = section_reasoning section \/ rs = "Evaluation completed")
    /\ ((score_percent r = VStr "-"
         /\ mean_of_present (marker_ints section) = None)
        \/ exists n m, score_percent r = VNum n
                       /\ mean_of_present (marker_ints section) = Some m
                       /\ n = double_mean (marker_doubles section)
                       /\ n <> NaN
                       /\ (n = Inf false \/ exists q, n = Fin q /\ (0 <= q)%Q)
                       /\ is_number n = true
                       /\ (small_markers section ->
                           exists q, n = Fin q /\ round m = Fin q
                                     /\ (q == 0 -> m == 0)%Q))
    /\ details r = None.
Proof.
  intros Hin. destruct (extracted_from_section _ _ Hin) as (section & Hs & Hr).
  pose proof Hr as Hr'. apply section_record_some in Hr'.
  destruct Hr' as (Hf & _ & ->).
  exists section, (section_filename section).
  exists (if str_truthy (section_reasoning section)
          then section_reasoning section else "Evaluation completed").
  cbn [name reasoning score_percent details].
  repeat (split; [solve [auto]|]).
  split.
  { destruct (str_truthy (section_reasoning section)) eqn:R;
      [apply str_truthy_true, R | discriminate]. }
  split.
  { destruct (str_truthy (section_reasoning section)); auto. }
  split; [|reflexivity].
  destruct (section_score section) as [n|] eqn:E.
  - right.
    destruct (mean_of_present (marker_ints section)) as [m|] eqn:M;
      [|apply section_score_present in M; congruence].
    pose proof (section_score_not_negative _ _ E) as NN.
    exists n, m. split; [reflexivity|]. split; [reflexivity|].
    split.
    { rewrite section_score_double in E.
      destruct (marker_doubles section); [discriminate | congruence]. }
    split; [intros ->; discriminate|].
    split; [now apply not_negative_cases|].
    split; [exact (section_score_is_number _ _ E)|].
    intros S. destruct (small_score section m S M) as (q & Rq & Hq & Zq).
    exists q. rewrite (section_score_mean section S), M in E. cbn [option_map] in E.
    split; [congruence|]. split; [exact Rq | exact Zq].
  - left. split; [reflexivity|]. now apply section_score_present.
Qed.

Lemma extracted_records_well_formed_witness :
  In example_record (extractPPTScores (VStr example_text))
  /\ exists section nm rs,
    In section (splitPPTFileSections (VStr example_text))
    /\ section_record section = Some example_record
    /\ name example_record = VStr nm /\ nm <> ""
    /\ reasoning example_record = VStr rs /\ rs <> ""
    /\ (rs = section_reasoning section \/ rs = "Evaluation completed")
    /\ ((score_percent example_record = VStr "-"
         /\ mean_of_present (marker_ints section) = None)
        \/ exists n m, score_percent example_record = VNum n
                       /\ mean_of_present (marker_ints section) = Some m
                       /\ n = double_mean (marker_doubles section)
                       /\ n <> NaN
                       /\ (n = Inf false \/ exists q, n = Fin q /\ (0 <= q)%Q)
                       /\ is_number n = true
                       /\ (small_markers section ->
                           exists q, n = Fin q /\ round m = Fin q
                                     /\ (q == 0 -> m == 0)%Q))
    /\ details example_record = None.
Proof.
  assert (H : In example_record (extractPPTScores (VStr example_text)))
    by (left; vm_compute; reflexivity).
  split; [exact H|].
  exact (extracted_records_well_formed (VStr example_text) example_record H).
Defined.

(** The claim as the specification states it fails: a marker of 310
    digits is read as Infinity, and the record carries Infinity, which is
    neither a finite number nor "-". *)
Lemma extracted_score_not_finite :
  extractPPTScores (VStr overflow_text)
  = [mkScore (VStr "big.pptx") (VNum (Inf false)) (VStr "Evaluation completed") None]
  /\ isFinite (Inf false) = false.
Proof. split; [vm_compute; reflexivity | reflexivity]. Qed.

(** Two files in one text: the first has a score and no feedback, the
    second feedback and no score. *)
Example two_files_records :
  extractPPTScores (VStr two_files_text)
  = [ mkScore (VStr "a.pptx") (VNum (Fin (50 # 1))) (VStr "Evaluation completed") None;
      mkScore (VStr "b.pptx") (VStr "-") (VStr "Clear slides") None ].
Proof. vm_compute. reflexivity. Qed.

End ExtractorFacts.

(** ** Inputs that are not strings *)

Module PptTotality.
Import JS Model PptProcessors.

Lemma typeof_string (v : value) : typeof v = "string" -> exists s, v = VStr s.
Proof. destruct v; simpl; try discriminate. eauto. Qed.

(** C10.  [splitPPTFileSections] and [extractPPTScores] return the empty
    array on every input that is not a string: undefined, null, a boolean,
    a number, an object. *)
Theorem non_string_input_yields_empty (v : value) :
  typeof v <> "string" ->
  splitPPTFileSections v = [] /\ extractPPTScores v = [].
Proof.
  intros H. apply String.eqb_neq in H.
  unfold extractPPTScores, splitPPTFileSections.
  rewrite H. simpl negb. rewrite orb_true_r. split; reflexivity.
Qed.

Lemma non_string_input_yields_empty_witness :
  typeof VNull <> "string"
  /\ splitPPTFileSections VNull = [] /\ extractPPTScores VNull = [].
Proof.
  assert (H : typeof VNull <> "string") by (simpl; discriminate).
  split; [exact H | exact (non_string_input_yields_empty VNull H)].
Defined.

End PptTotality.

(** ** The document and print exports *)

Module ExportEquivalence.
Import JS Model FileDownloaders.

Section WithBuilder.

Variable NumberToString : Q -> string.
Variable buildReportHTML :
  option (list (option ScoreRecord)) -> value -> option string -> option string -> string.

(** C8.  Whatever [downloadDoc] puts into the blob of the .doc export is,
    character for character, what [downloadPdf] writes into the print
    window: both are the markup of the same call of the builder, and the
    blob is labelled "application/msword".  Both exports happen as soon as
    there is something to export (and the browser opens the window). *)
Theorem doc_and_pdf_share_markup (result : value)
    (scores : option (list (option ScoreRecord))) (title lastTitle : option string) :
  let html := buildReportHTML scores result title lastTitle in
  (forall popup content media markup,
      In (NewBlob content media) (downloadDoc buildReportHTML result scores title lastTitle) ->
      In (DocumentWrite markup) (downloadPdf buildReportHTML popup result scores title lastTitle) ->
      content = markup /\ content = html /\ media = "application/msword")
  /\ (nothing_to_export result scores = false ->
      In (NewBlob html "application/msword")
         (downloadDoc buildReportHTML result scores title lastTitle)
      /\ In (DocumentWrite html)
            (downloadPdf buildReportHTML true result scores title lastTitle)).
Proof.
  intros html. unfold downloadDoc, downloadPdf. split.
  - intros popup content media markup.
    destruct (nothing_to_export result scores); [intros []|].
    fold html. intros Hd Hp.
    destruct Hd as [Hd | [Hd | []]]; [|discriminate].
    injection Hd as <- <-.
    destruct popup.
    + destruct Hp as [Hp | [Hp | [Hp | []]]]; try discriminate.
      injection Hp as <-. auto.
    + destruct Hp as [Hp | []]. discriminate.
  - intros ->. fold html. split; simpl; auto.
Qed.

End WithBuilder.

Lemma doc_and_pdf_share_markup_witness :
  nothing_to_export (VStr "Raw text") None = false
  /\ In (NewBlob (Spec.sample_buildReportHTML None (VStr "Raw text") (Some "Quiz") None)
                 "application/msword")
        (downloadDoc Spec.sample_buildReportHTML (VStr "Raw text") None (Some "Quiz") None)
  /\ In (DocumentWrite (Spec.sample_buildReportHTML None (VStr "Raw text") (Some "Quiz") None))
        (downloadPdf Spec.sample_buildReportHTML true (VStr "Raw text") None (Some "Quiz") None).
Proof.
  assert (H : nothing_to_export (VStr "Raw text") None = false) by reflexivity.
  split; [exact H|].
  exact (proj2 (doc_and_pdf_share_markup Spec.sample_buildReportHTML
                  (VStr "Raw text") None (Some "Quiz") None) H).
Defined.

End ExportEquivalence.

(** ** The "Need to improve" field of the text reports *)

Module NeedToImprove.
Import JS Model FileDownloaders.

Section WithBuiltins.

Variable NumberToString : Q -> string.
Variable StringToNumber : string -> number.

Lemma or_empty (s : string) : (if str_truthy s then s else "") = s.
Proof. destruct s; reflexivity. Qed.

Lemma threshold_test (student : option ScoreRecord) :
  isFinite (scNum StringToNumber student)
  && num_geb (scNum StringToNumber student) (Fin 100) = true
  <-> Spec.score_at_least_100 StringToNumber student.
Proof.
  unfold Spec.score_at_least_100.
  destruct (scNum StringToNumber student) as [q| |s]; simpl.
  - rewrite Qle_bool_iff. split.
    + intros H. exists q. auto.
    + intros (q' & E & H). injection E as ->. exact H.
  - split; [discriminate|]. intros (q' & E & _). discriminate.
  - split; [discriminate|]. intros (q' & E & _). discriminate.
Qed.

Lemma needImp_cases (student : option ScoreRecord) :
  (Spec.score_at_least_100 StringToNumber student
   /\ needImp NumberToString StringToNumber student = "None")
  \/ (~ Spec.score_at_least_100 StringToNumber student
      /\ needImp NumberToString StringToNumber student = reason NumberToString student).
Proof.
  unfold needImp.
  destruct (isFinite (scNum StringToNumber student)
            && num_geb (scNum StringToNumber student) (Fin 100)) eqn:E.
  - left. split; [apply threshold_test; exact E | reflexivity].
  - right. split.
    + intros H. apply threshold_test in H. congruence.
    + apply or_empty.
Qed.

(** C6, as the code has it.  [buildStudentText] (default name "Student")
    and the per-record text of [downloadResult] (default name "-") are the
    header lines and the detail lines of the record, and the fourth
    header line is "Need to improve: " followed by "None" when the
    numeric score is present and at least 100, and by the reasoning text
    (possibly empty) otherwise.  So the field is "None" exactly when the
    score is present and at least 100 or the reasoning text is itself
    "None"; for any other reasoning text the equivalence of the
    specification holds. *)
Theorem need_to_improve_field (default_name : string) (student : option ScoreRecord) :
  buildStudentText NumberToString StringToNumber student
  = join NL (student_header NumberToString StringToNumber "Student" student
             ++ student_details NumberToString student)%list
  /\ (forall result summary s rest,
        downloadResult_payload NumberToString StringToNumber result summary
                               (Some (s :: rest))
        = Some (join (NL ++ NL)
                  (map (fun x =>
                          join NL (student_header NumberToString StringToNumber "-" x
                                   ++ student_details NumberToString x)%list)
                       (s :: rest))))
  /\ nth 3 (student_header NumberToString StringToNumber default_name student) ""
     = "Need to improve: " ++ needImp NumberToString StringToNumber student
  /\ (Spec.score_at_least_100 StringToNumber student ->
      needImp NumberToString StringToNumber student = "None")
  /\ (~ Spec.score_at_least_100 StringToNumber student ->
      needImp NumberToString StringToNumber student = reason NumberToString student)
  /\ (needImp NumberToString StringToNumber student = "None" <->
      Spec.score_at_least_100 StringToNumber student
      \/ reason NumberToString student = "None")
  /\ (reason NumberToString student <> "None" ->
      (needImp NumberToString StringToNumber student = "None"
       <-> Spec.score_at_least_100 StringToNumber student)).
Proof.
  split; [reflexivity|].
  split.
  { intros result summary s rest. unfold downloadResult_payload.
    rewrite orb_true_r, andb_false_r. reflexivity. }
  split; [reflexivity|].
  destruct (needImp_cases student) as [[H E] | [H E]]; rewrite E.
  - split; [auto|]. split; [tauto|]. split; [tauto|]. tauto.
  - split; [tauto|]. split; [auto|]. split; [tauto|]. tauto.
Qed.

End WithBuiltins.

Lemma need_to_improve_field_witness :
  Spec.score_at_least_100 Spec.sample_StringToNumber Spec.ann
  /\ needImp Spec.sample_NumberToString Spec.sample_StringToNumber Spec.ann = "None".
Proof.
  assert (H : Spec.score_at_least_100 Spec.sample_StringToNumber Spec.ann).
  { exists 100%Q. split; [reflexivity | apply Qle_refl]. }
  split; [exact H|].
  exact (proj1 (proj2 (proj2 (proj2
           (need_to_improve_field Spec.sample_NumberToString
              Spec.sample_StringToNumber "Student" Spec.ann)))) H).
Defined.

(** C6, as the specification words it, fails: a record scored 50 whose
    reasoning is the text "None" gets "Need to improve: None". *)
Lemma need_to_improve_none_without_full_score :
  ~ (needImp Spec.sample_NumberToString Spec.sample_StringToNumber Spec.bob = "None"
     <-> Spec.score_at_least_100 Spec.sample_StringToNumber Spec.bob).
Proof.
  intros [H _]. destruct (H eq_refl) as (q & E & Hq).
  injection E as <-. revert Hq. apply Qlt_not_le. reflexivity.
Qed.

End NeedToImprove.

(** ** The Sections keep the blocks of the text *)

Module SectionContent.
Import JS Model Spec Vocabulary StringFacts TrimFacts MatcherFacts PptProcessors SplitterFacts.

Lemma join_snoc (sep : string) (l : list string) (x : string) :
  l <> [] -> join sep (l ++ [x])%list = join sep l ++ sep ++ x.
Proof.
  induction l as [|y l IH]; intros H; [congruence|].
  destruct l as [|z l]; [reflexivity|].
  change (join sep ((y :: z :: l) ++ [x])%list)
    with (y ++ sep ++ join sep ((z :: l) ++ [x])%list).
  rewrite IH by discriminate.
  change (join sep (y :: z :: l)) with (y ++ sep ++ join sep (z :: l)).
  rewrite !append_assoc. reflexivity.
Qed.

Lemma flush_building (st : split_state) :
  currentFile st <> "" -> trimmed (currentFile st) ->
  flush st = (fileSections st ++ [currentFile st])%list.
Proof.
  intros Hf Ht. unfold flush. apply str_truthy_true in Hf.
  rewrite Hf, (trim_fix _ Ht). reflexivity.
Qed.

Lemma trimmed_trim_nonempty (p : string) : trim p <> "" -> trim (trim p) = trim p.
Proof. intros _. apply trim_fix, trim_trimmed. Qed.

(** One block more: the state stays well formed, the Sections joined by
    blank lines grow by the block, and their number by at most one. *)
Lemma split_step_keeps (st : split_state) (part : string) :
  well_formed st -> trim part <> "" ->
  well_formed (split_step st part)
  /\ join (NL ++ NL) (flush (split_step st part))
     = join (NL ++ NL) (flush st) ++ (NL ++ NL) ++ trim part
  /\ (section_count st <= section_count (split_step st part)
      <= S (section_count st))%nat.
Proof.
  intros (Hf & Ht & Hs) Hp.
  pose proof (flush_building st Hf Ht) as Fl.
  destruct (classify st (trim part)) eqn:C.
  - (* New file *)
    assert (E : split_step st part
                = mkSplit (flush st) (trim part)
                          (filename_or_empty (extractedFilename (trim part))))
      by (unfold split_step; rewrite C; reflexivity).
    assert (W : well_formed (split_step st part)).
    { rewrite E. split; [exact Hp|]. split; [apply trim_trimmed|].
      cbn [fileSections]. rewrite Fl. apply Forall_app. split; [exact Hs|].
      constructor; [auto | constructor]. }
    split; [exact W|]. destruct W as (Hf' & Ht' & _).
    unfold section_count. rewrite (flush_building _ Hf' Ht'), E.
    cbn [fileSections currentFile]. split.
    + apply join_snoc. rewrite Fl. destruct (fileSections st); discriminate.
    + rewrite length_app. simpl. lia.
  - (* Same file *)
    assert (N : classify st (trim part) <> NewFile) by congruence.
    pose proof (split_step_appends st part N Hf) as E.
    assert (W : well_formed (split_step st part)).
    { rewrite E. split; [|split; [|exact Hs]]; cbn [currentFile].
      - intros X. apply append_eq_nil in X. tauto.
      - exact (trimmed_join _ (NL ++ NL) _ Ht (trim_trimmed part) Hf Hp). }
    split; [exact W|]. destruct W as (Hf' & Ht' & _).
    unfold section_count. rewrite (flush_building _ Hf' Ht'), E, Fl.
    cbn [fileSections currentFile]. split.
    + destruct (fileSections st) as [|x l].
      * reflexivity.
      * rewrite !join_snoc by discriminate. rewrite !append_assoc. reflexivity.
    + rewrite !length_app. simpl. lia.
  - elim (classify_with_current st (trim part) Hf C).
  - (* Continuation *)
    assert (N : classify st (trim part) <> NewFile) by congruence.
    pose proof (split_step_appends st part N Hf) as E.
    assert (W : well_formed (split_step st part)).
    { rewrite E. split; [|split; [|exact Hs]]; cbn [currentFile].
      - intros X. apply append_eq_nil in X. tauto.
      - exact (trimmed_join _ (NL ++ NL) _ Ht (trim_trimmed part) Hf Hp). }
    split; [exact W|]. destruct W as (Hf' & Ht' & _).
    unfold section_count. rewrite (flush_building _ Hf' Ht'), E, Fl.
    cbn [fileSections currentFile]. split.
    + destruct (fileSections st) as [|x l].
      * reflexivity.
      * rewrite !join_snoc by discriminate. rewrite !append_assoc. reflexivity.
    + rewrite !length_app. simpl. lia.
Qed.

Lemma fold_keeps (ps : list string) (st : split_state) :
  well_formed st -> Forall (fun p => trim p <> "") ps ->
  let st' := fold_left split_step ps st in
  well_formed st'
  /\ join (NL ++ NL) (flush st')
     = fold_left (fun acc p => acc ++ (NL ++ NL) ++ trim p) ps
                 (join (NL ++ NL) (flush st))
  /\ (section_count st <= section_count st'
      <= section_count st + List.length ps)%nat.
Proof.
  revert st; induction ps as [|p ps IH]; intros st W Hn; cbn [fold_left].
  - split; [exact W|]. split; [reflexivity|]. simpl. lia.
  - inversion Hn as [|? ? Hp Hps]; subst.
    destruct (split_step_keeps st p W Hp) as (W1 & J1 & C1).
    destruct (IH _ W1 Hps) as (W2 & J2 & C2).
    split; [exact W2|]. split; [rewrite J2, J1; reflexivity|].
    simpl List.length. lia.
Qed.

Lemma fold_trim_join (sep : string) (ps : list string) (x : string) :
  fold_left (fun acc p => acc ++ sep ++ trim p) ps x
  = join sep (x :: map trim ps).
Proof.
  rewrite <- join_fold. revert x. induction ps as [|p ps IH]; intros x;
    [reflexivity|]. cbn [fold_left map]. apply IH.
Qed.

(** The state after the first non-blank block. *)
Lemma first_step (p : string) :
  trim p <> "" ->
  well_formed (split_step split_init p)
  /\ flush (split_step split_init p) = [trim p].
Proof.
  intros Hp. rewrite (split_step_opens split_init p eq_refl eq_refl).
  assert (W : well_formed (mkSplit [] (trim p)
                 (filename_or_empty (extractedFilename (trim p))))).
  { split; [exact Hp|]. split; [apply trim_trimmed | constructor]. }
  split; [exact W|]. destruct W as (Hf & Ht & _).
  exact (flush_building _ Hf Ht).
Qed.

Lemma sections_of_blocks (text : string) :
  parts_of text <> [] ->
  join (NL ++ NL) (split_sections text)
  = join (NL ++ NL) (map trim (parts_of text))
  /\ Forall (fun s => s <> "" /\ trimmed s) (split_sections text)
  /\ (1 <= List.length (split_sections text)
      <= List.length (parts_of text))%nat.
Proof.
  intros Hne. unfold split_sections.
  assert (Hn : Forall (fun p => trim p <> "") (parts_of text)).
  { apply Forall_forall. intros p. apply parts_nonblank. }
  destruct (parts_of text) as [|p ps]; [congruence|].
  inversion Hn as [|? ? Hp Hps]; subst. cbn [fold_left].
  destruct (first_step p Hp) as (W1 & F1).
  destruct (fold_keeps ps _ W1 Hps) as (W2 & J2 & C2).
  unfold section_count in C2. rewrite F1 in C2, J2. simpl in C2.
  set (st := fold_left split_step ps (split_step split_init p)) in *.
  destruct W2 as (Hf & Ht & Hs).
  pose proof (flush_building st Hf Ht) as Fl.
  assert (L : (0 <? List.length (flush st))%nat = true) by (apply Nat.ltb_lt; lia).
  rewrite L. split.
  - rewrite J2. cbn [join]. apply fold_trim_join.
  - split; [|simpl; lia].
    rewrite Fl. apply Forall_app. split; [exact Hs|]. constructor; auto.
Qed.

(** X1.  When the text has a non-blank block, the Sections joined by
    blank lines are the trimmed non-blank blocks of the text joined by
    blank lines: no block is lost, repeated or moved. *)
Theorem sections_keep_all_blocks (text : string) :
  parts_of text <> [] ->
  join (NL ++ NL) (splitPPTFileSections (VStr text))
  = join (NL ++ NL) (map trim (parts_of text)).
Proof.
  intros H. rewrite split_string.
  - apply sections_of_blocks, H.
  - intros ->. apply H. reflexivity.
Qed.

Lemma sections_keep_all_blocks_witness :
  parts_of two_files_text <> []
  /\ join (NL ++ NL) (splitPPTFileSections (VStr two_files_text))
     = join (NL ++ NL) (map trim (parts_of two_files_text)).
Proof.
  assert (H : parts_of two_files_text <> []) by discriminate.
  split; [exact H | exact (sections_keep_all_blocks two_files_text H)].
Defined.

(** X2.  When the text has a non-blank block, every Section is non-empty
    and has no white space at its ends, and there are at least one and at
    most as many Sections as non-blank blocks. *)
Theorem sections_are_trimmed_blocks (text : string) :
  parts_of text <> [] ->
  Forall (fun s => s <> "" /\ trimmed s) (splitPPTFileSections (VStr text))
  /\ (1 <= List.length (splitPPTFileSections (VStr text))
      <= List.length (parts_of text))%nat.
Proof.
  intros H. rewrite split_string.
  - apply sections_of_blocks, H.
  - intros ->. apply H. reflexivity.
Qed.

Lemma sections_are_trimmed_blocks_witness :
  parts_of two_files_text <> []
  /\ Forall (fun s => s <> "" /\ trimmed s)
            (splitPPTFileSections (VStr two_files_text))
  /\ (1 <= List.length (splitPPTFileSections (VStr two_files_text))
      <= List.length (parts_of two_files_text))%nat.
Proof.
  assert (H : parts_of two_files_text <> []) by discriminate.
  split; [exact H | exact (sections_are_trimmed_blocks two_files_text H)].
Defined.

End SectionContent.

(** ** Blank input *)

Module BlankInput.
Import JS Model Spec Vocabulary StringFacts DecimalFacts TrimFacts MatcherFacts.
Import PptProcessors SplitterFacts ExtractorFacts.

Lemma split_run_nonempty (b : bool) (s : string) : split_blank_run b s <> [].
Proof.
  revert b; induction s as [|c s IH]; intros b; simpl; [discriminate|].
  destruct b; [destruct (is_nl c)|destruct (is_nl c && startsWith NL s)];
    try apply IH; try discriminate;
    destruct (split_blank_run false s) eqn:E; simpl; try discriminate;
    elim (IH false E).
Qed.

Lemma Forall_cons_char (P : string -> Prop) (c : ascii) (l : list string) :
  l <> [] ->
  (Forall P (cons_char c l) <->
   exists p rest, l = p :: rest /\ P (String c p) /\ Forall P rest).
Proof.
  intros H. destruct l as [|p rest]; [congruence|]. simpl. split.
  - intros F. inversion F; subst. eauto.
  - intros (p' & rest' & [= <- <-] & Hp & Hr). constructor; assumption.
Qed.

(** The pieces of a text are all blank exactly when the text is. *)
Lemma split_run_blank (b : bool) (s : string) :
  Forall (fun p => all_chars is_ws p = true) (split_blank_run b s)
  <-> all_chars is_ws s = true.
Proof.
  revert b; induction s as [|c s IH]; intros b.
  - simpl. split; [reflexivity | repeat constructor].
  - assert (Hcons : Forall (fun p => all_chars is_ws p = true)
                           (cons_char c (split_blank_run false s))
                    <-> all_chars is_ws (String c s) = true).
    { rewrite Forall_cons_char by apply split_run_nonempty.
      simpl. rewrite andb_true_iff, <- (IH false). split.
      - intros (p & rest & E & Hp & Hr). simpl in Hp.
        apply andb_true_iff in Hp. destruct Hp as [Hc Hp].
        split; [exact Hc|]. rewrite E. constructor; assumption.
      - intros [Hc F]. destruct (split_blank_run false s) as [|p rest] eqn:E;
          [elim (split_run_nonempty _ _ E)|].
        inversion F; subst. exists p, rest. simpl. rewrite Hc. auto. }
    assert (Hskip : is_nl c = true ->
              (Forall (fun p => all_chars is_ws p = true) (split_blank_run true s)
               <-> all_chars is_ws (String c s) = true)).
    { intros N. simpl. rewrite (is_nl_ws c N). simpl. apply IH. }
    cbn [split_blank_run]. destruct b.
    + destruct (is_nl c) eqn:N; [apply Hskip; reflexivity | exact Hcons].
    + destruct (is_nl c && startsWith NL s) eqn:N; [|exact Hcons].
      apply andb_true_iff in N. destruct N as [N _].
      rewrite <- (Hskip N). split.
      * intros F. inversion F; assumption.
      * intros F. constructor; [reflexivity | exact F].
Qed.

Lemma trimStart_blank (s : string) : trimStart s = "" <-> all_chars is_ws s = true.
Proof.
  induction s as [|c s IH]; simpl; [tauto|].
  destruct (is_ws c); simpl; [exact IH|]. split; discriminate.
Qed.

Lemma trim_blank (s : string) : trim s = "" <-> all_chars is_ws s = true.
Proof.
  rewrite <- trimStart_blank. unfold trim. split.
  - intros H. pose proof (trimStart_idem s) as I.
    destruct (trimStart s) as [|c t]; [reflexivity|].
    apply trimStart_fix_head in I.
    destruct (trimEnd_keeps_head c t I) as [u E]. congruence.
  - intros ->. reflexivity.
Qed.

Lemma filter_nil {A : Type} (f : A -> bool) (l : list A) :
  filter f l = [] <-> Forall (fun x => f x = false) l.
Proof.
  induction l as [|x l IH]; simpl.
  - split; [constructor | reflexivity].
  - destruct (f x) eqn:E.
    + split; [discriminate|]. intros F. inversion F; congruence.
    + rewrite IH. split; [intros F; constructor; assumption|].
      intros F. inversion F; assumption.
Qed.

Lemma parts_of_blank (text : string) :
  parts_of text = [] <-> all_chars is_ws text = true.
Proof.
  unfold parts_of, split_blank_lines.
  rewrite filter_nil, <- (split_run_blank false text), !Forall_forall.
  assert (E : forall p, (0 <? String.length (trim p))%nat = false
                        <-> all_chars is_ws p = true).
  { intros p. rewrite <- trim_blank, Nat.ltb_ge. split.
    - intros H. destruct (trim p); [reflexivity | simpl in H; lia].
    - intros ->. simpl. lia. }
  split; intros H p Hp; apply E, H, Hp.
Qed.

Lemma blank_has_only_blank (needle s : string) :
  occurs needle s -> all_chars is_ws s = true -> all_chars is_ws needle = true.
Proof.
  intros (pre & post & ->). rewrite !all_chars_append, !andb_true_iff. tauto.
Qed.

Lemma match_score_absent (label s : string) :
  ~ occurs label s -> match_score label s = None.
Proof.
  intros H. destruct (match_score label s) as [d|] eqn:E; [|reflexivity].
  destruct (match_score_sound _ _ _ E) as (pre & ws & post & -> & _).
  elim H. exists pre, (ws ++ d ++ "/100" ++ post). reflexivity.
Qed.

Lemma blank_section_record (s : string) :
  all_chars is_ws s = true -> section_record s = None.
Proof.
  intros B.
  assert (No : forall needle, all_chars is_ws needle = false -> ~ occurs needle s).
  { intros needle N O. rewrite (blank_has_only_blank _ _ O B) in N. discriminate. }
  unfold section_record, section_score, section_reasoning, marker_value.
  rewrite !match_score_absent by (apply No; reflexivity).
  rewrite no_feedback_text by (apply No; reflexivity).
  simpl. rewrite andb_false_r. reflexivity.
Qed.

(** X3.  The text has no non-blank block exactly when it consists of
    white space only.  Such a text, if not empty, comes back from the
    splitter as its own single Section, and the extractor makes no record
    of it. *)
Theorem blank_text_is_its_own_section (text : string) :
  (parts_of text = [] <-> all_chars is_ws text = true)
  /\ (text <> "" -> all_chars is_ws text = true ->
      splitPPTFileSections (VStr text) = [text]
      /\ extractPPTScores (VStr text) = []).
Proof.
  split; [apply parts_of_blank|]. intros Hne B.
  assert (S : splitPPTFileSections (VStr text) = [text]).
  { rewrite (split_string _ Hne). apply split_sections_blank, parts_of_blank, B. }
  split; [exact S|].
  rewrite extract_string, S. simpl. rewrite (blank_section_record _ B). reflexivity.
Qed.

Lemma blank_text_is_its_own_section_witness :
  (" " ++ NL) <> "" /\ all_chars is_ws (" " ++ NL) = true
  /\ splitPPTFileSections (VStr (" " ++ NL)) = [" " ++ NL]
  /\ extractPPTScores (VStr (" " ++ NL)) = [].
Proof.
  assert (H1 : (" " ++ NL) <> "") by discriminate.
  assert (H2 : all_chars is_ws (" " ++ NL) = true) by reflexivity.
  split; [exact H1|]. split; [exact H2|].
  exact (proj2 (blank_text_is_its_own_section (" " ++ NL)) H1 H2).
Defined.

End BlankInput.

(** ** Extracted records and their consumers *)

Module ExtractedRecords.
Import JS Model Spec Vocabulary StringFacts DecimalFacts TrimFacts MatcherFacts.
Import PptProcessors SplitterFacts ExtractorFacts ExcelFacts.

(** *** Bounds of the mean *)

Lemma fold_Qplus_acc (xs : list Q) (a : Q) :
  (fold_left Qplus xs a == a + Qsum xs)%Q.
Proof.
  unfold Qsum. revert a; induction xs as [|x xs IH]; intros a; simpl.
  - ring.
  - rewrite (IH (a + x)%Q), (IH (0 + x)%Q). ring.
Qed.

Lemma Qsum_cons (x : Q) (xs : list Q) : (Qsum (x :: xs) == x + Qsum xs)%Q.
Proof. unfold Qsum at 1; simpl. rewrite fold_Qplus_acc. ring. Qed.

Lemma Qsum_between (a b : Q) (xs : list Q) :
  Forall (fun x => (a <= x <= b)%Q) xs ->
  (inject_Z (Z.of_nat (List.length xs)) * a <= Qsum xs
   <= inject_Z (Z.of_nat (List.length xs)) * b)%Q.
Proof.
  induction 1 as [|x xs [Hx1 Hx2] _ IH].
  - change (Qsum []) with 0%Q.
    change (inject_Z (Z.of_nat (List.length (@nil Q)))) with 0%Q. lra.
  - rewrite Qsum_cons. change (List.length (x :: xs)) with (S (List.length xs)).
    rewrite Nat2Z.inj_succ. unfold Z.succ. rewrite inject_Z_plus.
    change (inject_Z 1) with 1%Q.
    generalize dependent (inject_Z (Z.of_nat (List.length xs))). intros n IH.
    generalize dependent (Qsum xs). intros s IH. lra.
Qed.

Lemma mean_between (a b : Q) (xs : list Q) :
  xs <> [] -> Forall (fun x => (a <= x <= b)%Q) xs -> (a <= mean xs <= b)%Q.
Proof.
  intros Hne H. destruct (Qsum_between a b xs H) as [Lo Hi]. unfold mean.
  assert (Hn : (0 < inject_Z (Z.of_nat (List.length xs)))%Q).
  { destruct xs; [congruence|]. unfold Qlt; simpl. lia. }
  split.
  - apply Qle_shift_div_l; [exact Hn|]. rewrite Qmult_comm. exact Lo.
  - apply Qle_shift_div_r; [exact Hn|]. rewrite Qmult_comm. exact Hi.
Qed.

Lemma in_keep_some {A : Type} (x : A) (l : list (option A)) :
  In x (ExcelExport.keep_some l) <-> In (Some x) l.
Proof.
  unfold ExcelExport.keep_some. rewrite in_flat_map. split.
  - intros ([y|] & Hin & Hx); [|destruct Hx].
    destruct Hx as [<- | []]. exact Hin.
  - intros H. exists (Some x). split; [exact H | left; reflexivity].
Qed.

Lemma inject_N_le (a b : N) : (a <= b)%N -> (inject_Z (Z.of_N a) <= inject_Z (Z.of_N b))%Q.
Proof. intros H. rewrite <- Zle_Qle. lia. Qed.

Lemma small_integer_double (n : N) :
  (n < 2 ^ 51)%N -> is_double (inject_Z (Z.of_N n)) = true.
Proof.
  intros H. unfold is_double. rewrite DoubleFacts.round_Z.
  - apply Qeq_bool_iff. reflexivity.
  - assert (Z.of_N n < 2 ^ 51)%Z by (change (2 ^ 51)%Z with (Z.of_N (2 ^ 51)); lia).
    lia.
Qed.

(** X4.  When the integers of the markers found lie between [lo] and
    [hi], and [hi] is below 2^51, the score of a section is a finite
    number, never negative, between [lo] and [hi]: with markers up to 100
    it is a percentage, and a marker above 100 is not clamped. *)
Theorem extracted_score_within_markers (section : string) (n : number) (lo hi : N) :
  section_score section = Some n ->
  (forall label v, In label score_labels -> marker_int label section = Some v ->
                   (lo <= v <= hi)%N) ->
  (hi < 2 ^ 51)%N ->
  exists q, n = Fin q
            /\ (0 <= q)%Q /\ (inject_Z (Z.of_N lo) <= q <= inject_Z (Z.of_N hi))%Q.
Proof.
  intros E H Hhi.
  assert (In' : forall v, In v (ExcelExport.keep_some (marker_ints section)) ->
                          (lo <= v <= hi)%N).
  { intros v Hv. apply in_keep_some in Hv. unfold marker_ints in Hv.
    apply in_map_iff in Hv. destruct Hv as (label & Hl & Hin). exact (H label v Hin Hl). }
  assert (S : small_markers section).
  { unfold small_markers. apply Forall_forall. intros v Hv. specialize (In' v Hv). lia. }
  rewrite (section_score_mean section S) in E. unfold mean_of_present in E.
  destruct (ExcelExport.keep_some (marker_ints section)) as [|v vs] eqn:K;
    [discriminate|].
  injection E as <-.
  assert (B : Forall (fun x => (inject_Z (Z.of_N lo) <= x <= inject_Z (Z.of_N hi))%Q)
                     (map (fun n => inject_Z (Z.of_N n)) (v :: vs))).
  { apply Forall_forall. intros x Hx. apply in_map_iff in Hx.
    destruct Hx as (w & <- & Hw). destruct (In' w Hw). split; apply inject_N_le; assumption. }
  assert (Hne : map (fun n => inject_Z (Z.of_N n)) (v :: vs) <> [])
    by discriminate.
  pose proof (mean_between _ _ _ Hne B) as M.
  assert (Hlo : (lo < 2 ^ 51)%N) by (specialize (In' v (or_introl eq_refl)); lia).
  destruct (DoubleFacts.round_between _ _ _ (small_integer_double lo Hlo)
              (small_integer_double hi Hhi) M) as (q & Rq & Lq & Uq).
  exists q. split; [exact Rq|]. split; [|split; assumption].
  eapply Qle_trans; [|exact Lq]. change 0%Q with (inject_Z (Z.of_N 0)).
  apply inject_N_le. lia.
Qed.

Lemma extracted_score_within_markers_witness :
  section_score example_text = Some (Fin 70)
  /\ exists q, Fin 70 = Fin q
               /\ (0 <= q)%Q /\ (inject_Z (Z.of_N 60) <= q <= inject_Z (Z.of_N 80))%Q.
Proof.
  assert (H1 : section_score example_text = Some (Fin 70)) by (vm_compute; reflexivity).
  assert (H2 : forall label n, In label score_labels ->
                 marker_int label example_text = Some n -> (60 <= n <= 80)%N).
  { intros label n [<- | [<- | [<- | []]]]; vm_compute; intros [= <-];
      split; discriminate. }
  assert (H3 : (80 < 2 ^ 51)%N) by reflexivity.
  split; [exact H1|].
  exact (extracted_score_within_markers example_text (Fin 70) 60 80 H1 H2 H3).
Defined.

(** *** The fields of an extracted record *)

Lemma extracted_fields (result : value) (r : ScoreRecord) :
  In r (extractPPTScores result) ->
  exists nm rs,
    nm <> "" /\ rs <> ""
    /\ (r = mkScore (VStr nm) (VStr "-") (VStr rs) None
        \/ exists n, r = mkScore (VStr nm) (VNum n) (VStr rs) None
                     /\ n <> NaN /\ is_number n = true).
Proof.
  intros Hin. destruct (extracted_from_section _ _ Hin) as (section & _ & Hr).
  apply section_record_some in Hr. destruct Hr as (Hf & _ & ->).
  exists (section_filename section).
  exists (if str_truthy (section_reasoning section)
          then section_reasoning section else "Evaluation completed").
  split; [exact Hf|]. split.
  { destruct (str_truthy (section_reasoning section)) eqn:R;
      [apply str_truthy_true, R | discriminate]. }
  destruct (section_score section) as [n|] eqn:E; [right | left; reflexivity].
  exists n. split; [reflexivity|]. split.
  - pose proof (section_score_not_negative _ _ E) as NN. intros ->. discriminate.
  - exact (section_score_is_number _ _ E).
Qed.

Lemma truthy_nonempty (s : string) : s <> "" -> truthy (VStr s) = true.
Proof. intros H. simpl. apply str_truthy_true in H. exact H. Qed.

(** X5.  In the spreadsheet an extracted record keeps its name and its
    reasoning (no "-" placeholder replaces them), has "-" as feedback, and
    counts as scored exactly when its score is not the string "-". *)
Theorem extracted_record_row (result : value) (r : ScoreRecord) :
  In r (extractPPTScores result) ->
  ExcelExport.to_row r
  = ExcelExport.mkRow (name r)
      (match score_percent r with VNum n => Some n | _ => None end)
      (score_percent r) (reasoning r) "-"
  /\ (ExcelExport.is_valid (ExcelExport.to_row r) = true
      <-> score_percent r <> VStr "-").
Proof.
  intros Hin.
  destruct (extracted_fields _ _ Hin) as (nm & rs & Hn & Hr & [-> | (n & -> & Nn & _)]);
    unfold ExcelExport.to_row, ExcelExport.is_valid, or_else;
    cbn [name reasoning score_percent details ExcelExport.score];
    rewrite !truthy_nonempty by assumption; (split; [reflexivity|]).
  - split; [discriminate | congruence].
  - split; [discriminate|]. intros _. destruct n; [reflexivity | congruence | reflexivity].
Qed.

Lemma extracted_record_row_witness :
  In example_record (extractPPTScores (VStr example_text))
  /\ ExcelExport.is_valid (ExcelExport.to_row example_record) = true.
Proof.
  assert (H : In example_record (extractPPTScores (VStr example_text)))
    by (left; vm_compute; reflexivity).
  split; [exact H|].
  apply (proj2 (extracted_record_row _ _ H)). discriminate.
Defined.

Section WithBuiltins.

Variable NumberToString : Q -> string.
Variable StringToNumber : string -> number.


End WithBuiltins.


End ExtractedRecords.

(** ** Labels and host names of helpers.jsx *)

Module HelperFacts.
Import JS Spec Vocabulary StringFacts Helpers.

Ltac each_char c := destruct c as [[] [] [] [] [] [] [] []]; vm_compute; try reflexivity; try discriminate; auto.

Lemma is_word_upper (c : ascii) : is_word (upper c) = is_word c.
Proof. each_char c. Qed.

Lemma upper_upper (c : ascii) : upper (upper c) = upper c.
Proof. each_char c. Qed.

Lemma upper_underscore (c : ascii) : Ascii.eqb (upper c) "_" = Ascii.eqb c "_".
Proof. each_char c. Qed.

Lemma length_underscores (s : string) :
  String.length (underscores_to_spaces s) = String.length s.
Proof. induction s; simpl; congruence. Qed.

Lemma length_capitalize (b : bool) (s : string) :
  String.length (capitalize_words b s) = String.length s.
Proof. revert b; induction s; intros b; simpl; [reflexivity | now rewrite IHs]. Qed.

Lemma underscores_none (s : string) :
  all_chars (fun c => negb (Ascii.eqb c "_")) (underscores_to_spaces s) = true.
Proof.
  induction s as [|c s IH]; [reflexivity|]. cbn [underscores_to_spaces all_chars].
  rewrite IH, andb_true_r. destruct (Ascii.eqb c "_") eqn:E; [reflexivity|].
  now rewrite E.
Qed.

Lemma capitalize_none (b : bool) (s : string) :
  all_chars (fun c => negb (Ascii.eqb c "_")) s = true ->
  all_chars (fun c => negb (Ascii.eqb c "_")) (capitalize_words b s) = true.
Proof.
  revert b; induction s as [|c s IH]; intros b; [reflexivity|].
  cbn [capitalize_words all_chars]. intros H. apply andb_true_iff in H as [H1 H2].
  rewrite (IH _ H2), andb_true_r.
  destruct (is_word c && negb b); [now rewrite upper_underscore | exact H1].
Qed.

Lemma underscores_fix (s : string) :
  all_chars (fun c => negb (Ascii.eqb c "_")) s = true -> underscores_to_spaces s = s.
Proof.
  induction s as [|c s IH]; [reflexivity|]. cbn [underscores_to_spaces all_chars].
  intros H. apply andb_true_iff in H as [H1 H2]. rewrite (IH H2).
  destruct (Ascii.eqb c "_"); [discriminate | reflexivity].
Qed.

Lemma capitalize_idem (b : bool) (s : string) :
  capitalize_words b (capitalize_words b s) = capitalize_words b s.
Proof.
  revert b; induction s as [|c s IH]; intros b; [reflexivity|].
  cbn [capitalize_words].
  destruct (is_word c && negb b) eqn:E.
  - rewrite is_word_upper, E, upper_upper, IH. reflexivity.
  - rewrite E, IH. reflexivity.
Qed.

(** X7. [formatLabel] keeps the length of the key, leaves no underscore
    in the label, and formats a label to itself. *)
Theorem formatLabel_shape (key : string) :
  String.length (formatLabel key) = String.length key
  /\ all_chars (fun c => negb (Ascii.eqb c "_")) (formatLabel key) = true
  /\ formatLabel (formatLabel key) = formatLabel key.
Proof.
  destruct key as [|c key]; [repeat split|].
  unfold formatLabel at 1 2 4. cbn [str_truthy String.eqb negb].
  set (w := capitalize_words false (underscores_to_spaces (String c key))).
  assert (L : String.length w = String.length (String c key)).
  { unfold w. now rewrite length_capitalize, length_underscores. }
  assert (U : all_chars (fun c => negb (Ascii.eqb c "_")) w = true).
  { apply capitalize_none, underscores_none. }
  split; [exact L|]. split; [exact U|].
  unfold formatLabel. destruct w as [|d w'] eqn:W; [discriminate L|].
  cbn [str_truthy String.eqb negb]. rewrite (underscores_fix _ U).
  rewrite <- W. unfold w. apply capitalize_idem.
Qed.

Lemma scan_inner (h : string) :
  github_host_scan false h = true <-> exists pre, h = pre ++ ".github.com".
Proof.
  induction h as [|c h IH].
  - cbn. split; [discriminate|]. intros [pre E].
    apply (f_equal String.length) in E. rewrite length_append in E. cbn in E. lia.
  - cbn [github_host_scan andb orb]. rewrite orb_true_iff, IH, String.eqb_eq. split.
    + intros [E | [pre E]]; [exists ""; exact E | exists (String c pre); cbn; now rewrite E].
    + intros [[|d pre] E]; [left; exact E|]. right. exists pre. cbn in E. now injection E.
Qed.

Lemma scan_outer (h : string) :
  github_host_scan true h = (h =? "github.com") || github_host_scan false h.
Proof. destruct h; cbn [github_host_scan andb orb]; now rewrite <- orb_assoc. Qed.

Lemma github_host_spec (h : string) :
  github_host h = true
  <-> h = "github.com" \/ exists pre, h = pre ++ ".github.com".
Proof.
  unfold github_host. rewrite scan_outer, orb_true_iff, scan_inner, String.eqb_eq.
  reflexivity.
Qed.

Section Url.

Variable URL_hostname : string -> option string.

(** X8. A URL is accepted exactly when it is not empty, it parses, and
    its host name is github.com or ends with .github.com. *)
Theorem isValidGitHubUrl_spec (value : string) :
  isValidGitHubUrl URL_hostname value = true
  <-> value <> ""
      /\ exists h, URL_hostname value = Some h
           /\ (h = "github.com" \/ exists pre, h = pre ++ ".github.com").
Proof.
  unfold isValidGitHubUrl, str_truthy.
  destruct (String.eqb_spec value "") as [->|Hne]; cbn [negb].
  - split; [discriminate | intros [H _]; now elim H].
  - destruct (URL_hostname value) as [h|].
    + rewrite github_host_spec. split.
      * intros H. split; [exact Hne|]. exists h. split; [reflexivity | exact H].
      * intros [_ (h' & E & H)]. injection E as <-. exact H.
    + split; [discriminate | intros [_ (h' & E & _)]; discriminate].
Qed.

End Url.

End HelperFacts.

(** ** Titles and file names of the exports *)

Module FileNameFacts.
Import JS Model Spec Vocabulary StringFacts DecimalFacts TrimFacts.
Import FileDownloaders Exports BlankInput.

Ltac each_char c :=
  destruct c as [[] [] [] [] [] [] [] []]; vm_compute;
  try reflexivity; try discriminate; auto.

Lemma safe_not_ws_slug (c : ascii) :
  is_safe_char c = true -> is_ws c = false -> is_slug_char c = true.
Proof. each_char c. Qed.

Lemma slug_safe (c : ascii) : is_slug_char c = true -> is_safe_char c = true.
Proof. each_char c. Qed.

Lemma slug_not_ws (c : ascii) : is_slug_char c = true -> is_ws c = false.
Proof. each_char c. Qed.

Lemma slug_name (c : ascii) : is_slug_char c = true -> is_name_char c = true.
Proof. each_char c. Qed.

Lemma digit_name (c : ascii) : is_digit c = true -> is_name_char c = true.
Proof. each_char c. Qed.

Lemma all_chars_impl (p q : ascii -> bool) (s : string) :
  (forall c, p c = true -> q c = true) ->
  all_chars p s = true -> all_chars q s = true.
Proof.
  intros Hpq. induction s as [|c s IH]; [reflexivity|]. cbn [all_chars].
  intros H. apply andb_true_iff in H as [H1 H2]. now rewrite (Hpq _ H1), IH.
Qed.

Lemma strip_unsafe_safe (s : string) : all_chars is_safe_char (strip_unsafe s) = true.
Proof.
  induction s as [|c s IH]; [reflexivity|]. cbn [strip_unsafe].
  destruct (is_safe_char c) eqn:E; [|exact IH]. cbn [all_chars]. now rewrite E.
Qed.

Lemma underscore_spaces_slug (b : bool) (s : string) :
  all_chars is_safe_char s = true ->
  all_chars is_slug_char (underscore_spaces b s) = true.
Proof.
  revert b; induction s as [|c s IH]; intros b; [reflexivity|].
  cbn [all_chars underscore_spaces]. intros H. apply andb_true_iff in H as [H1 H2].
  destruct (is_ws c) eqn:W.
  - destruct b; [now apply IH|]. cbn [all_chars]. now rewrite IH.
  - cbn [all_chars]. now rewrite (safe_not_ws_slug _ H1 W), IH.
Qed.

Lemma sanitize_slug (s : string) : all_chars is_slug_char (sanitize s) = true.
Proof. apply underscore_spaces_slug, strip_unsafe_safe. Qed.

Lemma strip_unsafe_fix (s : string) :
  all_chars is_safe_char s = true -> strip_unsafe s = s.
Proof.
  induction s as [|c s IH]; [reflexivity|]. cbn [all_chars strip_unsafe].
  intros H. apply andb_true_iff in H as [H1 H2]. now rewrite H1, IH.
Qed.

Lemma underscore_spaces_fix (b : bool) (s : string) :
  all_chars is_slug_char s = true -> underscore_spaces b s = s.
Proof.
  revert b; induction s as [|c s IH]; intros b; [reflexivity|].
  cbn [all_chars underscore_spaces].
  intros H. apply andb_true_iff in H as [H1 H2].
  now rewrite (slug_not_ws _ H1), IH.
Qed.

Lemma strip_unsafe_empty (s : string) :
  strip_unsafe s = "" <-> all_chars (fun c => negb (is_safe_char c)) s = true.
Proof.
  induction s as [|c s IH]; [split; reflexivity|]. cbn [all_chars strip_unsafe].
  destruct (is_safe_char c); cbn [negb andb]; [split; discriminate | exact IH].
Qed.

Lemma underscore_spaces_empty (s : string) :
  underscore_spaces false s = "" <-> s = "".
Proof.
  destruct s as [|c s]; [split; reflexivity|]. cbn [underscore_spaces].
  destruct (is_ws c); split; discriminate.
Qed.

(** X9. Sanitising a title or a name leaves only letters, digits, hyphens
    and underscores; a sanitised text is not changed by sanitising it
    again; the result is empty exactly when the text has none of the
    characters kept (letters, digits, hyphen, underscore, space). *)
Theorem sanitize_spec (s : string) :
  all_chars is_slug_char (sanitize s) = true
  /\ sanitize (sanitize s) = sanitize s
  /\ (sanitize s = "" <-> all_chars (fun c => negb (is_safe_char c)) s = true).
Proof.
  split; [apply sanitize_slug|]. split.
  - pose proof (sanitize_slug s) as H. unfold sanitize at 1.
    rewrite strip_unsafe_fix by (revert H; apply all_chars_impl, slug_safe).
    now apply underscore_spaces_fix.
  - unfold sanitize. now rewrite underscore_spaces_empty, strip_unsafe_empty.
Qed.

Lemma trimmed_title_blank (t : option string) :
  str_truthy (trimmed_title t) = non_blank t.
Proof.
  destruct t as [s|]; [|reflexivity]. unfold trimmed_title, non_blank, str_truthy.
  destruct (String.eqb_spec s "") as [->|Hs]; cbn [negb]; [reflexivity|].
  destruct (all_chars is_ws s) eqn:B.
  - apply trim_blank in B. now rewrite B.
  - destruct (String.eqb_spec (trim s) "") as [E|_]; [|reflexivity].
    apply trim_blank in E. congruence.
Qed.

Lemma trimmed_title_some (s : string) :
  non_blank (Some s) = true -> trimmed_title (Some s) = trim s.
Proof.
  unfold trimmed_title, non_blank, str_truthy.
  destruct (String.eqb_spec s "") as [->|_]; [discriminate | reflexivity].
Qed.

(** X10. The title of an export is the trimmed last title when that has
    a character other than white space, else the trimmed title when that
    has one, else the fallback; a blank or missing title never makes it
    blank. *)
Theorem baseTitle_priority (fallback : string) (title lastTitle : option string) :
  (forall s, lastTitle = Some s -> non_blank lastTitle = true ->
     baseTitle fallback title lastTitle = trim s)
  /\ (forall s, non_blank lastTitle = false -> title = Some s ->
        non_blank title = true -> baseTitle fallback title lastTitle = trim s)
  /\ (non_blank lastTitle = false -> non_blank title = false ->
      baseTitle fallback title lastTitle = fallback)
  /\ (all_chars is_ws fallback = false ->
      all_chars is_ws (baseTitle fallback title lastTitle) = false).
Proof.
  unfold baseTitle. rewrite !trimmed_title_blank. repeat split.
  - intros s -> H. rewrite H. now apply trimmed_title_some.
  - intros s H1 -> H2. rewrite H1, H2. now apply trimmed_title_some.
  - intros H1 H2. now rewrite H1, H2.
  - intros Hf.
    assert (K : forall t, non_blank t = true ->
                  all_chars is_ws (trimmed_title t) = false).
    { intros [s|] Hs; [|discriminate]. rewrite (trimmed_title_some _ Hs).
      destruct (all_chars is_ws (trim s)) eqn:B; [|reflexivity].
      apply trim_blank in B. rewrite trim_fix in B by apply trim_trimmed.
      apply trim_blank in B. unfold non_blank in Hs. now rewrite B in Hs. }
    destruct (non_blank lastTitle) eqn:H1; [now apply K|].
    destruct (non_blank title) eqn:H2; [now apply K | exact Hf].
Qed.

Lemma baseTitle_priority_witness :
  non_blank (Some "  Quiz 1 ") = true
  /\ baseTitle "report" (Some "Old") (Some "  Quiz 1 ") = "Quiz 1"
  /\ baseTitle "report" (Some "Old") (Some "  ") = "Old"
  /\ baseTitle "report" (Some "") None = "report".
Proof.
  destruct (baseTitle_priority "report" (Some "Old") (Some "  Quiz 1 ")) as (H1 & _).
  destruct (baseTitle_priority "report" (Some "Old") (Some "  ")) as (_ & H2 & _).
  destruct (baseTitle_priority "report" (Some "") None) as (_ & _ & H3 & _).
  split; [reflexivity|]. split; [exact (H1 _ eq_refl eq_refl)|].
  split; [exact (H2 _ eq_refl eq_refl eq_refl) | exact (H3 eq_refl eq_refl)].
Defined.

End FileNameFacts.

(** ** The other exports of fileDownloaders.jsx *)

Module ExportFacts.
Import JS Model Spec Vocabulary StringFacts DecimalFacts TrimFacts.
Import FileDownloaders Exports FileNameFacts.

Lemma length_digits_small (n : N) :
  (n < 100)%N -> (String.length (digits_of_N n) <= 2)%nat.
Proof.
  intros H.
  assert (A : forallb (fun k => (String.length (digits_of_N (N.of_nat k)) <=? 2)%nat)
                (seq 0 100) = true) by (vm_compute; reflexivity).
  rewrite forallb_forall in A.
  specialize (A (N.to_nat n)). rewrite N2Nat.id in A.
  apply Nat.leb_le, A, in_seq. lia.
Qed.

Lemma pad_digits (n : N) : all_chars is_digit (pad n) = true.
Proof.
  unfold pad. now rewrite all_chars_append, all_digits_zeros, digits_of_N_digits.
Qed.

(** X11. The two-digit field of a file name: it is made of digits, reads
    back as the number, has at least two characters, and exactly two
    for a number below 100. *)
Theorem pad_two_digits (n : N) :
  all_chars is_digit (pad n) = true
  /\ digits_value (pad n) = n
  /\ (2 <= String.length (pad n))%nat
  /\ ((n < 100)%N -> String.length (pad n) = 2%nat).
Proof.
  split; [apply pad_digits|]. unfold pad. split; [|split].
  - rewrite digits_value_zeros. apply digits_value_of_N.
  - rewrite length_append, length_zeros. lia.
  - intros H. apply length_digits_small in H.
    rewrite length_append, length_zeros. lia.
Qed.

Lemma pad_two_digits_witness :
  (7 < 100)%N /\ pad 7 = "07" /\ String.length (pad 7) = 2%nat.
Proof.
  split; [reflexivity|]. split; [reflexivity|].
  destruct (pad_two_digits 7) as (_ & _ & _ & H). apply H. reflexivity.
Defined.

Lemma name_digits (n : N) : all_chars is_name_char (digits_of_N n) = true.
Proof.
  generalize (digits_of_N_digits n). apply all_chars_impl, digit_name.
Qed.

Lemma name_pad (n : N) : all_chars is_name_char (pad n) = true.
Proof.
  generalize (pad_digits n). apply all_chars_impl, digit_name.
Qed.

Lemma name_sanitize (s : string) : all_chars is_name_char (sanitize s) = true.
Proof. generalize (sanitize_slug s). apply all_chars_impl, slug_name. Qed.

Lemma name_safeTitle (fb : string) (t lt : option string) :
  all_chars is_name_char (safeTitle fb t lt) = true.
Proof. apply (name_sanitize (baseTitle fb t lt)). Qed.

Lemma name_stamp (now : clock) : all_chars is_name_char (stamp now) = true.
Proof.
  unfold stamp. rewrite !all_chars_append, !name_pad, name_digits. reflexivity.
Qed.

Lemma sanitize_fix (s : string) : all_chars is_slug_char s = true -> sanitize s = s.
Proof.
  intros H. unfold sanitize.
  rewrite strip_unsafe_fix by (revert H; apply all_chars_impl, slug_safe).
  now apply underscore_spaces_fix.
Qed.

Lemma slug_digits (n : N) : all_chars is_slug_char (digits_of_N n) = true.
Proof.
  generalize (digits_of_N_digits n). apply all_chars_impl.
  intros c. destruct c as [[] [] [] [] [] [] [] []]; vm_compute; auto.
Qed.

Lemma slug_default (index : nat) :
  all_chars is_slug_char ("Student_" ++ digits_of_N (N.of_nat (index + 1))) = true.
Proof. rewrite all_chars_append, slug_digits. reflexivity. Qed.

Ltac fin :=
  first
    [ discriminate
    | intros H; discriminate H
    | intros [T _]; discriminate T
    | intros ? H; discriminate H
    | intros n H; injection H as <-;
      first [ apply sanitize_slug
            | apply slug_default ]
    | auto ].

(** X12. The name part [downloadStudentTxt] and [downloadStudentDoc] put
    in the file name: the call fails exactly when the student's name is
    truthy and not a string; a student without a name is called by
    position, counting from one; the part has only letters, digits,
    hyphens and underscores. *)
Theorem studentName_spec (student : ScoreRecord) (index : nat) :
  (studentName student index = None
   <-> truthy (name student) = true /\ forall s, name student <> VStr s)
  /\ (truthy (name student) = false ->
      studentName student index
      = Some ("Student_" ++ digits_of_N (N.of_nat (index + 1))))
  /\ (forall s, name student = VStr s -> s <> "" ->
      studentName student index = Some (sanitize s))
  /\ (forall n, studentName student index = Some n ->
      all_chars is_slug_char n = true).
Proof.
  assert (D : sanitize ("Student_" ++ digits_of_N (N.of_nat (index + 1)))
              = "Student_" ++ digits_of_N (N.of_nat (index + 1))).
  { apply sanitize_fix, slug_default. }
  unfold studentName, str_truthy.
  destruct (name student) as [| |b|m|s|o] eqn:E; cbn [truthy].
  - rewrite D. repeat split; fin.
  - rewrite D. repeat split; fin.
  - destruct b; [|rewrite D]; repeat split; fin.
  - destruct m as [q| |i]; cbn [truthy]; [destruct (negb (Qeqb0 q))| |]; rewrite ?D;
      repeat split; fin.
  - destruct (String.eqb_spec s "") as [->|Hs]; cbn [negb]; rewrite ?D.
    + repeat split; try (intros t H Ht; injection H as <-; now elim Ht); fin.
    + repeat split; try (intros [_ N]; now elim (N s));
        try (intros t H _; now injection H as <-); fin.
  - repeat split; fin.
Qed.

Lemma studentName_spec_witness :
  truthy (name (mkScore VNull VNull VNull None)) = false
  /\ studentName (mkScore VNull VNull VNull None) 4 = Some "Student_5"
  /\ studentName (mkScore (VStr "Ann Lee (B)") VNull VNull None) 0 = Some "Ann_Lee_B".
Proof.
  destruct (studentName_spec (mkScore VNull VNull VNull None) 4) as (_ & H & _).
  destruct (studentName_spec (mkScore (VStr "Ann Lee (B)") VNull VNull None) 0)
    as (_ & _ & K & _).
  split; [reflexivity|]. split; [exact (H eq_refl)|].
  apply (K "Ann Lee (B)" eq_refl). discriminate.
Defined.

Ltac name_chars :=
  repeat first [rewrite all_chars_append | progress cbn [all_chars]];
  rewrite ?name_safeTitle, ?name_stamp, ?name_sanitize; try reflexivity.

Lemma studentName_slug (student : ScoreRecord) (index : nat) (n : string) :
  studentName student index = Some n -> all_chars is_slug_char n = true.
Proof.
  unfold studentName.
  destruct (name student) as [| |b|m|s|o];
    try (destruct (truthy _); [discriminate|]);
    intros H; injection H as <-; apply sanitize_slug.
Qed.

Section WithBuiltins.

Variable NumberToString : Q -> string.
Variable StringToNumber : string -> number.
Variable buildReportHTML :
  option (list (option ScoreRecord)) -> value -> option string -> option string -> string.
Variable buildStudentHTML : ScoreRecord -> option string -> option string -> string.
Variable buildReportHTMLForSection :
  string -> string -> option string -> option string -> string.

Lemma names_one (c m n : string) :
  all_chars is_name_char n = true -> names_safe [NewBlob c m; ClickDownload n].
Proof. intros H. unfold names_safe. cbn. now constructor. Qed.

Lemma names_none : names_safe [].
Proof. constructor. Qed.

(** X13. Whatever the title, the student's name, the file name of a
    presentation or the clock, every file an export downloads has a name
    made of letters, digits, hyphens, underscores and dots only. *)
Theorem export_file_names_safe (now : clock) (title lastTitle : option string)
    (result summary : value) (scores : option (list (option ScoreRecord)))
    (student : option ScoreRecord) (index : nat) (section filename : string) :
  names_safe (downloadDoc buildReportHTML result scores title lastTitle)
  /\ names_safe (Exports.downloadResult NumberToString StringToNumber now
                   result summary scores title lastTitle)
  /\ (forall l, downloadStudentTxt NumberToString StringToNumber now student
                  index title lastTitle = Some l -> names_safe l)
  /\ (forall l, downloadStudentDoc buildStudentHTML student index title lastTitle
                = Some l -> names_safe l)
  /\ names_safe (downloadPPTSectionTxt now section filename title lastTitle)
  /\ names_safe (downloadPPTSectionDoc buildReportHTMLForSection section filename
                   title lastTitle)
  /\ all_chars is_name_char (downloadExcel_fileName now title lastTitle) = true.
Proof.
  repeat split.
  - unfold downloadDoc. destruct (nothing_to_export result scores); [apply names_none|].
    apply names_one. name_chars.
  - unfold Exports.downloadResult.
    destruct (downloadResult_payload _ _ _ _ _); [|apply names_none].
    apply names_one. unfold downloadResult_fileName. name_chars.
  - intros l. unfold downloadStudentTxt. destruct student as [s|].
    + destruct (studentName s index) as [nm|] eqn:E; [|discriminate].
      intros H. injection H as <-. apply names_one.
      pose proof (all_chars_impl _ _ _ slug_name (studentName_slug _ _ _ E)) as Hnm.
      name_chars. rewrite Hnm. reflexivity.
    + intros H. injection H as <-. apply names_none.
  - intros l. unfold downloadStudentDoc. destruct student as [s|].
    + destruct (studentName s index) as [nm|] eqn:E; [|discriminate].
      intros H. injection H as <-. apply names_one.
      pose proof (all_chars_impl _ _ _ slug_name (studentName_slug _ _ _ E)) as Hnm.
      name_chars. rewrite Hnm. reflexivity.
    + intros H. injection H as <-. apply names_none.
  - apply names_one. name_chars.
  - apply names_one. name_chars.
  - unfold downloadExcel_fileName. name_chars.
Qed.

Lemma student_text_named (d : string) (s : option ScoreRecord) :
  truthy (field name s) = true ->
  student_text NumberToString StringToNumber d s
  = buildStudentText NumberToString StringToNumber s.
Proof.
  intros H. unfold buildStudentText, student_text, student_header, text_or.
  now rewrite H.
Qed.

(** X14. With a non-empty scores array the text export does not look at
    the result or the summary: its payload is the students' text reports
    separated by an empty line, each the text [buildStudentText] gives,
    for students that have a name. *)
Theorem downloadResult_joins_student_texts (result summary : value)
    (scores : list (option ScoreRecord)) :
  scores <> [] ->
  Forall (fun s => truthy (field name s) = true) scores ->
  downloadResult_payload NumberToString StringToNumber result summary (Some scores)
  = Some (join (NL ++ NL)
            (map (buildStudentText NumberToString StringToNumber) scores)).
Proof.
  intros Hne Hall. unfold downloadResult_payload.
  destruct scores as [|s rest]; [now elim Hne|].
  rewrite orb_true_r. cbn [negb andb]. rewrite andb_false_r. f_equal. f_equal.
  apply map_ext_in. intros x Hx. apply student_text_named.
  rewrite Forall_forall in Hall. now apply Hall.
Qed.

(** X15. The text export does nothing exactly when result and summary
    are falsy and there is no score; with a summary and no score it
    exports an empty file, whatever the result text is; with neither it
    exports the result text. *)
Theorem downloadResult_without_scores (result summary : value)
    (scores : option (list (option ScoreRecord))) :
  (downloadResult_payload NumberToString StringToNumber result summary scores = None
   <-> truthy result = false /\ truthy summary = false
       /\ (scores = None \/ scores = Some []))
  /\ (scores = None \/ scores = Some [] ->
      (truthy summary = true ->
       downloadResult_payload NumberToString StringToNumber result summary scores
       = Some "")
      /\ (truthy summary = false -> truthy result = true ->
          downloadResult_payload NumberToString StringToNumber result summary scores
          = Some (ToString NumberToString result))).
Proof.
  unfold downloadResult_payload. split.
  - destruct scores as [[|s rest]|]; rewrite ?orb_true_r, ?orb_false_r;
      cbn [negb andb]; rewrite ?andb_false_r.
    + destruct (truthy result), (truthy summary); cbn; split;
        try discriminate; try (intros (A & B & C); discriminate); auto.
    + split; [discriminate|]. intros (_ & _ & [C|C]); discriminate.
    + destruct (truthy result), (truthy summary); cbn; split;
        try discriminate; try (intros (A & B & C); discriminate); auto.
  - intros [-> | ->]; rewrite orb_false_r; split.
    + intros ->. cbn [negb andb]. now rewrite andb_false_r.
    + intros -> ->. reflexivity.
    + intros ->. cbn [negb andb]. now rewrite andb_false_r.
    + intros -> ->. reflexivity.
Qed.

End WithBuiltins.

Lemma downloadResult_joins_student_texts_witness :
  [ann; bob] <> []
  /\ Forall (fun s => truthy (field name s) = true) [ann; bob]
  /\ downloadResult_payload sample_NumberToString sample_StringToNumber
       VNull VNull (Some [ann; bob])
     = Some (join (NL ++ NL)
               (map (buildStudentText sample_NumberToString sample_StringToNumber)
                    [ann; bob])).
Proof.
  assert (H1 : [ann; bob] <> []) by discriminate.
  assert (H2 : Forall (fun s => truthy (field name s) = true) [ann; bob]).
  { repeat constructor. }
  split; [exact H1|]. split; [exact H2|].
  exact (downloadResult_joins_student_texts sample_NumberToString
           sample_StringToNumber VNull VNull _ H1 H2).
Defined.

Lemma downloadResult_without_scores_witness :
  truthy (VStr "Summary") = true
  /\ downloadResult_payload sample_NumberToString sample_StringToNumber
       (VStr "Raw text") (VStr "Summary") (Some []) = Some "".
Proof.
  split; [reflexivity|].
  destruct (downloadResult_without_scores sample_NumberToString
              sample_StringToNumber (VStr "Raw text") (VStr "Summary") (Some []))
    as (_ & H).
  destruct (H (or_intror eq_refl)) as (K & _). exact (K eq_refl).
Defined.

Lemma export_file_names_safe_witness :
  downloadStudentTxt sample_NumberToString sample_StringToNumber sample_clock
    ann 0 (Some "Mid-Term: Essay #1!") None
  = Some [ NewBlob (buildStudentText sample_NumberToString sample_StringToNumber
                      ann) "text/plain";
           ClickDownload "Mid-Term_Essay_1_Ann_07-03-2025_09-05.txt" ]
  /\ names_safe [ NewBlob (buildStudentText sample_NumberToString
                             sample_StringToNumber ann) "text/plain";
                  ClickDownload "Mid-Term_Essay_1_Ann_07-03-2025_09-05.txt" ].
Proof.
  assert (E : downloadStudentTxt sample_NumberToString sample_StringToNumber
                sample_clock ann 0 (Some "Mid-Term: Essay #1!") None
              = Some [ NewBlob (buildStudentText sample_NumberToString
                                  sample_StringToNumber ann) "text/plain";
                       ClickDownload "Mid-Term_Essay_1_Ann_07-03-2025_09-05.txt" ])
    by reflexivity.
  split; [exact E|].
  destruct (export_file_names_safe sample_NumberToString sample_StringToNumber
              sample_buildReportHTML (fun _ _ _ => "") (fun _ _ _ _ => "")
              sample_clock (Some "Mid-Term: Essay #1!") None VNull VNull None
              ann 0 "" "") as (_ & _ & H & _).
  exact (H _ E).
Defined.

End ExportFacts.

(** ** The complete list of the sheet and the feedback column *)

Module SortFacts.
Import JS Model Spec Vocabulary StringFacts DecimalFacts TrimFacts.
Import ExcelExport ExcelSheet BlankInput.

Lemma comparable_keys (l : list ScoreRecord) :
  comparable l -> forallb (fun s => negb (isNaN (sort_key s))) l = true.
Proof.
  induction 1 as [|s l [Hs _] _ IH]; [reflexivity|]. cbn [forallb]. rewrite IH, andb_true_r.
  unfold sort_key. destruct (score_percent s) as [| | |[q| |i]| |]; try reflexivity.
  now elim Hs.
Qed.

Lemma key_not_NaN (s : ScoreRecord) : score_percent s <> VNum NaN -> key_of s <> NaN.
Proof.
  unfold key_of, sort_key. destruct (score_percent s) as [| | |n| |]; try discriminate.
  intros H ->. now elim H.
Qed.

(** The later record moves in front exactly when its key is greater. *)
Lemma moves_in_front (x y : ScoreRecord) :
  score_percent x <> VNum NaN /\ is_number (key_of x) = true ->
  score_percent y <> VNum NaN /\ is_number (key_of y) = true ->
  num_ltb (Fin 0) (compare_scores x y) = negb (num_geb (key_of x) (key_of y)).
Proof.
  intros [Hx Dx] [Hy Dy]. apply key_not_NaN in Hx, Hy.
  unfold compare_scores. fold (key_of x) (key_of y).
  destruct (key_of x) as [a| |[|]], (key_of y) as [b| |[|]];
    try congruence; try reflexivity.
  cbn [num_sub num_geb]. now apply DoubleFacts.double_sub_sign.
Qed.

Lemma insert_perm (x : ScoreRecord) (l : list ScoreRecord) :
  Permutation (x :: l) (insert_sorted x l).
Proof.
  induction l as [|y l IH]; [reflexivity|]. cbn [insert_sorted].
  destruct (num_ltb _ _); [|reflexivity].
  rewrite perm_swap. now constructor.
Qed.

Lemma sort_perm (l : list ScoreRecord) :
  Permutation l (fold_right insert_sorted [] l).
Proof.
  induction l as [|x l IH]; [reflexivity|]. cbn [fold_right].
  rewrite <- insert_perm. now constructor.
Qed.

Lemma comparable_perm (l l' : list ScoreRecord) :
  Permutation l l' -> comparable l -> comparable l'.
Proof. intros P. unfold comparable. now rewrite P. Qed.

Lemma insert_descending (x : ScoreRecord) (l : list ScoreRecord) :
  score_percent x <> VNum NaN /\ is_number (key_of x) = true -> comparable l ->
  StronglySorted not_below l -> StronglySorted not_below (insert_sorted x l).
Proof.
  intros Hx Hl S. induction S as [|y l S IH Hy]; [repeat constructor|].
  inversion Hl as [|? ? Hyn Hl']; subst. cbn [insert_sorted].
  rewrite (moves_in_front _ _ Hx Hyn).
  destruct (num_geb (key_of x) (key_of y)) eqn:B; cbn [negb].
  - constructor; [now constructor|].
    constructor; [exact B|]. rewrite Forall_forall in *.
    intros z Hz. unfold not_below in *. specialize (Hy z Hz).
    eapply DoubleFacts.geb_trans; eassumption.
  - constructor; [now apply IH|].
    rewrite <- (insert_perm x l). constructor; [|exact Hy].
    unfold not_below.
    destruct (DoubleFacts.geb_total (key_of x) (key_of y)
                (key_not_NaN _ (proj1 Hx)) (key_not_NaN _ (proj1 Hyn))); congruence.
Qed.

Lemma sort_descending (l : list ScoreRecord) :
  comparable l -> StronglySorted not_below (fold_right insert_sorted [] l).
Proof.
  induction 1 as [|x l Hx Hl IH]; [constructor|]. cbn [fold_right].
  apply insert_descending; [exact Hx | | exact IH].
  exact (comparable_perm l _ (sort_perm l) Hl).
Qed.

Lemma same_key_not_below (a b k : number) :
  num_eqb a k = true -> num_eqb b k = true -> num_geb a b = true.
Proof.
  destruct a as [x| |[|]], b as [y| |[|]], k as [z| |[|]];
    cbn [num_eqb num_geb Bool.eqb negb orb]; try discriminate; try reflexivity.
  intros A B. apply Qeq_bool_iff in A, B. apply Qle_bool_iff. rewrite A, B. apply Qle_refl.
Qed.

Lemma insert_stable (k : number) (x : ScoreRecord) (l : list ScoreRecord) :
  score_percent x <> VNum NaN /\ is_number (key_of x) = true -> comparable l ->
  with_key k (insert_sorted x l) = with_key k (x :: l).
Proof.
  intros Hx Hl. induction Hl as [|y l Hy Hl IH]; [reflexivity|].
  cbn [insert_sorted]. rewrite (moves_in_front _ _ Hx Hy).
  destruct (num_geb (key_of x) (key_of y)) eqn:B; cbn [negb]; [reflexivity|].
  unfold with_key in *. cbn [filter] in *. rewrite IH.
  destruct (num_eqb (key_of y) k) eqn:Ey; destruct (num_eqb (key_of x) k) eqn:Ex;
    try reflexivity.
  rewrite (same_key_not_below _ _ _ Ex Ey) in B. discriminate.
Qed.

Lemma sort_stable (k : number) (l : list ScoreRecord) :
  comparable l -> with_key k (fold_right insert_sorted [] l) = with_key k l.
Proof.
  induction 1 as [|x l Hx Hl IH]; [reflexivity|]. cbn [fold_right].
  rewrite insert_stable; [| exact Hx | exact (comparable_perm l _ (sort_perm l) Hl)].
  unfold with_key in *. cbn [filter]. now rewrite IH.
Qed.

Lemma sortedScores_done (rawScores : list ScoreRecord) :
  comparable rawScores ->
  sortedScores rawScores = Done (fold_right insert_sorted [] rawScores).
Proof. intros H. unfold sortedScores. now rewrite comparable_keys. Qed.

(** X16. When no score is NaN (and every score is a double, as every
    JavaScript number is), the complete list holds every record of the
    input once, scored or not; it runs from the highest key down, where a
    record without a numeric score has the key -1 and a score may be an
    infinity; and records with equal keys keep the order of the input. *)
Theorem sortedScores_spec (rawScores : list ScoreRecord) :
  comparable rawScores ->
  exists sorted,
    sortedScores rawScores = Done sorted
    /\ Permutation rawScores sorted
    /\ StronglySorted not_below sorted
    /\ forall k, with_key k sorted = with_key k rawScores.
Proof.
  intros H. exists (fold_right insert_sorted [] rawScores). split.
  - now apply sortedScores_done.
  - split; [apply sort_perm|]. split; [now apply sort_descending|].
    intros k. now apply sort_stable.
Qed.

Lemma sortedScores_spec_witness :
  comparable tie_scores
  /\ exists sorted,
       sortedScores tie_scores = Done sorted
       /\ Permutation tie_scores sorted
       /\ StronglySorted not_below sorted
       /\ forall k, with_key k sorted = with_key k tie_scores.
Proof.
  assert (H : comparable tie_scores)
    by (repeat constructor; solve [discriminate | vm_compute; reflexivity]).
  split; [exact H | exact (sortedScores_spec tie_scores H)].
Defined.

End SortFacts.

(** ** The feedback column *)

Module FeedbackFacts.
Import JS Model Spec Vocabulary StringFacts DecimalFacts TrimFacts.
Import ExcelExport BlankInput.

Lemma detail_feedback_has (i : nat) (d : option QuestionDetail) :
  (has_feedback d = false -> detail_feedback i d = None)
  /\ (has_feedback d = true ->
      exists q f, d = Some q /\ feedback q = VStr f
        /\ detail_feedback i d
           = Some ("Q" ++ digits_of_N (N.of_nat (i + 1)) ++ ": " ++ trim f)).
Proof.
  unfold has_feedback, detail_feedback. destruct d as [q|]; [|split; [reflexivity | discriminate]].
  destruct (feedback q) as [| | | |f|] eqn:Ef; try (split; [reflexivity | discriminate]).
  unfold str_truthy. destruct (all_chars is_ws f) eqn:B; cbn [negb]; split;
    try discriminate; intros _.
  - apply trim_blank in B. rewrite B. cbn. now rewrite andb_false_r.
  - exists q, f. split; [reflexivity|]. split; [exact Ef|].
    destruct (String.eqb_spec f "") as [->|_]; [discriminate B|].
    destruct (String.eqb_spec (trim f) "") as [E|_]; [|reflexivity].
    apply trim_blank in E. congruence.
Qed.

Lemma pieces_none (ds : list (option QuestionDetail)) (i : nat) :
  keep_some (mapi_from detail_feedback i ds) = []
  <-> Forall (fun d => has_feedback d = false) ds.
Proof.
  revert i; induction ds as [|d ds IH]; intros i; [split; constructor|].
  cbn [mapi_from keep_some flat_map]. fold (keep_some (mapi_from detail_feedback (S i) ds)).
  destruct (has_feedback d) eqn:H.
  - destruct (proj2 (detail_feedback_has i d) H) as (q & f & _ & _ & ->).
    split; [discriminate|]. intros F. inversion F; congruence.
  - rewrite (proj1 (detail_feedback_has i d) H). cbn [List.app]. rewrite IH.
    split; [now constructor | intros F; now inversion F].
Qed.

Lemma in_pieces (ds : list (option QuestionDetail)) (i k : nat) (d : option QuestionDetail) (p : string) :
  nth_error ds k = Some d -> detail_feedback (i + k) d = Some p ->
  In p (keep_some (mapi_from detail_feedback i ds)).
Proof.
  revert i k; induction ds as [|e ds IH]; intros i k; [destruct k; discriminate|].
  cbn [mapi_from keep_some flat_map]. fold (keep_some (mapi_from detail_feedback (S i) ds)).
  destruct k as [|k]; cbn [nth_error].
  - intros E. injection E as ->. rewrite Nat.add_0_r. intros ->. now left.
  - intros E H. apply in_or_app. right. apply (IH (S i) k E).
    now replace (S i + k)%nat with (i + S k)%nat by lia.
Qed.

Lemma occurs_in_join (sep p : string) (l : list string) :
  In p l -> occurs p (join sep l).
Proof.
  induction l as [|x l IH]; [intros []|]. intros [<- | H].
  - destruct l as [|y l]; [exists "", ""; now rewrite append_nil_r|].
    exists "", (sep ++ join sep (y :: l)). reflexivity.
  - destruct l as [|y l]; [destruct H|].
    destruct (IH H) as (pre & post & E).
    exists (x ++ sep ++ pre), post.
    change (join sep (x :: y :: l)) with (x ++ sep ++ join sep (y :: l)).
    rewrite E, !append_assoc. reflexivity.
Qed.

Lemma pieces_start (ds : list (option QuestionDetail)) (i : nat) (p : string) :
  In p (keep_some (mapi_from detail_feedback i ds)) -> exists r, p = String "Q" r.
Proof.
  revert i; induction ds as [|d ds IH]; intros i; [intros []|].
  cbn [mapi_from keep_some flat_map]. fold (keep_some (mapi_from detail_feedback (S i) ds)).
  intros H. apply in_app_or in H as [H|H]; [|now apply (IH (S i))].
  destruct (has_feedback d) eqn:F.
  - destruct (proj2 (detail_feedback_has i d) F) as (q & f & _ & _ & E).
    rewrite E in H. destruct H as [<-|[]]. eexists. reflexivity.
  - rewrite (proj1 (detail_feedback_has i d) F) in H. destruct H.
Qed.

Lemma join_head (sep : string) (l : list string) :
  l <> [] -> (forall p, In p l -> exists r, p = String "Q" r) ->
  exists r, join sep l = String "Q" r.
Proof.
  destruct l as [|x l]; [congruence|]. intros _ H.
  destruct (H x (or_introl eq_refl)) as (r & ->).
  destruct l; eexists; reflexivity.
Qed.

(** X17. The feedback cell of a record is never empty.  It is a hyphen
    exactly when no detail has a feedback string with a character other
    than white space; otherwise every such feedback occurs in it,
    trimmed, after the letter Q and the position of its detail among all
    the details, counted from one. *)
Theorem extractFeedback_spec (student : ScoreRecord) :
  extractFeedback student <> ""
  /\ (extractFeedback student = "-"
      <-> Forall (fun d => has_feedback d = false) (details_of student))
  /\ (forall k q f,
        nth_error (details_of student) k = Some (Some q) ->
        feedback q = VStr f -> all_chars is_ws f = false ->
        occurs ("Q" ++ digits_of_N (N.of_nat (k + 1)) ++ ": " ++ trim f)
               (extractFeedback student)).
Proof.
  unfold extractFeedback, details_of.
  destruct (details student) as [[|d ds]|].
  - split; [discriminate|]. split; [split; [constructor | reflexivity]|].
    intros [|k] ? ? E; discriminate E.
  - set (l := d :: ds).
    set (pieces := keep_some (mapi_from detail_feedback 0 l)).
    pose proof (pieces_none l 0) as N. fold pieces in N.
    destruct pieces as [|p ps] eqn:P.
    + cbn [List.length Nat.ltb Nat.leb]. split; [discriminate|].
      split; [split; [intros _; now apply N | reflexivity]|].
      intros k q f E Hf B. exfalso.
      assert (H : has_feedback (Some q) = true) by (cbn; now rewrite Hf, B).
      destruct (proj2 (detail_feedback_has (0 + k) (Some q)) H) as (? & ? & _ & _ & D).
      pose proof (in_pieces l 0 k _ _ E D) as I. fold pieces in I. rewrite P in I.
      destruct I.
    + change (0 <? List.length (p :: ps))%nat with true. cbv iota.
      destruct (join_head " | " (p :: ps)) as (r & J); [discriminate | |].
      { intros x Hx. apply (pieces_start l 0). fold pieces. now rewrite P. }
      split; [rewrite J; discriminate|]. split.
      * split; [rewrite J; discriminate|]. intros F. apply N in F. discriminate F.
      * intros k q f E Hf B. apply occurs_in_join. rewrite <- P.
        apply (in_pieces l 0 k (Some q)); [exact E|].
        unfold detail_feedback. rewrite Hf. unfold str_truthy.
        destruct (String.eqb_spec f "") as [->|_]; [discriminate B|].
        destruct (String.eqb_spec (trim f) "") as [T|_]; [|reflexivity].
        apply trim_blank in T. congruence.
  - split; [discriminate|]. split; [split; [constructor | reflexivity]|].
    intros [|k] ? ? E; discriminate E.
Qed.

Lemma extractFeedback_spec_witness :
  let q1 := mkDetail (VStr "Q") (VStr "a") (VStr "b") (VBool false) (VStr "  ") in
  let q2 := mkDetail (VStr "Q") (VStr "a") (VStr "b") (VBool false) (VStr " Revise units ") in
  let student := mkScore (VStr "Ann") (VNum (Fin 70)) (VStr "ok") (Some [Some q1; None; Some q2]) in
  all_chars is_ws " Revise units " = false
  /\ extractFeedback student = "Q3: Revise units"
  /\ occurs "Q3: Revise units" (extractFeedback student).
Proof.
  intros q1 q2 student. split; [reflexivity|]. split; [reflexivity|].
  destruct (extractFeedback_spec student) as (_ & _ & H).
  exact (H 2%nat q2 " Revise units " eq_refl eq_refl eq_refl).
Defined.

End FeedbackFacts.

(** ** The rows of the sheet and the ranges that are styled *)

Module SheetFacts.
Import JS Model Spec Vocabulary ExcelExport ExcelSheet SortFacts.
Local Open Scope list_scope.

Lemma covers_app {A : Type} (r : range) (l data more : list A) :
  covers r l data -> covers r l (data ++ more).
Proof.
  intros (pre & post & -> & Hs & He). exists pre, (post ++ more).
  rewrite <- !app_assoc. auto.
Qed.

Lemma covers_end {A : Type} (r : range) (l data post : list A) :
  range_start r = List.length data ->
  (range_start r + List.length l = S (range_end r))%nat ->
  covers r l (data ++ l ++ post).
Proof. intros Hs He. exists data, post. auto. Qed.

Lemma group_app (row_of : scored_row -> outcome sheet_row)
    (header rows : option range) (extreme : option number)
    (banner : number -> sheet_row) (students : list scored_row)
    (data more : list sheet_row) :
  group_at row_of header rows extreme banner students data ->
  group_at row_of header rows extreme banner students (data ++ more).
Proof.
  unfold group_at. destruct students as [|st sts]; [auto|].
  intros (h & r & m & cells & Hh & Hr & Hm & C1 & C2 & F).
  exists h, r, m, cells. repeat split; auto using covers_app.
Qed.

Lemma in_group_valid (m : number) (rawScores : list ScoreRecord) (st : scored_row) :
  In st (filter (near m) (validScores rawScores)) -> is_valid st = true.
Proof.
  intros H. apply filter_In in H as [H _]. unfold validScores in H.
  now apply filter_In in H as [_ H].
Qed.

Lemma highest_valid (rawScores : list ScoreRecord) :
  Forall (fun st => is_valid st = true) (highestStudents rawScores).
Proof.
  apply Forall_forall. intros st. unfold highestStudents.
  destruct (maxScore rawScores); [apply in_group_valid | intros []].
Qed.

Lemma lowest_valid (rawScores : list ScoreRecord) :
  Forall (fun st => is_valid st = true) (lowestStudents rawScores).
Proof.
  apply Forall_forall. intros st. unfold lowestStudents.
  destruct (minScore rawScores); [apply in_group_valid | intros []].
Qed.

Section Sheet.

Variable NumberToString : Q -> string.
Variable summary_sign top_sign attention_sign list_sign : string.

Lemma push_students_done (students : list scored_row) (b : builder) :
  Forall (fun st => is_valid st = true) students ->
  exists cells,
    push_students NumberToString students b
    = Done (mkBuilder (excelData b ++ cells)
                      (currentRow b + List.length cells) (styleRanges b))
    /\ Forall2 (fun st row => student_row NumberToString st = Done row) students cells.
Proof.
  intros H. revert b. induction H as [|st sts Hst _ IH]; intros b.
  - exists []. cbn [push_students List.length]. rewrite app_nil_r, Nat.add_0_r.
    destruct b; split; [reflexivity | constructor].
  - cbn [push_students]. unfold is_valid in Hst.
    assert (R : exists row, student_row NumberToString st = Done row).
    { unfold student_row. destruct (score st); [eexists; reflexivity | discriminate]. }
    destruct R as [row E]. rewrite E. cbn [bind].
    destruct (IH (push row b)) as (cells & Hp & F).
    exists (row :: cells). rewrite Hp. split.
    + cbn [push excelData currentRow styleRanges List.length].
      rewrite <- app_assoc. cbn [List.app]. f_equal. f_equal. lia.
    + constructor; [exact E | exact F].
Qed.

Lemma push_all_closed (l : list ScoreRecord) (b : builder) :
  push_all NumberToString l b
  = mkBuilder (excelData b ++ map (full_row NumberToString) l)
              (currentRow b + List.length l) (styleRanges b).
Proof.
  unfold push_all. revert b. induction l as [|s l IH]; intros b.
  - cbn. rewrite app_nil_r, Nat.add_0_r. now destruct b.
  - cbn [fold_left]. rewrite IH. cbn [push excelData currentRow styleRanges map List.length].
    rewrite <- app_assoc. cbn [List.app]. f_equal. lia.
Qed.

(** One group more: the rows grow at the end, the other ranges stay, and
    the ranges of the group cover its banner and its rows. *)
Lemma add_highest_step (rawScores : list ScoreRecord) (b : builder) :
  counted b ->
  highestHeader (styleRanges b) = None -> highestRows (styleRanges b) = None ->
  exists b' added,
    add_highest NumberToString top_sign rawScores b = Done b'
    /\ excelData b' = excelData b ++ added /\ counted b'
    /\ summaryHeader (styleRanges b') = summaryHeader (styleRanges b)
    /\ averageRow (styleRanges b') = averageRow (styleRanges b)
    /\ lowestHeader (styleRanges b') = lowestHeader (styleRanges b)
    /\ lowestRows (styleRanges b') = lowestRows (styleRanges b)
    /\ allScoresHeader (styleRanges b') = allScoresHeader (styleRanges b)
    /\ allScoresRows (styleRanges b') = allScoresRows (styleRanges b)
    /\ group_at (student_row NumberToString)
         (highestHeader (styleRanges b')) (highestRows (styleRanges b'))
         (maxScore rawScores)
         (fun m => banner_row (top_banner NumberToString top_sign m
                                 (List.length (highestStudents rawScores))))
         (highestStudents rawScores) (excelData b')
    /\ (forall r, highestHeader (styleRanges b') = Some r
                  \/ highestRows (styleRanges b') = Some r ->
         (currentRow b <= range_start r)%nat).
Proof.
  intros Hc H1 H2. unfold add_highest, group_at.
  pose proof (highest_valid rawScores) as V.
  destruct (highestStudents rawScores) as [|st sts] eqn:E.
  - exists b, []. cbn. rewrite app_nil_r. repeat split; auto.
    intros r [X|X]; congruence.
  - change (0 <? List.length (st :: sts))%nat with true. cbv iota.
    destruct (maxScore rawScores) as [m|] eqn:M;
      [|unfold highestStudents in E; rewrite M in E; discriminate].
    set (banner := banner_row (top_banner NumberToString top_sign m
                                 (List.length (st :: sts)))).
    set (b1 := push banner (set_ranges (set_highestHeader
                 (mkRange (currentRow b) (currentRow b))) b)).
    destruct (push_students_done (st :: sts) b1 V) as (cells & Hp & F).
    rewrite Hp. cbn [bind]. eexists. exists ([banner] ++ cells ++ [empty_row]).
    split; [reflexivity|].
    assert (L : List.length cells = S (List.length sts)).
    { apply Forall2_length in F. cbn in F. lia. }
    unfold counted in *.
    cbn [push set_ranges excelData currentRow styleRanges b1 set_highestHeader
         set_highestRows summaryHeader averageRow lowestHeader lowestRows
         allScoresHeader allScoresRows highestHeader highestRows].
    split; [now rewrite <- !app_assoc|].
    split; [rewrite !length_app; cbn [List.length]; lia|].
    repeat (split; [reflexivity|]).
    split.
    { eexists. eexists. exists m, cells. split; [reflexivity|]. split; [reflexivity|].
      split; [reflexivity|]. split; [|split; [|exact F]].
      + rewrite <- !app_assoc. apply covers_end; cbn; lia.
      + rewrite <- !app_assoc.
        rewrite (app_assoc (excelData b) [banner]).
        apply (covers_end _ cells (excelData b ++ [banner]) [empty_row]);
          cbn [range_start range_end]; rewrite ?length_app; cbn [List.length]; lia. }
    intros r [X|X]; injection X as <-; cbn [range_start]; lia.
Qed.

Lemma add_lowest_step (rawScores : list ScoreRecord) (b : builder) :
  counted b ->
  lowestHeader (styleRanges b) = None -> lowestRows (styleRanges b) = None ->
  exists b' added,
    add_lowest NumberToString attention_sign rawScores b = Done b'
    /\ excelData b' = excelData b ++ added /\ counted b'
    /\ summaryHeader (styleRanges b') = summaryHeader (styleRanges b)
    /\ averageRow (styleRanges b') = averageRow (styleRanges b)
    /\ highestHeader (styleRanges b') = highestHeader (styleRanges b)
    /\ highestRows (styleRanges b') = highestRows (styleRanges b)
    /\ allScoresHeader (styleRanges b') = allScoresHeader (styleRanges b)
    /\ allScoresRows (styleRanges b') = allScoresRows (styleRanges b)
    /\ group_at (student_row NumberToString)
         (lowestHeader (styleRanges b')) (lowestRows (styleRanges b'))
         (minScore rawScores)
         (fun m => banner_row (attention_banner NumberToString attention_sign m
                                 (List.length (lowestStudents rawScores))))
         (lowestStudents rawScores) (excelData b')
    /\ (forall r, lowestHeader (styleRanges b') = Some r
                  \/ lowestRows (styleRanges b') = Some r ->
         (currentRow b <= range_start r)%nat).
Proof.
  intros Hc H1 H2. unfold add_lowest, group_at.
  pose proof (lowest_valid rawScores) as V.
  destruct (lowestStudents rawScores) as [|st sts] eqn:E.
  - exists b, []. cbn. rewrite app_nil_r. repeat split; auto.
    intros r [X|X]; congruence.
  - change (0 <? List.length (st :: sts))%nat with true. cbv iota.
    destruct (minScore rawScores) as [m|] eqn:M;
      [|unfold lowestStudents in E; rewrite M in E; discriminate].
    set (banner := banner_row (attention_banner NumberToString attention_sign m
                                 (List.length (st :: sts)))).
    set (b1 := push banner (set_ranges (set_lowestHeader
                 (mkRange (currentRow b) (currentRow b))) b)).
    destruct (push_students_done (st :: sts) b1 V) as (cells & Hp & F).
    rewrite Hp. cbn [bind]. eexists. exists ([banner] ++ cells ++ [empty_row]).
    split; [reflexivity|].
    assert (L : List.length cells = S (List.length sts)).
    { apply Forall2_length in F. cbn in F. lia. }
    unfold counted in *.
    cbn [push set_ranges excelData currentRow styleRanges b1 set_lowestHeader
         set_lowestRows summaryHeader averageRow lowestHeader lowestRows
         allScoresHeader allScoresRows highestHeader highestRows].
    split; [now rewrite <- !app_assoc|].
    split; [rewrite !length_app; cbn [List.length]; lia|].
    repeat (split; [reflexivity|]).
    split.
    { eexists. eexists. exists m, cells. split; [reflexivity|]. split; [reflexivity|].
      split; [reflexivity|]. split; [|split; [|exact F]].
      + rewrite <- !app_assoc. apply covers_end; cbn; lia.
      + rewrite <- !app_assoc.
        rewrite (app_assoc (excelData b) [banner]).
        apply (covers_end _ cells (excelData b ++ [banner]) [empty_row]);
          cbn [range_start range_end]; rewrite ?length_app; cbn [List.length]; lia. }
    intros r [X|X]; injection X as <-; cbn [range_start]; lia.
Qed.

Lemma add_complete_step (rawScores sorted : list ScoreRecord) (b : builder) :
  counted b -> sortedScores rawScores = Done sorted ->
  exists b',
    add_complete_list NumberToString list_sign rawScores b = Done b'
    /\ excelData b'
       = excelData b
         ++ [banner_row (list_banner list_sign (List.length rawScores)); empty_row]
         ++ map (full_row NumberToString) sorted
    /\ counted b'
    /\ summaryHeader (styleRanges b') = summaryHeader (styleRanges b)
    /\ averageRow (styleRanges b') = averageRow (styleRanges b)
    /\ highestHeader (styleRanges b') = highestHeader (styleRanges b)
    /\ highestRows (styleRanges b') = highestRows (styleRanges b)
    /\ lowestHeader (styleRanges b') = lowestHeader (styleRanges b)
    /\ lowestRows (styleRanges b') = lowestRows (styleRanges b)
    /\ exists h r,
         allScoresHeader (styleRanges b') = Some h
         /\ allScoresRows (styleRanges b') = Some r
         /\ covers h [banner_row (list_banner list_sign (List.length rawScores))]
                   (excelData b')
         /\ covers r (map (full_row NumberToString) sorted) (excelData b')
         /\ S (range_end r) = List.length (excelData b')
         /\ (currentRow b <= range_start h)%nat /\ (currentRow b <= range_start r)%nat.
Proof.
  intros Hc Hs. unfold add_complete_list. rewrite Hs. cbn [bind].
  rewrite push_all_closed. eexists. split; [reflexivity|].
  unfold counted in *.
  cbn [push set_ranges excelData currentRow styleRanges set_allScoresHeader
       set_allScoresRows summaryHeader averageRow lowestHeader lowestRows
       allScoresHeader allScoresRows highestHeader highestRows].
  set (banner := banner_row (list_banner list_sign (List.length rawScores))).
  set (cells := map (full_row NumberToString) sorted).
  assert (L : List.length cells = List.length sorted) by apply length_map.
  split; [now rewrite <- !app_assoc|].
  split; [rewrite !length_app; cbn [List.length]; lia|].
  repeat (split; [reflexivity|]).
  eexists. eexists. split; [reflexivity|]. split; [reflexivity|].
  split; [|split; [|split; [|cbn [range_start]; lia]]].
  - rewrite <- !app_assoc. apply covers_end; cbn; lia.
  - exists (excelData b ++ [banner; empty_row]), [].
    cbn [range_start range_end]. rewrite app_nil_r, <- !app_assoc, length_app.
    cbn [List.length List.app]. repeat split; lia.
  - cbn [range_end]. rewrite !length_app. cbn [List.length]. lia.
Qed.

(** With comparable scores every step of the sheet ends normally. *)
Lemma build_sheet_done (rawScores : list ScoreRecord) :
  comparable rawScores ->
  exists b,
    build_sheet NumberToString summary_sign top_sign attention_sign list_sign rawScores
    = Done b.
Proof.
  intros Hcmp. pose proof (sortedScores_done rawScores Hcmp) as Hs.
  set (b0 := add_summary NumberToString summary_sign rawScores builder_init).
  assert (C0 : counted b0) by reflexivity.
  destruct (add_highest_step rawScores b0 C0 eq_refl eq_refl)
    as (b1 & added1 & E1 & _ & C1 & _ & _ & Hlh1 & Hlr1 & _).
  destruct (add_lowest_step rawScores b1 C1)
    as (b2 & added2 & E2 & _ & C2 & _);
    [rewrite Hlh1; reflexivity | rewrite Hlr1; reflexivity |].
  destruct (add_complete_step rawScores _ b2 C2 Hs) as (b3 & E3 & _).
  exists b3. unfold build_sheet. fold b0. rewrite E1. cbn [bind]. rewrite E2.
  cbn [bind]. exact E3.
Qed.

(** X18. When no score is NaN the sheet is built without an error, and
    the ranges kept for the styles index the rows they are named for:
    the counter equals the number of rows; the summary and average
    ranges cover the summary banner and the average row; each of the two
    groups has no range when it has no student, and otherwise a header
    range on its banner and a rows range on one row for each of its
    students; the list header range covers the list banner, and the last
    range covers one row for every record of the input, in sorted order,
    up to the last row of the sheet. *)
Theorem sheet_layout (rawScores : list ScoreRecord) :
  comparable rawScores ->
  exists b sorted,
    build_sheet NumberToString summary_sign top_sign attention_sign list_sign rawScores
    = Done b
    /\ sortedScores rawScores = Done sorted
    /\ counted b
    /\ covers (summaryHeader (styleRanges b))
              [banner_row (summary_banner summary_sign)] (excelData b)
    /\ covers (averageRow (styleRanges b))
              [average_row NumberToString rawScores] (excelData b)
    /\ group_at (student_row NumberToString)
         (highestHeader (styleRanges b)) (highestRows (styleRanges b))
         (maxScore rawScores)
         (fun m => banner_row (top_banner NumberToString top_sign m
                                 (List.length (highestStudents rawScores))))
         (highestStudents rawScores) (excelData b)
    /\ group_at (student_row NumberToString)
         (lowestHeader (styleRanges b)) (lowestRows (styleRanges b))
         (minScore rawScores)
         (fun m => banner_row (attention_banner NumberToString attention_sign m
                                 (List.length (lowestStudents rawScores))))
         (lowestStudents rawScores) (excelData b)
    /\ exists h r,
         allScoresHeader (styleRanges b) = Some h
         /\ allScoresRows (styleRanges b) = Some r
         /\ covers h [banner_row (list_banner list_sign (List.length rawScores))]
                   (excelData b)
         /\ covers r (map (full_row NumberToString) sorted) (excelData b)
         /\ S (range_end r) = List.length (excelData b).
Proof.
  intros Hcmp.
  pose proof (sortedScores_done rawScores Hcmp) as Hs.
  set (sorted := fold_right insert_sorted [] rawScores) in *.
  set (b0 := add_summary NumberToString summary_sign rawScores builder_init).
  assert (C0 : counted b0) by reflexivity.
  assert (S0 : covers (summaryHeader (styleRanges b0))
                 [banner_row (summary_banner summary_sign)] (excelData b0)).
  { exists [], [average_row NumberToString rawScores; empty_row]. repeat split. }
  assert (A0 : covers (averageRow (styleRanges b0))
                 [average_row NumberToString rawScores] (excelData b0)).
  { exists [banner_row (summary_banner summary_sign)], [empty_row]. repeat split. }
  destruct (add_highest_step rawScores b0 C0 eq_refl eq_refl)
    as (b1 & added1 & E1 & D1 & C1 & Hs1 & Ha1 & Hlh1 & Hlr1 & _ & _ & G1 & _).
  destruct (add_lowest_step rawScores b1 C1)
    as (b2 & added2 & E2 & D2 & C2 & Hs2 & Ha2 & Hhh2 & Hhr2 & _ & _ & G2 & _);
    [rewrite Hlh1; reflexivity | rewrite Hlr1; reflexivity |].
  destruct (add_complete_step rawScores sorted b2 C2 Hs)
    as (b3 & E3 & D3 & C3 & Hs3 & Ha3 & Hhh3 & Hhr3 & Hlh3 & Hlr3
        & h & r & Hh & Hr & K1 & K2 & K3 & _).
  exists b3, sorted. split.
  { unfold build_sheet. fold b0. rewrite E1. cbn [bind]. rewrite E2. cbn [bind].
    exact E3. }
  split; [exact Hs|]. split; [exact C3|].
  rewrite Hs3, Hs2, Hs1, Ha3, Ha2, Ha1, Hhh3, Hhr3, Hhh2, Hhr2, Hlh3, Hlr3, D3, D2, D1.
  rewrite D1 in G1. rewrite D2, D1 in G2. rewrite D3, D2, D1 in K1, K2, K3.
  split; [do 3 apply covers_app; exact S0|].
  split; [do 3 apply covers_app; exact A0|].
  split; [do 2 apply group_app; exact G1|].
  split; [apply group_app; exact G2|].
  exists h, r. auto.
Qed.

End Sheet.

Lemma sheet_layout_witness :
  comparable two_scores
  /\ exists b,
       build_sheet sample_NumberToString "#" "+" "!" "=" two_scores = Done b
       /\ List.length (excelData b) = 14%nat
       /\ allScoresRows (styleRanges b) = Some (mkRange 11 13).
Proof.
  assert (H : comparable two_scores) by (repeat constructor; discriminate).
  split; [exact H|].
  destruct (sheet_layout sample_NumberToString "#" "+" "!" "=" two_scores H)
    as (b & sorted & E & _).
  exists b. split; [exact E|].
  assert (E' := E). vm_compute in E'. injection E' as <-.
  split; reflexivity.
Defined.

End SheetFacts.

Local Open Scope string_scope.

(** ** The styles of the cells *)

Module StyleFacts.
Import JS Model Spec Vocabulary ExcelExport ExcelSheet ExcelStyles SortFacts SheetFacts.
Local Open Scope list_scope.

Lemma column_eqb_eq (a b : column) : column_eqb a b = true <-> a = b.
Proof. destruct a, b; cbn; split; congruence. Qed.

Lemma column_eqb_refl (a : column) : column_eqb a a = true.
Proof. now destruct a. Qed.

(** What one visit of a cell leaves at every address. *)
Lemma style_cell_at (st : style) (r : nat) (ws : worksheet) (c col : column) (row : nat) :
  style_cell st r ws c col row
  = match ws col row with
    | None => None
    | Some x => if column_eqb col c && (row =? r + 1)%nat then Some (Some st) else Some x
    end.
Proof.
  unfold style_cell, set_s.
  destruct (column_eqb col c && (row =? r + 1)%nat) eqn:E.
  - apply andb_true_iff in E as [E1 E2]. apply column_eqb_eq in E1.
    apply Nat.eqb_eq in E2. subst. destruct (ws c (r + 1)%nat) eqn:W; [|exact W].
    now rewrite column_eqb_refl, Nat.eqb_refl.
  - destruct (ws c (r + 1)%nat) eqn:W; [rewrite E|]; now destruct (ws col row).
Qed.

Lemma style_columns_at (st : style) (r : nat) (cols : list column) (ws : worksheet)
    (col : column) (row : nat) :
  fold_left (style_cell st r) cols ws col row
  = match ws col row with
    | None => None
    | Some x =>
        if existsb (column_eqb col) cols && (row =? r + 1)%nat
        then Some (Some st) else Some x
    end.
Proof.
  revert ws; induction cols as [|c cols IH]; intros ws.
  - cbn. now destruct (ws col row).
  - cbn [fold_left existsb]. rewrite IH, style_cell_at.
    destruct (ws col row); [|reflexivity].
    destruct (column_eqb col c), (existsb (column_eqb col) cols), (row =? r + 1)%nat;
      reflexivity.
Qed.

Lemma every_column (col : column) :
  existsb (column_eqb col) [ColA; ColB; ColC; ColD] = true.
Proof. now destruct col. Qed.

(** A row gets one style; other rows are left alone. *)
Lemma style_rows_at (pick : nat -> style) (rows : list nat) (ws : worksheet)
    (col : column) (row : nat) :
  fold_left (fun ws r => fold_left (style_cell (pick r) r) [ColA; ColB; ColC; ColD] ws)
            rows ws col row
  = match ws col row with
    | None => None
    | Some x =>
        if existsb (fun r => (row =? r + 1)%nat) rows
        then Some (Some (pick (row - 1)%nat)) else Some x
    end.
Proof.
  pose proof (every_column col) as C. revert C.
  generalize [ColA; ColB; ColC; ColD]. intros cols C.
  revert ws; induction rows as [|r rows IH]; intros ws.
  - cbn. now destruct (ws col row).
  - cbn [fold_left existsb]. rewrite IH, style_columns_at, C.
    destruct (ws col row); [|reflexivity]. cbn [andb].
    destruct (Nat.eqb_spec row (r + 1)) as [->|_]; cbn [orb]; [|reflexivity].
    replace (r + 1 - 1)%nat with r by lia.
    now destruct (existsb _ rows).
Qed.

Lemma in_rows_between (s e row : nat) :
  existsb (fun r => (row =? r + 1)%nat) (rows_between s e)
  = ((s + 1 <=? row) && (row <=? e + 1))%nat.
Proof.
  unfold rows_between.
  destruct (existsb _ _) eqn:E.
  - apply existsb_exists in E as (r & Hr & E). apply in_seq in Hr.
    apply Nat.eqb_eq in E. symmetry. apply andb_true_iff.
    split; apply Nat.leb_le; lia.
  - symmetry. apply not_true_iff_false. intros H. apply andb_true_iff in H as [H1 H2].
    apply Nat.leb_le in H1, H2.
    assert (X : existsb (fun r => (row =? r + 1)%nat) (seq s (S e - s)) = true).
    { apply existsb_exists. exists (row - 1)%nat. split; [apply in_seq; lia|].
      apply Nat.eqb_eq. lia. }
    congruence.
Qed.

Lemma applyStyle_at (s e : nat) (st : style) (ws : worksheet) (col : column) (row : nat) :
  applyStyle s e st ws col row
  = match ws col row with
    | None => None
    | Some x =>
        if ((s + 1 <=? row) && (row <=? e + 1))%nat then Some (Some st) else Some x
    end.
Proof.
  unfold applyStyle. rewrite (style_rows_at (fun _ => st)), in_rows_between.
  reflexivity.
Qed.

Lemma fold_left_same {A B : Type} (f g : A -> B -> A) (l : list B) (a : A) :
  (forall x y, f x y = g x y) -> fold_left f l a = fold_left g l a.
Proof.
  intros H. revert a; induction l as [|y l IH]; intros a; [reflexivity|].
  cbn [fold_left]. now rewrite H, IH.
Qed.

Lemma zebra_row (s : nat) (ws : worksheet) (r : nat) :
  zebra s ws r = fold_left (style_cell (stripe s r) r) [ColA; ColB; ColC; ColD] ws.
Proof.
  unfold zebra, applyStyle, rows_between, stripe.
  replace (S r - r)%nat with 1%nat by lia. reflexivity.
Qed.

Lemma zebra_at (s e : nat) (ws : worksheet) (col : column) (row : nat) :
  fold_left (zebra s) (rows_between s e) ws col row
  = match ws col row with
    | None => None
    | Some x =>
        if ((s + 1 <=? row) && (row <=? e + 1))%nat
        then Some (Some (stripe s (row - 1))) else Some x
    end.
Proof.
  rewrite (fold_left_same _ _ _ _ (zebra_row s)).
  rewrite (style_rows_at (stripe s)), in_rows_between. reflexivity.
Qed.

(** The feedback column: other columns and other rows are left alone,
    and no cell appears or disappears. *)
Lemma set_s_at (ws : worksheet) (c : column) (r : nat) (st : style)
    (col : column) (row : nat) :
  set_s ws c r st col row
  = if column_eqb col c && (row =? r)%nat then Some (Some st) else ws col row.
Proof. reflexivity. Qed.

Lemma feedback_frame (st : style) (rows : list nat) (ws : worksheet)
    (col : column) (row : nat) :
  col <> ColD \/ (forall r, In r rows -> row <> (r + 1)%nat) ->
  feedback_rows st rows ws col row = ws col row.
Proof.
  revert ws; induction rows as [|r rows IH]; intros ws H; [reflexivity|].
  cbn [feedback_rows]. destruct (ws ColD (r + 1)%nat) as [s|] eqn:E; [|reflexivity].
  rewrite IH.
  - rewrite set_s_at. destruct (column_eqb col ColD && (row =? r + 1)%nat) eqn:T;
      [|reflexivity].
    apply andb_true_iff in T as [T1 T2]. apply column_eqb_eq in T1.
    apply Nat.eqb_eq in T2. destruct H as [H|H]; [congruence|].
    exfalso. apply (H r); [now left | exact T2].
  - destruct H as [H|H]; [now left | right]. intros r' Hr'. apply H. now right.
Qed.

Lemma feedback_cells (st : style) (rows : list nat) (ws : worksheet)
    (col : column) (row : nat) :
  feedback_rows st rows ws col row = None <-> ws col row = None.
Proof.
  revert ws; induction rows as [|r rows IH]; intros ws; [reflexivity|].
  cbn [feedback_rows]. destruct (ws ColD (r + 1)%nat) as [s|] eqn:E; [|reflexivity].
  rewrite IH, set_s_at.
  destruct (column_eqb col ColD && (row =? r + 1)%nat) eqn:T; [|reflexivity].
  apply andb_true_iff in T as [T1 T2]. apply column_eqb_eq in T1.
  apply Nat.eqb_eq in T2. subst. rewrite E. split; discriminate.
Qed.

(** A style with its three keys replaces the style of the cell. *)
Lemma merge_complete (e st : style) :
  fill st <> None -> font st <> None -> alignment st <> None ->
  merge_style e st = st.
Proof.
  destruct st as [[f|] [n|] [a|]]; unfold merge_style, or_key;
    cbn [fill font alignment]; intros H1 H2 H3;
    first [reflexivity | now elim H1 | now elim H2 | now elim H3].
Qed.

Lemma feedback_styles (l : list style) (st : style) (rows : list nat) (ws : worksheet) :
  fill st <> None -> font st <> None -> alignment st <> None ->
  In st l -> styled_from l ws -> styled_from l (feedback_rows st rows ws).
Proof.
  intros H1 H2 H3 Hin. revert ws; induction rows as [|r rows IH]; intros ws Hws;
    [exact Hws|].
  cbn [feedback_rows]. destruct (ws ColD (r + 1)%nat) as [s|] eqn:E; [|exact Hws].
  apply IH. intros col row x. rewrite set_s_at, merge_complete by assumption.
  destruct (column_eqb col ColD && (row =? r + 1)%nat); [|apply Hws].
  intros X. injection X as <-. exact Hin.
Qed.

Lemma applyStyle_styles (l : list style) (s e : nat) (st : style) (ws : worksheet) :
  In st l -> styled_from l ws -> styled_from l (applyStyle s e st ws).
Proof.
  intros Hin Hws col row x. rewrite applyStyle_at.
  destruct (ws col row) as [y|] eqn:E; [|discriminate].
  destruct ((s + 1 <=? row) && (row <=? e + 1))%nat.
  - intros X. injection X as <-. exact Hin.
  - intros X. injection X as ->. now apply (Hws col row).
Qed.

Lemma zebra_styles (l : list style) (s e : nat) (ws : worksheet) :
  In styles.regularRowEven l -> In styles.regularRowOdd l ->
  styled_from l ws -> styled_from l (fold_left (zebra s) (rows_between s e) ws).
Proof.
  intros H1 H2 Hws col row x. rewrite zebra_at.
  destruct (ws col row) as [y|] eqn:E; [|discriminate].
  destruct ((s + 1 <=? row) && (row <=? e + 1))%nat.
  - intros X. injection X as <-. unfold stripe. now destruct (_ =? 0)%nat.
  - intros X. injection X as ->. now apply (Hws col row).
Qed.

Lemma applyStyle_cells (s e : nat) (st : style) (ws : worksheet) (col : column) (row : nat) :
  applyStyle s e st ws col row = None <-> ws col row = None.
Proof.
  rewrite applyStyle_at. destruct (ws col row); [|reflexivity].
  destruct (_ && _); split; discriminate.
Qed.

Lemma zebra_cells (s e : nat) (ws : worksheet) (col : column) (row : nat) :
  fold_left (zebra s) (rows_between s e) ws col row = None <-> ws col row = None.
Proof.
  rewrite zebra_at. destruct (ws col row); [|reflexivity].
  destruct (_ && _); split; discriminate.
Qed.

Lemma applyStyle_above (s e : nat) (st : style) (ws : worksheet) (col : column) (row : nat) :
  (row <= s)%nat -> applyStyle s e st ws col row = ws col row.
Proof.
  intros H. rewrite applyStyle_at. destruct (ws col row); [|reflexivity].
  destruct (Nat.leb_spec (s + 1) row); [lia | reflexivity].
Qed.

Lemma feedback_above (s e : nat) (st : style) (ws : worksheet) (col : column) (row : nat) :
  (row <= s)%nat -> applyFeedbackColumnStyle s e st ws col row = ws col row.
Proof.
  intros H. apply feedback_frame. right. intros r Hr. apply in_seq in Hr. lia.
Qed.

Lemma zebra_above (s e : nat) (ws : worksheet) (col : column) (row : nat) :
  (row <= s)%nat -> fold_left (zebra s) (rows_between s e) ws col row = ws col row.
Proof.
  intros H. rewrite zebra_at. destruct (ws col row); [|reflexivity].
  destruct (Nat.leb_spec (s + 1) row); [lia | reflexivity].
Qed.

(** The three writes to the first row. *)
Lemma first_row_styles (ws : worksheet) (col : column) (row : nat) :
  unstyled ws ->
  applyStyle 0 0 styles.summaryHeader
    (applyFeedbackColumnStyle 0 0 styles.feedbackColumnHeader
       (applyStyle 0 0 styles.headerRow ws)) col row
  = match ws col row with
    | None => None
    | Some _ => if (row =? 1)%nat then Some (Some styles.summaryHeader) else Some None
    end.
Proof.
  intros U. rewrite applyStyle_at.
  destruct (Nat.eqb_spec row 1) as [->|N].
  - cbn [Nat.add Nat.leb andb].
    assert (X : applyFeedbackColumnStyle 0 0 styles.feedbackColumnHeader
                  (applyStyle 0 0 styles.headerRow ws) col 1%nat = None
                <-> ws col 1%nat = None).
    { unfold applyFeedbackColumnStyle. rewrite feedback_cells. apply applyStyle_cells. }
    destruct (applyFeedbackColumnStyle 0 0 _ _ col 1%nat) eqn:E.
    + destruct (ws col 1%nat) eqn:W; [reflexivity|].
      destruct X as [_ X]. discriminate (X eq_refl).
    + destruct X as [X _]. now rewrite (X eq_refl).
  - replace ((0 + 1 <=? row) && (row <=? 0 + 1))%nat with false
      by (symmetry; apply andb_false_iff;
          destruct (Nat.leb_spec (0 + 1) row); [right; apply Nat.leb_gt; lia | now left]).
    unfold applyFeedbackColumnStyle. rewrite feedback_frame.
    + rewrite applyStyle_at. destruct (U col row) as [-> | ->]; [reflexivity|].
      replace ((0 + 1 <=? row) && (row <=? 0 + 1))%nat with false
        by (symmetry; apply andb_false_iff;
            destruct (Nat.leb_spec (0 + 1) row); [right; apply Nat.leb_gt; lia | now left]).
      reflexivity.
    + right. intros r [<-|[]]. cbn. lia.
Qed.

Ltac body_style := cbv [body_styles In]; tauto.

Lemma style_range_styles (r : option range) (st : style) (ws : worksheet) :
  In st body_styles -> styled_from body_styles ws ->
  styled_from body_styles (style_range r st ws).
Proof. destruct r; [apply applyStyle_styles | auto]. Qed.

Lemma feedbackColumn_styles (s e : nat) (ws : worksheet) :
  styled_from body_styles ws ->
  styled_from body_styles (applyFeedbackColumnStyle s e styles.feedbackColumn ws).
Proof. apply feedback_styles; try discriminate. body_style. Qed.

Lemma style_rows_styles (r : option range) (st : style) (ws : worksheet) :
  In st body_styles -> styled_from body_styles ws ->
  styled_from body_styles (style_rows r st ws).
Proof.
  destruct r; [|auto]. intros H W. now apply feedbackColumn_styles, applyStyle_styles.
Qed.

Lemma style_list_styles (r : option range) (ws : worksheet) :
  styled_from body_styles ws -> styled_from body_styles (style_list r ws).
Proof.
  destruct r; [|auto]. intros W. apply feedbackColumn_styles, zebra_styles;
    [body_style | body_style | exact W].
Qed.

Lemma style_range_cells (r : option range) (st : style) (ws : worksheet)
    (col : column) (row : nat) :
  style_range r st ws col row = None <-> ws col row = None.
Proof. destruct r; [apply applyStyle_cells | reflexivity]. Qed.

Lemma style_rows_cells (r : option range) (st : style) (ws : worksheet)
    (col : column) (row : nat) :
  style_rows r st ws col row = None <-> ws col row = None.
Proof.
  destruct r; [|reflexivity]. unfold style_rows, applyFeedbackColumnStyle.
  now rewrite feedback_cells, applyStyle_cells.
Qed.

Lemma style_list_cells (r : option range) (ws : worksheet) (col : column) (row : nat) :
  style_list r ws col row = None <-> ws col row = None.
Proof.
  destruct r; [|reflexivity]. unfold style_list, applyFeedbackColumnStyle.
  now rewrite feedback_cells, zebra_cells.
Qed.

Lemma style_range_above (r : option range) (st : style) (ws : worksheet)
    (col : column) (row : nat) :
  match r with Some r => (row <= range_start r)%nat | None => True end ->
  style_range r st ws col row = ws col row.
Proof. destruct r; [apply applyStyle_above | reflexivity]. Qed.

Lemma style_rows_above (r : option range) (st : style) (ws : worksheet)
    (col : column) (row : nat) :
  match r with Some r => (row <= range_start r)%nat | None => True end ->
  style_rows r st ws col row = ws col row.
Proof.
  destruct r; [|reflexivity]. intros H. unfold style_rows.
  now rewrite feedback_above, applyStyle_above.
Qed.

Lemma style_list_above (r : option range) (ws : worksheet) (col : column) (row : nat) :
  match r with Some r => (row <= range_start r)%nat | None => True end ->
  style_list r ws col row = ws col row.
Proof.
  destruct r; [|reflexivity]. intros H. unfold style_list.
  now rewrite feedback_above, zebra_above.
Qed.

Lemma styles_of_ranges (g : style_ranges) (ws : worksheet) :
  ExcelSheet.summaryHeader g = mkRange 0 0 -> unstyled ws ->
  styled_from body_styles (apply_styles g ws)
  /\ (forall col row, apply_styles g ws col row = None <-> ws col row = None)
  /\ (starts_from 1 g -> forall col, ws col 1%nat <> None ->
      apply_styles g ws col 1%nat = Some (Some styles.summaryHeader)).
Proof.
  intros Hg U. unfold apply_styles. rewrite Hg. cbn [range_start range_end].
  set (w3 := applyStyle 0 0 styles.summaryHeader
               (applyFeedbackColumnStyle 0 0 styles.feedbackColumnHeader
                  (applyStyle 0 0 styles.headerRow ws))).
  assert (W3 : forall col row, w3 col row
                = match ws col row with
                  | None => None
                  | Some _ => if (row =? 1)%nat then Some (Some styles.summaryHeader)
                              else Some None
                  end) by (intros; now apply first_row_styles).
  assert (S3 : styled_from body_styles w3).
  { intros col row st. rewrite W3. destruct (ws col row); [|discriminate].
    destruct (row =? 1)%nat; [|discriminate]. intros X. injection X as <-. body_style. }
  split; [|split].
  - apply style_list_styles, style_range_styles; [body_style|].
    apply style_rows_styles; [body_style|]. apply style_range_styles; [body_style|].
    apply style_rows_styles; [body_style|]. apply style_range_styles; [body_style|].
    apply applyStyle_styles; [body_style | exact S3].
  - intros col row.
    rewrite style_list_cells, style_range_cells, style_rows_cells, style_range_cells,
      style_rows_cells, style_range_cells, applyStyle_cells, W3.
    destruct (ws col row); [|reflexivity]. destruct (row =? 1)%nat; split; discriminate.
  - intros (Ha & F) col Hc.
    inversion F as [|? ? F1 F']; subst. inversion F' as [|? ? F2 F'']; subst.
    inversion F'' as [|? ? F3 F3']; subst. inversion F3' as [|? ? F4 F4']; subst.
    inversion F4' as [|? ? F5 F5']; subst. inversion F5' as [|? ? F6 _]; subst.
    rewrite style_list_above, style_range_above, style_rows_above, style_range_above,
      style_rows_above, style_range_above, applyStyle_above, W3 by assumption.
    destruct (ws col 1%nat); [reflexivity | now elim Hc].
Qed.

Lemma feedback_seq_hit (st : style) (n s : nat) (ws : worksheet) (k : nat) :
  fill st <> None -> font st <> None -> alignment st <> None ->
  (k < n)%nat -> (forall j, (j <= k)%nat -> ws ColD (s + j + 1)%nat <> None) ->
  feedback_rows st (seq s n) ws ColD (s + k + 1)%nat = Some (Some st).
Proof.
  intros H1 H2 H3. revert s ws k. induction n as [|n IH]; intros s ws k Hk Hc; [lia|].
  cbn [seq feedback_rows].
  pose proof (Hc 0%nat ltac:(lia)) as C0. rewrite Nat.add_0_r in C0.
  destruct (ws ColD (s + 1)%nat) as [x|] eqn:E; [|now elim C0].
  rewrite merge_complete by assumption. destruct k as [|k].
  - rewrite feedback_frame.
    + rewrite set_s_at, Nat.add_0_r, Nat.eqb_refl. reflexivity.
    + right. intros r Hr. apply in_seq in Hr. lia.
  - replace (s + S k + 1)%nat with (S s + k + 1)%nat by lia.
    apply IH; [lia|]. intros j Hj. rewrite set_s_at.
    destruct (column_eqb ColD ColD && (S s + j + 1 =? s + 1)%nat); [discriminate|].
    replace (S s + j + 1)%nat with (s + S j + 1)%nat by lia. apply Hc. lia.
Qed.

Lemma feedback_seq_stop (st : style) (n s : nat) (ws : worksheet) (j k : nat) :
  (j < k)%nat -> ws ColD (s + j + 1)%nat = None ->
  feedback_rows st (seq s n) ws ColD (s + k + 1)%nat = ws ColD (s + k + 1)%nat.
Proof.
  revert s ws j k. induction n as [|n IH]; intros s ws j k Hj Hc; [reflexivity|].
  cbn [seq feedback_rows].
  destruct (ws ColD (s + 1)%nat) as [x|] eqn:E; [|reflexivity].
  destruct j as [|j]; [rewrite Nat.add_0_r in Hc; congruence|].
  destruct k as [|k]; [lia|].
  replace (s + S k + 1)%nat with (S s + k + 1)%nat by lia.
  rewrite (IH (S s) _ j k); [| lia |].
  - rewrite set_s_at.
    destruct (Nat.eqb_spec (S s + k + 1) (s + 1)) as [X|_]; [lia|].
    now rewrite andb_false_r.
  - rewrite set_s_at.
    destruct (Nat.eqb_spec (S s + j + 1) (s + 1)) as [X|_]; [lia|].
    rewrite andb_false_r. now replace (S s + j + 1)%nat with (s + S j + 1)%nat by lia.
Qed.

Lemma stripe_even (s k : nat) :
  stripe s (s + k + 1 - 1)
  = if Nat.even k then styles.regularRowEven else styles.regularRowOdd.
Proof.
  unfold stripe. replace (s + k + 1 - 1 - s)%nat with k by lia.
  destruct (Nat.even k) eqn:Ev.
  - apply Nat.even_spec in Ev as [m ->].
    now rewrite Nat.mul_comm, Nat.Div0.mod_mul.
  - assert (Od : Nat.odd k = true) by (now rewrite <- Nat.negb_even, Ev).
    apply Nat.odd_spec in Od as [m ->].
    rewrite Nat.add_comm, Nat.mul_comm, Nat.Div0.mod_add. reflexivity.
Qed.

(** X20. The rows of the complete list are striped: in the columns A to
    C the row at offset k of the range has the even style when k is even
    and the odd style when k is odd.  In column D the cell has the style
    of the feedback column when every cell of the column from the start
    of the range down to it exists; a missing cell above it ends the
    styling of the column, and the cell keeps its stripe. *)
Theorem complete_list_stripes (g : style_ranges) (ws : worksheet) (s e k : nat) :
  allScoresRows g = Some (mkRange s e) -> (s + k <= e)%nat ->
  (forall col, col <> ColD -> ws col (s + k + 1)%nat <> None ->
     apply_styles g ws col (s + k + 1)%nat
     = Some (Some (if Nat.even k then styles.regularRowEven
                   else styles.regularRowOdd)))
  /\ ((forall j, (j <= k)%nat -> ws ColD (s + j + 1)%nat <> None) ->
      apply_styles g ws ColD (s + k + 1)%nat = Some (Some styles.feedbackColumn))
  /\ (forall j, (j < k)%nat -> ws ColD (s + j + 1)%nat = None ->
      ws ColD (s + k + 1)%nat <> None ->
      apply_styles g ws ColD (s + k + 1)%nat
      = Some (Some (if Nat.even k then styles.regularRowEven
                    else styles.regularRowOdd))).
Proof.
  intros Hg Hk. unfold apply_styles. rewrite Hg.
  set (w := style_range (allScoresHeader g) styles.allScoresHeader _).
  assert (C : forall col row, w col row = None <-> ws col row = None).
  { intros col row. unfold w, applyFeedbackColumnStyle.
    rewrite style_range_cells, style_rows_cells, style_range_cells, style_rows_cells,
      style_range_cells, !applyStyle_cells, feedback_cells, applyStyle_cells.
    reflexivity. }
  unfold style_list, applyFeedbackColumnStyle. cbn [range_start range_end].
  assert (Z : forall col, ws col (s + k + 1)%nat <> None ->
                fold_left (zebra s) (rows_between s e) w col (s + k + 1)%nat
                = Some (Some (if Nat.even k then styles.regularRowEven
                              else styles.regularRowOdd))).
  { intros col Hc. rewrite zebra_at, stripe_even.
    destruct (w col (s + k + 1)%nat) eqn:W; [|apply C in W; now elim Hc].
    destruct (Nat.leb_spec (s + 1) (s + k + 1)); [|lia].
    destruct (Nat.leb_spec (s + k + 1) (e + 1)); [|lia]. reflexivity. }
  split; [|split].
  - intros col Hd Hc. rewrite feedback_frame by now left. now apply Z.
  - intros Hc. unfold rows_between. apply feedback_seq_hit; try discriminate; [lia|].
    intros j Hj X. apply zebra_cells, C in X. now apply (Hc j).
  - intros j Hj Hn Hc. unfold rows_between.
    rewrite (feedback_seq_stop _ _ _ _ j k Hj); [now apply Z|].
    apply zebra_cells, C. exact Hn.
Qed.

Section Sheet.

Variable NumberToString : Q -> string.
Variable summary_sign top_sign attention_sign list_sign : string.

Lemma built_ranges (rawScores : list ScoreRecord) (b : builder) :
  build_sheet NumberToString summary_sign top_sign attention_sign list_sign rawScores
  = Done b ->
  ExcelSheet.summaryHeader (styleRanges b) = mkRange 0 0
  /\ starts_from 1 (styleRanges b).
Proof.
  unfold build_sheet.
  set (b0 := add_summary NumberToString summary_sign rawScores builder_init).
  assert (C0 : counted b0) by reflexivity.
  destruct (add_highest_step NumberToString top_sign rawScores b0 C0 eq_refl eq_refl)
    as (b1 & added1 & E1 & D1 & C1 & Hs1 & Ha1 & Hlh1 & Hlr1 & Hah1 & Har1 & _ & B1).
  destruct (add_lowest_step NumberToString attention_sign rawScores b1 C1)
    as (b2 & added2 & E2 & D2 & C2 & Hs2 & Ha2 & Hhh2 & Hhr2 & Hah2 & Har2 & _ & B2);
    [rewrite Hlh1; reflexivity | rewrite Hlr1; reflexivity |].
  rewrite E1. cbn [bind]. rewrite E2. cbn [bind].
  destruct (sortedScores rawScores) as [sorted| |] eqn:Hs;
    [| unfold add_complete_list; rewrite Hs; discriminate
     | unfold add_complete_list; rewrite Hs; discriminate].
  destruct (add_complete_step NumberToString list_sign rawScores sorted b2 C2 Hs)
    as (b3 & E3 & D3 & C3 & Hs3 & Ha3 & Hhh3 & Hhr3 & Hlh3 & Hlr3
        & h & r & Hh & Hr & _ & _ & _ & B3 & B3').
  rewrite E3. intros X. injection X as <-.
  assert (K0 : currentRow b0 = 3%nat) by reflexivity.
  assert (K1 : (3 <= currentRow b1)%nat).
  { unfold counted in C1. rewrite C1, D1, length_app. unfold counted in C0. lia. }
  assert (K2 : (3 <= currentRow b2)%nat).
  { unfold counted in C2. rewrite C2, D2, length_app. unfold counted in C1. lia. }
  split; [now rewrite Hs3, Hs2, Hs1|].
  split; [rewrite Ha3, Ha2, Ha1; cbn; lia|].
  rewrite Hhh3, Hhr3, Hhh2, Hhr2, Hlh3, Hlr3, Hh, Hr.
  repeat constructor; try lia.
  - destruct (highestHeader (styleRanges b1)) as [x|] eqn:X; [|exact I].
    specialize (B1 x (or_introl eq_refl)). lia.
  - destruct (highestRows (styleRanges b1)) as [x|] eqn:X; [|exact I].
    specialize (B1 x (or_intror eq_refl)). lia.
  - destruct (lowestHeader (styleRanges b2)) as [x|] eqn:X; [|exact I].
    specialize (B2 x (or_introl eq_refl)). lia.
  - destruct (lowestRows (styleRanges b2)) as [x|] eqn:X; [|exact I].
    specialize (B2 x (or_intror eq_refl)). lia.
Qed.

(** X19. The styling neither adds nor removes a cell, and on a sheet
    whose cells have no style yet, the two styles of the header row,
    which are applied first to row 1, are on no cell at the end: every
    cell of row 1 ends with the style of the summary header, which is
    applied to the same row, and every other style on the sheet is one
    of the styles of the body. *)
Theorem header_styles_overwritten (rawScores : list ScoreRecord) (b : builder)
    (ws : worksheet) :
  build_sheet NumberToString summary_sign top_sign attention_sign list_sign rawScores
  = Done b ->
  unstyled ws ->
  (forall col row, apply_styles (styleRanges b) ws col row = None <-> ws col row = None)
  /\ (forall col, ws col 1%nat <> None ->
      apply_styles (styleRanges b) ws col 1%nat = Some (Some styles.summaryHeader))
  /\ (forall col row,
        apply_styles (styleRanges b) ws col row <> Some (Some styles.headerRow)
        /\ apply_styles (styleRanges b) ws col row
           <> Some (Some styles.feedbackColumnHeader))
  /\ styled_from body_styles (apply_styles (styleRanges b) ws).
Proof.
  intros Hb U. destruct (built_ranges _ _ Hb) as (Hg & Hfrom).
  destruct (styles_of_ranges _ ws Hg U) as (S & C & R).
  split; [exact C|]. split; [exact (R Hfrom)|]. split; [|exact S].
  intros col row. split; intros X; apply S in X; cbv [body_styles In] in X;
    repeat (destruct X as [X|X]; [discriminate X|]); exact X.
Qed.

End Sheet.

Lemma header_styles_overwritten_witness :
  exists b,
    build_sheet sample_NumberToString "#" "+" "!" "=" two_scores = Done b
    /\ unstyled (full_sheet 15)
    /\ apply_styles (styleRanges b) (full_sheet 15) ColA 1%nat
       = Some (Some styles.summaryHeader).
Proof.
  assert (U : unstyled (full_sheet 15)).
  { intros col row. unfold full_sheet. destruct (_ && _); auto. }
  eexists. split; [vm_compute; reflexivity|]. split; [exact U|].
  refine (proj1 (proj2 (header_styles_overwritten sample_NumberToString
                          "#" "+" "!" "=" two_scores _ (full_sheet 15) _ U)) ColA _).
  - vm_compute. reflexivity.
  - discriminate.
Defined.

Lemma complete_list_stripes_witness :
  exists b,
    build_sheet sample_NumberToString "#" "+" "!" "=" two_scores = Done b
    /\ allScoresRows (styleRanges b) = Some (mkRange 11 13)
    /\ apply_styles (styleRanges b) (full_sheet 15) ColB (11 + 1 + 1)%nat
       = Some (Some styles.regularRowOdd)
    /\ apply_styles (styleRanges b) (full_sheet 15) ColD (11 + 1 + 1)%nat
       = Some (Some styles.feedbackColumn).
Proof.
  eexists. split; [vm_compute; reflexivity|].
  assert (R : allScoresRows
                (mkRanges (mkRange 0 0) (mkRange 1 1) (Some (mkRange 3 3))
                   (Some (mkRange 4 4)) (Some (mkRange 6 6)) (Some (mkRange 7 7))
                   (Some (mkRange 9 9)) (Some (mkRange 11 13)))
              = Some (mkRange 11 13)) by reflexivity.
  split; [exact R|].
  destruct (complete_list_stripes _ (full_sheet 15) 11 13 1 R ltac:(lia))
    as (H1 & H2 & _).
  split.
  - apply (H1 ColB); discriminate.
  - apply H2. intros j Hj. unfold full_sheet.
    destruct j as [|[|j]]; [discriminate | discriminate | lia].
Defined.

End StyleFacts.

Local Open Scope string_scope.

(** ** The callers in the Dashboard *)

Module DashboardFacts.
Import JS Model Spec Vocabulary StringFacts TrimFacts.
Import PptProcessors SplitterFacts ExtractorFacts ExtractedRecords.
Import ExcelExport ExcelSheet SortFacts SheetFacts Dashboard.
Import SectionContent BlankInput.

Lemma extracted_comparable (result : value) : comparable (extractPPTScores result).
Proof.
  apply Forall_forall. intros r Hr.
  destruct (extracted_fields _ _ Hr) as (nm & rs & _ & _ & [-> | (n & -> & Nn & Dn)]).
  - split; [discriminate | reflexivity].
  - split; [intros [= E]; now elim Nn | exact Dn].
Qed.

Section Sheet.

Variable NumberToString : Q -> string.
Variable summary_sign top_sign attention_sign list_sign : string.

(** X21. With scores on the page the Excel export gets them, in any
    mode.  In PPT mode without scores it gets the records extracted from
    the result: the call is skipped when there is none, and otherwise the
    list is not empty and the sheet is built without an error.  In the
    other modes without scores nothing is exported. *)
Theorem handleDownloadExcel_spec (ppt : bool) (scores : option (list ScoreRecord))
    (result : value) :
  (forall s rest, scores = Some (s :: rest) ->
     handleDownloadExcel ppt scores result = Some (s :: rest))
  /\ (scores = None \/ scores = Some [] ->
      (ppt = false -> handleDownloadExcel ppt scores result = None)
      /\ (ppt = true ->
          match handleDownloadExcel ppt scores result with
          | None => extractPPTScores result = []
          | Some rawScores =>
              rawScores = extractPPTScores result /\ rawScores <> []
              /\ exists b,
                   build_sheet NumberToString summary_sign top_sign attention_sign
                     list_sign rawScores = Done b
          end)).
Proof.
  split.
  - intros s rest ->. unfold handleDownloadExcel. cbn [negb]. now rewrite andb_false_r.
  - intros H. split.
    + intros ->. unfold handleDownloadExcel. now destruct H as [-> | ->].
    + intros ->. unfold handleDownloadExcel.
      assert (E : (if true && negb match scores with Some (_ :: _) => true | _ => false end
                   then Some (extractPPTScores result)
                   else if match scores with Some (_ :: _) => true | _ => false end
                        then scores else None)
                  = Some (extractPPTScores result)) by now destruct H as [-> | ->].
      rewrite E. destruct (extractPPTScores result) as [|r l] eqn:X; [reflexivity|].
      split; [reflexivity|]. split; [discriminate|].
      apply build_sheet_done. rewrite <- X. apply extracted_comparable.
Qed.

End Sheet.

Lemma handleDownloadExcel_spec_witness :
  (@None (list ScoreRecord) = None \/ @None (list ScoreRecord) = Some [])
  /\ handleDownloadExcel true None (VStr example_text) = Some [example_record]
  /\ exists b, build_sheet sample_NumberToString "#" "+" "!" "=" [example_record] = Done b.
Proof.
  split; [now left|].
  destruct (handleDownloadExcel_spec sample_NumberToString "#" "+" "!" "="
              true None (VStr example_text)) as (_ & H).
  destruct (H (or_introl eq_refl)) as (_ & K). specialize (K eq_refl).
  assert (E : handleDownloadExcel true None (VStr example_text) = Some [example_record])
    by (vm_compute; reflexivity).
  split; [exact E|]. rewrite E in K. exact (proj2 (proj2 K)).
Defined.

Lemma split_same_length (a b a' b' : string) :
  a ++ b = a' ++ b' -> String.length a = String.length a' -> a = a' /\ b = b'.
Proof.
  revert a'; induction a as [|c a IH]; intros [|c' a'] E L; try discriminate L.
  - now split.
  - cbn in E. injection E as -> E. injection L as L.
    destruct (IH _ E L) as [-> ->]. now split.
Qed.

Lemma split_shorter (a b a' b' : string) :
  a ++ b = a' ++ b' -> (String.length a <= String.length a')%nat ->
  exists m, a' = a ++ m /\ b = m ++ b'.
Proof.
  revert a'; induction a as [|c a IH]; intros a' E L.
  - exists a'. now split.
  - destruct a' as [|c' a']; [cbn in L; lia|]. cbn in E. injection E as -> E.
    cbn in L. destruct (IH _ E ltac:(lia)) as (m & -> & ->). now exists m.
Qed.

Lemma occurs_at_skip (needle p r : string) (j : Z) :
  (Z.of_nat (String.length p) <= j)%Z ->
  occurs_at needle (p ++ r) j -> occurs_at needle r (j - Z.of_nat (String.length p)).
Proof.
  intros Hj (pre & post & E & L).
  destruct (split_shorter p r pre (needle ++ post) E ltac:(lia)) as (m & -> & ->).
  exists m, post. split; [reflexivity|]. rewrite length_append in L. lia.
Qed.

Lemma occurs_at_shift (needle p r : string) (j : Z) :
  occurs_at needle r j -> occurs_at needle (p ++ r) (j + Z.of_nat (String.length p)).
Proof.
  intros (pre & post & -> & L). exists (p ++ pre), post.
  rewrite append_assoc, length_append. split; [reflexivity | lia].
Qed.

Lemma first_at_skip (needle p r : string) (v : Z) :
  (Z.of_nat (String.length p) <= v)%Z ->
  first_at needle (p ++ r) v -> first_at needle r (v - Z.of_nat (String.length p)).
Proof.
  intros Hv [Ho Hmin]. split; [now apply occurs_at_skip|].
  intros j Hj. specialize (Hmin _ (occurs_at_shift needle p r j Hj)). lia.
Qed.

(** The design match is the text from the first header on. *)
Lemma designMatch_from (s : string) (i : Z) :
  match designMatch s with
  | Some d =>
      exists pre, s = pre ++ d
        /\ startsWith "VISUAL DESIGN EVALUATION" d = true
        /\ indexOf_from "VISUAL DESIGN EVALUATION" s i
           = (i + Z.of_nat (String.length pre))%Z
  | None => indexOf_from "VISUAL DESIGN EVALUATION" s i = (-1)%Z
  end.
Proof.
  revert i; induction s as [|c s IH]; intros i.
  - reflexivity.
  - cbn [designMatch indexOf_from].
    destruct (startsWith "VISUAL DESIGN EVALUATION" (String c s)) eqn:E.
    + exists "". split; [reflexivity|]. split; [exact E | cbn; lia].
    + specialize (IH (i + 1)%Z). destruct (designMatch s) as [d|]; [|exact IH].
      destruct IH as (pre & -> & Hd & Hi). exists (String c pre).
      split; [reflexivity|]. split; [exact Hd|]. rewrite Hi. cbn [String.length]. lia.
Qed.

(** The lazy part ends at the first design header of the rest, or with
    the rest. *)
Lemma lazy_until_first (rest : string) (i : Z) :
  exists post,
    rest = lazy_until "VISUAL DESIGN EVALUATION" rest ++ post
    /\ ((startsWith "VISUAL DESIGN EVALUATION" post = true
         /\ indexOf_from "VISUAL DESIGN EVALUATION" rest i
            = (i + Z.of_nat (String.length
                               (lazy_until "VISUAL DESIGN EVALUATION" rest)))%Z)
        \/ (post = ""
            /\ indexOf_from "VISUAL DESIGN EVALUATION" rest i = (-1)%Z)).
Proof.
  revert i; induction rest as [|c rest IH]; intros i.
  - exists "". split; [reflexivity|]. right. split; reflexivity.
  - cbn [lazy_until indexOf_from].
    destruct (startsWith "VISUAL DESIGN EVALUATION" (String c rest)) eqn:E.
    + exists (String c rest). split; [reflexivity|]. left. split; [exact E | cbn; lia].
    + destruct (IH (i + 1)%Z) as (post & Hr & H). exists post.
      split; [cbn; now rewrite <- Hr|].
      destruct H as [[H1 H2] | [H1 H2]]; [left | right]; split; auto.
      rewrite H2. cbn [String.length]. lia.
Qed.

(** The content match starts at the first content header. *)
Lemma contentMatch_from (s : string) (i : Z) :
  match contentMatch s with
  | Some c =>
      exists pre rest,
        s = pre ++ "CONTENT EVALUATION" ++ rest
        /\ c = "CONTENT EVALUATION" ++ lazy_until "VISUAL DESIGN EVALUATION" rest
        /\ indexOf_from "CONTENT EVALUATION" s i
           = (i + Z.of_nat (String.length pre))%Z
  | None => indexOf_from "CONTENT EVALUATION" s i = (-1)%Z
  end.
Proof.
  revert i; induction s as [|c s IH]; intros i.
  - reflexivity.
  - cbn [contentMatch indexOf_from]. unfold startsWith.
    destruct (strip_prefix "CONTENT EVALUATION" (String c s)) as [rest|] eqn:E.
    + apply strip_prefix_spec in E. exists "", rest.
      split; [exact E|]. split; [reflexivity | cbn; lia].
    + specialize (IH (i + 1)%Z). destruct (contentMatch s) as [m|]; [|exact IH].
      destruct IH as (pre & rest & -> & Hm & Hi). exists (String c pre), rest.
      split; [reflexivity|]. split; [exact Hm|]. rewrite Hi. cbn [String.length]. lia.
Qed.

(** X22. A section that has both headers is shown in two panels, each
    the trimmed text of a match that begins with its header.  The design
    match runs from the first design header to the end of the section.
    When that header comes after the content header, the section is the
    text before the content header, the content match and the design
    match, in this order: nothing is lost or shown twice.  When it comes
    before the content header, the design match contains the content
    match. *)
Theorem section_view_panels (idx : nat) (section : string) :
  includes "CONTENT EVALUATION" section = true ->
  includes "VISUAL DESIGN EVALUATION" section = true ->
  exists c d,
    contentSection (view_section idx section) = trim c
    /\ designSection (view_section idx section) = trim d
    /\ startsWith "CONTENT EVALUATION" c = true
    /\ startsWith "VISUAL DESIGN EVALUATION" d = true
    /\ (exists pre, section = pre ++ d
          /\ Z.of_nat (String.length pre)
             = indexOf "VISUAL DESIGN EVALUATION" section)
    /\ ((indexOf "CONTENT EVALUATION" section + 18
         <= indexOf "VISUAL DESIGN EVALUATION" section)%Z ->
        exists pre, section = pre ++ c ++ d)
    /\ ((indexOf "VISUAL DESIGN EVALUATION" section
         < indexOf "CONTENT EVALUATION" section)%Z ->
        occurs c d).
Proof.
  intros Hc Hd. unfold view_section. rewrite Hc, Hd. cbn [andb contentSection designSection].
  unfold includes in Hc, Hd. apply negb_true_iff, Z.eqb_neq in Hc, Hd.
  unfold indexOf in *.
  pose proof (contentMatch_from section 0) as C.
  pose proof (designMatch_from section 0) as D.
  destruct (contentMatch section) as [c|]; [|congruence].
  destruct (designMatch section) as [d|]; [|congruence].
  destruct C as (pre & rest & Hs & Hcm & Hci).
  destruct D as (pd & Hsd & Hdh & Hdi).
  exists c, d. split; [reflexivity|]. split; [reflexivity|].
  split; [rewrite Hcm; apply startsWith_spec; eauto|]. split; [exact Hdh|].
  split; [exists pd; split; [exact Hsd | rewrite Hdi; lia]|].
  rewrite Hci, Hdi. cbn [Z.add]. split.
  - intros Hord.
    destruct (lazy_until_first rest 0) as (post & Hr & Hl).
    set (body := lazy_until "VISUAL DESIGN EVALUATION" rest) in *.
    assert (F : first_at "VISUAL DESIGN EVALUATION" section
                  (Z.of_nat (String.length pd))).
    { apply indexOf_first; unfold indexOf; [rewrite Hdi; lia | lia]. }
    assert (Hs' : section = (pre ++ "CONTENT EVALUATION") ++ rest)
      by (rewrite Hs, append_assoc; reflexivity).
    rewrite Hs' in F. apply first_at_skip in F;
      [| rewrite length_append; cbn [String.length]; lia].
    apply first_at_indexOf in F. unfold indexOf in F.
    rewrite length_append in F. cbn [String.length] in F.
    destruct Hl as [[Hp Hi] | [_ Hi]]; [|rewrite Hi in F; lia].
    rewrite Hi in F. exists pre.
    assert (E : (pre ++ c) ++ post = pd ++ d).
    { rewrite <- Hsd, Hs, Hcm, Hr at 1. fold body. now rewrite !append_assoc. }
    apply split_same_length in E as [_ E].
    + rewrite <- E, Hs, Hcm, Hr at 1. fold body. now rewrite !append_assoc.
    + rewrite Hcm, !length_append. fold body. cbn [String.length]. lia.
  - intros Hord.
    destruct (lazy_until_first rest 0) as (post & Hr & _).
    assert (E : pd ++ d = pre ++ c ++ post).
    { rewrite <- Hsd, Hs, Hcm, Hr at 1. now rewrite !append_assoc. }
    apply split_shorter in E as (m & _ & ->); [|lia].
    exists m, post. reflexivity.
Qed.

Lemma section_view_panels_witness :
  includes "CONTENT EVALUATION" example_text = true
  /\ includes "VISUAL DESIGN EVALUATION" example_text = true
  /\ (indexOf "CONTENT EVALUATION" example_text + 18
      <= indexOf "VISUAL DESIGN EVALUATION" example_text)%Z
  /\ exists c d pre,
       contentSection (view_section 0 example_text) = trim c
       /\ designSection (view_section 0 example_text) = trim d
       /\ example_text = pre ++ c ++ d.
Proof.
  assert (H1 : includes "CONTENT EVALUATION" example_text = true) by reflexivity.
  assert (H2 : includes "VISUAL DESIGN EVALUATION" example_text = true) by reflexivity.
  assert (H3 : (indexOf "CONTENT EVALUATION" example_text + 18
                <= indexOf "VISUAL DESIGN EVALUATION" example_text)%Z)
    by (vm_compute; discriminate).
  split; [exact H1|]. split; [exact H2|]. split; [exact H3|].
  destruct (section_view_panels 0 example_text H1 H2)
    as (c & d & Ec & Ed & _ & _ & _ & K & _).
  destruct (K H3) as (pre & E). exists c, d, pre. auto.
Defined.

Lemma length_mapi_from {A B : Type} (f : nat -> A -> B) (n : nat) (l : list A) :
  List.length (mapi_from f n l) = List.length l.
Proof.
  revert n; induction l as [|x l IH]; intros n; [reflexivity|].
  cbn [mapi_from List.length]. now rewrite IH.
Qed.

(** X23. In the per-file view the fallback to the whole result is never
    taken: the sections shown are those of the splitter, there is at
    least one, none is empty or has white space at its ends, and each
    gets one view. *)
Theorem per_file_view_sections (ppt : bool) (result : string) :
  shows_sections ppt result = true ->
  finalSections result = splitPPTFileSections (VStr result)
  /\ Forall (fun s => s <> "" /\ trimmed s) (finalSections result)
  /\ (1 <= List.length (finalSections result))%nat
  /\ List.length (section_views result) = List.length (finalSections result).
Proof.
  intros H. unfold shows_sections in H. apply andb_true_iff in H as [_ H].
  apply includes_spec in H.
  assert (Hb : all_chars is_ws result = false).
  { destruct (all_chars is_ws result) eqn:B; [|reflexivity].
    discriminate (blank_has_only_blank _ _ H B). }
  assert (Hne : result <> "") by (intros ->; discriminate Hb).
  assert (Hp : parts_of result <> []).
  { intros P. apply parts_of_blank in P. congruence. }
  destruct (sections_of_blocks result Hp) as (_ & F & L).
  assert (E : finalSections result = split_sections result).
  { unfold finalSections. rewrite (split_string _ Hne).
    destruct (split_sections result) as [|x l] eqn:X; [cbn in L; lia | reflexivity]. }
  split; [now rewrite E, split_string|]. rewrite E.
  split; [exact F|]. split; [lia|].
  unfold section_views. rewrite E. apply length_mapi_from.
Qed.

Lemma per_file_view_sections_witness :
  shows_sections true two_files_text = true
  /\ finalSections two_files_text = splitPPTFileSections (VStr two_files_text)
  /\ List.length (section_views two_files_text) = 2%nat.
Proof.
  assert (H : shows_sections true two_files_text = true) by reflexivity.
  destruct (per_file_view_sections true two_files_text H) as (E & _ & _ & L).
  split; [exact H|]. split; [exact E|]. rewrite L. reflexivity.
Defined.

End DashboardFacts.

(** ** Splitting a section again *)

Module Resplit.
Import JS Model Spec Vocabulary StringFacts TrimFacts MatcherFacts.
Import PptProcessors SplitterFacts ExtractorFacts SectionContent BlankInput.

Lemma startsWith_NL (c : ascii) (s : string) : startsWith NL (String c s) = is_nl c.
Proof.
  unfold startsWith, NL, is_nl. cbn [strip_prefix].
  rewrite Ascii.eqb_sym. now destruct (Ascii.eqb c nl).
Qed.

Lemma cons_char_pieces (c : ascii) (s : string) :
  Forall (fun p => no_blank_line p = true) (split_blank_run false s) ->
  (startsWith NL s = false ->
   exists p rest, split_blank_run false s = p :: rest /\ startsWith NL p = false) ->
  (is_nl c = true -> startsWith NL s = false) ->
  Forall (fun p => no_blank_line p = true) (cons_char c (split_blank_run false s))
  /\ exists p rest, cons_char c (split_blank_run false s) = String c p :: rest.
Proof.
  intros F H Hc.
  destruct (split_blank_run false s) as [|p rest] eqn:E;
    [elim (split_run_nonempty _ _ E)|].
  cbn [cons_char]. split; [|eauto].
  inversion F as [|? ? Fp Fr]; subst. constructor; [|exact Fr].
  cbn [no_blank_line]. rewrite Fp, andb_true_r.
  destruct (is_nl c) eqn:N; [|reflexivity]. cbn [andb].
  destruct (H (Hc eq_refl)) as (p' & rest' & X & Hp). injection X as <- <-.
  now rewrite Hp.
Qed.

(** The pieces of the split have no empty line, and the first one begins
    as the text does. *)
Lemma pieces_no_blank_line (s : string) (in_sep : bool) :
  Forall (fun p => no_blank_line p = true) (split_blank_run in_sep s)
  /\ (startsWith NL s = false ->
      exists p rest, split_blank_run in_sep s = p :: rest /\ startsWith NL p = false).
Proof.
  revert in_sep; induction s as [|c s IH]; intros in_sep.
  - cbn. split; [repeat constructor|]. intros _. exists "", []. now split.
  - destruct (IH false) as (F & H). rewrite startsWith_NL. cbn [split_blank_run].
    destruct in_sep.
    + destruct (is_nl c) eqn:N.
      * split; [apply IH | discriminate].
      * destruct (cons_char_pieces c s F H) as (F' & p & rest & E);
          [rewrite N; discriminate|].
        split; [exact F'|]. intros _. exists (String c p), rest.
        split; [exact E | now rewrite startsWith_NL].
    + destruct (is_nl c && startsWith NL s) eqn:T.
      * apply andb_true_iff in T as [N _]. rewrite N.
        split; [constructor; [reflexivity | apply IH] | discriminate].
      * destruct (cons_char_pieces c s F H) as (F' & p & rest & E).
        { intros N. rewrite N in T. exact T. }
        split; [exact F'|]. intros N. exists (String c p), rest.
        split; [exact E | now rewrite startsWith_NL].
Qed.

Lemma no_blank_line_trimStart (s : string) :
  no_blank_line s = true -> no_blank_line (trimStart s) = true.
Proof.
  induction s as [|c s IH]; [reflexivity|]. cbn [trimStart].
  destruct (is_ws c); [|auto]. cbn [no_blank_line]. intros H.
  apply andb_true_iff in H as [_ H]. auto.
Qed.

Lemma trimEnd_head (s : string) (e : ascii) (t : string) :
  trimEnd s = String e t -> exists s', s = String e s'.
Proof.
  destruct s as [|c s]; [discriminate|]. cbn [trimEnd].
  destruct (trimEnd s); [destruct (is_ws c); [discriminate|]|];
    intros X; injection X as -> _; eauto.
Qed.

Lemma no_blank_line_trimEnd (s : string) :
  no_blank_line s = true -> no_blank_line (trimEnd s) = true.
Proof.
  induction s as [|c s IH]; [reflexivity|]. cbn [no_blank_line trimEnd].
  intros H. apply andb_true_iff in H as [H1 H2]. specialize (IH H2).
  destruct (trimEnd s) as [|e t] eqn:E.
  - destruct (is_ws c); [reflexivity|]. cbn. now rewrite andb_false_r.
  - change (no_blank_line (String c (String e t)))
      with (negb (is_nl c && startsWith NL (String e t)) && no_blank_line (String e t)).
    rewrite IH, andb_true_r.
    destruct (trimEnd_head _ _ _ E) as (s' & ->).
    now rewrite startsWith_NL in *.
Qed.

Lemma single_breaks_of_trimmed (s : string) :
  no_blank_line s = true -> trimEnd s = s -> single_breaks s = true.
Proof.
  induction s as [|c s IH]; [reflexivity|]. cbn [no_blank_line single_breaks].
  intros H T. apply andb_true_iff in H as [H1 H2].
  destruct s as [|d s].
  - cbn in T. destruct (is_ws c) eqn:W; [discriminate|].
    destruct (is_nl c) eqn:N; [apply is_nl_ws in N; congruence | reflexivity].
  - rewrite IH; [| exact H2 | apply (trimEnd_suffix (String c "") _ T); discriminate].
    rewrite andb_true_r. rewrite startsWith_NL in H1.
    destruct (is_nl c), (is_nl d); try reflexivity. discriminate.
Qed.

Lemma block_of_part (text p : string) : In p (parts_of text) -> block (trim p).
Proof.
  intros H. pose proof (parts_nonblank _ _ H) as Hn.
  unfold parts_of in H. apply filter_In in H as [H _].
  destruct (pieces_no_blank_line text false) as (F & _).
  rewrite Forall_forall in F. specialize (F _ H).
  split; [|split; [exact Hn | apply trim_trimmed]].
  apply single_breaks_of_trimmed; [|apply trim_trimmed].
  now apply no_blank_line_trimEnd, no_blank_line_trimStart.
Qed.

(** Blocks joined by empty lines split into the blocks. *)
Lemma run_true_false (s : string) :
  startsWith NL s = false -> split_blank_run true s = split_blank_run false s.
Proof.
  destruct s as [|c s]; [reflexivity|]. rewrite startsWith_NL. intros N.
  cbn [split_blank_run]. now rewrite N.
Qed.

Lemma run_single (b : string) :
  single_breaks b = true -> split_blank_run false b = [b].
Proof.
  induction b as [|c b IH]; [reflexivity|]. cbn [single_breaks split_blank_run].
  intros H. apply andb_true_iff in H as [H1 H2]. rewrite (IH H2).
  replace (is_nl c && startsWith NL b) with false; [reflexivity|].
  destruct (is_nl c); [|reflexivity]. destruct b as [|d b]; [discriminate|].
  rewrite startsWith_NL. cbn in H1. now destruct (is_nl d).
Qed.

Lemma run_block (b rest : string) :
  single_breaks b = true -> startsWith NL rest = false ->
  split_blank_run false (b ++ (NL ++ NL) ++ rest) = b :: split_blank_run false rest.
Proof.
  intros Hb Hr. induction b as [|c b IH].
  - change ("" ++ (NL ++ NL) ++ rest) with (String nl (String nl rest)).
    cbn [split_blank_run]. rewrite startsWith_NL.
    change (is_nl nl) with true. cbn [andb]. now rewrite run_true_false.
  - cbn [single_breaks] in Hb. apply andb_true_iff in Hb as [H1 H2].
    change (String c b ++ (NL ++ NL) ++ rest) with (String c (b ++ (NL ++ NL) ++ rest)).
    cbn [split_blank_run]. rewrite (IH H2).
    replace (is_nl c && startsWith NL (b ++ (NL ++ NL) ++ rest)) with false;
      [reflexivity|].
    destruct (is_nl c); [|reflexivity]. destruct b as [|d b]; [discriminate|].
    change (String d b ++ (NL ++ NL) ++ rest) with (String d (b ++ (NL ++ NL) ++ rest)).
    rewrite startsWith_NL. cbn in H1. now destruct (is_nl d).
Qed.

Lemma block_head (b : string) :
  block b -> exists c r, b = String c r /\ is_nl c = false.
Proof.
  intros (_ & Hn & Ht & _). destruct b as [|c r]; [congruence|].
  exists c, r. split; [reflexivity|]. apply trimStart_fix_head in Ht.
  destruct (is_nl c) eqn:N; [apply is_nl_ws in N; congruence | reflexivity].
Qed.

Lemma block_kept (b : string) :
  block b -> (0 <? String.length (trim b))%nat = true.
Proof.
  intros (_ & Hn & Ht). rewrite (trim_fix _ Ht). apply Nat.ltb_lt.
  destruct b; [congruence | cbn; lia].
Qed.

Lemma parts_of_blocks (bs : list string) :
  bs <> [] -> Forall block bs -> parts_of (join (NL ++ NL) bs) = bs.
Proof.
  intros Hne F. induction F as [|b bs Hb F IH]; [congruence|].
  unfold parts_of, split_blank_lines in *. destruct bs as [|b2 bs].
  - cbn [join]. destruct Hb as (Hs & Hb). rewrite (run_single _ Hs).
    cbn [filter]. now rewrite (block_kept b (conj Hs Hb)).
  - change (join (NL ++ NL) (b :: b2 :: bs))
      with (b ++ (NL ++ NL) ++ join (NL ++ NL) (b2 :: bs)).
    rewrite run_block.
    + cbn [filter]. rewrite (block_kept _ Hb). f_equal. apply IH. discriminate.
    + apply Hb.
    + inversion F as [|? ? Hb2 _]; subst.
      destruct (block_head _ Hb2) as (c & r & -> & N).
      destruct bs; cbn [join]; cbn [append]; now rewrite startsWith_NL.
Qed.

Lemma blocks_joined (bs : list string) :
  bs <> [] -> Forall block bs ->
  join (NL ++ NL) bs <> "" /\ trimmed (join (NL ++ NL) bs).
Proof.
  intros Hne F. induction F as [|b bs Hb F IH]; [congruence|].
  destruct bs as [|b2 bs]; [cbn [join]; split; apply Hb|].
  destruct IH as (In & It); [discriminate|].
  change (join (NL ++ NL) (b :: b2 :: bs))
    with (b ++ (NL ++ NL) ++ join (NL ++ NL) (b2 :: bs)).
  destruct Hb as (_ & Hn & Ht). split.
  - destruct b; [congruence | discriminate].
  - now apply trimmed_join.
Qed.

Lemma classify_same (st st' : split_state) (t : string) :
  currentFile st = currentFile st' -> currentFilename st = currentFilename st' ->
  classify st t = classify st' t.
Proof. intros E1 E2. unfold classify. now rewrite E1, E2. Qed.

Lemma stable_of_replayed (st : split_state) : replayed st -> stable (currentFile st).
Proof.
  intros (bs & Hne & F & Hj & Hf). destruct (blocks_joined bs Hne F) as (Jn & Jt).
  unfold stable. rewrite Hj. rewrite split_string by exact Jn.
  unfold split_sections. rewrite (parts_of_blocks bs Hne F), Hf.
  rewrite flush_building; cbn [currentFile fileSections]; rewrite ?Hj; auto.
Qed.

Lemma replayed_first (p : string) :
  block (trim p) ->
  replayed (split_step split_init p) /\ fileSections (split_step split_init p) = [].
Proof.
  intros Hb. rewrite (split_step_opens split_init p eq_refl eq_refl).
  split; [|reflexivity]. exists [trim p].
  split; [discriminate|]. split; [now constructor|]. split; [reflexivity|].
  cbn [fold_left]. rewrite (split_step_opens split_init (trim p) eq_refl eq_refl).
  destruct Hb as (_ & _ & Ht). now rewrite (trim_fix _ Ht).
Qed.

Lemma replayed_step (st : split_state) (p : string) :
  replayed st -> Forall stable (fileSections st) -> block (trim p) ->
  replayed (split_step st p) /\ Forall stable (fileSections (split_step st p)).
Proof.
  intros R S Hb. pose proof (stable_of_replayed st R) as Sc.
  destruct R as (bs & Hne & F & Hj & Hf).
  destruct (blocks_joined bs Hne F) as (Jn & Jt). rewrite <- Hj in Jn, Jt.
  pose proof Hb as (_ & _ & Tt).
  destruct (classify st (trim p)) eqn:C.
  - assert (E : split_step st p
                = mkSplit (flush st) (trim p)
                          (filename_or_empty (extractedFilename (trim p))))
      by (unfold split_step; now rewrite C).
    rewrite E. cbn [fileSections]. split.
    + exists [trim p]. split; [discriminate|]. split; [now constructor|].
      split; [reflexivity|]. cbn [fold_left currentFile currentFilename].
      rewrite (split_step_opens split_init (trim p) eq_refl eq_refl).
      now rewrite (trim_fix _ Tt).
    + rewrite (flush_building st Jn Jt). apply Forall_app. split; [exact S|].
      now constructor.
  - assert (N : classify st (trim p) <> NewFile) by (rewrite C; discriminate).
    rewrite (split_step_appends st p N Jn). cbn [fileSections]. split; [|exact S].
    exists (bs ++ [trim p])%list.
    split; [destruct bs; discriminate|]. split; [apply Forall_app; split; auto|].
    cbn [currentFile currentFilename]. split.
    + rewrite (join_snoc _ _ _ Hne), Hj. reflexivity.
    + rewrite fold_left_app, Hf. cbn [fold_left].
      assert (N' : classify (mkSplit [] (currentFile st) (currentFilename st))
                            (trim (trim p)) <> NewFile).
      { rewrite (trim_fix _ Tt).
        now rewrite (classify_same (mkSplit [] (currentFile st) (currentFilename st))
                             st (trim p) eq_refl eq_refl). }
      rewrite (split_step_appends _ (trim p) N' Jn).
      cbn [fileSections currentFile currentFilename]. now rewrite (trim_fix _ Tt).
  - elim (classify_with_current st (trim p) Jn C).
  - assert (N : classify st (trim p) <> NewFile) by (rewrite C; discriminate).
    rewrite (split_step_appends st p N Jn). cbn [fileSections]. split; [|exact S].
    exists (bs ++ [trim p])%list.
    split; [destruct bs; discriminate|]. split; [apply Forall_app; split; auto|].
    cbn [currentFile currentFilename]. split.
    + rewrite (join_snoc _ _ _ Hne), Hj. reflexivity.
    + rewrite fold_left_app, Hf. cbn [fold_left].
      assert (N' : classify (mkSplit [] (currentFile st) (currentFilename st))
                            (trim (trim p)) <> NewFile).
      { rewrite (trim_fix _ Tt).
        now rewrite (classify_same (mkSplit [] (currentFile st) (currentFilename st))
                             st (trim p) eq_refl eq_refl). }
      rewrite (split_step_appends _ (trim p) N' Jn).
      cbn [fileSections currentFile currentFilename]. now rewrite (trim_fix _ Tt).
Qed.

Lemma replayed_fold (ps : list string) (st : split_state) :
  replayed st -> Forall stable (fileSections st) ->
  Forall (fun p => block (trim p)) ps ->
  replayed (fold_left split_step ps st)
  /\ Forall stable (fileSections (fold_left split_step ps st)).
Proof.
  revert st; induction ps as [|p ps IH]; intros st R S F; [now split|].
  inversion F as [|? ? Hp Hps]; subst. cbn [fold_left].
  destruct (replayed_step st p R S Hp) as (R' & S'). now apply IH.
Qed.

Lemma sections_stable (text : string) :
  text <> "" -> Forall stable (split_sections text).
Proof.
  intros Hne. destruct (parts_of text) as [|p ps] eqn:P.
  - rewrite (split_sections_blank _ P). constructor; [|constructor].
    unfold stable. rewrite (split_string _ Hne). now apply split_sections_blank.
  - assert (F : Forall (fun q => block (trim q)) (p :: ps)).
    { apply Forall_forall. intros q Hq. apply (block_of_part text). now rewrite P. }
    inversion F as [|? ? Hp Hps]; subst.
    destruct (replayed_first p Hp) as (R1 & S1).
    destruct (replayed_fold ps _ R1 ltac:(rewrite S1; constructor) Hps) as (R & S).
    unfold split_sections. rewrite P. cbn [fold_left].
    set (st := fold_left split_step ps (split_step split_init p)) in *.
    pose proof (stable_of_replayed st R) as Sc.
    destruct R as (bs & Hb & Fb & Hj & _).
    destruct (blocks_joined bs Hb Fb) as (Jn & Jt). rewrite <- Hj in Jn, Jt.
    rewrite (flush_building st Jn Jt).
    replace (0 <? List.length (fileSections st ++ [currentFile st])%list)%nat with true
      by (symmetry; apply Nat.ltb_lt; rewrite length_app; cbn; lia).
    apply Forall_app. split; [exact S | now constructor].
Qed.

(** X24. Splitting is stable: every section the splitter returns, split
    again, gives that one section unchanged. *)
Theorem resplit_section (text : value) (section : string) :
  In section (splitPPTFileSections text) ->
  splitPPTFileSections (VStr section) = [section].
Proof.
  unfold splitPPTFileSections at 1.
  destruct (negb (truthy text) || negb (typeof text =? "string")) eqn:G; [intros []|].
  destruct text as [| | | |s|]; try (intros []).
  assert (Hne : s <> "").
  { intros ->. discriminate G. }
  pose proof (sections_stable s Hne) as F. rewrite Forall_forall in F. apply F.
Qed.

Lemma resplit_section_witness :
  exists a b,
    splitPPTFileSections (VStr two_files_text) = [a; b]
    /\ splitPPTFileSections (VStr a) = [a]
    /\ splitPPTFileSections (VStr b) = [b].
Proof.
  eexists. eexists. split; [vm_compute; reflexivity|]. split.
  - apply (resplit_section (VStr two_files_text)). vm_compute. left. reflexivity.
  - apply (resplit_section (VStr two_files_text)). vm_compute. right. left. reflexivity.
Defined.

(** X25. The records of a text are the records of its sections, each
    extracted on its own, in the order of the sections. *)
Theorem extract_by_section (text : string) :
  extractPPTScores (VStr text)
  = flat_map (fun section => extractPPTScores (VStr section))
             (splitPPTFileSections (VStr text)).
Proof.
  rewrite extract_string.
  assert (K : forall l, (forall section, In section l ->
                           splitPPTFileSections (VStr section) = [section]) ->
              flat_map (fun section => match section_record section with
                                       | Some r => [r]
                                       | None => []
                                       end) l
              = flat_map (fun section => extractPPTScores (VStr section)) l).
  { induction l as [|x l IH]; intros H; [reflexivity|]. cbn [flat_map].
    rewrite IH by (intros y Hy; apply H; now right).
    rewrite (extract_string x), (H x (or_introl eq_refl)). cbn [flat_map].
    now rewrite app_nil_r. }
  apply K. intros section Hin.
  destruct (String.eqb_spec text "") as [->|Hne]; [destruct Hin|].
  rewrite (split_string _ Hne) in Hin.
  pose proof (sections_stable text Hne) as F. rewrite Forall_forall in F.
  now apply F.
Qed.

End Resplit.

(** ** The score in the text reports and in the sheet *)

Module ScoreRendering.
Import JS Model Spec Vocabulary ExcelExport ExcelSheet FileDownloaders.

Section WithBuiltins.

Variable NumberToString : Q -> string.
Variable StringToNumber : string -> number.


End WithBuiltins.


End ScoreRendering.
